(* ===== verification/_CoqProject ===== *)
-Q . S2P
Prelude.v
LinkedList.v
Bitmap.v
Interrupt.v
OneThread.v
Scheduler.v
Synch.v
Machine.v
Mips.v
Disk.v
FileHdr.v
OpenFile.v
Directory.v
FileSys.v
AddrSpace.v
Polled.v
Console.v
Syscall.v
PostOffice.v
Confined.v
Calm.v
Process.v
ProcessInv.v
ProcessSpec.v
ExecSpec.v
Coff.v
FsTest.v
Execute.v
Disasm.v
ProgTest.v
Startup.v
Session.v
Stub.v
Flat.v
ThreadTest.v
NetTest.v
