(* ===== verification/Prelude.v ===== *)
(** * Nachos (melendofarias/SO): a verification development

    The repository is a student variant of Nachos: an operating system kernel
    in C++ together with the machine it runs on, simulated in the same
    process.  This library models the parts that hold the logic of both and
    proves the properties that make them correct - or, where the code falls
    short, what it does instead.

    ** The program

    The machine (src/machine) keeps simulated time: [Interrupt] holds the list
    of interrupts due in the future, and advances the clock whenever interrupts
    are enabled again, a user instruction is executed or the processor idles.
    The timer, the disk, the console and the network are devices that schedule
    such interrupts;
    [Machine] executes MIPS instructions of user programs and traps into the
    kernel.  The kernel has threads, a scheduler with three priority queues
    and synchronization objects (src/threads), a file system on the disk
    (src/filesys) and user processes: address spaces over a map of free
    frames, and system calls (src/userprog); a post office exchanges messages
    with other machines (src/network).  Lists (threads/list.h) and
    bitmaps (userprog/bitmap.cc) are used throughout.

    ** Files

    Each file models the sources named with it; the definitions keep the names
    of the C++ functions.  Code that can fail or loop is written in the state
    and error monad [M] of this file.

    - [Prelude]: the monad, C integers at their width, lemmas on lists and
      bits; threads/utility.h.
    - [LinkedList]: threads/list.h, on a store of nodes with pointers.
    - [Bitmap]: userprog/bitmap.cc, on 32-bit words.
    - [Interrupt]: machine/interrupt.cc, stats.cc, timer.cc.  The handlers of
      the devices and the thread switch are the class [Platform], with the
      laws [PlatformOK].
    - [OneThread]: semaphores and locks of threads/synch.cc as the only ready
      thread runs them, for the drivers of the disk, the console and the network;
      their worlds are instances of the classes [Sems] and [Locks].
    - [Scheduler]: threads/thread.cc, scheduler.cc; a machine of threads that
      fork, yield, sleep, finish, take interrupts and raise the priority of the
      holder of a lock; its runs name the threads that the last one drops.
    - [Synch]: threads/synch.cc; semaphores, locks with priority inheritance,
      conditions and ports, run by a step relation for any number of threads
      with any client code, time slices and device interrupts.
    - [Machine]: machine/machine.cc, translate.cc; memory, registers, page
      table and TLB.
    - [Mips]: machine/mipssim.cc; decoding and every instruction.
    - [Disk]: machine/disk.cc and filesys/synchdisk.cc.  [SectorDevice] with
      [SectorDeviceOK] is what the file system relies on: the module
      [SynchDisk] discharges it with the disk, its lock, its semaphore and its
      interrupts, the module [RamDisk] with an array of sectors.
    - [FileHdr], [OpenFile], [Directory], [FileSys]: filesys/filehdr.cc,
      openfile.cc, directory.cc, filesys.cc, over any [SectorDevice], and the
      two operations of bitmap.cc on files.
    - [AddrSpace]: userprog/addrspace.cc, bin/noff.h.  The executable is any
      file that keeps the contract of [ReadAt] ([ExeFile]): a UNIX file
      (filesys/openfile.h) or one of the Nachos file system.
    - [Polled]: what the drivers of the console and the network share.  The
      class [Polled] says what the two interrupt handlers of such a device do;
      the calls of a driver are shown to return against it.
    - [Console]: machine/console.cc and userprog/SynchConsole.cc.  [Terminal]
      with [TerminalOK] is what the system calls rely on, and [SynchConsole]
      discharges it.
    - [Syscall]: userprog/user.cc and the calls on files of
      userprog/exception.cc, over the file system and any terminal that keeps
      the laws of the class [Terminal].
    - [PostOffice]: machine/network.cc, threads/synchlist.h, network/post.cc.
    - [Process]: the process table and the calls Halt, Exec, Join and Exit of
      userprog/exception.cc, [StartProcess] there and in progtest.cc, and the
      loop of [Machine::Run], as a step relation on the state [psys] that puts
      the thread kernel of [Synch], the address spaces, the simulated machine and the files
      (the class [Files]) together.  [Confined] shows how far user code and
      the system calls on files reach, [Calm] what the steps of the thread
      kernel leave alone; [ProcessInv] has the invariant [pinv] of the whole
      and its preservation, [ProcessSpec] the theorems and a system of two
      programs that runs through all of it, [ExecSpec] the call Exec as a whole.
    - [Coff]: bin/coff2noff.c and coff.h, the converter that makes the files
      [AddrSpace] loads.
    - [FsTest]: filesys/fstest.cc; the copying and printing of files and the
      performance test, as clients of the file system.
    - [Execute]: bin/execute.c with instr.h and int.h, a second simulator of the
      processor, and the simulation that relates it to [Mips].
    - [Disasm]: bin/d.c and opstrings.c, the disassembler, against the decoder
      of [Mips].
    - [ProgTest]: [ConsoleTest] of userprog/progtest.cc, on the console device.
    - [Startup]: the command line, as [Initialize] of threads/system.cc and [main]
      of threads/main.cc read it, in every build; the choice of DEBUG messages of
      threads/utility.cc.
    - [Session]: what a command line does to the system of [Process]: [Initialize]
      and [main] together in the build with user programs and files on the
      simulated disk.
    - [Stub]: the FILESYS_STUB classes of filesys/filesys.h and openfile.h, over
      the wrappers of machine/sysdep.cc and a model of UNIX files.
    - [Flat]: bin/coff2flat.c, which makes a flat image of an executable.
    - [ThreadTest]: threads/threadtest.cc, run on the kernel of [Synch].
    - [NetTest]: network/nettest.cc, run on the post office of [PostOffice].

    ** What is shown

    - Data structures refine their abstract meaning: pointer lists are
      sequences, with no fault and no leak; bit words are finite sets; the
      directory is a finite map; an open file is an array of bytes.
    - The file system as a whole answers as a map from names to bytes, over
      any sequence of calls and across a reboot, on the simulated disk with
      its latencies and interrupts; sectors are marked exactly when a file
      owns them, so that none is lost or shared.
    - Time: the handler of every due interrupt is called, once and in the order of
      their times, idling advances the clock or halts, the
      timer keeps expiring, disk latencies are physically possible and a
      synchronous request to the disk, the console or the network returns when
      its interrupt has come.
    - Threads: one thread runs and every ready thread is in exactly one queue,
      in every reachable state, but for the threads that priority inheritance
      drops, which never run again; dispatching is by priority and first come
      first served; a user thread finds its registers and page table unchanged
      when it runs again.
    - Synchronization: locks give mutual exclusion, semaphores stay
      nonnegative, ports deliver in order, in every reachable state.
    - User programs: whatever a program executes, the simulator stays inside
      its own memory (a load or a store outside [mainMemory] is a fault of the
      model); translation reaches only frames of valid entries; spaces
      with disjoint frames are isolated, and live address spaces always have
      disjoint frames; a program is loaded as its file says; system calls on
      files do what a table of descriptors over the map of files does, and
      copy to and from the program's memory exactly the bytes named.
    - Processes: in every reachable state of the whole kernel, with any
      programs and any interleaving, the count, the table, the threads, the
      address spaces and the frames agree; a process that does not run finds
      its memory and page table as it left them; what Exec, Exit,
      Join and Halt do on every branch.
    - From the compiler to memory: the converter keeps every section of an
      object file, and a converted program finds each byte of it at its address
      once it is loaded; the converter leaves a whole file or none.
    - The two simulators of the processor do the same on the instructions and
      operands that [agrees] names, and the disassembler prints what the
      decoder decodes.
    - Network: mail that is not dropped on the wire is received as it was sent,
      by the box it is addressed to, in order.
    - Files of UNIX that fit are copied into the file system and print as they
      are, and those for which there is no room are refused (but one longer than
      [MaxFileSize] overruns the table of sectors); the performance test ends and fails on every file system.
    - The program as a whole: both readers of the command line end on every one
      and do what its words say; a command line on files answers as a map from
      names to bytes, each copy made exactly when there is room; and when it runs a user program, the system is in a state
      from which the invariants of the processes hold.
    - The stub file system is a map from names to bytes too, with the differences
      from the real one spelled out.
    - The tests of the repository: the console test echoes up to its 'q', the
      network test ends when the mail it waits for is in its boxes, and sends what
      the other machine waits for, and of the tests of
      the threads two end as they should, one writes through a wild pointer and
      one leaves threads waiting and loses a ready one.
    - Arithmetic: the multiplier is exact on all 64-bit products, ADD and SUB
      trap exactly on overflow.
    - Faults of the code, each as a theorem about what it does: the queue
      change that drops a thread, the condition that does not wait, the port
      that is freed twice, OR and SRL that compute something else, the header
      that overruns its table, the loader that shifts the data by a page,
      the system calls that overrun the kernel's arrays, the Read that
      neither stores the bytes of a file nor the newline of the terminal, the reader of an
      empty mailbox that keeps the processor, the Join that follows a null
      pointer and the Halt that frees a thread twice.

    ** Bounds and fuel

    A loop that is not structural has fuel, and running out of it is the fault
    [OutOfFuel]; no theorem assumes that it does not happen.  List loops have
    one round more than the list has nodes; [CheckIfDue_loop] one more than
    there are pending interrupts; [Sleep_loop] likewise, since each idle round
    fires an interrupt; [P_loop] of [OneThread] two rounds, since one wake-up
    suffices for one thread; [Remove_loop] of a mailbox as many as the caller
    gives: one is enough when there is mail, and none when there is none and no
    other thread runs, which a theorem states round by round; [Change_loop] as many as the queue has
    threads; [load_loop] one round for each page of the segment and the last
    test; [readStr_loop] and [special_loop] as many rounds as the array they
    fill has cells, and one more; [skip_loop] as many as main memory has
    bytes; [AssignId_loop] one more than there are descriptors, [pid_loop] one
    more than there are process identifiers; [copy_loop] and [print_loop] one
    round more than the file has bytes; [arg_loop] a round for each argument;
    [ConsoleTest_loop] one for each character up to the 'q'; [test_run] 2000
    steps, more than the longest test makes.  Integers are
    [Z] with the wrap-around of C written out ([sint], [uint]) wherever a
    value can leave its range, the counters of ticks and the times of interrupts
    aside: these are unbounded, and what happens when an [int] of ticks overflows,
    after 2^31 of them, is outside the model.

    ** Not modelled

    - In the processes: a call on files runs to completion, with no other
      process in between, and so do the reads of the disk within Exec; the
      allocator does not give the address of a deleted
      thread out again; the size of the array on the kernel's stack that Exec
      declares for the arguments.
    - Several threads at work in one driver: the disk, the console and the post
      office are run by one ready thread at a time, while [Synch] has any
      number of threads on locks, conditions and ports.
    - machine/sysdep.cc beyond files, the keyboard and the sockets; the timers,
      [Cleanup] and the handler of the user's ctl-C of threads/system.cc; the
      printing of traces and statistics: input and output of the host.
    - threads/switch.s and preemptive.cc work on the host processor itself;
      the scheduler is modelled up to and from [SWITCH].
    - The example programs under test/.
    - Under bin/: out.c, main.c, system.c and disasm.c, which rest on the
      structures and calls of headers of the host that are not in the repository
      ([Flat] takes those of bin/coff.h, which describe the same format).  In
      [Execute], the loads, stores, multiplications and traps of the two
      simulators are modelled but not compared: the memories differ, and the
      interpreter loses carries of a product. *)

From stdpp Require Export base numbers list list_numbers gmap fin_maps fin_sets strings sorting.
From Stdlib Require Export ZArith Lia.

#[export] Set Default Goal Selector "!".
#[export] Set Warnings "-clear-no-such-hyp".
#[global] Open Scope Z_scope.

(** [lia] reasons about quotients and remainders by their equations. *)
Ltac Zify.zify_post_hook ::= Z.to_euclidean_division_equations.

(** ** Faults and the error monad

    The C++ code stops in several ways that are not a return: [ASSERT] calls
    [Abort] (threads/utility.h), a null or dangling pointer is dereferenced,
    or an array is indexed out of range.  A loop that the model bounds by
    fuel adds [OutOfFuel], [Halted] is the exit of the simulator ([Cleanup],
    which never returns), and [HostTrap] the signal the host processor raises
    when a signed division overflows. *)
Inductive fault := AssertFailed | NullDeref | BadPointer | OutOfBounds | OutOfFuel | Halted | HostTrap.

Inductive res (A : Type) := Ok (a : A) | Err (f : fault).
Arguments Ok {A} _.
Arguments Err {A} _.

#[export] Instance fault_eq_dec : EqDecision fault.
Proof. solve_decision. Defined.

#[export] Instance res_eq_dec `{EqDecision A} : EqDecision (res A).
Proof. solve_decision. Defined.

#[export] Instance res_ret : MRet res := λ A a, Ok a.
#[export] Instance res_bind : MBind res := λ A B k r,
  match r with Ok a => k a | Err f => Err f end.

(** [M S A]: code that reads and writes a state [S], returns an [A] or stops. *)
Definition M (S A : Type) : Type := S → res (A * S).

#[export] Instance M_ret S : MRet (M S) := λ A a s, Ok (a, s).
#[export] Instance M_bind S : MBind (M S) := λ A B k m s,
  match m s with Ok (a, s') => k a s' | Err f => Err f end.

Definition fail {S A} (f : fault) : M S A := λ _, Err f.
Definition get {S} : M S S := λ s, Ok (s, s).
Definition gets {S A} (f : S → A) : M S A := λ s, Ok (f s, s).
Definition put {S} (s : S) : M S unit := λ _, Ok (tt, s).
Definition modify {S} (f : S → S) : M S unit := λ s, Ok (tt, f s).

(** The macro [ASSERT] of threads/utility.h. *)
Definition ASSERT {S} (condition : bool) : M S unit :=
  if condition then mret tt else fail AssertFailed.

(** A pointer that may be [NULL], dereferenced. *)
Definition deref {S A} (p : option A) : M S A :=
  match p with Some a => mret a | None => fail NullDeref end.

(** [for (int i = lo; i < lo + n; i++) body(i)], for a body that does not
    leave the loop early. *)
Fixpoint for_loop {S} (n : nat) (lo : Z) (body : Z → M S unit) : M S unit :=
  match n with
  | O => mret tt
  | S n' => body lo ≫= λ _, for_loop n' (lo + 1) body
  end.

(** Unfolding of the monad, for goals about a run from a given state. *)
Ltac unfold_M :=
  cbv beta iota delta [mbind M_bind res_bind mret M_ret res_ret
    fail get gets put modify ASSERT deref] in *.

(** The database of the lemmas that close the routine goals of the components. *)
Create HintDb nachos.

(** Inversion of a run that returned. *)
Lemma bind_Ok {S A B} (m : M S A) (f : A → M S B) s b s' :
  (m ≫= f) s = Ok (b, s') ↔ ∃ a s1, m s = Ok (a, s1) ∧ f a s1 = Ok (b, s').
Proof.
  unfold mbind, M_bind. destruct (m s) as [[a s1]|e].
  - split; [eauto|]. by intros (a' & s1' & [= -> ->] & H).
  - split; [done|]. by intros (a & s1 & H & _).
Qed.

(** A statement that runs, followed by the rest. *)
Lemma bind_run {S A B} (m : M S A) (f : A → M S B) s a s' :
  m s = Ok (a, s') → (m ≫= f) s = f a s'.
Proof. intros E. unfold mbind, M_bind. by rewrite E. Qed.

Lemma bind_err {S A B} (m : M S A) (f : A → M S B) s e : m s = Err e → (m ≫= f) s = Err e.
Proof. intros E. unfold mbind, M_bind. by rewrite E. Qed.

Lemma ASSERT_true {S} b : b = true → ∀ s : S, ASSERT b s = Ok (tt, s).
Proof. by intros ->. Qed.

Lemma ASSERT_Ok {S} b (s : S) x s' : ASSERT b s = Ok (x, s') ↔ b = true ∧ s' = s ∧ x = tt.
Proof. destruct b; cbn; unfold_M; split; naive_solver congruence. Qed.

(** [binds H] takes the run [H] of a sequence of statements apart. *)
Ltac binds H :=
  lazymatch type of H with
  | (_ ≫= _) _ = Ok _ =>
      let a := fresh "a" in let s := fresh "s" in let E := fresh "E" in
      apply bind_Ok in H as (a & s & E & H); binds E; binds H
  | ASSERT _ _ = Ok _ => apply ASSERT_Ok in H as (H & -> & ->)
  | mret _ _ = Ok _ => unfold mret, M_ret in H; first [injection H as <- <- | injection H as <-]
  | modify _ _ = Ok _ => unfold modify in H; first [injection H as <- <- | injection H as <-]
  | put _ _ = Ok _ => unfold put in H; first [injection H as <- <- | injection H as <-]
  | gets _ _ = Ok _ => unfold gets in H; first [injection H as <- <- | injection H as <-]
  | get _ = Ok _ => unfold get in H; first [injection H as <- <- | injection H as <-]
  | fail _ _ = Ok _ => discriminate H
  | _ => idtac
  end.

(** ** Relations that a computation respects

    A compositional rule for facts of the form "no operation of this group does
    that": [respects R m] says that every run of [m] stays within the preorder
    [R]. *)
Definition respects {S A} (R : relation S) (m : M S A) : Prop :=
  ∀ s a s', m s = Ok (a, s') → R s s'.

Section Respects.
Context {S : Type} (R : relation S) `{!PreOrder R}.

Lemma respects_bind {A B} (m : M S A) (f : A → M S B) :
  respects R m → (∀ a, respects R (f a)) → respects R (m ≫= f).
Proof. intros Hm Hf s b s' (a & s1 & E & E')%bind_Ok. etrans; [by eapply Hm|by eapply Hf]. Qed.

Lemma respects_ret {A} (a : A) : respects R (mret a : M S A).
Proof. intros s b s' [= <- <-]. done. Qed.
Lemma respects_fail {A} e : respects R (fail e : M S A).
Proof. by intros s b s' [=]. Qed.
Lemma respects_get : respects R get.
Proof. intros s b s' [= <- <-]. done. Qed.
Lemma respects_gets {A} (f : S → A) : respects R (gets f).
Proof. intros s b s' [= <- <-]. done. Qed.
Lemma respects_ASSERT b : respects R (ASSERT b).
Proof. intros s x s' (_ & -> & _)%ASSERT_Ok. done. Qed.
Lemma respects_deref {A} (o : option A) : respects R (deref o : M S A).
Proof. destruct o; [apply respects_ret|apply respects_fail]. Qed.
Lemma respects_for n lo (body : Z → M S unit) :
  (∀ i, respects R (body i)) → respects R (for_loop n lo body).
Proof.
  intros Hb. revert lo. induction n as [|n IH]; intros lo; cbn; [apply respects_ret|].
  apply respects_bind; auto.
Qed.

End Respects.

Create HintDb respects.
#[export] Hint Resolve respects_ret respects_fail respects_get respects_gets respects_ASSERT
  respects_deref : respects.

Ltac respects_tac :=
  repeat match goal with
  | |- ∀ _, _ => intros ?
  | |- respects _ (_ ≫= _) => apply respects_bind; [typeclasses eauto| |]
  | |- respects _ (match ?x with _ => _ end) => destruct x
  | |- respects _ (let _ := _ in _) => cbv zeta
  | |- respects _ (for_loop _ _ _) => apply respects_for; [typeclasses eauto|]
  | |- respects _ _ => solve [eauto 3 with respects typeclass_instances]
  end.

(** The rule for such a loop: an invariant indexed by the counter. *)
Lemma for_loop_inv {S} (I : Z → S → Prop) n lo (body : Z → M S unit) s :
  I lo s →
  (∀ i s, lo ≤ i < lo + Z.of_nat n → I i s → ∃ s', body i s = Ok (tt, s') ∧ I (i + 1) s') →
  ∃ s', for_loop n lo body s = Ok (tt, s') ∧ I (lo + Z.of_nat n) s'.
Proof.
  revert lo s. induction n as [|n IH]; intros lo s HI Hb.
  - exists s. split; [done|]. by rewrite Z.add_0_r.
  - destruct (Hb lo s) as (s1 & E & HI1); [lia|done|].
    destruct (IH (lo + 1) s1) as (s2 & E2 & HI2); [done| |].
    + intros i s' Hi. apply Hb. lia.
    + exists s2. cbn. unfold_M. rewrite E, E2. split; [done|].
      replace (lo + Z.of_nat (Datatypes.S n)) with (lo + 1 + Z.of_nat n) by lia. done.
Qed.

(** ** C integers

    [int] is 32 bits, two's complement; a value that leaves the range wraps.
    [/] and [%] of C truncate toward zero: [Z.quot] and [Z.rem]. *)
Definition int_min : Z := -2147483648.
Definition int_max : Z := 2147483647.
Definition uint (z : Z) : Z := z `mod` 4294967296.
Definition sint (z : Z) : Z := (z + 2147483648) `mod` 4294967296 - 2147483648.
Definition is_int (z : Z) : Prop := int_min ≤ z ≤ int_max.
Definition is_uint (z : Z) : Prop := 0 ≤ z < 4294967296.

(** threads/utility.h, [divRoundDown] and [divRoundUp]. *)
Definition divRoundDown (n s : Z) : Z := Z.quot n s.
Definition divRoundUp (n s : Z) : Z :=
  Z.quot n s + (if bool_decide (Z.rem n s > 0) then 1 else 0).

Lemma uint_testbit w k : 0 ≤ k → Z.testbit (uint w) k = bool_decide (k < 32) && Z.testbit w k.
Proof.
  intros Hk. unfold uint. change 4294967296 with (2 ^ 32).
  case_bool_decide; cbn [andb].
  - by rewrite Z.mod_pow2_bits_low.
  - by rewrite Z.mod_pow2_bits_high by lia.
Qed.

Lemma is_uint_bits w : is_uint w ↔ 0 ≤ w ∧ ∀ k, 32 ≤ k → Z.testbit w k = false.
Proof.
  unfold is_uint. change 4294967296 with (2 ^ 32). split.
  - intros [H0 H]. split; [done|]. intros k Hk.
    destruct (decide (w = 0)) as [->|]; [by rewrite Z.bits_0|].
    apply Z.bits_above_log2; [done|]. apply Z.log2_lt_pow2; [lia|].
    eapply Z.lt_le_trans; [exact H|]. by apply Z.pow_le_mono_r.
  - intros [H0 H]. split; [done|].
    destruct (decide (w = 0)) as [->|]; [lia|].
    apply Z.log2_lt_pow2; [lia|]. destruct (decide (Z.log2 w < 32)); [done|].
    exfalso. pose proof (Z.bit_log2 w ltac:(lia)) as Hb.
    rewrite H in Hb; [done|lia].
Qed.

Lemma uint_range w : is_uint (uint w).
Proof. unfold is_uint, uint. apply Z.mod_pos_bound. lia. Qed.

Lemma is_uint_lor a b : is_uint a → is_uint b → is_uint (Z.lor a b).
Proof.
  rewrite !is_uint_bits. intros [Ha Ha'] [Hb Hb']. split; [by apply Z.lor_nonneg|].
  intros k Hk. by rewrite Z.lor_spec, Ha', Hb'.
Qed.

Lemma is_uint_land_l a b : is_uint a → is_uint (Z.land a b).
Proof.
  rewrite !is_uint_bits. intros [Ha Ha']. split; [apply Z.land_nonneg; auto|].
  intros k Hk. by rewrite Z.land_spec, Ha'.
Qed.

#[export] Hint Resolve uint_range is_uint_lor is_uint_land_l : nachos.

Lemma uint_id w : is_uint w → uint w = w.
Proof. intros H. by apply Z.mod_small. Qed.

(** Signed and unsigned views of a word. *)
Lemma sint_range z : is_int (sint z).
Proof. unfold is_int, sint, int_min, int_max. lia. Qed.

Lemma uint_sint z : uint (sint z) = uint z.
Proof. unfold uint, sint. lia. Qed.

Lemma sint_uint z : sint (uint z) = sint z.
Proof. unfold uint, sint. lia. Qed.

Lemma sint_id z : is_int z → sint z = z.
Proof. unfold is_int, sint, int_min, int_max. lia. Qed.
Lemma sint_add x y : sint (sint x + y) = sint (x + y).
Proof. unfold sint. lia. Qed.

(** A single bit of a word. *)
Lemma testbit_one k j : 0 ≤ k → Z.testbit (Z.shiftl 1 k) j = bool_decide (j = k).
Proof.
  intros Hk. rewrite Z.shiftl_1_l. case_bool_decide as H.
  - subst. by apply Z.pow2_bits_true.
  - by apply Z.pow2_bits_false.
Qed.

Lemma land_one_zero w k : 0 ≤ k < 32 →
  negb (Z.land w (uint (Z.shiftl 1 k)) =? 0) = Z.testbit w k.
Proof.
  intros Hk. destruct (Z.testbit w k) eqn:E.
  - destruct (Z.eqb_spec (Z.land w (uint (Z.shiftl 1 k))) 0) as [H|]; [|done].
    exfalso. assert (Z.testbit (Z.land w (uint (Z.shiftl 1 k))) k = false) as H'.
    { by rewrite H, Z.bits_0. }
    rewrite Z.land_spec, E, uint_testbit, testbit_one in H' by lia.
    by rewrite !bool_decide_eq_true_2 in H' by lia.
  - destruct (Z.eqb_spec (Z.land w (uint (Z.shiftl 1 k))) 0) as [|H]; [done|].
    exfalso. apply H. apply Z.bits_inj'. intros j Hj.
    rewrite Z.land_spec, uint_testbit, testbit_one, Z.bits_0 by lia.
    destruct (decide (j = k)) as [->|Hjk]; [by rewrite E|].
    by rewrite (bool_decide_eq_false_2 (j = k)), !andb_false_r.
Qed.

(** ** Lists *)

Lemma filter_nil_iff {A} (P : A → Prop) `{!∀ x, Decision (P x)} l :
  filter P l = [] ↔ Forall (λ x, ¬ P x) l.
Proof.
  induction l as [|x l IH]; [done|]. rewrite filter_cons, Forall_cons.
  case_decide; [naive_solver|]. rewrite IH. naive_solver.
Qed.

Lemma filter_all {A} (P : A → Prop) `{!∀ x, Decision (P x)} l :
  Forall P l → filter P l = l.
Proof.
  induction 1 as [|x l Hx _ IH]; [done|]. by rewrite filter_cons_True, IH.
Qed.

(** Filling a list from the left with the entries of another. *)
Lemma splice_step {A} (new old : list A) (i : nat) (v : A) :
  new !! i = Some v → length old = length new →
  <[i := v]> (take i new ++ drop i old) = take (S i) new ++ drop (S i) old.
Proof.
  intros Hv Hl. pose proof (lookup_lt_Some _ _ _ Hv) as Hi.
  rewrite insert_app_r_alt by (rewrite length_take; lia).
  rewrite length_take, Nat.min_l, Nat.sub_diag by lia.
  destruct (lookup_lt_is_Some_2 old i) as [o Ho]; [lia|].
  rewrite (drop_S old o i Ho), (take_S_r new i v Hv). cbn. by rewrite <- app_assoc.
Qed.

(** One list of a list of lists, replaced. *)
Lemma concat_insert {A} (qs : list (list A)) i q : qs !! i = Some q →
  ∃ rest, concat qs ≡ₚ q ++ rest ∧ ∀ q', concat (<[i := q']> qs) ≡ₚ q' ++ rest.
Proof.
  intros Hq. pose proof (lookup_lt_Some _ _ _ Hq) as Hi.
  exists (concat (take i qs) ++ concat (drop (S i) qs)). split.
  - rewrite <- (take_drop_middle qs i q Hq) at 1. rewrite concat_app. cbn.
    by rewrite Permutation_app_swap_app.
  - intros q'. rewrite insert_take_drop by done. rewrite concat_app. cbn.
    by rewrite Permutation_app_swap_app.
Qed.

Lemma elem_of_concat_lookup {A} (qs : list (list A)) x :
  x ∈ concat qs ↔ ∃ i q, qs !! i = Some q ∧ x ∈ q.
Proof.
  induction qs as [|q qs IH]; cbn.
  - split; [intros []%not_elem_of_nil|]. by intros (i & q & H & _).
  - rewrite elem_of_app, IH. split.
    + intros [H|(i & q' & Hi & H)]; [by exists 0%nat, q|by exists (S i), q'].
    + intros ([|i] & q' & Hi & H); cbn in Hi; [left|right]; [congruence|by exists i, q'].
Qed.
