(* ===== verification/LinkedList.v ===== *)
(** * LinkedList: the singly linked list of threads/list.h

    Every queue of the kernel (ready lists, semaphore and lock waiters,
    pending interrupts, mailboxes) is a [List<Item>].  The first half of this
    file is the code of threads/list.h at the level of pointers: the nodes
    live in a store, [first], [last] and [next] are pointers that may be null,
    [new] allocates a node and [delete] frees it.  The second half gives the
    abstract list (a sequence of key/item pairs) and shows that every
    operation refines its list-level meaning, without a fault, without
    leaking a node and without leaving a dangling pointer. *)

From S2P Require Import Prelude.

Abbreviation loc := positive.

Section Code.
Context {Item : Type}.

(** class [ListElement]: the link, the sort key and the item. *)
Record ListElement := mkElement {
  e_next : option loc;
  e_key : Z;
  e_item : Item
}.

(** class [List], with the nodes it has allocated. *)
Record List := mkList {
  l_first : option loc;
  l_last : option loc;
  l_store : gmap loc ListElement
}.

Definition set_first (p : option loc) : M List unit :=
  modify (λ l, mkList p (l_last l) (l_store l)).

Definition set_last (p : option loc) : M List unit :=
  modify (λ l, mkList (l_first l) p (l_store l)).

(** [*p]: faults on a null and on a dangling pointer. *)
Definition load (p : option loc) : M List ListElement :=
  a ← deref p;
  l ← get;
  match l_store l !! a with
  | Some e => mret e
  | None => fail BadPointer
  end.

(** [p->next = q]. *)
Definition set_next (p q : option loc) : M List unit :=
  e ← load p;
  a ← deref p;
  modify (λ l, mkList (l_first l) (l_last l)
    (<[a := mkElement q (e_key e) (e_item e)]> (l_store l))).

(** [delete p]. *)
Definition free (p : option loc) : M List unit :=
  a ← deref p;
  modify (λ l, mkList (l_first l) (l_last l) (delete a (l_store l))).

(** [new ListNode(anItem, sortKey)]. *)
Definition new_ListElement (anItem : Item) (sortKey : Z) : M List (option loc) :=
  λ l, let a := fresh (dom (l_store l)) in
       Ok (Some a, mkList (l_first l) (l_last l)
                     (<[a := mkElement None sortKey anItem]> (l_store l))).

Definition new_List : List := mkList None None ∅.

Definition List_IsEmpty : M List bool :=
  gets (λ l, match l_first l with None => true | Some _ => false end).

Definition List_Append (item : Item) : M List unit :=
  element ← new_ListElement item 0;
  empty ← List_IsEmpty;
  if (empty : bool) then
    set_first element ≫= λ _, set_last element
  else
    last ← gets l_last;
    set_next last element ≫= λ _, set_last element.

Definition List_Prepend (item : Item) : M List unit :=
  element ← new_ListElement item 0;
  empty ← List_IsEmpty;
  if (empty : bool) then
    set_first element ≫= λ _, set_last element
  else
    first ← gets l_first;
    set_next element first ≫= λ _, set_first element.

(** The [for] loop of [SortedInsert]; [true] when it has linked the element
    in and returned, [false] when it ran off the end. *)
Fixpoint SortedInsert_loop (fuel : nat) (element ptr : option loc) (sortKey : Z)
    : M List bool :=
  match fuel with
  | O => fail OutOfFuel
  | S fuel' =>
      p ← load ptr;
      match e_next p with
      | None => mret false
      | Some _ =>
          n ← load (e_next p);
          if sortKey <? e_key n then
            set_next element (e_next p) ≫= λ _,
            set_next ptr element ≫= λ _, mret true
          else SortedInsert_loop fuel' element (e_next p) sortKey
      end
  end.

Definition List_SortedInsert (item : Item) (sortKey : Z) : M List unit :=
  element ← new_ListElement item sortKey;
  empty ← List_IsEmpty;
  if (empty : bool) then
    set_first element ≫= λ _, set_last element
  else
    first ← gets l_first;
    f ← load first;
    if sortKey <? e_key f then
      set_next element first ≫= λ _, set_first element
    else
      fuel ← gets (λ l, size (l_store l));
      inserted ← SortedInsert_loop fuel element first sortKey;
      if (inserted : bool) then mret tt
      else
        last ← gets l_last;
        set_next last element ≫= λ _, set_last element.

(** [SortedRemove(&key)]: [None] is the null item returned on an empty list;
    otherwise the item, with the key stored through [keyPtr]. *)
Definition List_SortedRemove : M List (option (Z * Item)) :=
  element ← gets l_first;
  empty ← List_IsEmpty;
  if (empty : bool) then mret None
  else
    f ← load element;
    last ← gets l_last;
    (if bool_decide (element = last) then
       set_first None ≫= λ _, set_last None
     else
       e ← load element;
       set_first (e_next e)) ≫= λ _,
    e ← load element;
    free element ≫= λ _,
    mret (Some (e_key e, e_item f)).

Definition List_Remove : M List (option Item) :=
  r ← List_SortedRemove;
  mret (snd <$> r).

(** [Apply(func)]: the items [func] is called on, in order. *)
Fixpoint Apply_loop (fuel : nat) (ptr : option loc) : M List (list Item) :=
  match ptr with
  | None => mret []
  | Some _ =>
      match fuel with
      | O => fail OutOfFuel
      | S fuel' =>
          e ← load ptr;
          rest ← Apply_loop fuel' (e_next e);
          mret (e_item e :: rest)
      end
  end.

Definition List_Apply : M List (list Item) :=
  first ← gets l_first;
  fuel ← gets (λ l, size (l_store l));
  Apply_loop fuel first.

(** [~List()]: remove until empty. *)
Fixpoint delete_List_loop (fuel : nat) : M List unit :=
  empty ← List_IsEmpty;
  if (empty : bool) then mret tt
  else
    match fuel with
    | O => fail OutOfFuel
    | S fuel' => List_Remove ≫= λ _, delete_List_loop fuel'
    end.

Definition delete_List : M List unit :=
  fuel ← gets (λ l, size (l_store l));
  delete_List_loop fuel.

End Code.

Arguments ListElement : clear implicits.
Arguments List : clear implicits.

(** ** The abstract list *)

Section Abstract.
Context {Item : Type}.
Implicit Types (xs : list (Z * Item)) (k : Z) (x : Item).

(** Insertion before the first element with a bigger key. *)
Fixpoint sorted_insert k x xs : list (Z * Item) :=
  match xs with
  | [] => [(k, x)]
  | (k', x') :: xs' =>
      if k <? k' then (k, x) :: xs else (k', x') :: sorted_insert k x xs'
  end.

Definition keys_sorted xs : Prop := StronglySorted Z.le xs.*1.

Lemma sorted_insert_split k x xs :
  ∃ l r, xs = l ++ r ∧ sorted_insert k x xs = l ++ (k, x) :: r ∧
         Forall (λ p, p.1 ≤ k) l ∧
         match r with [] => True | p :: _ => k < p.1 end.
Proof.
  induction xs as [|[k' x'] xs (l & r & -> & E & Hl & Hr)]; cbn.
  - by exists [], [].
  - destruct (Z.ltb_spec k k').
    + exists [], ((k', x') :: l ++ r). repeat split; auto.
    + exists ((k', x') :: l), r. rewrite E. repeat split; auto.
Qed.

Lemma sorted_insert_perm k x xs : sorted_insert k x xs ≡ₚ (k, x) :: xs.
Proof.
  destruct (sorted_insert_split k x xs) as (l & r & -> & -> & _).
  by rewrite Permutation_middle.
Qed.

Lemma sorted_insert_sorted k x xs :
  keys_sorted xs → keys_sorted (sorted_insert k x xs).
Proof.
  unfold keys_sorted. induction xs as [|[k' x'] xs IH]; cbn; intros H.
  - repeat constructor.
  - apply StronglySorted_inv in H as [Hs Hk].
    destruct (Z.ltb_spec k k'); cbn.
    + repeat constructor; auto; [lia|].
      eapply Forall_impl; [exact Hk|]. cbn. intros. lia.
    + constructor; [by apply IH|].
      rewrite (sorted_insert_perm k x xs). cbn. constructor; [lia|done].
Qed.

End Abstract.

#[export] Hint Resolve sorted_insert_sorted : nachos.

(** ** Representation *)

Section Refinement.
Context {Item : Type}.
Implicit Types (h : gmap loc (ListElement Item)) (l : List Item)
  (ls : list loc) (xs : list (Z * Item)) (p q : option loc).

(** [seg h p ls xs q]: following [next] from [p] visits exactly the nodes
    [ls], which hold [xs], and ends at [q]. *)
Fixpoint seg h p ls xs q : Prop :=
  match ls, xs with
  | [], [] => p = q
  | a :: ls', (k, x) :: xs' =>
      p = Some a ∧ ∃ n, h !! a = Some (mkElement n k x) ∧ seg h n ls' xs' q
  | _, _ => False
  end.

(** The list object [l] holds [xs]: a null-terminated chain of distinct
    nodes, [last] at its last node, and no other node allocated. *)
Definition repr l xs : Prop :=
  ∃ ls, NoDup ls ∧ seg (l_store l) (l_first l) ls xs None ∧
        l_last l = last ls ∧ dom (l_store l) = list_to_set ls.

Lemma seg_length h p ls xs q : seg h p ls xs q → length ls = length xs.
Proof.
  revert p xs. induction ls as [|a ls IH]; intros p [|[k x] xs]; cbn; try done.
  intros (_ & n & _ & H). f_equal. eauto.
Qed.

Lemma seg_app h p ls1 ls2 xs1 xs2 q :
  length ls1 = length xs1 →
  seg h p (ls1 ++ ls2) (xs1 ++ xs2) q ↔
  ∃ m, seg h p ls1 xs1 m ∧ seg h m ls2 xs2 q.
Proof.
  revert p xs1. induction ls1 as [|a ls1 IH]; intros p [|[k x] xs1]; cbn; try done.
  - intros _. split; [eauto|]. by intros (? & -> & ?).
  - intros [= Hl]. setoid_rewrite IH; [|done]. naive_solver.
Qed.

Lemma seg_insert h a e p ls xs q :
  a ∉ ls → seg h p ls xs q → seg (<[a := e]> h) p ls xs q.
Proof.
  revert p xs. induction ls as [|b ls IH]; intros p [|[k x] xs]; cbn; try done.
  intros [Hab Hin]%not_elem_of_cons (-> & n & Hb & Hs). split; [done|].
  exists n. rewrite lookup_insert_ne by congruence. eauto.
Qed.

Lemma seg_delete h a p ls xs q :
  a ∉ ls → seg h p ls xs q → seg (delete a h) p ls xs q.
Proof.
  revert p xs. induction ls as [|b ls IH]; intros p [|[k x] xs]; cbn; try done.
  intros [Hab Hin]%not_elem_of_cons (-> & n & Hb & Hs). split; [done|].
  exists n. rewrite lookup_delete_ne by congruence. eauto.
Qed.

(** The chain ends in its last node, whose link is the end pointer. *)
Lemma seg_snoc_inv h p ls xs k x q :
  seg h p ls (xs ++ [(k, x)]) q →
  ∃ ls' a, ls = ls' ++ [a] ∧ seg h p ls' xs (Some a) ∧
           h !! a = Some (mkElement q k x).
Proof.
  intros H. pose proof (seg_length _ _ _ _ _ H) as Hl.
  destruct ls as [|a ls _] using rev_ind.
  { rewrite length_app in Hl. cbn in Hl. lia. }
  exists ls, a. rewrite !length_app in Hl. cbn in Hl.
  apply seg_app in H; [|lia].
  cbn in H. naive_solver.
Qed.

Lemma seg_nil_inv h ls q p : seg h p ls [] q → ls = [] ∧ p = q.
Proof. by destruct ls. Qed.

Lemma seg_cons_inv h p ls k x xs q :
  seg h p ls ((k, x) :: xs) q →
  ∃ a ls' n, ls = a :: ls' ∧ p = Some a ∧ h !! a = Some (mkElement n k x) ∧
             seg h n ls' xs q.
Proof. destruct ls; cbn; naive_solver. Qed.

(** *** Elementary steps *)

Lemma load_ok l a e : l_store l !! a = Some e → load (Some a) l = Ok (e, l).
Proof. intros H. unfold load. unfold_M. by rewrite H. Qed.

Lemma set_next_ok l a n k x q :
  l_store l !! a = Some (mkElement n k x) →
  set_next (Some a) q l =
    Ok (tt, mkList (l_first l) (l_last l) (<[a := mkElement q k x]> (l_store l))).
Proof. intros H. unfold set_next. unfold_M. by rewrite (load_ok _ _ _ H). Qed.

Lemma fresh_not_in l ls :
  dom (l_store l) = list_to_set ls → fresh (dom (l_store l)) ∉ ls.
Proof.
  intros H Hin. apply (is_fresh (dom (l_store l))). rewrite H at 2.
  by apply elem_of_list_to_set.
Qed.

Lemma repr_size l xs : repr l xs → size (l_store l) = length xs.
Proof.
  intros (ls & Hnd & Hs & _ & Hd). rewrite <- size_dom, Hd.
  rewrite size_list_to_set by done. by eapply seg_length.
Qed.

Lemma repr_empty : repr (new_List (Item := Item)) [].
Proof. exists []. cbn. split_and!; [constructor|done|done|set_solver]. Qed.

Lemma IsEmpty_spec l xs : repr l xs →
  List_IsEmpty l = Ok (bool_decide (xs = []), l).
Proof.
  intros (ls & _ & Hs & _). unfold List_IsEmpty, gets.
  destruct xs as [|[k x] xs].
  - apply seg_nil_inv in Hs as [_ ->]. done.
  - apply seg_cons_inv in Hs as (a & ls' & n & -> & -> & _). done.
Qed.

(** The state after [new ListNode(x, k)] in a list that holds [xs]. *)
Definition alloc l (a : loc) k (x : Item) : List Item :=
  mkList (l_first l) (l_last l) (<[a := mkElement None k x]> (l_store l)).

Lemma new_ListElement_ok l xs k x : repr l xs →
  ∃ a, (a ∉ dom (l_store l)) ∧ new_ListElement x k l = Ok (Some a, alloc l a k x).
Proof. intros _. eexists. split; [apply is_fresh|done]. Qed.

Lemma repr_singleton l a k (x : Item) : repr l [] → a ∉ dom (l_store l) →
  repr (mkList (Some a) (Some a) (l_store (alloc l a k x))) [(k, x)].
Proof.
  intros (ls & _ & [-> _]%seg_nil_inv & _ & Hd) Ha. exists [a]. cbn.
  split_and!.
  - apply NoDup_singleton.
  - done.
  - exists None. by rewrite lookup_insert_eq.
  - done.
  - rewrite dom_insert_L, Hd. set_solver.
Qed.

(** [element->next = first; first = element]. *)
Lemma link_front l xs a k (x : Item) : repr l xs → xs ≠ [] → a ∉ dom (l_store l) →
  ∃ l', (set_next (Some a) (l_first l) ≫= λ _, set_first (Some a)) (alloc l a k x)
          = Ok (tt, l') ∧ repr l' ((k, x) :: xs).
Proof.
  intros (ls & Hnd & Hs & Hlast & Hd) Hne Ha. unfold set_first. unfold_M.
  erewrite set_next_ok by apply lookup_insert_eq. eexists. split; [done|].
  cbn. rewrite insert_insert_eq. exists (a :: ls). cbn.
  assert (Hin : a ∉ ls) by set_solver.
  split_and!.
  - by constructor.
  - done.
  - exists (l_first l). rewrite lookup_insert_eq.
    split; [done|]. by apply seg_insert.
  - destruct ls; [by destruct xs|done].
  - rewrite dom_insert_L, Hd. set_solver.
Qed.

(** [last->next = element; last = element]. *)
Lemma link_back l xs a k (x : Item) : repr l xs → xs ≠ [] → a ∉ dom (l_store l) →
  ∃ l', (set_next (l_last l) (Some a) ≫= λ _, set_last (Some a)) (alloc l a k x)
          = Ok (tt, l') ∧ repr l' (xs ++ [(k, x)]).
Proof.
  intros (ls & Hnd & Hs & Hlast & Hd) Hne Ha.
  destruct xs as [|[k' x'] xs _] using rev_ind; [done|].
  apply seg_snoc_inv in Hs as (ls' & b & -> & Hs & Hb).
  rewrite last_snoc in Hlast. rewrite Hlast.
  assert (a ∉ ls' ++ [b]) as Hin by set_solver.
  assert (a ≠ b) by set_solver. apply NoDup_app in Hnd as (Hnd & Hnb & _).
  assert (b ∉ ls') by (intros ?; eapply Hnb; set_solver).
  unfold set_last. unfold_M. erewrite set_next_ok; cycle 1.
  { cbn. by rewrite lookup_insert_ne. }
  eexists. split; [done|]. exists ((ls' ++ [b]) ++ [a]). cbn.
  split_and!.
  - rewrite !NoDup_app. split_and!; [done|..]; try apply NoDup_singleton; set_solver.
  - apply seg_length in Hs as Hl. apply seg_app.
    { rewrite !length_app. cbn. lia. }
    exists (Some a). cbn. split.
    + apply seg_app; [done|]. exists (Some b). split.
      * do 2 (apply seg_insert; [set_solver|]). done.
      * split; [done|]. exists (Some a). by rewrite lookup_insert_eq.
    + split; [done|]. exists None. split; [|done].
      rewrite lookup_insert_ne by done. by rewrite lookup_insert_eq.
  - by rewrite last_snoc.
  - rewrite !dom_insert_L, Hd, !list_to_set_app_L. set_solver.
Qed.

Lemma Append_refines l xs (x : Item) : repr l xs →
  ∃ l', List_Append x l = Ok (tt, l') ∧ repr l' (xs ++ [(0, x)]).
Proof.
  intros Hr. destruct (new_ListElement_ok l xs 0 x Hr) as (a & Ha & Hnew).
  pose proof (IsEmpty_spec l xs Hr) as He.
  unfold List_Append. unfold_M. rewrite Hnew.
  change (List_IsEmpty (alloc l a 0 x)) with
    (match List_IsEmpty l with Ok (b, _) => Ok (b, alloc l a 0 x) | Err f => Err f end).
  rewrite He. case_bool_decide as Hx.
  - subst xs. eexists. split; [done|]. by apply repr_singleton.
  - exact (link_back l xs a 0 x Hr Hx Ha).
Qed.

Lemma Prepend_refines l xs (x : Item) : repr l xs →
  ∃ l', List_Prepend x l = Ok (tt, l') ∧ repr l' ((0, x) :: xs).
Proof.
  intros Hr. destruct (new_ListElement_ok l xs 0 x Hr) as (a & Ha & Hnew).
  pose proof (IsEmpty_spec l xs Hr) as He.
  unfold List_Prepend. unfold_M. rewrite Hnew.
  change (List_IsEmpty (alloc l a 0 x)) with
    (match List_IsEmpty l with Ok (b, _) => Ok (b, alloc l a 0 x) | Err f => Err f end).
  rewrite He. case_bool_decide as Hx.
  - subst xs. eexists. split; [done|]. by apply repr_singleton.
  - exact (link_front l xs a 0 x Hr Hx Ha).
Qed.

(** The walk of [SortedInsert] from a node [b], with [xs2] after it: either it
    links the element in where [sorted_insert] does, or it leaves the list
    alone and the element belongs at the end. *)
Lemma SortedInsert_loop_spec fuel l a k (x : Item) ls1 xs1 b kb xb n ls2 xs2 :
  (length xs2 < fuel)%nat →
  NoDup (ls1 ++ b :: ls2) → a ∉ ls1 ++ b :: ls2 →
  l_last l = last (ls1 ++ b :: ls2) →
  dom (l_store l) = list_to_set (a :: ls1 ++ b :: ls2) →
  l_store l !! a = Some (mkElement None k x) →
  seg (l_store l) (l_first l) ls1 xs1 (Some b) →
  l_store l !! b = Some (mkElement n kb xb) →
  seg (l_store l) n ls2 xs2 None →
  (∃ l', SortedInsert_loop fuel (Some a) (Some b) k l = Ok (true, l') ∧
         repr l' (xs1 ++ (kb, xb) :: sorted_insert k x xs2)) ∨
  (SortedInsert_loop fuel (Some a) (Some b) k l = Ok (false, l) ∧
   sorted_insert k x xs2 = xs2 ++ [(k, x)]).
Proof.
  revert ls1 xs1 b kb xb n ls2 xs2.
  induction fuel as [|fuel IH]; intros ls1 xs1 b kb xb n ls2 xs2 Hf Hnd Hin Hlast Hd Ha H1 Hb H2;
    [lia|].
  cbn [SortedInsert_loop]. unfold_M. rewrite (load_ok _ _ _ Hb). cbn [e_next].
  destruct xs2 as [|[k2 x2] xs2].
  { apply seg_nil_inv in H2 as [-> ->]. right. done. }
  apply seg_cons_inv in H2 as (c & ls3 & n3 & -> & -> & Hc & H2).
  rewrite (load_ok _ _ _ Hc). cbn [e_key].
  cbn [sorted_insert]. destruct (Z.ltb_spec k k2) as [Hk|Hk].
  - left. assert (a ≠ b) by set_solver.
    rewrite (set_next_ok _ _ _ _ _ _ Ha).
    erewrite set_next_ok by (cbn; by rewrite lookup_insert_ne).
    eexists. split; [done|]. exists (ls1 ++ b :: a :: c :: ls3). cbn.
    apply NoDup_app in Hnd as (Hn1 & Hn2 & Hn3).
    split_and!.
    + apply NoDup_app. split_and!; [done|set_solver|].
      rewrite !NoDup_cons in *. set_solver.
    + apply seg_app; [by eapply seg_length|]. exists (Some b).
      apply NoDup_cons in Hn3 as [Hn3 Hn4].
      split; [do 2 (apply seg_insert; [set_solver|]); done|]. cbn.
      split; [done|]. exists (Some a). split; [by rewrite lookup_insert_eq|].
      split; [done|]. exists (Some c).
      split; [by rewrite lookup_insert_ne, lookup_insert_eq|].
      split; [done|]. exists n3. rewrite !lookup_insert_ne by set_solver.
      split; [done|]. do 2 (apply seg_insert; [set_solver|]). done.
    + rewrite Hlast. rewrite !last_app. done.
    + rewrite !dom_insert_L, Hd. set_solver.
  - rewrite (cons_middle b), app_assoc in Hnd, Hin, Hlast, Hd.
    destruct (IH (ls1 ++ [b]) (xs1 ++ [(kb, xb)]) c k2 x2 n3 ls3 xs2)
      as [(l' & E & Hr)|[E Hsi]]; auto.
    + cbn in Hf. lia.
    + apply seg_app; [by eapply seg_length|]. exists (Some b). split; [done|].
      cbn. eauto.
    + left. exists l'. split; [done|]. by rewrite <- app_assoc in Hr.
    + right. split; [done|]. cbn. by rewrite Hsi.
Qed.

Lemma SortedInsert_refines l xs k (x : Item) : repr l xs →
  ∃ l', List_SortedInsert x k l = Ok (tt, l') ∧ repr l' (sorted_insert k x xs).
Proof.
  intros Hr. destruct (new_ListElement_ok l xs k x Hr) as (a & Ha & Hnew).
  pose proof (IsEmpty_spec l xs Hr) as He.
  unfold List_SortedInsert. unfold_M. rewrite Hnew.
  change (List_IsEmpty (alloc l a k x)) with
    (match List_IsEmpty l with Ok (b, _) => Ok (b, alloc l a k x) | Err f => Err f end).
  rewrite He. case_bool_decide as Hx.
  { subst xs. eexists. split; [done|]. by apply repr_singleton. }
  destruct xs as [|[k1 x1] xs]; [done|].
  pose proof (repr_size _ _ Hr) as Hsz.
  pose proof Hr as (ls & Hnd & Hs & Hlast & Hd).
  apply seg_cons_inv in Hs as (b & ls' & n & -> & Hfirst & Hb & Hs).
  assert (Hb' : l_store (alloc l a k x) !! b = Some (mkElement n k1 x1)).
  { cbn. rewrite lookup_insert_ne; [done|]. set_solver. }
  change (l_first (alloc l a k x)) with (l_first l). rewrite Hfirst.
  rewrite (load_ok _ _ _ Hb'). cbn [e_key sorted_insert].
  destruct (Z.ltb_spec k k1) as [Hk|Hk].
  { rewrite <- Hfirst. exact (link_front l _ a k x Hr Hx Ha). }
  assert (a ∉ b :: ls') by set_solver.
  destruct (SortedInsert_loop_spec (size (l_store (alloc l a k x)))
    (alloc l a k x) a k x [] [] b k1 x1 n ls' xs) as [(l' & E & Hr')|[E Hsi]].
  - unfold alloc. cbn [l_store]. rewrite map_size_insert_None, Hsz; [cbn; lia|].
    by apply not_elem_of_dom.
  - done.
  - done.
  - done.
  - cbn. rewrite dom_insert_L, Hd. set_solver.
  - cbn. by rewrite lookup_insert_eq.
  - done.
  - done.
  - cbn. apply seg_insert; set_solver.
  - rewrite E. eauto.
  - rewrite E, Hsi. exact (link_back l _ a k x Hr Hx Ha).
Qed.

Lemma SortedRemove_refines l xs : repr l xs →
  ∃ l', List_SortedRemove l = Ok (head xs, l') ∧ repr l' (tail xs).
Proof.
  intros Hr. pose proof (IsEmpty_spec l xs Hr) as He.
  unfold List_SortedRemove. unfold_M. rewrite He.
  destruct xs as [|[k x] xs]; cbn [head tail].
  { rewrite bool_decide_eq_true_2 by done. eauto. }
  rewrite bool_decide_eq_false_2 by done. clear He.
  destruct Hr as (ls & Hnd & Hs & Hlast & Hd).
  apply seg_cons_inv in Hs as (a & ls' & n & -> & Hfirst & Ha & Hs).
  rewrite Hfirst, (load_ok _ _ _ Ha).
  apply NoDup_cons in Hnd as [Hin Hnd].
  unfold free, set_first, set_last. unfold_M.
  case_bool_decide as Heq; cbn [l_store l_first l_last].
  - assert (ls' = []) as ->.
    { destruct ls' as [|c ls']; [done|]. exfalso. rewrite Hlast in Heq.
      change (last (a :: c :: ls')) with (last (c :: ls')) in Heq.
      symmetry in Heq. apply last_Some_elem_of in Heq. done. }
    rewrite (load_ok (mkList None None (l_store l)) _ _ Ha).
    eexists. split; [done|]. exists [].
    destruct xs; [|done]. cbn. split_and!; [constructor|done|done|].
    rewrite dom_delete_L, Hd. set_solver.
  - rewrite (load_ok _ _ _ Ha). cbn [e_next].
    rewrite (load_ok (mkList n (l_last l) (l_store l)) _ _ Ha).
    eexists. split; [done|]. exists ls'. cbn. split_and!; [done|..].
    + by apply seg_delete.
    + rewrite Hlast. destruct ls'; [|done].
      rewrite Hlast in Heq. done.
    + rewrite dom_delete_L, Hd. set_solver.
Qed.

Lemma Apply_refines l xs : repr l xs → List_Apply l = Ok (xs.*2, l).
Proof.
  intros Hr. pose proof (repr_size _ _ Hr) as Hsz. destruct Hr as (ls & _ & Hs & _).
  unfold List_Apply. unfold_M. rewrite Hsz. clear Hsz.
  revert Hs. generalize (l_first l) as p. revert ls.
  induction xs as [|[k x] xs IH]; intros ls p Hs.
  - by apply seg_nil_inv in Hs as [_ ->].
  - apply seg_cons_inv in Hs as (a & ls' & n & -> & -> & Ha & Hs).
    cbn [length Apply_loop]. unfold_M. rewrite (load_ok _ _ _ Ha).
    cbn [e_next e_item]. by rewrite (IH _ _ Hs).
Qed.

Lemma Remove_refines l xs : repr l xs →
  ∃ l', List_Remove l = Ok (snd <$> head xs, l') ∧ repr l' (tail xs).
Proof.
  intros (l' & E & Hr')%SortedRemove_refines. exists l'. split; [|done].
  unfold List_Remove. unfold_M. by rewrite E.
Qed.

Lemma delete_List_refines l xs : repr l xs →
  ∃ l', delete_List l = Ok (tt, l') ∧ repr l' [].
Proof.
  intros Hr. pose proof (repr_size _ _ Hr) as Hsz.
  unfold delete_List. unfold_M. rewrite Hsz. clear Hsz. revert l Hr.
  induction xs as [|[k x] xs IH]; intros l Hr; pose proof (IsEmpty_spec _ _ Hr) as He;
    cbn [length delete_List_loop]; unfold_M; rewrite He.
  - rewrite bool_decide_eq_true_2 by done. eauto.
  - rewrite bool_decide_eq_false_2 by done.
    destruct (Remove_refines _ _ Hr) as (l' & -> & Hr'). eauto.
Qed.

(** *** Runs of operations *)

(** A call of a public method of [List]. *)
Inductive list_call :=
  | CAppend (x : Item) | CPrepend (x : Item) | CRemove | CApply | CIsEmpty
  | CSortedInsert (x : Item) (k : Z) | CSortedRemove.

Inductive list_result :=
  | RUnit | RBool (b : bool) | RItem (o : option Item)
  | RKeyed (o : option (Z * Item)) | RItems (its : list Item).

(** The call executed by the code. *)
Definition run_call (c : list_call) : M (List Item) list_result :=
  match c with
  | CAppend x => List_Append x ≫= λ _, mret RUnit
  | CPrepend x => List_Prepend x ≫= λ _, mret RUnit
  | CRemove => List_Remove ≫= λ o, mret (RItem o)
  | CApply => List_Apply ≫= λ its, mret (RItems its)
  | CIsEmpty => List_IsEmpty ≫= λ b, mret (RBool b)
  | CSortedInsert x k => List_SortedInsert x k ≫= λ _, mret RUnit
  | CSortedRemove => List_SortedRemove ≫= λ o, mret (RKeyed o)
  end.

(** The call on the abstract list. *)
Definition spec_call (c : list_call) xs : list_result * list (Z * Item) :=
  match c with
  | CAppend x => (RUnit, xs ++ [(0, x)])
  | CPrepend x => (RUnit, (0, x) :: xs)
  | CRemove => (RItem (snd <$> head xs), tail xs)
  | CApply => (RItems xs.*2, xs)
  | CIsEmpty => (RBool (bool_decide (xs = [])), xs)
  | CSortedInsert x k => (RUnit, sorted_insert k x xs)
  | CSortedRemove => (RKeyed (head xs), tail xs)
  end.

Fixpoint run_calls (cs : list list_call) : M (List Item) (list list_result) :=
  match cs with
  | [] => mret []
  | c :: cs' => r ← run_call c; rs ← run_calls cs'; mret (r :: rs)
  end.

Fixpoint spec_calls (cs : list list_call) xs : list list_result * list (Z * Item) :=
  match cs with
  | [] => ([], xs)
  | c :: cs' =>
      let '(r, xs1) := spec_call c xs in
      let '(rs, xs2) := spec_calls cs' xs1 in (r :: rs, xs2)
  end.

Lemma run_call_refines c l xs : repr l xs →
  ∃ l', run_call c l = Ok ((spec_call c xs).1, l') ∧ repr l' (spec_call c xs).2.
Proof.
  intros Hr. destruct c; cbn [run_call spec_call fst snd]; unfold_M.
  - destruct (Append_refines l xs x Hr) as (l' & -> & ?). eauto.
  - destruct (Prepend_refines l xs x Hr) as (l' & -> & ?). eauto.
  - destruct (Remove_refines l xs Hr) as (l' & -> & ?). eauto.
  - rewrite (Apply_refines l xs Hr). eauto.
  - rewrite (IsEmpty_spec l xs Hr). eauto.
  - destruct (SortedInsert_refines l xs k x Hr) as (l' & -> & ?). eauto.
  - destruct (SortedRemove_refines l xs Hr) as (l' & -> & ?). eauto.
Qed.

Lemma run_calls_refines cs l xs : repr l xs →
  ∃ l', run_calls cs l = Ok ((spec_calls cs xs).1, l') ∧ repr l' (spec_calls cs xs).2.
Proof.
  revert l xs. induction cs as [|c cs IH]; intros l xs Hr; cbn; unfold_M; [eauto|].
  destruct (run_call_refines c l xs Hr) as (l1 & -> & Hr1).
  destruct (spec_call c xs) as [r xs1]. cbn in *.
  destruct (IH _ _ Hr1) as (l2 & -> & Hr2).
  destruct (spec_calls cs xs1) as [rs xs2]. cbn in *. eauto.
Qed.

End Refinement.

Arguments list_call : clear implicits.
Arguments list_result : clear implicits.

(** C11: from an empty list, any sequence of calls of the methods of [List]
    runs to its end without a null or dangling dereference, returns what the
    abstract list returns call by call, leaves a representation of the
    abstract list, and its destructor then frees every node. *)
Theorem List_refines_sequence (Item : Type) (cs : list (list_call Item)) :
  ∃ l l', run_calls cs new_List = Ok ((spec_calls cs []).1, l) ∧
          repr l (spec_calls cs []).2 ∧
          delete_List l = Ok (tt, l') ∧ l_store l' = ∅ ∧ l_first l' = None.
Proof.
  destruct (run_calls_refines cs new_List [] repr_empty) as (l & E & Hr).
  destruct (delete_List_refines _ _ Hr) as (l' & Hdel & (ls & _ & Hs & _ & Hd)).
  apply seg_nil_inv in Hs as [-> Hs]. exists l, l'. split_and!; auto.
  by apply dom_empty_inv_L.
Qed.

(** [SortedInsert] into a list in key order keeps it in key order, adds
    exactly the new element, and puts it after the elements of an equal key
    (so [SortedRemove] takes equal keys first in, first out) and before every
    bigger one. *)
Theorem SortedInsert_sorted_stable (Item : Type) (l : List Item) xs k x :
  repr l xs → keys_sorted xs →
  ∃ l' before after,
    List_SortedInsert x k l = Ok (tt, l') ∧
    repr l' (before ++ (k, x) :: after) ∧ xs = before ++ after ∧
    keys_sorted (before ++ (k, x) :: after) ∧
    Forall (λ p, p.1 ≤ k) before ∧ Forall (λ p, k < p.1) after.
Proof.
  intros Hr Hs. destruct (SortedInsert_refines l xs k x Hr) as (l' & E & Hr').
  destruct (sorted_insert_split k x xs) as (b & a & Hxs & Hi & Hb & Ha).
  exists l', b, a. rewrite Hi in Hr'. rewrite <- Hi.
  split_and!; auto with nachos; [by rewrite Hi|].
  subst xs. unfold keys_sorted in Hs. rewrite fmap_app in Hs.
  destruct a as [|[k' x'] a]; [done|].
  apply StronglySorted_app_1_r in Hs. cbn in Hs.
  apply StronglySorted_inv in Hs as [_ Hs].
  constructor; [done|]. rewrite Forall_fmap in Hs.
  eapply Forall_impl; [exact Hs|]. cbn in *. intros p ?. lia.
Qed.

Lemma SortedInsert_sorted_stable_witness :
  ∃ l' before after,
    List_SortedInsert true 5
      (mkList (Some 1%positive) (Some 1%positive) {[1%positive := mkElement None 5 false]})
      = Ok (tt, l') ∧
    repr l' (before ++ (5, true) :: after) ∧ [(5, false)] = before ++ after ∧
    keys_sorted (before ++ (5, true) :: after) ∧
    Forall (λ p, p.1 ≤ 5) before ∧ Forall (λ p, 5 < p.1) after.
Proof.
  apply (SortedInsert_sorted_stable bool _ [(5, false)] 5 true).
  - exists [1%positive]. split_and!; [apply NoDup_singleton| |done|vm_compute; reflexivity].
    cbn. split; [done|]. exists None. split; vm_compute; reflexivity.
  - repeat constructor.
Defined.
