(* ===== verification/Bitmap.v ===== *)
(** * Bitmap: the bit array of userprog/bitmap.cc

    The free map of the disk and the map of physical pages are [BitMap]s: an
    array of 32-bit words, one bit per item.  The code is given on the words;
    [bits_of] abstracts it to the finite set of marked bits, and every
    operation is shown to be the corresponding set operation. *)

From S2P Require Import Prelude.

Definition BitsInByte : Z := 8.
Definition BitsInWord : Z := 32.

(** class [BitMap]. *)
Record BitMap := mkBitMap {
  numBits : Z;
  numWords : Z;
  bmap : list Z
}.

(** [map[n]] and [map[n] = w]. *)
Definition map_read (n : Z) : M BitMap Z :=
  b ← get;
  match (if n <? 0 then None else bmap b !! Z.to_nat n) with
  | Some w => mret w
  | None => fail OutOfBounds
  end.

Definition map_write (n w : Z) : M BitMap unit :=
  map_read n ≫= λ _,
  modify (λ b, mkBitMap (numBits b) (numWords b) (<[Z.to_nat n := w]> (bmap b))).

Definition in_range (which : Z) : M BitMap unit :=
  b ← get; ASSERT ((0 <=? which) && (which <? numBits b)).

Definition BitMap_Mark (which : Z) : M BitMap unit :=
  in_range which ≫= λ _,
  w ← map_read (Z.quot which BitsInWord);
  map_write (Z.quot which BitsInWord)
    (Z.lor w (uint (Z.shiftl 1 (Z.rem which BitsInWord)))).

Definition BitMap_Clear (which : Z) : M BitMap unit :=
  in_range which ≫= λ _,
  w ← map_read (Z.quot which BitsInWord);
  map_write (Z.quot which BitsInWord)
    (Z.land w (uint (Z.lnot (Z.shiftl 1 (Z.rem which BitsInWord))))).

Definition BitMap_Test (which : Z) : M BitMap bool :=
  in_range which ≫= λ _,
  w ← map_read (Z.quot which BitsInWord);
  mret (negb (Z.land w (uint (Z.shiftl 1 (Z.rem which BitsInWord))) =? 0)).

(** The constructor; [junk] is what the memory returned by [new] holds. *)
Definition new_BitMap (junk : Z → Z) (nitems : Z) : res BitMap :=
  let words := divRoundUp nitems BitsInWord in
  r ← for_loop (Z.to_nat nitems) 0 BitMap_Clear
        (mkBitMap nitems words (junk <$> seqZ 0 words));
  mret r.2.

(** [for (i = lo; i < numBits; i++) if (!Test(i)) { Mark(i); return i; }]. *)
Fixpoint Find_loop (n : nat) (i : Z) : M BitMap Z :=
  match n with
  | O => mret (-1)
  | S n' =>
      t ← BitMap_Test i;
      if negb t then BitMap_Mark i ≫= λ _, mret i else Find_loop n' (i + 1)
  end.

Definition BitMap_Find : M BitMap Z :=
  b ← get; Find_loop (Z.to_nat (numBits b)) 0.

Fixpoint NumClear_loop (n : nat) (i count : Z) : M BitMap Z :=
  match n with
  | O => mret count
  | S n' =>
      t ← BitMap_Test i;
      NumClear_loop n' (i + 1) (if negb t then count + 1 else count)
  end.

Definition BitMap_NumClear : M BitMap Z :=
  b ← get; NumClear_loop (Z.to_nat (numBits b)) 0 0.

(** [Print]: the numbers printed, in order. *)
Fixpoint Print_loop (n : nat) (i : Z) : M BitMap (list Z) :=
  match n with
  | O => mret []
  | S n' =>
      t ← BitMap_Test i;
      rest ← Print_loop n' (i + 1);
      mret (if (t : bool) then i :: rest else rest)
  end.

Definition BitMap_Print : M BitMap (list Z) :=
  b ← get; Print_loop (Z.to_nat (numBits b)) 0.

(** ** Abstraction *)

(** The [i]-th bit of the words. *)
Definition bit (b : BitMap) (i : Z) : bool :=
  match bmap b !! Z.to_nat (i `div` 32) with
  | Some w => Z.testbit w (i `mod` 32)
  | None => false
  end.

Definition bits_of (b : BitMap) : gset Z :=
  list_to_set (filter (λ i, bit b i = true) (seqZ 0 (numBits b))).

(** Shape of a bitmap between operations. *)
Record bitmap_wf (b : BitMap) : Prop := {
  wf_bits : 0 ≤ numBits b;
  wf_words : numWords b = divRoundUp (numBits b) 32;
  wf_len : Z.of_nat (length (bmap b)) = numWords b;
  wf_uint : Forall is_uint (bmap b)
}.

Lemma elem_of_bits b i : i ∈ bits_of b ↔ 0 ≤ i < numBits b ∧ bit b i = true.
Proof.
  unfold bits_of. rewrite elem_of_list_to_set, list_elem_of_filter, elem_of_seqZ.
  intuition lia.
Qed.


(** *** One word of the map *)

Lemma map_read_ok b i : bitmap_wf b → 0 ≤ i < numBits b →
  ∃ w, bmap b !! Z.to_nat (i `div` 32) = Some w ∧ is_uint w ∧
       map_read (Z.quot i BitsInWord) b = Ok (w, b).
Proof.
  intros [Hb Hw Hl Hu] Hi. unfold divRoundUp in Hw. rewrite Z.quot_div_nonneg, Z.rem_mod_nonneg in Hw by lia.
  destruct (lookup_lt_is_Some_2 (bmap b) (Z.to_nat (i `div` 32))) as [w Ew].
  { apply Nat2Z.inj_lt. rewrite Hl, Hw, Z2Nat.id by (apply Z.div_pos; lia).
    destruct (decide (numBits b `mod` 32 > 0)) as [H|H].
    - rewrite bool_decide_eq_true_2 by done. Z.div_mod_to_equations. lia.
    - rewrite bool_decide_eq_false_2 by done. Z.div_mod_to_equations. lia. }
  exists w. split_and!; [done|by eapply Forall_lookup_1|].
  unfold map_read, BitsInWord. unfold_M. rewrite Z.quot_div_nonneg by lia.
  destruct (Z.ltb_spec (i `div` 32) 0); [Z.div_mod_to_equations; lia|]. by rewrite Ew.
Qed.

Definition set_word (b : BitMap) (n : nat) (w : Z) : BitMap :=
  mkBitMap (numBits b) (numWords b) (<[n := w]> (bmap b)).

Lemma set_word_wf b n w : bitmap_wf b → is_uint w → bitmap_wf (set_word b n w).
Proof.
  intros [Hb Hw Hl Hu] H. split; cbn; try done.
  - by rewrite length_insert.
  - by apply Forall_insert.
Qed.

Lemma map_write_ok b i w : bitmap_wf b → 0 ≤ i < numBits b →
  map_write (Z.quot i BitsInWord) w b = Ok (tt, set_word b (Z.to_nat (i `div` 32)) w).
Proof.
  intros Hwf Hi. destruct (map_read_ok b i Hwf Hi) as (w' & _ & _ & E).
  unfold map_write. unfold_M. rewrite E. unfold set_word, BitsInWord.
  by rewrite Z.quot_div_nonneg by lia.
Qed.

(** A word whose bit [i mod 32] alone is changed changes bit [i] alone. *)
Lemma bit_set_word b i j w w' v : bitmap_wf b → 0 ≤ i < numBits b → 0 ≤ j →
  bmap b !! Z.to_nat (i `div` 32) = Some w →
  (∀ k, 0 ≤ k < 32 → Z.testbit w' k = if bool_decide (k = i `mod` 32) then v else Z.testbit w k) →
  bit (set_word b (Z.to_nat (i `div` 32)) w') j = if bool_decide (j = i) then v else bit b j.
Proof.
  intros Hwf Hi Hj Hw Hb. unfold bit. cbn.
  assert (0 ≤ j `mod` 32 < 32) by (apply Z.mod_pos_bound; lia).
  assert (0 ≤ j `div` 32) by (apply Z.div_pos; lia).
  assert (0 ≤ i `div` 32) by (apply Z.div_pos; lia).
  destruct (decide (j `div` 32 = i `div` 32)) as [Heq|Hne].
  - rewrite Heq, list_lookup_insert_eq by (by eapply lookup_lt_Some).
    rewrite Hb, Hw by done.
    destruct (decide (j = i)) as [->|Hji].
    + by rewrite !bool_decide_eq_true_2.
    + rewrite !bool_decide_eq_false_2; [done|done|].
      intros Hm. apply Hji. rewrite (Z.div_mod j 32), (Z.div_mod i 32) by lia. congruence.
  - rewrite list_lookup_insert_ne by lia.
    rewrite bool_decide_eq_false_2; [done|]. by intros ->.
Qed.

Lemma in_range_ok b i : 0 ≤ i < numBits b → in_range i b = Ok (tt, b).
Proof.
  intros Hi. unfold in_range. unfold_M.
  by destruct (Z.leb_spec 0 i), (Z.ltb_spec i (numBits b)); try lia.
Qed.

Lemma in_range_fault b i : ¬ (0 ≤ i < numBits b) → in_range i b = Err AssertFailed.
Proof.
  intros Hi. unfold in_range. unfold_M.
  by destruct (Z.leb_spec 0 i), (Z.ltb_spec i (numBits b)); try lia.
Qed.

(** *** The operations, bit by bit *)

Lemma Test_ok b i : bitmap_wf b → 0 ≤ i < numBits b →
  BitMap_Test i b = Ok (bit b i, b).
Proof.
  intros Hwf Hi. destruct (map_read_ok b i Hwf Hi) as (w & Ew & _ & Er).
  unfold BitMap_Test. unfold_M. rewrite in_range_ok, Er by done.
  unfold BitsInWord, bit. rewrite Z.rem_mod_nonneg, land_one_zero, Ew by lia.
  done.
Qed.

Lemma Mark_ok b i : bitmap_wf b → 0 ≤ i < numBits b →
  ∃ b', BitMap_Mark i b = Ok (tt, b') ∧ bitmap_wf b' ∧ numBits b' = numBits b ∧
        ∀ j, 0 ≤ j → bit b' j = if bool_decide (j = i) then true else bit b j.
Proof.
  intros Hwf Hi. destruct (map_read_ok b i Hwf Hi) as (w & Ew & Hu & Er).
  unfold BitMap_Mark. unfold_M. rewrite in_range_ok, Er, map_write_ok by done.
  eexists. split_and!; [done|apply set_word_wf; auto with nachos|done|].
  intros j Hj. eapply bit_set_word; try done. intros k Hk. unfold BitsInWord.
  rewrite Z.rem_mod_nonneg, Z.lor_spec, uint_testbit, testbit_one by (try apply Z.mod_pos_bound; lia).
  rewrite (bool_decide_eq_true_2 (k < 32)) by lia. cbn.
  case_bool_decide; [by rewrite orb_true_r|by rewrite orb_false_r].
Qed.

Lemma Clear_ok b i : bitmap_wf b → 0 ≤ i < numBits b →
  ∃ b', BitMap_Clear i b = Ok (tt, b') ∧ bitmap_wf b' ∧ numBits b' = numBits b ∧
        ∀ j, 0 ≤ j → bit b' j = if bool_decide (j = i) then false else bit b j.
Proof.
  intros Hwf Hi. destruct (map_read_ok b i Hwf Hi) as (w & Ew & Hu & Er).
  unfold BitMap_Clear. unfold_M. rewrite in_range_ok, Er, map_write_ok by done.
  eexists. split_and!; [done|apply set_word_wf; auto with nachos|done|].
  intros j Hj. eapply bit_set_word; try done. intros k Hk. unfold BitsInWord.
  rewrite Z.rem_mod_nonneg, Z.land_spec, uint_testbit, Z.lnot_spec, testbit_one
    by (try apply Z.mod_pos_bound; lia).
  rewrite (bool_decide_eq_true_2 (k < 32)) by lia. cbn.
  case_bool_decide; [by rewrite andb_false_r|by rewrite andb_true_r].
Qed.

(** *** The operations, as operations on the set of marked bits *)

Lemma bits_of_marked b b' i : 0 ≤ i < numBits b → numBits b' = numBits b →
  (∀ j, 0 ≤ j → bit b' j = if bool_decide (j = i) then true else bit b j) →
  bits_of b' = {[i]} ∪ bits_of b.
Proof.
  intros Hi Hn Hb. apply set_eq. intros j.
  rewrite elem_of_union, elem_of_singleton, !elem_of_bits, Hn. split.
  - intros [Hj H]. rewrite Hb in H by lia. case_bool_decide; auto.
  - intros [->|[Hj H]]; (split; [lia|]); rewrite Hb by lia; case_bool_decide; done.
Qed.

Lemma bits_of_cleared b b' i : 0 ≤ i < numBits b → numBits b' = numBits b →
  (∀ j, 0 ≤ j → bit b' j = if bool_decide (j = i) then false else bit b j) →
  bits_of b' = bits_of b ∖ {[i]}.
Proof.
  intros Hi Hn Hb. apply set_eq. intros j.
  rewrite elem_of_difference, elem_of_singleton, !elem_of_bits, Hn. split.
  - intros [Hj H]. rewrite Hb in H by lia. case_bool_decide; [done|]. auto.
  - intros [[Hj H] Hne]. split; [lia|]. rewrite Hb by lia. case_bool_decide; done.
Qed.

Lemma Mark_set b i : bitmap_wf b → 0 ≤ i < numBits b →
  ∃ b', BitMap_Mark i b = Ok (tt, b') ∧ bitmap_wf b' ∧ numBits b' = numBits b ∧
        bits_of b' = {[i]} ∪ bits_of b.
Proof.
  intros Hwf Hi. destruct (Mark_ok b i Hwf Hi) as (b' & E & Hwf' & Hn & Hb).
  eauto 10 using bits_of_marked.
Qed.

Lemma Clear_set b i : bitmap_wf b → 0 ≤ i < numBits b →
  ∃ b', BitMap_Clear i b = Ok (tt, b') ∧ bitmap_wf b' ∧ numBits b' = numBits b ∧
        bits_of b' = bits_of b ∖ {[i]}.
Proof.
  intros Hwf Hi. destruct (Clear_ok b i Hwf Hi) as (b' & E & Hwf' & Hn & Hb).
  eauto 10 using bits_of_cleared.
Qed.

Lemma Test_set b i : bitmap_wf b → 0 ≤ i < numBits b →
  BitMap_Test i b = Ok (bool_decide (i ∈ bits_of b), b).
Proof.
  intros Hwf Hi. rewrite Test_ok by done. repeat f_equal.
  destruct (bit b i) eqn:E; case_bool_decide as H; rewrite elem_of_bits in H; naive_solver.
Qed.

Lemma Find_loop_spec n i b : bitmap_wf b → 0 ≤ i → i + Z.of_nat n = numBits b →
  (Find_loop n i b = Ok (-1, b) ∧ ∀ j, i ≤ j < numBits b → j ∈ bits_of b) ∨
  ∃ r b', Find_loop n i b = Ok (r, b') ∧ i ≤ r < numBits b ∧ (r ∉ bits_of b) ∧
    (∀ j, i ≤ j < r → j ∈ bits_of b) ∧ bitmap_wf b' ∧ numBits b' = numBits b ∧
    bits_of b' = {[r]} ∪ bits_of b.
Proof.
  revert i. induction n as [|n IH]; intros i Hwf Hi Hn; cbn [Find_loop].
  { left. split; [done|]. lia. }
  unfold_M. rewrite Test_set by (auto; lia). case_bool_decide as Hin; cbn [negb].
  - destruct (IH (i + 1)) as [[E Hall]|(r & b' & E & Hr & Hnin & Hall & H)];
      [done|lia|lia|..].
    + left. split; [done|]. intros j Hj. destruct (decide (j = i)) as [->|]; [done|].
      apply Hall. lia.
    + right. exists r, b'. split_and!; try apply H; try done; try lia.
      intros j Hj. destruct (decide (j = i)) as [->|]; [done|]. apply Hall. lia.
  - right. destruct (Mark_set b i) as (b' & -> & H); [done|lia|].
    exists i, b'. split_and!; try apply H; try done; lia.
Qed.

Lemma bits_of_subset b : bits_of b ⊆ list_to_set (seqZ 0 (numBits b)).
Proof. intros i. rewrite elem_of_bits, elem_of_list_to_set, elem_of_seqZ. lia. Qed.

Lemma bits_of_size b : 0 ≤ numBits b → Z.of_nat (size (bits_of b)) ≤ numBits b.
Proof.
  intros Hb. pose proof (subseteq_size _ _ (bits_of_subset b)) as H.
  rewrite size_list_to_set, length_seqZ in H by apply NoDup_seqZ. lia.
Qed.

(** [Find] by cases: no clear bit, or the least one. *)
Lemma Find_cases b : bitmap_wf b →
  (BitMap_Find b = Ok (-1, b) ∧ ∀ j, 0 ≤ j < numBits b → j ∈ bits_of b) ∨
  ∃ r b', BitMap_Find b = Ok (r, b') ∧ 0 ≤ r < numBits b ∧ (r ∉ bits_of b) ∧
    (∀ j, 0 ≤ j < r → j ∈ bits_of b) ∧ bitmap_wf b' ∧ numBits b' = numBits b ∧
    bits_of b' = {[r]} ∪ bits_of b.
Proof.
  intros Hwf. pose proof (wf_bits _ Hwf).
  apply (Find_loop_spec (Z.to_nat (numBits b)) 0 b Hwf); lia.
Qed.

Lemma NumClear_loop_spec n i c b : bitmap_wf b → 0 ≤ i → i + Z.of_nat n = numBits b →
  NumClear_loop n i c b =
    Ok (c + Z.of_nat (length (filter (λ j, j ∉ bits_of b) (seqZ i (Z.of_nat n)))), b).
Proof.
  revert i c. induction n as [|n IH]; intros i c Hwf Hi Hn; cbn [NumClear_loop].
  { cbn. by rewrite Z.add_0_r. }
  unfold_M. rewrite Test_set by (auto; lia). rewrite IH by (auto; lia).
  rewrite (seqZ_cons i) by lia. replace (Z.pred (Z.of_nat (S n))) with (Z.of_nat n) by lia.
  rewrite filter_cons. unfold Z.succ.
  case_bool_decide; case_decide; try done; cbn [negb]; do 2 f_equal; cbn [length]; lia.
Qed.

Lemma count_clear b : 0 ≤ numBits b →
  Z.of_nat (length (filter (λ j, j ∉ bits_of b) (seqZ 0 (numBits b))))
  = numBits b - Z.of_nat (size (bits_of b)).
Proof.
  intros Hb.
  assert (Hs : list_to_set (filter (λ j, j ∉ bits_of b) (seqZ 0 (numBits b)))
               =@{gset Z} list_to_set (seqZ 0 (numBits b)) ∖ bits_of b).
  { apply set_eq. intros j.
    rewrite elem_of_difference, !elem_of_list_to_set, list_elem_of_filter. tauto. }
  apply (f_equal size) in Hs.
  rewrite size_list_to_set in Hs by apply NoDup_filter, NoDup_seqZ.
  rewrite size_difference, size_list_to_set, length_seqZ in Hs
    by (apply NoDup_seqZ || apply bits_of_subset).
  pose proof (bits_of_size b Hb). lia.
Qed.

Lemma NumClear_spec b : bitmap_wf b →
  BitMap_NumClear b = Ok (numBits b - Z.of_nat (size (bits_of b)), b).
Proof.
  intros Hwf. pose proof (wf_bits _ Hwf). unfold BitMap_NumClear. unfold_M.
  rewrite NumClear_loop_spec by (auto; lia).
  rewrite Z2Nat.id by done. by rewrite count_clear, Z.add_0_l.
Qed.

Lemma Print_loop_spec n i b : bitmap_wf b → 0 ≤ i → i + Z.of_nat n = numBits b →
  Print_loop n i b = Ok (filter (λ j, j ∈ bits_of b) (seqZ i (Z.of_nat n)), b).
Proof.
  revert i. induction n as [|n IH]; intros i Hwf Hi Hn; cbn [Print_loop]; [done|].
  unfold_M. rewrite Test_set by (auto; lia). rewrite IH by (auto; lia).
  rewrite (seqZ_cons i) by lia. replace (Z.pred (Z.of_nat (S n))) with (Z.of_nat n) by lia.
  rewrite filter_cons. unfold Z.succ. by case_bool_decide; case_decide.
Qed.

Lemma clear_loop_spec n i b : bitmap_wf b → 0 ≤ i → i + Z.of_nat n = numBits b →
  ∃ b', for_loop n i BitMap_Clear b = Ok (tt, b') ∧ bitmap_wf b' ∧
        numBits b' = numBits b ∧ bits_of b' = filter (λ j, j < i) (bits_of b).
Proof.
  revert i b. induction n as [|n IH]; intros i b Hwf Hi Hn; cbn [for_loop].
  { exists b. split_and!; try done. apply set_eq. intros j.
    rewrite elem_of_filter, elem_of_bits. intuition lia. }
  unfold_M. destruct (Clear_set b i) as (b1 & -> & Hwf1 & Hn1 & Hb1); [done|lia|].
  destruct (IH (i + 1) b1) as (b' & -> & Hwf' & Hn' & Hb'); [done|lia|lia|].
  exists b'. split_and!; try done; [lia|]. rewrite Hb', Hb1. apply set_eq. intros j.
  rewrite !elem_of_filter, elem_of_difference, elem_of_singleton. intuition lia.
Qed.

Lemma divRoundUp_nonneg n s : 0 ≤ n → 0 < s → 0 ≤ divRoundUp n s.
Proof.
  intros Hn Hs. unfold divRoundUp. pose proof (Z.quot_pos n s).
  case_bool_decide; lia.
Qed.

Lemma new_BitMap_spec junk n : 0 ≤ n → (∀ i, is_uint (junk i)) →
  ∃ b, new_BitMap junk n = Ok b ∧ bitmap_wf b ∧ numBits b = n ∧ bits_of b = ∅.
Proof.
  intros Hn Hj. unfold new_BitMap. unfold_M.
  destruct (clear_loop_spec (Z.to_nat n) 0
    (mkBitMap n (divRoundUp n BitsInWord) (junk <$> seqZ 0 (divRoundUp n BitsInWord))))
    as (b & -> & Hwf & Hb & He); [|lia|cbn; lia|].
  - split; cbn; try done.
    + rewrite length_fmap, length_seqZ. pose proof (divRoundUp_nonneg n BitsInWord).
      unfold BitsInWord in *. lia.
    + apply Forall_fmap, Forall_true. done.
  - exists b. split_and!; try done. rewrite He. apply set_eq. intros j.
    rewrite elem_of_filter, elem_of_bits. set_solver by lia.
Qed.

(** C28: a new bitmap of [n] bits, whatever the memory it gets, is the empty
    set; [Mark], [Clear] and [Test] of a bit in range add it, remove it and
    tell whether it is there and touch no other bit; out of range each of them
    stops at its assertion; [NumClear] counts the bits not in the set. *)
Theorem BitMap_refines_set :
  (∀ junk n, 0 ≤ n → (∀ i, is_uint (junk i)) →
     ∃ b, new_BitMap junk n = Ok b ∧ bitmap_wf b ∧ numBits b = n ∧ bits_of b = ∅) ∧
  ∀ b, bitmap_wf b →
    (∀ i, 0 ≤ i < numBits b →
       (∃ b', BitMap_Mark i b = Ok (tt, b') ∧ bitmap_wf b' ∧ numBits b' = numBits b ∧
              bits_of b' = {[i]} ∪ bits_of b) ∧
       (∃ b', BitMap_Clear i b = Ok (tt, b') ∧ bitmap_wf b' ∧ numBits b' = numBits b ∧
              bits_of b' = bits_of b ∖ {[i]}) ∧
       BitMap_Test i b = Ok (bool_decide (i ∈ bits_of b), b)) ∧
    (∀ i, ¬ (0 ≤ i < numBits b) →
       BitMap_Mark i b = Err AssertFailed ∧ BitMap_Clear i b = Err AssertFailed ∧
       BitMap_Test i b = Err AssertFailed) ∧
    BitMap_NumClear b = Ok (numBits b - Z.of_nat (size (bits_of b)), b).
Proof.
  split; [exact new_BitMap_spec|]. intros b Hwf. split_and!.
  - intros i Hi. split_and!; [by apply Mark_set|by apply Clear_set|by apply Test_set].
  - intros i Hi. unfold BitMap_Mark, BitMap_Clear, BitMap_Test. unfold_M.
    by rewrite in_range_fault.
  - by apply NumClear_spec.
Qed.

(** [Find] returns -1 and changes nothing exactly when [NumClear] is zero;
    otherwise it returns the lowest clear bit, marks it and nothing else, and
    leaves one clear bit less. *)
Theorem BitMap_Find_least_clear b : bitmap_wf b →
  ∃ r b' c c', BitMap_Find b = Ok (r, b') ∧ bitmap_wf b' ∧ numBits b' = numBits b ∧
    BitMap_NumClear b = Ok (c, b) ∧ BitMap_NumClear b' = Ok (c', b') ∧
    ((c = 0 ∧ r = -1 ∧ b' = b) ∨
     (0 < c ∧ c' = c - 1 ∧ 0 ≤ r < numBits b ∧ (r ∉ bits_of b) ∧
      (∀ j, 0 ≤ j < r → j ∈ bits_of b) ∧ bits_of b' = {[r]} ∪ bits_of b)).
Proof.
  intros Hwf. pose proof (bits_of_size b (wf_bits _ Hwf)) as Hle.
  destruct (Find_cases b Hwf) as [[E Hall]|(r & b' & E & Hr & Hnin & Hall & Hwf' & Hn & Hb)].
  - exists (-1), b. do 2 eexists. split_and!; eauto using NumClear_spec.
    left. split_and!; auto.
    assert (bits_of b = list_to_set (seqZ 0 (numBits b))) as ->.
    { apply set_eq. intros i. rewrite elem_of_list_to_set, elem_of_seqZ.
      split; [rewrite elem_of_bits; lia|]. intros ?. apply Hall. lia. }
    rewrite size_list_to_set, length_seqZ by apply NoDup_seqZ. pose proof (wf_bits _ Hwf). lia.
  - exists r, b'. do 2 eexists. split_and!; eauto using NumClear_spec.
    assert (size (bits_of b') = S (size (bits_of b))) as Hs.
    { rewrite Hb, size_union, size_singleton; [done|]. set_solver. }
    pose proof (bits_of_size b' (wf_bits _ Hwf')). right. split_and!; auto; lia.
Qed.

Definition bitmap_example : BitMap := mkBitMap 5 1 [7].

Lemma bitmap_example_wf : bitmap_wf bitmap_example.
Proof. split; [done|done|done|]. apply Forall_singleton. unfold is_uint. lia. Defined.

Lemma BitMap_Find_least_clear_witness :
  ∃ r b' c c', BitMap_Find bitmap_example = Ok (r, b') ∧ bitmap_wf b' ∧
    numBits b' = numBits bitmap_example ∧
    BitMap_NumClear bitmap_example = Ok (c, bitmap_example) ∧
    BitMap_NumClear b' = Ok (c', b') ∧
    ((c = 0 ∧ r = -1 ∧ b' = bitmap_example) ∨
     (0 < c ∧ c' = c - 1 ∧ 0 ≤ r < numBits bitmap_example ∧ (r ∉ bits_of bitmap_example) ∧
      (∀ j, 0 ≤ j < r → j ∈ bits_of bitmap_example) ∧
      bits_of b' = {[r]} ∪ bits_of bitmap_example)).
Proof. apply (BitMap_Find_least_clear bitmap_example bitmap_example_wf). Defined.

#[export] Hint Resolve wf_bits Mark_set Clear_set Test_set NumClear_spec : nachos.
