(* ===== verification/Interrupt.v ===== *)
(** * Interrupt: simulated time and interrupts of machine/interrupt.cc

    The interrupt level, the list of interrupts that are due in the future,
    and the clock.  Device handlers, the pending load of the user CPU and the
    thread switch are other components: the code of this file calls them
    through the class [Platform], and the theorems rely only on the laws of
    [PlatformOK].  The file ends with the timer device (machine/timer.cc with
    the handler of threads/system.cc), which discharges the interface. *)

From S2P Require Import Prelude LinkedList.

Inductive IntStatus := IntOff | IntOn.
Inductive MachineStatus := IdleMode | SystemMode | UserMode.
Inductive IntType :=
  TimerInt | DiskInt | ConsoleWriteInt | ConsoleReadInt | NetworkSendInt | NetworkRecvInt.

#[export] Instance IntStatus_eq_dec : EqDecision IntStatus.
Proof. solve_decision. Defined.
#[export] Instance MachineStatus_eq_dec : EqDecision MachineStatus.
Proof. solve_decision. Defined.
#[export] Instance IntType_eq_dec : EqDecision IntType.
Proof. solve_decision. Defined.

(** machine/stats.h: the counters, and the constants of simulated time. *)
Record Statistics := mkStats {
  totalTicks : Z; idleTicks : Z; systemTicks : Z; userTicks : Z;
  numDiskReads : Z; numDiskWrites : Z;
  numConsoleCharsRead : Z; numConsoleCharsWritten : Z;
  numPageFaults : Z; numPacketsSent : Z; numPacketsRecvd : Z
}.

Definition new_Statistics : Statistics := mkStats 0 0 0 0 0 0 0 0 0 0 0.

Definition UserTick : Z := 1.
Definition SystemTick : Z := 10.
Definition RotationTime : Z := 500.
Definition SeekTime : Z := 500.
Definition ConsoleTime : Z := 100.
Definition NetworkTime : Z := 100.
Definition TimerTicks : Z := 100.

(** Advance of the clock, charged to one of the three modes. *)
Definition tick_system (n : Z) (s : Statistics) : Statistics :=
  let '(mkStats t i y u a b c d e f g) := s in mkStats (t + n) i (y + n) u a b c d e f g.
Definition tick_user (n : Z) (s : Statistics) : Statistics :=
  let '(mkStats t i y u a b c d e f g) := s in mkStats (t + n) i y (u + n) a b c d e f g.
Definition tick_idle_to (w : Z) (s : Statistics) : Statistics :=
  let '(mkStats t i y u a b c d e f g) := s in mkStats w (i + (w - t)) y u a b c d e f g.

(** class [PendingInterrupt]; [H] names a handler with its argument. *)
Record PendingInterrupt (H : Type) := mkPending { pi_handler : H; pi_when : Z; pi_type : IntType }.
Arguments mkPending {H} _ _ _.
Arguments pi_handler {H} _.
Arguments pi_when {H} _.
Arguments pi_type {H} _.

(** class [Interrupt]. *)
Record Interrupt (H : Type) := mkInterrupt {
  level : IntStatus;
  pending : list (Z * PendingInterrupt H);
  inHandler : bool;
  yieldOnReturn : bool;
  status : MachineStatus
}.
Arguments mkInterrupt {H} _ _ _ _ _.
Arguments level {H} _.
Arguments pending {H} _.
Arguments inHandler {H} _.
Arguments yieldOnReturn {H} _.
Arguments status {H} _.

(** The globals [interrupt] and [stats] with the rest of the machine. *)
Record kstate (W H : Type) := mkK { intr : Interrupt H; stats : Statistics; world : W }.
Arguments mkK {W H} _ _ _.
Arguments intr {W H} _.
Arguments stats {W H} _.
Arguments world {W H} _.

Definition new_Interrupt {H} : Interrupt H := mkInterrupt IntOff [] false false SystemMode.

(** What the module calls outside: [( *handler)(arg)], [machine->DelayedLoad(0,0)]
    and [currentThread->Yield()]. *)
Class Platform (W H : Type) := {
  call_handler : H → M (kstate W H) unit;
  machine_DelayedLoad : M (kstate W H) unit;
  currentThread_Yield : M (kstate W H) unit
}.

Section Code.
Context {W H : Type} `{!Platform W H}.
Abbreviation K := (kstate W H).

Definition on_intr (f : Interrupt H → Interrupt H) : M K unit :=
  modify (λ k, mkK (f (intr k)) (stats k) (world k)).
Definition on_stats (f : Statistics → Statistics) : M K unit :=
  modify (λ k, mkK (intr k) (f (stats k)) (world k)).

Definition set_level (l : IntStatus) : M K unit :=
  on_intr (λ i, mkInterrupt l (pending i) (inHandler i) (yieldOnReturn i) (status i)).
Definition set_pending (p : list (Z * PendingInterrupt H)) : M K unit :=
  on_intr (λ i, mkInterrupt (level i) p (inHandler i) (yieldOnReturn i) (status i)).
Definition set_inHandler (b : bool) : M K unit :=
  on_intr (λ i, mkInterrupt (level i) (pending i) b (yieldOnReturn i) (status i)).
Definition set_yieldOnReturn (b : bool) : M K unit :=
  on_intr (λ i, mkInterrupt (level i) (pending i) (inHandler i) b (status i)).
Definition setStatus (st : MachineStatus) : M K unit :=
  on_intr (λ i, mkInterrupt (level i) (pending i) (inHandler i) (yieldOnReturn i) st).

Definition ChangeLevel (old now : IntStatus) : M K unit := set_level now.

(** [YieldOnReturn]. *)
Definition YieldOnReturn : M K unit := set_yieldOnReturn true.

Definition Schedule (handler : H) (fromNow : Z) (type : IntType) : M K unit :=
  k ← get;
  let when := totalTicks (stats k) + fromNow in
  ASSERT (0 <? fromNow) ≫= λ _,
  set_pending (sorted_insert when (mkPending handler when type) (pending (intr k))).

(** [CheckIfDue] from the point where the interrupt is known to fire. *)
Definition fire (toOccur : PendingInterrupt H) (old : MachineStatus) : M K unit :=
  machine_DelayedLoad ≫= λ _,
  set_inHandler true ≫= λ _,
  setStatus SystemMode ≫= λ _,
  call_handler (pi_handler toOccur) ≫= λ _,
  setStatus old ≫= λ _,
  set_inHandler false.

Definition CheckIfDue (advanceClock : bool) : M K bool :=
  k ← get;
  let old := status (intr k) in
  ASSERT (bool_decide (level (intr k) = IntOff)) ≫= λ _,
  match pending (intr k) with
  | [] => mret false
  | (when, toOccur) :: rest =>
      set_pending rest ≫= λ _,
      let put_back := set_pending (sorted_insert when toOccur rest) ≫= λ _, mret false in
      let last_checks :=
        if bool_decide (old = IdleMode) && bool_decide (pi_type toOccur = TimerInt)
           && bool_decide (length rest = 0%nat)
        then put_back
        else fire toOccur old ≫= λ _, mret true in
      if advanceClock && (totalTicks (stats k) <? when) then
        on_stats (tick_idle_to when) ≫= λ _, last_checks
      else if totalTicks (stats k) <? when then put_back
      else last_checks
  end.

(** [while (CheckIfDue(false)) ;] *)
Fixpoint CheckIfDue_loop (fuel : nat) : M K unit :=
  match fuel with
  | O => fail OutOfFuel
  | S fuel' =>
      fired ← CheckIfDue false;
      if (fired : bool) then CheckIfDue_loop fuel' else mret tt
  end.

(** One more round than there are interrupts pending. *)
Definition due_loop : M K unit :=
  k ← get; CheckIfDue_loop (S (length (pending (intr k)))).

Definition OneTick : M K unit :=
  old ← gets (λ k, status (intr k));
  on_stats (if bool_decide (old = SystemMode) then tick_system SystemTick
            else tick_user UserTick) ≫= λ _,
  ChangeLevel IntOn IntOff ≫= λ _,
  due_loop ≫= λ _,
  ChangeLevel IntOff IntOn ≫= λ _,
  y ← gets (λ k, yieldOnReturn (intr k));
  if (y : bool) then
    set_yieldOnReturn false ≫= λ _,
    setStatus SystemMode ≫= λ _,
    currentThread_Yield ≫= λ _,
    setStatus old
  else mret tt.

Definition SetLevel (now : IntStatus) : M K IntStatus :=
  old ← gets (λ k, level (intr k));
  k ← get;
  ASSERT (bool_decide (now = IntOff) || negb (inHandler (intr k))) ≫= λ _,
  ChangeLevel old now ≫= λ _,
  (if bool_decide (now = IntOn) && bool_decide (old = IntOff) then OneTick else mret tt) ≫= λ _,
  mret old.

Definition Enable : M K unit := SetLevel IntOn ≫= λ _, mret tt.

(** [Halt]: prints and calls [Cleanup], which never returns. *)
Definition Halt : M K unit := fail Halted.

Definition Idle : M K unit :=
  setStatus IdleMode ≫= λ _,
  fired ← CheckIfDue true;
  if (fired : bool) then
    due_loop ≫= λ _,
    set_yieldOnReturn false ≫= λ _,
    setStatus SystemMode
  else Halt.

End Code.

(** ** The laws of the platform *)

Section Laws.
Context {W H : Type}.
Implicit Types (k : kstate W H).

Definition now k : Z := totalTicks (stats k).
Definition due k : list (Z * PendingInterrupt H) :=
  filter (λ p, p.1 ≤ now k) (pending (intr k)).

(** [k'] is [k] with some more interrupts scheduled, all in the future. *)
Record schedules k k' : Prop := {
  sch_now : now k' = now k;
  sch_level : level (intr k') = level (intr k);
  sch_sorted : keys_sorted (pending (intr k)) → keys_sorted (pending (intr k'));
  sch_new : ∃ new, pending (intr k') ≡ₚ new ++ pending (intr k) ∧
                   Forall (λ p, now k < p.1) new
}.

End Laws.

(** A platform whose handlers run to completion with interrupts off, keep an
    invariant of the rest of the machine, and only schedule interrupts that
    lie in the future. *)
Class PlatformOK (W H : Type) `{!Platform W H} := {
  plat_inv : W → Prop;
  call_handler_ok h (k : kstate W H) :
    plat_inv (world k) → level (intr k) = IntOff →
    ∃ k', call_handler h k = Ok (tt, k') ∧ plat_inv (world k') ∧ schedules k k';
  machine_DelayedLoad_ok (k : kstate W H) :
    plat_inv (world k) →
    ∃ k', machine_DelayedLoad k = Ok (tt, k') ∧ plat_inv (world k') ∧
          intr k' = intr k ∧ stats k' = stats k
}.

Section Proofs.
Context {W H : Type} `{!Platform W H} `{!PlatformOK W H}.
Implicit Types (k : kstate W H).

(** The state in which the interrupt loop runs. *)
Record masked k : Prop := {
  mk_inv : plat_inv (world k);
  mk_level : level (intr k) = IntOff;
  mk_sorted : keys_sorted (pending (intr k))
}.

(** What it is to handle an interrupt: the pending load of the user CPU is done,
    and the handler is called in system mode with the mark that it runs; then the
    mark goes and the mode is what it was. *)
Definition entering k : kstate W H :=
  mkK (mkInterrupt (level (intr k)) (pending (intr k)) true (yieldOnReturn (intr k)) SystemMode) (stats k) (world k).
Definition leaving (old : MachineStatus) k : kstate W H :=
  mkK (mkInterrupt (level (intr k)) (pending (intr k)) false (yieldOnReturn (intr k)) old) (stats k) (world k).
Definition handled (p : PendingInterrupt H) k k' : Prop := ∃ k1 k2,
  machine_DelayedLoad k = Ok (tt, k1) ∧ call_handler (pi_handler p) (entering k1) = Ok (tt, k2) ∧
  k' = leaving (status (intr k)) k2.

(** The same state with another list of pending interrupts. *)
Definition with_pending (ps : list (Z * PendingInterrupt H)) k : kstate W H :=
  mkK (mkInterrupt (level (intr k)) ps (inHandler (intr k)) (yieldOnReturn (intr k)) (status (intr k)))
    (stats k) (world k).

(** The interrupts [l] are handled one after the other, each when it is the first
    that is pending, and due. *)
Inductive handles : list (Z * PendingInterrupt H) → kstate W H → kstate W H → Prop :=
  | handles_nil k : handles [] k k
  | handles_cons p rest l k k1 k' :
      pending (intr k) = p :: rest → p.1 ≤ now k →
      handled p.2 (with_pending rest k) k1 → handles l k1 k' → handles (p :: l) k k'.

Lemma fire_ok p old k : masked k → status (intr k) = old →
  ∃ k', fire p old k = Ok (tt, k') ∧ handled p k k' ∧ masked k' ∧ schedules k k' ∧
        status (intr k') = old ∧ inHandler (intr k') = false.
Proof.
  intros [Hi Hl Hs] Ho. unfold fire, set_inHandler, setStatus, on_intr, handled. unfold_M.
  destruct (machine_DelayedLoad_ok k Hi) as (k1 & E1 & Hi1 & Hk1 & Hst). rewrite E1.
  destruct (call_handler_ok (pi_handler p) (entering k1)) as (k2 & E2 & Hi2 & Hsch); [done|cbn; congruence|].
  unfold entering in E2. cbn [intr stats world level pending yieldOnReturn inHandler status]. rewrite E2.
  eexists. split; [done|]. rewrite Ho.
  split; [by exists k1, k2|]. cbn in *.
  destruct Hsch as [Hn Hl2 Hso Hnew]. unfold now in *. cbn in *. rewrite Hk1 in *. rewrite Hst in *.
  split_and!; [split; cbn; auto; congruence|split; cbn; auto|done|done].
Qed.

Lemma keys_sorted_tail (p : Z * PendingInterrupt H) ps :
  keys_sorted (p :: ps) → keys_sorted ps ∧ Forall (λ q, p.1 ≤ q.1) ps.
Proof.
  unfold keys_sorted. cbn. intros [Hs Hf]%StronglySorted_inv. split; [done|].
  by rewrite Forall_fmap in Hf.
Qed.

(** Nothing to fire: no interrupt is due or, when the machine idles, the only
    one left is the timer. *)
Definition lone_timer (ps : list (Z * PendingInterrupt H)) : Prop :=
  ∃ p, ps = [p] ∧ pi_type p.2 = TimerInt.
Definition drained k : Prop :=
  due k = [] ∨ status (intr k) = IdleMode ∧ lone_timer (pending (intr k)).

(** The test of [CheckIfDue] that keeps an idle machine from running on for
    the sake of the timer alone. *)
Lemma lone_timer_spec st w (p : PendingInterrupt H) ps :
  bool_decide (st = IdleMode) && bool_decide (pi_type p = TimerInt)
    && bool_decide (length ps = 0%nat) = true ↔ st = IdleMode ∧ lone_timer ((w, p) :: ps).
Proof.
  rewrite !andb_true_iff, !bool_decide_eq_true. unfold lone_timer. split.
  - intros [[-> ?] ?%nil_length_inv]. subst. eauto.
  - intros (-> & q & [= <- ->] & ?). done.
Qed.

(** [CheckIfDue(false)]: it handles the first pending interrupt when it is due,
    and otherwise leaves the same interrupts and everything else as it is. *)
Lemma CheckIfDue_false k : masked k →
  (∃ p ps k', pending (intr k) = p :: ps ∧ p.1 ≤ now k ∧
     CheckIfDue false k = Ok (true, k') ∧ handled p.2 (with_pending ps k) k' ∧ masked k' ∧ now k' = now k ∧
     status (intr k') = status (intr k) ∧ inHandler (intr k') = false ∧
     ∃ new, pending (intr k') ≡ₚ new ++ ps ∧ Forall (λ q, now k < q.1) new) ∨
  (drained k ∧ ∃ qs, CheckIfDue false k = Ok (false, with_pending qs k) ∧
     qs ≡ₚ pending (intr k) ∧ keys_sorted qs).
Proof.
  intros [Hi Hl Hs]. unfold CheckIfDue, set_pending, on_intr. unfold_M.
  rewrite (bool_decide_eq_true_2 (level _ = _)) by done. cbn [andb].
  unfold drained, due. destruct (pending (intr k)) as [|[w p] ps] eqn:Hp.
  { right. split; [by left|]. exists []. split_and!; [|done|done].
    unfold with_pending. rewrite <- Hp. by destruct k as [[] ? ?]. }
  apply keys_sorted_tail in Hs as [Hs Hle].
  unfold now. destruct (Z.ltb_spec (totalTicks (stats k)) w) as [Hw|Hw].
  { right. split.
    - left. rewrite filter_nil_iff. constructor; cbn; [lia|].
      eapply Forall_impl; [exact Hle|]. cbn. intros q ?. lia.
    - eexists. split; [reflexivity|]. split; [by rewrite sorted_insert_perm|auto with nachos]. }
  destruct (_ && _ && _) eqn:Ht.
  - apply (lone_timer_spec _ w) in Ht. right. split; [by right|].
    eexists. split; [reflexivity|]. split; [by rewrite sorted_insert_perm|auto with nachos].
  - left. edestruct (fire_ok p (status (intr k)) (with_pending ps k)) as (k' & E & Hhd & Hm & Hsch & Hst' & Hh);
      [split; cbn; auto|done|].
    exists (w, p), ps, k'. unfold with_pending in E. rewrite E. destruct Hsch as [Hn _ _ Hnew]. by split_and!.
Qed.

Lemma due_length k : (length (due k) ≤ length (pending (intr k)))%nat.
Proof. apply length_filter. Qed.

(** Firing a due head removes it from what is due and leaves the rest. *)
Lemma due_step k k' p ps new :
  pending (intr k) = p :: ps → p.1 ≤ now k → now k' = now k →
  pending (intr k') ≡ₚ new ++ ps → Forall (λ q, now k < q.1) new →
  due k ≡ₚ p :: due k'.
Proof.
  intros Hp Hle Hn Hperm Hnew. unfold due. rewrite Hn, Hp.
  rewrite filter_cons_True by lia. rewrite Hperm, filter_app.
  assert (filter (λ q, q.1 ≤ now k) new = []) as ->.
  { apply filter_nil_iff. eapply Forall_impl; [exact Hnew|]. cbn. intros q ?. lia. }
  done.
Qed.

(** The loop handles exactly the interrupts that are due, each once, in the order
    of their times; but an idle machine may leave a timer that is alone. *)
Lemma CheckIfDue_loop_drains fuel k :
  masked k → inHandler (intr k) = false → (length (due k) < fuel)%nat →
  ∃ k' qs l, CheckIfDue_loop fuel k = Ok (tt, with_pending qs k') ∧ handles l k k' ∧
    qs ≡ₚ pending (intr k') ∧ keys_sorted qs ∧ masked k' ∧ now k' = now k ∧
    status (intr k') = status (intr k) ∧ inHandler (intr k') = false ∧
    drained k' ∧ due k ≡ₚ l ++ due k' ∧ keys_sorted l.
Proof.
  revert k. induction fuel as [|fuel IH]; intros k Hm Hh Hf; [lia|].
  cbn [CheckIfDue_loop]. unfold_M.
  destruct (CheckIfDue_false k Hm)
    as [(p & ps & k1 & Hp & Hle & E & Hhd & Hm1 & Hn1 & Hst1 & Hh1 & new & Hpm & Hnew)
       |(Hdr & qs & E & Hqs & Hso)]; rewrite E.
  - pose proof (due_step _ _ _ _ _ Hp Hle Hn1 Hpm Hnew) as Hdp.
    assert (Hlen : length (due k) = S (length (due k1))) by by rewrite Hdp.
    destruct (IH k1) as (k' & qs & l & E' & Hl & Hqs & Hso & Hm' & Hn' & Hst' & Hh' & Hdr & Hdue & Hsl);
      [done|done|lia|].
    exists k', qs, (p :: l). split_and!; try done; try congruence.
    + by eapply handles_cons.
    + by rewrite Hdp, Hdue.
    + unfold keys_sorted in *. cbn. apply SSorted_cons; [done|]. rewrite Forall_fmap.
      apply Forall_forall. intros q Hq. cbn. assert (Hqd : q ∈ due k) by (rewrite Hdp, Hdue; set_solver).
      apply list_elem_of_filter in Hqd as [_ Hqd]. rewrite Hp in Hqd.
      apply elem_of_cons in Hqd as [->|Hqd]; [lia|].
      pose proof (mk_sorted k Hm) as Hs. rewrite Hp in Hs. apply keys_sorted_tail in Hs as [_ Hs].
      rewrite Forall_forall in Hs. exact (Hs q Hqd).
  - exists k, qs, []. split_and!; try done; constructor.
Qed.

Lemma due_loop_drains k :
  masked k → inHandler (intr k) = false →
  ∃ k' qs l, due_loop k = Ok (tt, with_pending qs k') ∧ handles l k k' ∧
    qs ≡ₚ pending (intr k') ∧ keys_sorted qs ∧ masked k' ∧ now k' = now k ∧
    status (intr k') = status (intr k) ∧ inHandler (intr k') = false ∧
    drained k' ∧ due k ≡ₚ l ++ due k' ∧ keys_sorted l.
Proof.
  intros Hm Hh. unfold due_loop. unfold_M.
  apply CheckIfDue_loop_drains; try done. pose proof (due_length k). lia.
Qed.

(** The state [OneTick] reaches before it decides whether to yield. *)
Definition ticked (old : MachineStatus) : Statistics → Statistics :=
  if bool_decide (old = SystemMode) then tick_system SystemTick else tick_user UserTick.

Lemma ticked_now old s : totalTicks s < totalTicks (ticked old s).
Proof.
  destruct s. unfold ticked, SystemTick, UserTick.
  case_bool_decide; cbn; lia.
Qed.

(** [k] when the loop of [OneTick] starts, and when it has decided to yield. *)
Definition at_tick k : kstate W H :=
  mkK (mkInterrupt IntOff (pending (intr k)) (inHandler (intr k)) (yieldOnReturn (intr k)) (status (intr k)))
    (ticked (status (intr k)) (stats k)) (world k).
Definition yielding k : kstate W H :=
  mkK (mkInterrupt (level (intr k)) (pending (intr k)) (inHandler (intr k)) false SystemMode) (stats k) (world k).
(** Interrupts are on again. *)
Definition unmasked (qs : list (Z * PendingInterrupt H)) k : kstate W H :=
  mkK (mkInterrupt IntOn qs (inHandler (intr k)) (yieldOnReturn (intr k)) (status (intr k))) (stats k) (world k).

(** The clock of an idle machine is put forward to [w]. *)
Definition at_time (w : Z) k : kstate W H :=
  mkK (intr k) (if now k <? w then tick_idle_to w (stats k) else stats k) (world k).

Lemma at_time_now w k : now (at_time (Z.max (now k) w) k) = Z.max (now k) w.
Proof. unfold now, at_time, now. cbn. destruct (Z.ltb_spec (totalTicks (stats k)) (Z.max (totalTicks (stats k)) w)); destruct (stats k); cbn in *; lia. Qed.

(** [CheckIfDue(true)] with something besides the timer to wait for. *)
Lemma CheckIfDue_true k w p ps : masked k → inHandler (intr k) = false →
  status (intr k) = IdleMode → pending (intr k) = (w, p) :: ps →
  ¬ lone_timer ((w, p) :: ps) →
  ∃ k', CheckIfDue true k = Ok (true, k') ∧ handled p (with_pending ps (at_time (Z.max (now k) w) k)) k' ∧
        masked k' ∧ now k' = Z.max (now k) w ∧ status (intr k') = IdleMode ∧
        inHandler (intr k') = false ∧
        ∃ new, pending (intr k') ≡ₚ new ++ ps ∧ Forall (λ q, Z.max (now k) w < q.1) new.
Proof.
  intros [Hi Hl Hs] Hh Hst Hp Hlone. unfold CheckIfDue, set_pending, on_intr, on_stats. unfold_M.
  rewrite (bool_decide_eq_true_2 (level _ = _)) by done. cbn [andb]. rewrite Hp in *.
  apply keys_sorted_tail in Hs as [Hs _].
  destruct (bool_decide (status (intr k) = IdleMode) && _ && _) eqn:Ht.
  { apply (lone_timer_spec _ w) in Ht. tauto. }
  set (kw := at_time (Z.max (now k) w) k). assert (Hnw : now kw = Z.max (now k) w) by apply at_time_now.
  destruct (fire_ok p IdleMode (with_pending ps kw)) as (k' & E & Hhd & Hm & [Hn _ _ Hnew] & Hst' & Hh');
    [split; cbn; auto|done|].
  exists k'. split.
  { revert E. unfold kw, with_pending, at_time, now. cbn [intr stats world]. rewrite Hst.
    destruct (Z.ltb_spec (totalTicks (stats k)) w); destruct (Z.ltb_spec (totalTicks (stats k)) (Z.max (totalTicks (stats k)) w));
      try lia; rewrite ?Z.max_r by lia; intros E; cbn -[fire tick_idle_to]; rewrite ?Hst; by rewrite E. }
  change (now (with_pending ps kw)) with (now kw) in *. rewrite Hnw in *. by split_and!.
Qed.

End Proofs.

(** C30: [OneTick], on a machine that is not idle and not in a handler and whose
    device handlers return and schedule only into the future, always
    terminates its interrupt loop: it advances the clock by the tick of the
    current mode and calls the handler of each interrupt that is then due, once
    and in the order of their times, with interrupts off and the mark that a
    handler runs; afterwards none is due and interrupts are on.  When a handler
    or the kernel has asked for it, the request is cleared and the thread yields
    in system mode; otherwise [OneTick] returns. *)
Theorem OneTick_fires_all_due {W H : Type} `{!Platform W H} `{!PlatformOK W H} (k : kstate W H) :
  plat_inv (world k) → keys_sorted (pending (intr k)) →
  status (intr k) ≠ IdleMode → inHandler (intr k) = false →
  ∃ l kl qs, handles l (at_tick k) kl ∧ l ≡ₚ due (at_tick k) ∧ keys_sorted l ∧
    qs ≡ₚ pending (intr kl) ∧ keys_sorted qs ∧
    let k1 := unmasked qs kl in
    plat_inv (world k1) ∧ inHandler (intr k1) = false ∧ status (intr k1) = status (intr k) ∧
    now k < now k1 ∧ now k1 = totalTicks (ticked (status (intr k)) (stats k)) ∧
    Forall (λ q, now k1 < q.1) qs ∧
    OneTick k =
      if yieldOnReturn (intr k1) then (currentThread_Yield ≫= λ _, setStatus (status (intr k))) (yielding k1)
      else Ok (tt, k1).
Proof.
  intros Hi Hs Hst Hh.
  destruct (due_loop_drains (at_tick k)) as (kl & qs & l & E & Hl & Hqs & Hso & [Hi1 Hl1 Hs1] & Hn & Hst1 & Hh1 & Hd & Hp & Hsl);
    [by split|done|].
  destruct Hd as [Hd|[? _]]; [|cbn in *; congruence]. rewrite Hd, app_nil_r in Hp.
  exists l, kl, qs. unfold now, unmasked, at_tick in *. cbn in Hn. cbn. rewrite Hn. split_and!; try done.
  - apply ticked_now.
  - unfold due in Hd. rewrite filter_nil_iff in Hd. rewrite Hqs. eapply Forall_impl; [exact Hd|]. cbn.
    intros q ?. unfold now in *. lia.
  - unfold OneTick, ChangeLevel, set_level, on_stats, on_intr. unfold_M.
    fold (ticked (status (intr k))). cbn -[due_loop ticked]. rewrite E. cbn. by destruct (yieldOnReturn (intr kl)).
Qed.

(** The machine when [Idle] looks for an interrupt, and when it returns. *)
Definition idling {W H} (k : kstate W H) : kstate W H :=
  mkK (mkInterrupt (level (intr k)) (pending (intr k)) (inHandler (intr k)) (yieldOnReturn (intr k)) IdleMode)
    (stats k) (world k).
Definition idled {W H} (qs : list (Z * PendingInterrupt H)) (k : kstate W H) : kstate W H :=
  mkK (mkInterrupt (level (intr k)) qs (inHandler (intr k)) false SystemMode) (stats k) (world k).

(** C31: [Idle] halts the machine exactly when nothing but (at most) the timer is
    pending.  Otherwise it puts the clock forward to the first pending interrupt,
    never back, calls the handler of that interrupt and of each that is then due,
    once and in the order of their times, and returns in system mode with no yield
    requested and interrupts still off; only a timer that is left alone may be due
    and not handled. *)
Theorem Idle_advances_or_halts {W H : Type} `{!Platform W H} `{!PlatformOK W H} (k : kstate W H) :
  masked k → inHandler (intr k) = false →
  ((pending (intr k) = [] ∨ lone_timer (pending (intr k))) ∧ Idle k = Err Halted) ∨
  (∃ w p ps l kl qs, pending (intr k) = (w, p) :: ps ∧ ¬ lone_timer (pending (intr k)) ∧
     let k0 := at_time (Z.max (now k) w) (idling k) in
     handles ((w, p) :: l) k0 kl ∧ due k0 ≡ₚ ((w, p) :: l) ++ due kl ∧ keys_sorted ((w, p) :: l) ∧
     (due kl = [] ∨ lone_timer (pending (intr kl))) ∧ qs ≡ₚ pending (intr kl) ∧
     Idle k = Ok (tt, idled qs kl) ∧ masked (idled qs kl) ∧ now (idled qs kl) = Z.max (now k) w ∧
     inHandler (intr kl) = false).
Proof.
  intros [Hi Hl Hs] Hh. assert (Hm0 : masked (idling k)) by (by split).
  unfold Idle, Halt, setStatus, set_yieldOnReturn, on_intr. unfold_M.
  fold (idling k). destruct (pending (intr k)) as [|[w p] ps] eqn:Hp.
  { left. split; [by left|]. unfold CheckIfDue. unfold_M. cbn. by rewrite Hl, Hp. }
  destruct (decide (length ps = 0%nat ∧ pi_type p = TimerInt)) as [[Hps Ht]|Hlone].
  - apply nil_length_inv in Hps as ->. left. split; [right; by exists (w, p)|].
    unfold CheckIfDue, set_pending, on_intr, on_stats. unfold_M. cbn. rewrite Hl, Hp, Ht. cbn.
    by destruct (totalTicks (stats k) <? w).
  - right. assert (Hlt : ¬ lone_timer ((w, p) :: ps)) by (intros (q & [= <- ->] & ?); by apply Hlone).
    destruct (CheckIfDue_true (idling k) w p ps) as (k1 & E1 & Hhd & Hm1 & Hn1 & Hst1 & Hh1 & new & Hpm & Hnew); try done.
    rewrite E1. set (k0 := at_time (Z.max (now k) w) (idling k)) in *.
    change (now (idling k)) with (now k) in *. fold k0 in Hhd.
    assert (Hn0 : now k0 = Z.max (now k) w) by apply (at_time_now w (idling k)).
    destruct (due_loop_drains k1 Hm1 Hh1)
      as (k2 & qs & l & E2 & Hl2 & Hqs & Hso & [Hi2 Hlv2 Hs2] & Hn2 & Hst2 & Hh2 & Hd & Hdue & Hsl).
    rewrite E2. exists w, p, ps, l, k2, qs.
    assert (Hdp : due k0 ≡ₚ (w, p) :: due k1).
    { apply (due_step k0 k1 (w, p) ps new); [done|rewrite Hn0; cbn [fst]; apply Z.le_max_r|congruence|done|by rewrite Hn0]. }
    assert (Hhl : handles ((w, p) :: l) k0 k2).
    { eapply handles_cons; [done|rewrite Hn0; cbn [fst]; apply Z.le_max_r|exact Hhd|done]. }
    split_and!; try done.
    + fold k0. rewrite Hdp, Hdue. done.
    + unfold keys_sorted in *. cbn. apply SSorted_cons; [done|]. rewrite Forall_fmap. apply Forall_forall. intros q Hq. cbn.
      assert (Hqd : q ∈ due k0) by (rewrite Hdp, Hdue; set_solver). apply list_elem_of_filter in Hqd as [_ Hqd].
      change (pending (intr k0)) with (pending (intr k)) in Hqd. rewrite Hp in Hqd.
      apply elem_of_cons in Hqd as [->|Hqd]; [cbn; lia|]. cbn [pending] in Hs. apply keys_sorted_tail in Hs as [_ Hs].
      rewrite Forall_forall in Hs. exact (Hs q Hqd).
    + destruct Hd as [Hd|[_ Hd]]; auto.
    + unfold now in *. cbn. congruence.
Qed.

(** ** Scheduling, as the devices use it *)

Section Devices.
Context {W H : Type}.
Implicit Types (k : kstate W H).

#[export] Instance schedules_preorder : PreOrder (@schedules W H).
Proof.
  split.
  - intros k. split; auto. by exists [].
  - intros k1 k2 k3 [Hn1 Hl1 Hs1 (n1 & Hp1 & Hf1)] [Hn2 Hl2 Hs2 (n2 & Hp2 & Hf2)].
    split; auto; try congruence. exists (n2 ++ n1). split.
    + by rewrite Hp2, Hp1, app_assoc.
    + rewrite Hn1 in Hf2. by apply Forall_app.
Qed.

Lemma Schedule_schedules h fromNow ty k : 0 < fromNow →
  ∃ k', Schedule h fromNow ty k = Ok (tt, k') ∧ schedules k k' ∧ world k' = world k ∧
        stats k' = stats k ∧
        intr k' = mkInterrupt (level (intr k))
          (sorted_insert (now k + fromNow) (mkPending h (now k + fromNow) ty) (pending (intr k)))
          (inHandler (intr k)) (yieldOnReturn (intr k)) (status (intr k)).
Proof.
  intros Hf. unfold Schedule, set_pending, on_intr. unfold_M.
  destruct (Z.ltb_spec 0 fromNow); [|lia].
  eexists. split_and!; try done. split; cbn; auto with nachos.
  exists [(now k + fromNow, mkPending h (now k + fromNow) ty)].
  rewrite sorted_insert_perm. split; [done|].
  constructor; [|done]. unfold now. cbn. lia.
Qed.

(** An interrupt for the present or the past is refused. *)
Lemma Schedule_refuses h fromNow ty k : fromNow ≤ 0 →
  Schedule h fromNow ty k = Err AssertFailed.
Proof.
  intros Hf. unfold Schedule. unfold_M. destruct (Z.ltb_spec 0 fromNow); [lia|done].
Qed.

End Devices.

(** ** The timer: machine/timer.cc

    [TimerHandler] names the handler installed in the pending list, [Random]
    is the call of the host's generator. *)

Section Timer.
Context {W H : Type} (TimerHandler : H) (Random : M (kstate W H) Z).
Abbreviation K := (kstate W H).

Definition TimeOfNextInterrupt (randomize : bool) : M K Z :=
  if randomize then r ← Random; mret (1 + Z.rem r (TimerTicks * 2))
  else mret TimerTicks.

(** The handler given to the timer by threads/system.cc. *)
Definition TimerInterruptHandler : M K unit :=
  st ← gets (λ k, status (intr k));
  if bool_decide (st ≠ IdleMode) then YieldOnReturn else mret tt.

Definition new_Timer (randomize : bool) : M K unit :=
  t ← TimeOfNextInterrupt randomize;
  Schedule TimerHandler t TimerInt.

Definition TimerExpired (randomize : bool) : M K unit :=
  t ← TimeOfNextInterrupt randomize;
  Schedule TimerHandler t TimerInt ≫= λ _,
  TimerInterruptHandler.

Lemma TimeOfNextInterrupt_pos randomize k :
  (∃ r k', Random k = Ok (r, k') ∧ 0 ≤ r ∧ intr k' = intr k ∧ stats k' = stats k) →
  ∃ t k', TimeOfNextInterrupt randomize k = Ok (t, k') ∧ 0 < t ≤ 2 * TimerTicks ∧
          intr k' = intr k ∧ stats k' = stats k.
Proof.
  intros (r & k' & E & Hr & Hk). unfold TimeOfNextInterrupt, TimerTicks.
  destruct randomize; unfold_M; [|by exists 100, k].
  rewrite E. exists (1 + Z.rem r (100 * 2)), k'. split_and!; try done; try apply Hk; lia.
Qed.

End Timer.

(** A machine whose only device is the timer; the host generator is the
    sequence [rand]. *)
Module TimerOnly.

Record TimerWorld := mkTimerWorld { randomize : bool; drawn : nat }.
Inductive TimerDevice := TimerHandler.

Section WithRand.
Context (rand : nat → Z).

Definition Random : M (kstate TimerWorld TimerDevice) Z := λ k,
  Ok (rand (drawn (world k)),
      mkK (intr k) (stats k) (mkTimerWorld (randomize (world k)) (S (drawn (world k))))).

Definition timer_platform : Platform TimerWorld TimerDevice := {|
  call_handler _ := k ← get; TimerExpired TimerHandler Random (randomize (world k));
  machine_DelayedLoad := mret tt;
  currentThread_Yield := mret tt
|}.

(** The timer keeps the promise of a device: each expiry schedules exactly
    one next expiry, between 1 and 200 ticks ahead (exactly 100 when it is not
    random), whatever non-negative numbers the host generator returns, and asks
    for a context switch. *)
Theorem TimerExpired_reschedules (rand_nonneg : ∀ n, 0 ≤ rand n) (k : kstate TimerWorld TimerDevice) :
  ∃ k' t, TimerExpired TimerHandler Random (randomize (world k)) k = Ok (tt, k') ∧
    schedules k k' ∧ 0 < t ≤ 200 ∧ (randomize (world k) = false → t = 100) ∧
    pending (intr k') =
      sorted_insert (now k + t) (mkPending TimerHandler (now k + t) TimerInt) (pending (intr k)) ∧
    (status (intr k) ≠ IdleMode → yieldOnReturn (intr k') = true).
Proof.
  destruct (TimeOfNextInterrupt_pos Random (randomize (world k)) k)
    as (t & k1 & E & Ht & Hi & Hst).
  { do 2 eexists. split_and!; [done|apply rand_nonneg|done|done]. }
  destruct (Schedule_schedules TimerHandler t TimerInt k1) as (k2 & E2 & Hs & Hw & Hst2 & Hi2); [lia|].
  unfold TimerExpired, TimerInterruptHandler, YieldOnReturn, set_yieldOnReturn, on_intr. unfold_M.
  rewrite E, E2. unfold now in *. rewrite Hi, Hst in *.
  assert (Hk2 : schedules k k2).
  { destruct Hs as [Hn Hl Hso Hnew]. unfold now in *. split; cbn; unfold now; cbn; rewrite ?Hi, ?Hst in *; auto. }
  assert (Hr : randomize (world k) = false → t = 100).
  { intros Hr. unfold TimeOfNextInterrupt in E. rewrite Hr in E. by inversion E. }
  unfold TimerTicks in Ht.
  case_bool_decide as Hidle.
  - eexists _, t. split_and!; try done; try lia.
    + destruct Hk2 as [Hn Hl Hso Hnew]. split; auto.
    + cbn. by rewrite Hi2.
  - eexists _, t. split_and!; try done; try lia.
    + by rewrite Hi2.
    + intros Hne. exfalso. apply Hne. by rewrite Hi2 in Hidle.
Qed.

Definition timer_platform_ok (rand_nonneg : ∀ n, 0 ≤ rand n) :
  @PlatformOK TimerWorld TimerDevice timer_platform.
Proof.
  refine {| plat_inv := λ _ : TimerWorld, True |}.
  - intros [] k _ _. cbn. unfold_M.
    destruct (TimeOfNextInterrupt_pos Random (randomize (world k)) k) as (t & k1 & E & Ht & Hi & Hst).
    { do 2 eexists. split_and!; [done|apply rand_nonneg|done|done]. }
    destruct (Schedule_schedules TimerHandler t TimerInt k1) as (k2 & E2 & [Hn Hl Hso Hnew] & _); [lia|].
    unfold TimerExpired, TimerInterruptHandler, YieldOnReturn, set_yieldOnReturn, on_intr. unfold_M.
    rewrite E, E2. unfold now in *. rewrite Hi, Hst in *.
    case_bool_decide; eexists; (split_and!; [done|done|split; auto]).
  - intros k _. cbn. eauto.
Defined.

End WithRand.

Definition booted : kstate TimerWorld TimerDevice :=
  mkK (mkInterrupt IntOff [(5, mkPending TimerHandler 5 TimerInt)] false false SystemMode)
      new_Statistics (mkTimerWorld false 0).

Lemma zero_nonneg : ∀ n : nat, 0 ≤ (λ _ : nat, 0) n.
Proof. intros n. lia. Defined.

End TimerOnly.

Lemma TimerExpired_reschedules_witness :
  ∃ k' t, TimerExpired TimerOnly.TimerHandler (TimerOnly.Random (λ _, 0)) false TimerOnly.booted
            = Ok (tt, k') ∧
    schedules TimerOnly.booted k' ∧ 0 < t ≤ 200 ∧ (false = false → t = 100) ∧
    pending (intr k') =
      sorted_insert (now TimerOnly.booted + t)
        (mkPending TimerOnly.TimerHandler (now TimerOnly.booted + t) TimerInt)
        (pending (intr TimerOnly.booted)) ∧
    (SystemMode ≠ IdleMode → yieldOnReturn (intr k') = true).
Proof.
  apply (TimerOnly.TimerExpired_reschedules (λ _, 0) TimerOnly.zero_nonneg TimerOnly.booted).
Defined.

Lemma OneTick_fires_all_due_witness :
  ∃ l kl qs, @handles _ _ (TimerOnly.timer_platform (λ _, 0)) l (at_tick TimerOnly.booted) kl ∧
    l ≡ₚ pending (intr TimerOnly.booted) ∧ yieldOnReturn (intr kl) = true ∧
    @OneTick _ _ (TimerOnly.timer_platform (λ _, 0)) TimerOnly.booted =
      (mret tt ≫= λ _, setStatus SystemMode) (yielding (unmasked qs kl)).
Proof.
  destruct (@OneTick_fires_all_due _ _ (TimerOnly.timer_platform (λ _, 0))
           (TimerOnly.timer_platform_ok (λ _, 0) TimerOnly.zero_nonneg) TimerOnly.booted)
    as (l & kl & qs & Hl & Hp & Hrest).
  - exact I.
  - repeat constructor.
  - discriminate.
  - reflexivity.
  - exists l, kl, qs. split; [exact Hl|]. split; [exact Hp|].
    assert (Hy : yieldOnReturn (intr kl) = true).
    { apply Permutation_singleton_r in Hp as ->. inversion Hl as [|? ? ? ? k1 ? Hpd _ Hhd Hn]; subst.
      inversion Hn; subst. injection Hpd as <-. destruct Hhd as (ka & kb & [= <-] & Hc & ->).
      vm_compute in Hc. injection Hc as <-. reflexivity. }
    split; [exact Hy|]. destruct Hrest as (_ & _ & _ & _ & _ & _ & _ & _ & _ & ->). cbn [unmasked intr yieldOnReturn].
    rewrite Hy. reflexivity.
Defined.

(** A disk interrupt is pending besides the timer. *)
Definition waiting : kstate TimerOnly.TimerWorld TimerOnly.TimerDevice :=
  mkK (mkInterrupt IntOff [(5, mkPending TimerOnly.TimerHandler 5 DiskInt); (90, mkPending TimerOnly.TimerHandler 90 TimerInt)]
         false false SystemMode) new_Statistics (TimerOnly.mkTimerWorld false 0).

Lemma Idle_advances_or_halts_witness :
  @Idle _ _ (TimerOnly.timer_platform (λ _, 0)) TimerOnly.booted = Err Halted ∧
  ∃ l kl qs, @handles _ _ (TimerOnly.timer_platform (λ _, 0)) ((5, mkPending TimerOnly.TimerHandler 5 DiskInt) :: l)
      (at_time 5 (idling waiting)) kl ∧
    @Idle _ _ (TimerOnly.timer_platform (λ _, 0)) waiting = Ok (tt, idled qs kl).
Proof.
  split.
  - destruct (@Idle_advances_or_halts _ _ (TimerOnly.timer_platform (λ _, 0))
      (TimerOnly.timer_platform_ok (λ _, 0) TimerOnly.zero_nonneg) TimerOnly.booted) as [[_ H]|H].
    + split; [exact I|reflexivity|]. repeat constructor.
    + reflexivity.
    + exact H.
    + destruct H as (w & p & ps & _ & _ & _ & _ & Hn & _). exfalso. apply Hn. eexists. split; reflexivity.
  - destruct (@Idle_advances_or_halts _ _ (TimerOnly.timer_platform (λ _, 0))
      (TimerOnly.timer_platform_ok (λ _, 0) TimerOnly.zero_nonneg) waiting) as [[[H|(q & H & _)] _]|H].
    + split; [exact I|reflexivity|]. repeat constructor; discriminate.
    + reflexivity.
    + discriminate H.
    + discriminate H.
    + destruct H as (w & p & ps & l & kl & qs & [= <- <- <-] & _ & Hh & _ & _ & _ & _ & E & _).
      exists l, kl, qs. split; [exact Hh|exact E].
Defined.
