(* ===== verification/OneThread.v ===== *)
(** * OneThread: semaphores and locks as a single thread runs them

    threads/synch.cc and [Thread::Sleep] of threads/thread.cc, for the drivers
    that turn a device into a call that blocks (filesys/synchdisk.cc,
    userprog/SynchConsole.cc).  The thread that calls them is the only one
    that is ready: when it blocks, the processor idles until the interrupt
    handler of a device wakes it.  The file [Synch] has the same objects with
    any number of threads. *)

From S2P Require Import Prelude LinkedList Interrupt.

(** A semaphore: its value, and whether the thread is in its queue. *)
Record lsem := mkSem { value : Z; waits : bool }.

(** A world with semaphores named by [N]; [ready] says whether the thread is
    on the ready list. *)
Class Sems (W N : Type) := {
  sem_of : N → W → lsem;
  set_sem : N → lsem → W → W;
  ready : W → bool;
  set_ready : bool → W → W
}.

(** Locks named by [L]: the two semaphores of each, and whether the thread is
    its [thname]. *)
Class Locks (W N L : Type) := {
  lock_sem : L → N;
  lock_semInvP : L → N;
  held : L → W → bool;
  set_held : L → bool → W → W
}.

Section Code.
Context {W H N : Type} `{!Sems W N}.
Abbreviation K := (kstate W H).

Definition on_world (f : W → W) : M K unit :=
  modify (λ k, mkK (intr k) (stats k) (f (world k))).

(** [Semaphore::V] with interrupts off, as an interrupt handler runs it. *)
Definition V_off (n : N) : M K unit :=
  x ← gets (λ k, sem_of n (world k));
  (if waits x then on_world (set_ready true) else mret tt) ≫= λ _,
  on_world (set_sem n (mkSem (value x + 1) false)).

Context `{!Platform W H}.

Definition V (n : N) : M K unit :=
  oldLevel ← SetLevel IntOff;
  V_off n ≫= λ _,
  SetLevel oldLevel ≫= λ _, mret tt.

(** [Thread::Sleep]: [Idle] until the thread is ready. *)
Fixpoint Sleep_loop (fuel : nat) : M K unit :=
  match fuel with
  | O => fail OutOfFuel
  | S fuel =>
      r ← gets (λ k, ready (world k));
      if (r : bool) then on_world (set_ready false) else Idle ≫= λ _, Sleep_loop fuel
  end.

(** An interrupt can fire at each round: one more round than are pending. *)
Definition Sleep : M K unit :=
  k ← get;
  ASSERT (bool_decide (level (intr k) = IntOff)) ≫= λ _,
  Sleep_loop (S (length (pending (intr k)))).

(** [while (value == 0) { queue->Append(currentThread); currentThread->Sleep(); }] *)
Fixpoint P_loop (fuel : nat) (n : N) : M K unit :=
  match fuel with
  | O => fail OutOfFuel
  | S fuel =>
      x ← gets (λ k, sem_of n (world k));
      if value x =? 0 then
        on_world (set_sem n (mkSem (value x) true)) ≫= λ _, Sleep ≫= λ _, P_loop fuel n
      else on_world (set_sem n (mkSem (value x - 1) (waits x)))
  end.

Definition P (n : N) : M K unit :=
  oldLevel ← SetLevel IntOff;
  P_loop 2 n ≫= λ _,
  SetLevel oldLevel ≫= λ _, mret tt.

Context {L : Type} `{!Locks W N L}.

(** With one thread [thname] is that thread or [NULL], and the test that
    raises the priority of another holder is never passed. *)
Definition Acquire (l : L) : M K unit :=
  h ← gets (λ k, held l (world k));
  if (h : bool) then mret tt
  else
    P (lock_semInvP l) ≫= λ _, V (lock_semInvP l) ≫= λ _,
    P (lock_sem l) ≫= λ _, on_world (set_held l true).

Definition Release (l : L) : M K unit :=
  h ← gets (λ k, held l (world k));
  ASSERT h ≫= λ _, on_world (set_held l false) ≫= λ _, V (lock_sem l).

(** A machine with interrupts [l], the pending list [p] and the world [w]. *)
Definition mk (l : IntStatus) p (y : bool) st (w : W) : K :=
  mkK (mkInterrupt l p false y SystemMode) st w.

Lemma SetLevel_disable p y st w :
  SetLevel IntOff (mk IntOn p y st w) = Ok (IntOn, mk IntOff p y st w).
Proof. done. Qed.

(** Interrupts on again: the clock ticks. *)
Lemma SetLevel_enable p y st w : SetLevel IntOn (mk IntOff p y st w) =
  match OneTick (mk IntOn p y st w) with Ok (_, k) => Ok (IntOff, k) | Err f => Err f end.
Proof. reflexivity. Qed.

End Code.
