(* ===== verification/Scheduler.v ===== *)
(** * Threads and the scheduler

    threads/thread.cc and threads/scheduler.cc: the thread control blocks, the
    three ready queues indexed by priority, the dispatcher and the operations
    of a thread that give up the processor.

    [sched] is the part of the kernel these files own: the live control blocks
    ([Thread *] is an identifier), the ready queues (lists, which
    [LinkedList.List_refines_sequence] justifies), the globals [currentThread]
    and [threadToBeDestroyed] of threads/system.cc, the interrupt level, and
    the user registers and page table pointer of the machine, which a context
    switch saves and restores.

    [SWITCH] is a jump, so [Scheduler::Run] is two definitions: [Run_before] is
    what the old thread does up to [SWITCH] and [Run_after] what a thread does
    when it comes back out of [SWITCH].  A thread that has never run starts in
    [ThreadRoot] instead ([th_fresh]).  The parts of thread.cc that need a port
    ([Finish], [Join]) are in Synch.v. *)

From S2P Require Import Prelude.
From S2P Require Import LinkedList.
From S2P Require Import Interrupt.

(** ** Data *)

Inductive ThreadStatus := JUST_CREATED | RUNNING | READY | BLOCKED.

#[export] Instance ThreadStatus_eq_dec : EqDecision ThreadStatus.
Proof. solve_decision. Defined.

Definition STACK_FENCEPOST : Z := 0xdeadbeef.
Definition NumTotalRegs : Z := 40.
Definition MaxPriority : nat := 3.

(** [th_stack] is the word at the bottom of the stack, [None] for the main
    thread; [th_fresh] says that the saved program counter is [ThreadRoot]. *)
Record Thread := mkThread {
  th_status : ThreadStatus;
  th_priority : Z;
  th_join : bool;
  th_portJoin : option Z;
  th_stack : option Z;
  th_fresh : bool;
  th_userRegisters : list Z;
  th_space : option Z;
  th_pid : Z
}.

Record sched := mkSched {
  threads : gmap Z Thread;
  readyListP : list (list Z);
  currentThread : Z;
  threadToBeDestroyed : option Z;
  s_level : IntStatus;
  registers : list Z;
  machine_pageTable : option Z
}.

(** Assignments to one field. *)
Definition th_setStatus (st : ThreadStatus) (t : Thread) : Thread :=
  mkThread st (th_priority t) (th_join t) (th_portJoin t) (th_stack t) (th_fresh t)
    (th_userRegisters t) (th_space t) (th_pid t).
Definition th_setPriority (p : Z) (t : Thread) : Thread :=
  mkThread (th_status t) p (th_join t) (th_portJoin t) (th_stack t) (th_fresh t)
    (th_userRegisters t) (th_space t) (th_pid t).
Definition th_setJoin (b : bool) (port : option Z) (t : Thread) : Thread :=
  mkThread (th_status t) (th_priority t) b port (th_stack t) (th_fresh t)
    (th_userRegisters t) (th_space t) (th_pid t).
Definition th_setStack (s : option Z) (fresh : bool) (t : Thread) : Thread :=
  mkThread (th_status t) (th_priority t) (th_join t) (th_portJoin t) s fresh
    (th_userRegisters t) (th_space t) (th_pid t).
Definition th_setRegisters (r : list Z) (t : Thread) : Thread :=
  mkThread (th_status t) (th_priority t) (th_join t) (th_portJoin t) (th_stack t) (th_fresh t)
    r (th_space t) (th_pid t).

Definition set_threads (m : gmap Z Thread) (s : sched) : sched :=
  mkSched m (readyListP s) (currentThread s) (threadToBeDestroyed s) (s_level s)
    (registers s) (machine_pageTable s).
Definition set_ready (q : list (list Z)) (s : sched) : sched :=
  mkSched (threads s) q (currentThread s) (threadToBeDestroyed s) (s_level s)
    (registers s) (machine_pageTable s).
Definition set_current (t : Z) (s : sched) : sched :=
  mkSched (threads s) (readyListP s) t (threadToBeDestroyed s) (s_level s)
    (registers s) (machine_pageTable s).
Definition set_toBeDestroyed (t : option Z) (s : sched) : sched :=
  mkSched (threads s) (readyListP s) (currentThread s) t (s_level s)
    (registers s) (machine_pageTable s).
Definition set_slevel (l : IntStatus) (s : sched) : sched :=
  mkSched (threads s) (readyListP s) (currentThread s) (threadToBeDestroyed s) l
    (registers s) (machine_pageTable s).
Definition set_registers (r : list Z) (s : sched) : sched :=
  mkSched (threads s) (readyListP s) (currentThread s) (threadToBeDestroyed s) (s_level s)
    r (machine_pageTable s).
Definition set_pageTable (p : option Z) (s : sched) : sched :=
  mkSched (threads s) (readyListP s) (currentThread s) (threadToBeDestroyed s) (s_level s)
    (registers s) p.

(** ** Operations *)

(** A [Thread *] dereferenced: the control block, if it is live. *)
Definition thread_at (t : Z) : M sched Thread := λ s,
  match threads s !! t with Some th => Ok (th, s) | None => Err BadPointer end.
Definition thread_upd (t : Z) (f : Thread → Thread) : M sched unit :=
  th ← thread_at t; modify (λ s, set_threads (<[t := f th]> (threads s)) s).

Definition new_Thread (junk : list Z) : Thread :=
  mkThread JUST_CREATED 0 false None None false junk None 0.

Definition new_Scheduler : list (list Z) := replicate MaxPriority [].

(** [readyListP[i]], read and assigned. *)
Definition queue_at (i : Z) : M sched (list Z) := λ s,
  if bool_decide (0 ≤ i) then
    match readyListP s !! Z.to_nat i with Some q => Ok (q, s) | None => Err OutOfBounds end
  else Err OutOfBounds.
Definition queue_set (i : Z) (q : list Z) : M sched unit :=
  modify (λ s, set_ready (<[Z.to_nat i := q]> (readyListP s)) s).

(** The methods of [List] that the scheduler calls on a queue. *)
Definition queue_Append (i t : Z) : M sched unit :=
  q ← queue_at i; queue_set i (q ++ [t]).
Definition queue_Prepend (i t : Z) : M sched unit :=
  q ← queue_at i; queue_set i (t :: q).
Definition queue_Remove (i : Z) : M sched (option Z) :=
  q ← queue_at i;
  match q with [] => mret None | t :: q' => queue_set i q' ≫= λ _, mret (Some t) end.
Definition queue_IsEmpty (i : Z) : M sched bool :=
  q ← queue_at i; mret (bool_decide (q = [])).

Definition ReadyToRun (t : Z) : M sched unit :=
  thread_upd t (th_setStatus READY) ≫= λ _,
  th ← thread_at t;
  queue_Append (th_priority th) t.

(** [while (p > 0 && readyListP[p]->IsEmpty()) p--]. *)
Fixpoint FindNext_loop (p : nat) : M sched Z :=
  match p with
  | O => mret 0
  | S p' => b ← queue_IsEmpty (Z.of_nat p);
            if b : bool then FindNext_loop p' else mret (Z.of_nat p)
  end.

Definition FindNextToRun : M sched (option Z) :=
  p ← FindNext_loop (MaxPriority - 1); queue_Remove p.

(** [machine->ReadRegister(i)] and [WriteRegister]. *)
Definition read_reg (i : Z) : M sched Z := λ s,
  if bool_decide (0 ≤ i) then
    match registers s !! Z.to_nat i with Some v => Ok (v, s) | None => Err AssertFailed end
  else Err AssertFailed.
Definition write_reg (i v : Z) : M sched unit := λ s,
  if bool_decide (0 ≤ i < NumTotalRegs)
  then Ok (tt, set_registers (<[Z.to_nat i := v]> (registers s)) s)
  else Err AssertFailed.

Definition SaveUserState (t : Z) : M sched unit :=
  for_loop (Z.to_nat NumTotalRegs) 0 (λ i,
    v ← read_reg i;
    thread_upd t (λ th, th_setRegisters (<[Z.to_nat i := v]> (th_userRegisters th)) th)).

Definition RestoreUserState (t : Z) : M sched unit :=
  for_loop (Z.to_nat NumTotalRegs) 0 (λ i,
    th ← thread_at t;
    match th_userRegisters th !! Z.to_nat i with
    | Some v => write_reg i v
    | None => fail OutOfBounds
    end).

(** userprog/addrspace.cc: [SaveState] does nothing, [RestoreState] loads the
    page table pointer of the machine. *)
Definition space_SaveState : M sched unit := mret tt.
Definition space_RestoreState (space : Z) : M sched unit := modify (set_pageTable (Some space)).

Definition CheckOverflow (t : Z) : M sched unit :=
  th ← thread_at t;
  match th_stack th with
  | Some fence => ASSERT (bool_decide (fence = STACK_FENCEPOST))
  | None => mret tt
  end.

(** [Thread::~Thread]. *)
Definition delete_Thread (t : Z) : M sched unit :=
  s ← get;
  ASSERT (negb (bool_decide (t = currentThread s))) ≫= λ _,
  thread_at t ≫= λ _, modify (λ s, set_threads (delete t (threads s)) s).

(** [Scheduler::Run] up to [SWITCH]. *)
Definition Run_before (nextThread : Z) : M sched unit :=
  oldThread ← gets currentThread;
  old ← thread_at oldThread;
  (match th_space old with
   | Some _ => SaveUserState oldThread ≫= λ _, space_SaveState
   | None => mret tt
   end) ≫= λ _,
  CheckOverflow oldThread ≫= λ _,
  modify (set_current nextThread) ≫= λ _,
  thread_upd nextThread (th_setStatus RUNNING).

(** [Scheduler::Run] from [SWITCH] on, in the thread that is resumed. *)
Definition Run_after : M sched unit :=
  d ← gets threadToBeDestroyed;
  (match d with
   | Some t => delete_Thread t ≫= λ _, modify (set_toBeDestroyed None)
   | None => mret tt
   end) ≫= λ _,
  c ← gets currentThread;
  th ← thread_at c;
  match th_space th with
  | Some sp => RestoreUserState c ≫= λ _, space_RestoreState sp
  | None => mret tt
  end.

(** [Scheduler::Run] as the processor executes it: the old thread up to
    [SWITCH], then the next one, either in [ThreadRoot] or after its [SWITCH]. *)
Definition Run (nextThread : Z) : M sched unit :=
  Run_before nextThread ≫= λ _,
  th ← thread_at nextThread;
  if th_fresh th then thread_upd nextThread (λ th, th_setStack (th_stack th) false th)
  else Run_after.

(** [while ((thread1 = readyListP[i]->Remove()) != threadh)] of
    [Scheduler::ChangeQueuePriority]; every iteration takes one thread out of
    the queue before [threadh].  (Were [threadh] not in the queue, the loop would
    append and remove [NULL] for ever.) *)
Fixpoint Change_loop (fuel : nat) (i priority th threadh : Z) : M sched unit :=
  match fuel with
  | O => fail OutOfFuel
  | S n =>
      thread1 ← queue_Remove i;
      if bool_decide (thread1 = Some threadh) then mret tt
      else
        (match thread1 with
         | Some t1 => if bool_decide (t1 = th) then queue_Prepend priority th
                      else queue_Append i t1
         | None => fail OutOfFuel
         end) ≫= λ _,
        Change_loop n i priority th threadh
  end.

(** [threadh->getName()] of the DEBUG call is evaluated before the call, so an
    empty queue is a null dereference. *)
Definition ChangeQueuePriority (th priority : Z) : M sched unit :=
  t ← thread_at th;
  let i := th_priority t in
  r ← queue_Remove i;
  threadh ← deref r;
  thread_at threadh ≫= λ _,
  if bool_decide (threadh = th) then queue_Prepend priority th
  else
    queue_Append i threadh ≫= λ _,
    q ← queue_at i;
    Change_loop (length q) i priority th threadh.

(** [Thread::Yield] up to the return of [SWITCH] in the thread that gets the
    processor; the caller's own [SetLevel(oldLevel)] comes when it is
    dispatched again. *)
Definition Yield (this : Z) : M sched bool :=
  oldLevel ← gets s_level;
  modify (set_slevel IntOff) ≫= λ _,
  cur ← gets currentThread;
  ASSERT (bool_decide (this = cur)) ≫= λ _,
  nextThread ← FindNextToRun;
  match nextThread with
  | Some n => ReadyToRun this ≫= λ _, Run n ≫= λ _, mret true
  | None => modify (set_slevel oldLevel) ≫= λ _, mret false
  end.

(** [Thread::Sleep]: the status, and one round of its [while]: [false] when
    the queues are empty and the caller has to idle and try again. *)
Definition Sleep_begin (this : Z) : M sched unit :=
  s ← get;
  ASSERT (bool_decide (this = currentThread s)) ≫= λ _,
  ASSERT (bool_decide (s_level s = IntOff)) ≫= λ _,
  thread_upd this (th_setStatus BLOCKED).
Definition Sleep_round : M sched bool :=
  nextThread ← FindNextToRun;
  match nextThread with
  | Some n => Run n ≫= λ _, mret true
  | None => mret false
  end.

(** [Thread::StackAllocate]: a stack with its fencepost, and [ThreadRoot] as the
    program counter [SWITCH] will load. *)
Definition StackAllocate (t : Z) : M sched unit :=
  thread_upd t (th_setStack (Some STACK_FENCEPOST) true).

(** [Thread::Fork]; [port] is the [Puerto] it creates when [j] is 0. *)
Definition Fork (t port j p : Z) : M sched unit :=
  StackAllocate t ≫= λ _,
  (if bool_decide (j = 0) then thread_upd t (th_setJoin true (Some port)) else mret tt) ≫= λ _,
  thread_upd t (th_setPriority p) ≫= λ _,
  oldLevel ← gets s_level;
  modify (set_slevel IntOff) ≫= λ _,
  ReadyToRun t ≫= λ _,
  modify (set_slevel oldLevel).

(** [Thread::Finish] after the message to the parent. *)
Definition Finish_end (this : Z) : M sched unit :=
  c ← gets currentThread;
  modify (set_toBeDestroyed (Some c)) ≫= λ _,
  Sleep_begin this.

(** ** Facts about the operations *)

Section Facts.
Implicit Types (s : sched) (t n : Z) (th : Thread).

Lemma thread_upd_ok t f s th : threads s !! t = Some th →
  thread_upd t f s = Ok (tt, set_threads (alter f t (threads s)) s).
Proof.
  intros H. unfold thread_upd, thread_at. unfold_M. rewrite H.
  do 3 f_equal. apply map_eq. intros j. destruct (decide (j = t)) as [->|Hj].
  - by rewrite lookup_insert_eq, lookup_alter_eq, H.
  - by rewrite lookup_insert_ne, lookup_alter_ne by done.
Qed.

(** The three queues. *)
Lemma queue_at_ok i q s : 0 ≤ i → readyListP s !! Z.to_nat i = Some q → queue_at i s = Ok (q, s).
Proof. intros Hi Hq. unfold queue_at. rewrite bool_decide_eq_true_2 by done. by rewrite Hq. Qed.

Lemma ReadyToRun_ok t s th q :
  threads s !! t = Some th → 0 ≤ th_priority th →
  readyListP s !! Z.to_nat (th_priority th) = Some q →
  ReadyToRun t s = Ok (tt, set_ready (<[Z.to_nat (th_priority th) := q ++ [t]]> (readyListP s))
                            (set_threads (alter (th_setStatus READY) t (threads s)) s)).
Proof.
  intros Ht Hp Hq. unfold ReadyToRun, thread_at, queue_Append, queue_set. unfold_M.
  rewrite (thread_upd_ok t _ s th) by done. cbn.
  rewrite lookup_alter_eq, Ht. cbn.
  by rewrite (queue_at_ok _ q) by done.
Qed.

(** The three registers loops in closed form. *)
Lemma SaveUserState_ok t s th :
  threads s !! t = Some th → length (registers s) = Z.to_nat NumTotalRegs →
  length (th_userRegisters th) = Z.to_nat NumTotalRegs →
  SaveUserState t s = Ok (tt, set_threads (alter (th_setRegisters (registers s)) t (threads s)) s).
Proof.
  intros Ht Hr Hu. set (R := registers s). set (U := th_userRegisters th).
  destruct (for_loop_inv (λ i s', s' = set_threads
      (alter (th_setRegisters (take (Z.to_nat i) R ++ drop (Z.to_nat i) U)) t (threads s)) s)
      (Z.to_nat NumTotalRegs) 0 (λ i, v ← read_reg i;
    thread_upd t (λ th, th_setRegisters (<[Z.to_nat i := v]> (th_userRegisters th)) th)) s)
    as (s' & E & ->).
  - cbn. destruct s as [T rq c d l rs pt]. unfold set_threads. cbn in *. f_equal.
    apply map_eq. intros j. destruct (decide (j = t)) as [->|Hj].
    + rewrite lookup_alter_eq, Ht. cbn. f_equal. by destruct th.
    + by rewrite lookup_alter_ne.
  - intros i s' Hi ->. destruct (lookup_lt_is_Some_2 R (Z.to_nat i)) as [v Hv]; [unfold R; lia|].
    eexists. split; [|reflexivity]. unfold read_reg. unfold_M.
    rewrite bool_decide_eq_true_2 by lia. cbn [registers set_threads]. fold R. rewrite Hv.
    erewrite thread_upd_ok by (cbn; rewrite lookup_alter_eq, Ht; done).
    cbn. do 2 f_equal. unfold set_threads. cbn. f_equal.
    apply map_eq. intros j. destruct (decide (j = t)) as [->|Hj].
    + rewrite !lookup_alter_eq, Ht. cbn. f_equal. unfold th_setRegisters. cbn. f_equal.
      rewrite (splice_step R U _ v Hv) by (unfold R, U; lia). do 2 f_equal; lia.
    + by rewrite !lookup_alter_ne.
  - unfold SaveUserState. rewrite E. do 4 f_equal.
    cbn [Z.add]. rewrite Z2Nat.id by done.
    unfold R, U. rewrite take_ge, drop_ge by lia. by rewrite app_nil_r.
Qed.

Lemma RestoreUserState_ok t s th :
  threads s !! t = Some th → length (registers s) = Z.to_nat NumTotalRegs →
  length (th_userRegisters th) = Z.to_nat NumTotalRegs →
  RestoreUserState t s = Ok (tt, set_registers (th_userRegisters th) s).
Proof.
  intros Ht Hr Hu. set (R := registers s). set (U := th_userRegisters th).
  destruct (for_loop_inv (λ i s', s' = set_registers (take (Z.to_nat i) U ++ drop (Z.to_nat i) R) s)
      (Z.to_nat NumTotalRegs) 0 (λ i, th ← thread_at t;
    match th_userRegisters th !! Z.to_nat i with
    | Some v => write_reg i v
    | None => fail OutOfBounds
    end) s)
    as (s' & E & ->).
  - unfold R. by destruct s.
  - intros i s' Hi ->. destruct (lookup_lt_is_Some_2 U (Z.to_nat i)) as [v Hv]; [unfold U; lia|].
    eexists. split; [|reflexivity]. unfold thread_at, write_reg. unfold_M.
    cbn [threads set_registers]. rewrite Ht. fold U. rewrite Hv.
    rewrite bool_decide_eq_true_2 by lia. do 2 f_equal. unfold set_registers. cbn. f_equal.
    rewrite (splice_step U R _ v Hv) by (unfold R, U; lia). do 2 f_equal; lia.
  - unfold RestoreUserState. rewrite E. do 3 f_equal.
    cbn [Z.add]. rewrite Z2Nat.id by done.
    unfold R, U. rewrite take_ge, drop_ge by lia. by rewrite app_nil_r.
Qed.

(** What [FindNextToRun] picks: the head of the highest non-empty queue. *)
Lemma FindNextToRun_cases s : length (readyListP s) = MaxPriority →
  (FindNextToRun s = Ok (None, s) ∧ ∀ q, q ∈ readyListP s → q = []) ∨
  (∃ i t q, FindNextToRun s = Ok (Some t, set_ready (<[i := q]> (readyListP s)) s) ∧
     readyListP s !! i = Some (t :: q) ∧
     ∀ j q', (i < j)%nat → readyListP s !! j = Some q' → q' = []).
Proof.
  intros Hl. destruct s as [T rq c d l rs pt]. cbn in Hl.
  destruct rq as [|q0 [|q1 [|q2 [|]]]]; try done.
  destruct q2 as [|t q2']; [|right; exists 2%nat, t, q2'; split_and!; [done|done|]].
  - destruct q1 as [|t q1']; [|right; exists 1%nat, t, q1'; split_and!; [done|done|]].
    + destruct q0 as [|t q0']; [left; split; [done|]|right; exists 0%nat, t, q0'; split_and!; [done|done|]].
      * cbn. intros q Hq. set_solver.
      * intros [|[|[|]]] q' Hj; cbn; try lia; intros [=]; done.
    + intros [|[|[|]]] q' Hj; cbn; try lia; intros [=]; done.
  - intros [|[|[|]]] q' Hj; cbn; try lia; intros [=]; done.
Qed.

Lemma Run_before_ok n s old thn :
  threads s !! currentThread s = Some old → threads s !! n = Some thn →
  (∀ f, th_stack old = Some f → f = STACK_FENCEPOST) →
  length (registers s) = Z.to_nat NumTotalRegs →
  length (th_userRegisters old) = Z.to_nat NumTotalRegs →
  Run_before n s = Ok (tt, set_current n (set_threads (alter (th_setStatus RUNNING) n
     (match th_space old with
      | Some _ => alter (th_setRegisters (registers s)) (currentThread s) (threads s)
      | None => threads s
      end)) s)).
Proof.
  intros Hc Hn Hf Hr Hu. unfold Run_before, CheckOverflow. unfold_M.
  unfold thread_at at 1. rewrite Hc.
  assert (∃ th, threads (set_threads (alter (th_setRegisters (registers s)) (currentThread s) (threads s)) s) !! n
    = Some th) as [th' Hn'].
  { cbn. destruct (decide (n = currentThread s)) as [->|Hne].
    - rewrite lookup_alter_eq, Hc. by eexists.
    - rewrite lookup_alter_ne by done. by eexists. }
  destruct (th_space old); unfold thread_at.
  - rewrite (SaveUserState_ok _ s old) by done. cbn. rewrite lookup_alter_eq, Hc. cbn.
    destruct (th_stack old) as [f|] eqn:Es.
    + rewrite bool_decide_eq_true_2 by auto. cbn. by erewrite thread_upd_ok.
    + by erewrite thread_upd_ok.
  - rewrite Hc. destruct (th_stack old) as [f|] eqn:Es.
    + rewrite bool_decide_eq_true_2 by auto. cbn. by erewrite thread_upd_ok.
    + by erewrite thread_upd_ok.
Qed.

End Facts.

(** ** The invariant

    [idle] is true while the current thread has given up the processor but
    nobody else has it yet (the loop of [Thread::Sleep], or [Yield] just before
    [Run]); [taken] is the thread that [FindNextToRun] has taken off its queue
        and that does not run yet; [lost] are the threads that priority inheritance
    has dropped from their queue, which are ready and in no queue. *)
Record sched_wf (idle : bool) (taken : option Z) (lost : list Z) (s : sched) : Prop := {
  wf_queues : length (readyListP s) = MaxPriority;
  wf_nodup : NoDup (concat (readyListP s));
  wf_ready : ∀ i q t, readyListP s !! i = Some q → t ∈ q →
    ∃ th, threads s !! t = Some th ∧ th_status th = READY ∧ th_priority th = Z.of_nat i;
  wf_queued : ∀ t th, threads s !! t = Some th → th_status th = READY →
    t ∈ concat (readyListP s) ∨ taken = Some t ∨ t ∈ lost;
  wf_taken : ∀ t, taken = Some t → (t ∉ concat (readyListP s)) ∧
    ∃ th, threads s !! t = Some th ∧ th_status th = READY;
  wf_current : ∃ th, threads s !! currentThread s = Some th ∧
    if idle then th_status th = READY ∨ th_status th = BLOCKED else th_status th = RUNNING;
  wf_running : ∀ t th, threads s !! t = Some th → th_status th = RUNNING → t = currentThread s;
  wf_threads : ∀ t th, threads s !! t = Some th →
    0 ≤ th_priority th < Z.of_nat MaxPriority ∧
    length (th_userRegisters th) = Z.to_nat NumTotalRegs ∧
    (∀ f, th_stack th = Some f → f = STACK_FENCEPOST);
  wf_registers : length (registers s) = Z.to_nat NumTotalRegs;
  wf_destroyed : ∀ d, threadToBeDestroyed s = Some d →
    (idle = false → d ≠ currentThread s) ∧
    ∃ th, threads s !! d = Some th ∧ th_status th = BLOCKED;
  wf_lost : ∀ t, t ∈ lost → (t ∉ concat (readyListP s)) ∧ taken ≠ Some t ∧
    ∃ th, threads s !! t = Some th ∧ th_status th = READY
}.

Section Invariant.
Context {L : list Z}.
Implicit Types (s : sched) (t n : Z) (th : Thread).

Lemma FindNextToRun_wf idle s : sched_wf idle None L s →
  (FindNextToRun s = Ok (None, s) ∧ concat (readyListP s) = []) ∨
  (∃ t s', FindNextToRun s = Ok (Some t, s') ∧ sched_wf idle (Some t) L s' ∧
     concat (readyListP s) ≡ₚ t :: concat (readyListP s') ∧
     s' = set_ready (readyListP s') s).
Proof.
  intros Hwf. destruct (FindNextToRun_cases s (wf_queues _ _ _ _ Hwf)) as [[E He]|(i & t & q & E & Hi & Hj)].
  - left. split; [done|]. destruct (concat (readyListP s)) as [|x l] eqn:Ec; [done|].
    assert (x ∈ concat (readyListP s)) as Hx by (rewrite Ec; set_solver).
    apply elem_of_concat_lookup in Hx as (j & q & Hq & Hx).
    apply list_elem_of_lookup_2, He in Hq. subst q. set_solver.
  - right. exists t. eexists. split; [exact E|].
    destruct (concat_insert _ _ _ Hi) as (rest & Hc & Hc'). specialize (Hc' q).
    destruct Hwf as [Hl Hnd Hr Hq Htk Hcur Hrun Hth Hreg Hd Hls].
    rewrite Hc in Hnd. cbn in Hnd. apply NoDup_cons in Hnd as [Hnin Hnd]. rewrite <- Hc' in Hnd, Hnin.
    destruct (Hr i _ t Hi ltac:(set_solver)) as (th & Ht & Hst & Hp).
    split_and!; [|cbn; by rewrite Hc, Hc'|done].
    split; cbn; try done.
    + by rewrite length_insert.
    + intros j q' t' Hj' Ht'. apply list_lookup_insert_Some in Hj' as [(<- & <- & _)|(Hne & Hj')].
      * apply (Hr i (t :: q)); [done|set_solver].
      * by apply (Hr j q').
    + intros t' th' Ht' Hst'. destruct (Hq t' th' Ht' Hst') as [Hin|[|]]; [|done|by right; right].
      rewrite Hc in Hin. rewrite Hc'. set_solver.
    + intros t' [= <-]. split; [done|]. by exists th.
    + intros t' Ht'. destruct (Hls t' Ht') as (Hn & _ & Hth'). rewrite Hc in Hn. rewrite Hc'.
      split_and!; [set_solver| |done]. intros [= <-]. set_solver.
Qed.

Lemma ReadyToRun_wf idle taken s t th : sched_wf idle taken L s →
  threads s !! t = Some th → th_status th ≠ READY →
  threadToBeDestroyed s ≠ Some t →
  ∃ s', ReadyToRun t s = Ok (tt, s') ∧
    sched_wf (idle || bool_decide (t = currentThread s)) taken L s' ∧
    (∃ q, readyListP s !! Z.to_nat (th_priority th) = Some q ∧
     readyListP s' = <[Z.to_nat (th_priority th) := q ++ [t]]> (readyListP s)) ∧
    s' = set_ready (readyListP s') (set_threads (alter (th_setStatus READY) t (threads s)) s).
Proof.
  intros Hwf Ht Hst Hnd.
  destruct (wf_threads _ _ _ _ Hwf t th Ht) as (Hp & _ & _).
  destruct (lookup_lt_is_Some_2 (readyListP s) (Z.to_nat (th_priority th))) as [q Hq].
  { rewrite (wf_queues _ _ _ _ Hwf). lia. }
  rewrite (ReadyToRun_ok t s th q Ht ltac:(lia) Hq).
  eexists. split_and!; [done| |exists q; by split|done].
  destruct (concat_insert _ _ _ Hq) as (rest & Hc & Hc'). specialize (Hc' (q ++ [t])).
  destruct Hwf as [Hl Hndq Hr Hqd Htk Hcur Hrun Hth Hreg Hd Hls].
  assert (Hnin : t ∉ concat (readyListP s)).
  { intros (j & q' & Hj & Hin)%elem_of_concat_lookup.
    destruct (Hr j q' t Hj Hin) as (th' & E & Hs & _). congruence. }
  assert (Hcc : concat (<[Z.to_nat (th_priority th) := q ++ [t]]> (readyListP s)) ≡ₚ
                t :: concat (readyListP s)).
  { rewrite Hc', Hc. by rewrite <- Permutation_middle, (Permutation_app_comm q []). }
  split; cbn; try done.
  - by rewrite length_insert.
  - rewrite Hcc. by constructor.
  - intros j q' t' Hj Ht'. apply list_lookup_insert_Some in Hj as [(<- & <- & _)|(Hne & Hj)].
    + apply elem_of_app in Ht' as [Ht'|Ht'%list_elem_of_singleton].
      * destruct (Hr _ _ t' Hq Ht') as (th' & E & Hs & Hpr). exists th'.
        rewrite lookup_alter_ne; [done|]. intros ->. congruence.
      * subst t'. rewrite lookup_alter_eq, Ht. eexists. split; [done|]. cbn. split; [done|lia].
    + destruct (Hr _ _ t' Hj Ht') as (th' & E & Hs & Hpr). exists th'.
      rewrite lookup_alter_ne; [done|]. intros ->. congruence.
  - intros t' th' Ht' Hs. rewrite Hcc. apply lookup_alter_Some in Ht' as [(<- & _)|(Hne & Ht')].
    + left. set_solver.
    + destruct (Hqd t' th' Ht' Hs) as [|]; [left; set_solver|by right].
  - intros t' Ht'. destruct (Htk t' Ht') as (Hnt & th' & E & Hs).
    assert (t ≠ t') by (intros ->; congruence).
    rewrite Hcc. split; [set_solver|]. exists th'. by rewrite lookup_alter_ne.
  - destruct Hcur as (c & Hc1 & Hc2). case_bool_decide as Htc.
    + subst t. rewrite lookup_alter_eq, Hc1, orb_true_r. eexists. split; [done|]. by left.
    + rewrite lookup_alter_ne by done. exists c. by rewrite orb_false_r.
  - intros t' th' Ht' Hs. apply lookup_alter_Some in Ht' as [(<- & th0 & _ & ->)|(Hne & Ht')]; [done|].
    by eapply Hrun.
  - intros t' th' Ht'. apply lookup_alter_Some in Ht' as [(<- & th0 & Ht0 & ->)|(Hne & Ht')].
    + by apply (Hth t th0).
    + by eapply Hth.
  - intros d Hds. destruct (Hd d Hds) as (Hne & th' & E & Hs). split.
    + intros [Hi _]%orb_false_iff. auto.
    + exists th'. rewrite lookup_alter_ne by congruence. done.
  - intros t' Ht'. destruct (Hls t' Ht') as (Hn & Hnt & th' & E & Hs).
    assert (t ≠ t') by (intros ->; congruence).
    rewrite Hcc. split_and!; [set_solver|done|]. exists th'. by rewrite lookup_alter_ne.
Qed.

Lemma lookup_save (sp : option Z) r c (m : gmap Z Thread) t th :
  (match sp with Some _ => alter (th_setRegisters r) c m | None => m end) !! t = Some th →
  ∃ th0, m !! t = Some th0 ∧ (th = th0 ∨ t = c ∧ th = th_setRegisters r th0).
Proof.
  destruct sp; [|by eauto].
  intros [(<- & th0 & H & ->)|(Hne & H)]%lookup_alter_Some; eauto.
Qed.

Lemma lookup_save_mono (sp : option Z) r c (m : gmap Z Thread) t th0 :
  m !! t = Some th0 →
  ∃ th, (match sp with Some _ => alter (th_setRegisters r) c m | None => m end) !! t = Some th ∧
    (th = th0 ∨ t = c ∧ th = th_setRegisters r th0).
Proof.
  intros H. destruct sp; [|by eauto]. destruct (decide (t = c)) as [->|Hne].
  - rewrite lookup_alter_eq, H. eauto.
  - rewrite lookup_alter_ne by done. eauto.
Qed.

(** The two halves of [Run]: the dispatched thread is the running one. *)
Lemma Run_before_wf n s : sched_wf true (Some n) L s →
  ∃ s', Run_before n s = Ok (tt, s') ∧ sched_wf false None L s' ∧ currentThread s' = n ∧
    readyListP s' = readyListP s ∧ s_level s' = s_level s ∧
    threadToBeDestroyed s' = threadToBeDestroyed s.
Proof.
  intros [Hl Hndq Hr Hqd Htk Hcur Hrun Hth Hreg Hd Hls].
  destruct (Htk n eq_refl) as (Hnin & thn & Hn & Hns). destruct Hcur as (old & Hc & Hcs).
  destruct (Hth _ _ Hc) as (_ & Hlu & Hf).
  rewrite (Run_before_ok n s old thn) by done.
  eexists. split_and!; try done.
  set (m := match th_space old with Some _ => _ | None => _ end).
  assert (Hm : ∀ t th, m !! t = Some th → ∃ th0, threads s !! t = Some th0 ∧
     (th = th0 ∨ t = currentThread s ∧ th = th_setRegisters (registers s) th0)).
  { intros t th. apply lookup_save. }
  assert (Hm' : ∀ t th0, threads s !! t = Some th0 → ∃ th, m !! t = Some th ∧
     (th = th0 ∨ t = currentThread s ∧ th = th_setRegisters (registers s) th0)).
  { intros t th. apply lookup_save_mono. }
  assert (Hms : ∀ t th, m !! t = Some th → ∃ th0, threads s !! t = Some th0 ∧
     th_status th = th_status th0 ∧ th_priority th = th_priority th0 ∧ th_stack th = th_stack th0 ∧
     length (th_userRegisters th) = Z.to_nat NumTotalRegs).
  { intros t th (th0 & E & [->|[-> ->]])%Hm; exists th0; split_and!; try done. by eapply Hth. }
  clearbody m. split; cbn; try done.
  - intros i q t Hi Ht. destruct (Hr i q t Hi Ht) as (th0 & E & Hs & Hp).
    assert (n ≠ t). { intros ->. apply Hnin, elem_of_concat_lookup. eauto. }
    rewrite lookup_alter_ne by done.
    destruct (Hm' t th0 E) as (th & E' & [->|[-> ->]]); eauto.
  - intros t th [(<- & th0 & _ & ->)|(Hne & (th0 & E & Hst & _)%Hms)]%lookup_alter_Some Hs; [done|].
    rewrite Hst in Hs. destruct (Hqd t th0 E Hs) as [|[[= ->]|]]; [by left|done|by right; right].
  - destruct (Hm' n thn Hn) as (th & E & _). rewrite lookup_alter_eq, E. eauto.
  - intros t th [(<- & _)|(Hne & (th0 & E & Hst & _)%Hms)]%lookup_alter_Some Hs; [done|].
    rewrite Hst in Hs. pose proof (Hrun t th0 E Hs) as ->. exfalso.
    rewrite Hc in E. injection E as <-. rewrite Hs in Hcs. by destruct Hcs.
  - intros t th [(<- & th1 & (th0 & E & Hst & Hp & Hsk & Hul)%Hms & ->)
                |(Hne & (th0 & E & Hst & Hp & Hsk & Hul)%Hms)]%lookup_alter_Some; cbn;
    rewrite Hp, Hsk; destruct (Hth _ _ E) as (? & ? & ?); done.
  - intros d Hds. destruct (Hd d Hds) as (_ & th0 & E & Hs).
    assert (n ≠ d) by (intros ->; congruence). split; [by intros _ ->|].
    rewrite lookup_alter_ne by done. destruct (Hm' d th0 E) as (th & E' & [->|[-> ->]]); eauto.
  - intros t Ht. destruct (Hls t Ht) as (Hnt & Htn & th0 & E & Hs). split_and!; [done|done|].
    rewrite lookup_alter_ne by congruence. destruct (Hm' t th0 E) as (th & E' & [->|[-> ->]]); eauto.
Qed.

Lemma Run_after_wf s : sched_wf false None L s →
  ∃ s' th, Run_after s = Ok (tt, s') ∧ sched_wf false None L s' ∧ currentThread s' = currentThread s ∧
    readyListP s' = readyListP s ∧ s_level s' = s_level s ∧ threadToBeDestroyed s' = None ∧
    threads s' = match threadToBeDestroyed s with Some d => delete d (threads s) | None => threads s end ∧
    threads s !! currentThread s = Some th ∧
    registers s' = match th_space th with Some _ => th_userRegisters th | None => registers s end ∧
    machine_pageTable s' = match th_space th with Some sp => Some sp | None => machine_pageTable s end.
Proof.
  intros [Hl Hndq Hr Hqd Htk Hcur Hrun Hth Hreg Hd Hls]. destruct Hcur as (c & Hc & Hcs).
  set (m := match threadToBeDestroyed s with Some d => delete d (threads s) | None => threads s end).
  set (s1 := set_toBeDestroyed None (set_threads m s)).
  assert (Hm : ∀ t th, m !! t = Some th → threads s !! t = Some th).
  { unfold m. destruct (threadToBeDestroyed s); [|done]. by intros t th [_ H]%lookup_delete_Some. }
  assert (Hm' : ∀ t th, threads s !! t = Some th → th_status th ≠ BLOCKED → m !! t = Some th).
  { unfold m. intros t th E Hs. destruct (threadToBeDestroyed s) as [d|] eqn:Ed; [|done].
    destruct (Hd d eq_refl) as (_ & th0 & E0 & Hs0). rewrite lookup_delete_ne; congruence. }
  assert (Ed : ∀ A (k : M sched A), (match threadToBeDestroyed s with
     | Some t => delete_Thread t ≫= λ _, modify (set_toBeDestroyed None)
     | None => mret tt end ≫= λ _ : unit, k) s = k s1).
  { intros A k. unfold s1, m. destruct (threadToBeDestroyed s) as [d|] eqn:Ed.
    - destruct (Hd d eq_refl) as (Hne & th0 & E0 & Hs0). unfold delete_Thread, thread_at. unfold_M.
      rewrite bool_decide_eq_false_2 by auto. cbn. by rewrite E0.
    - unfold_M. f_equal. destruct s. cbn in *. by subst. }
  assert (Hwf1 : sched_wf false None L s1).
  { split; cbn; try done.
    - intros i q t Hi Ht. destruct (Hr i q t Hi Ht) as (th & E & Hs & Hp). exists th.
      split_and!; try done. apply Hm'; [done|congruence].
    - intros t th Ht. apply Hqd. by apply Hm.
    - exists c. split; [|done]. apply Hm'; [done|congruence].
    - intros t th Ht. apply Hrun. by apply Hm.
    - intros t th Ht. apply (Hth t). by apply Hm.
    - intros t Ht. destruct (Hls t Ht) as (Hnt & Htn & th & E & Hs). split_and!; [done|done|].
      exists th. split; [|done]. apply Hm'; [done|congruence]. }
  unfold Run_after. unfold mbind at 1, M_bind at 1, gets at 1. rewrite Ed. unfold_M.
  change (currentThread s1) with (currentThread s). unfold thread_at.
  assert (Hc1 : threads s1 !! currentThread s = Some c) by (apply Hm'; [done|congruence]).
  rewrite Hc1. destruct (th_space c) as [sp|] eqn:Esp.
  - destruct (Hth _ _ Hc) as (_ & Hlu & _).
    rewrite (RestoreUserState_ok _ s1 c Hc1 Hreg Hlu). unfold space_RestoreState, modify.
    eexists _, c. rewrite Esp. split_and!; try done.
    destruct Hwf1. split; try done.
  - exists s1, c. rewrite Esp. by split_and!.
Qed.

(** The invariant does not look at the other fields of a control block. *)
Lemma wf_relabel idle taken s (f : Thread → Thread) n :
  (∀ th, th_status (f th) = th_status th ∧ th_priority (f th) = th_priority th ∧
     th_stack (f th) = th_stack th ∧ th_userRegisters (f th) = th_userRegisters th) →
  sched_wf idle taken L s → sched_wf idle taken L (set_threads (alter f n (threads s)) s).
Proof.
  intros Hf [Hl Hndq Hr Hqd Htk Hcur Hrun Hth Hreg Hd Hls].
  assert (Hm : ∀ t th, alter f n (threads s) !! t = Some th →
    ∃ th0, threads s !! t = Some th0 ∧ th_status th = th_status th0 ∧
      th_priority th = th_priority th0 ∧ th_stack th = th_stack th0 ∧
      th_userRegisters th = th_userRegisters th0).
  { intros t th [(<- & th0 & H & ->)|(Hne & H)]%lookup_alter_Some; eauto 10. }
  assert (Hm' : ∀ t th0, threads s !! t = Some th0 →
    ∃ th, alter f n (threads s) !! t = Some th ∧
      th_status th = th_status th0 ∧ th_priority th = th_priority th0).
  { intros t th0 H. destruct (decide (t = n)) as [->|Hne].
    - rewrite lookup_alter_eq, H. destruct (Hf th0) as (? & ? & _). cbn. eauto.
    - rewrite lookup_alter_ne by done. eauto. }
  split; cbn; try done.
  - intros i q t Hi Ht. destruct (Hr i q t Hi Ht) as (th0 & E & Hs0 & Hp0).
    destruct (Hm' _ _ E) as (th & E' & Hs' & Hp'). exists th. split_and!; [done|congruence..].
  - intros t th (th0 & E & Hs' & _)%Hm Hst. apply (Hqd t th0 E). congruence.
  - intros t Ht. destruct (Htk t Ht) as (Hn & th0 & E & Hs0). split; [done|].
    destruct (Hm' _ _ E) as (th & E' & Hs' & _). exists th. split; [done|congruence].
  - destruct Hcur as (c & Hc & Hs). destruct (Hm' _ _ Hc) as (th & E' & Hs' & _).
    exists th. split; [done|]. by rewrite Hs'.
  - intros t th (th0 & E & Hs' & _)%Hm Hst. apply (Hrun t th0 E). congruence.
  - intros t th (th0 & E & Hs' & Hp' & Hk' & Hu')%Hm. rewrite Hp', Hk', Hu'. by eapply Hth.
  - intros d Hds. destruct (Hd d Hds) as (Hne & th0 & E & Hs0). split; [done|].
    destruct (Hm' _ _ E) as (th & E' & Hs' & _). exists th. split; [done|congruence].
  - intros t Ht. destruct (Hls t Ht) as (Hnt & Htn & th0 & E & Hs0). split_and!; [done|done|].
    destruct (Hm' _ _ E) as (th & E' & Hs' & _). exists th. split; [done|congruence].
Qed.

Lemma Run_wf n s : sched_wf true (Some n) L s →
  ∃ s', Run n s = Ok (tt, s') ∧ sched_wf false None L s' ∧ currentThread s' = n ∧
    readyListP s' = readyListP s ∧ s_level s' = s_level s.
Proof.
  intros Hwf. destruct (Run_before_wf n s Hwf) as (s1 & E1 & Hwf1 & Hc1 & Hr1 & Hl1 & Hd1).
  unfold Run, thread_at. unfold_M. rewrite E1.
  destruct (wf_current _ _ _ _ Hwf1) as (thn & Hn & Hs). rewrite Hc1 in Hn. rewrite Hn.
  destruct (th_fresh thn).
  - rewrite (thread_upd_ok n _ s1 thn Hn). eexists. split_and!; try done.
    by apply wf_relabel.
  - destruct (Run_after_wf s1 Hwf1) as (s2 & th & E2 & Hwf2 & Hc2 & Hr2 & Hl2 & _).
    exists s2. split_and!; try congruence; done.
Qed.

Lemma wf_slevel idle taken s l : sched_wf idle taken L s → sched_wf idle taken L (set_slevel l s).
Proof. intros []. by split. Qed.

Lemma Yield_wf s : sched_wf false None L s →
  ∃ b s', Yield (currentThread s) s = Ok (b, s') ∧ sched_wf false None L s'.
Proof.
  intros Hwf. apply (wf_slevel _ _ _ IntOff) in Hwf.
  unfold Yield. unfold_M. rewrite bool_decide_eq_true_2 by done. cbn [negb].
  destruct (FindNextToRun_wf _ _ Hwf) as [[-> _]|(t & s1 & -> & Hwf1 & _ & Hs1)].
  { do 2 eexists. split; [done|]. by apply (wf_slevel _ _ _ (s_level s)) in Hwf. }
  assert (Ecur : currentThread s1 = currentThread s) by (by rewrite Hs1).
  destruct (wf_current _ _ _ _ Hwf1) as (c & Hc & Hcs). rewrite Ecur in Hc.
  destruct (ReadyToRun_wf _ _ s1 _ _ Hwf1 Hc) as (s2 & -> & Hwf2 & _).
  { congruence. }
  { intros Hd. destruct (wf_destroyed _ _ _ _ Hwf1 _ Hd) as (Hne & _).
    rewrite Ecur in Hne. by apply Hne. }
  rewrite Ecur, bool_decide_eq_true_2, orb_true_r in Hwf2 by done.
  destruct (Run_wf _ _ Hwf2) as (s3 & -> & Hwf3 & _). eauto.
Qed.

Lemma Sleep_begin_wf s : sched_wf false None L s → s_level s = IntOff →
  ∃ s', Sleep_begin (currentThread s) s = Ok (tt, s') ∧ sched_wf true None L s' ∧
    s' = set_threads (alter (th_setStatus BLOCKED) (currentThread s) (threads s)) s.
Proof.
  intros [Hl Hndq Hr Hqd Htk Hcur Hrun Hth Hreg Hd Hls] Hlev. destruct Hcur as (c & Hc & Hcs).
  unfold Sleep_begin. unfold_M. rewrite Hlev, !bool_decide_eq_true_2 by done.
  rewrite (thread_upd_ok _ _ _ c Hc). eexists. split_and!; [done| |done].
  split; cbn; try done.
  - intros i q t Hi Ht. destruct (Hr i q t Hi Ht) as (th0 & E & Hs0 & Hp0).
    rewrite lookup_alter_ne by congruence. eauto.
  - intros t th [(<- & th0 & _ & ->)|(Hne & Ht)]%lookup_alter_Some Hs; [done|by eapply Hqd].
  - rewrite lookup_alter_eq, Hc. eexists. split; [done|]. by right.
  - intros t th [(<- & th0 & _ & ->)|(Hne & Ht)]%lookup_alter_Some Hs; [done|by eapply Hrun].
  - intros t th [(<- & th0 & Ht & ->)|(Hne & Ht)]%lookup_alter_Some; apply (Hth _ _ Ht).
  - intros d Hds. destruct (Hd d Hds) as (Hne & th0 & E & Hs0). split; [done|].
    rewrite lookup_alter_ne by (specialize (Hne eq_refl); congruence). eauto.
  - intros t Ht. destruct (Hls t Ht) as (Hnt & Htn & th0 & E & Hs0). split_and!; [done|done|].
    rewrite lookup_alter_ne by congruence. eauto.
Qed.

Lemma Sleep_round_wf s : sched_wf true None L s →
  ∃ b s', Sleep_round s = Ok (b, s') ∧ sched_wf (negb b) None L s' ∧
    (b = false → s' = s ∧ concat (readyListP s) = []).
Proof.
  intros Hwf. unfold Sleep_round. unfold_M.
  destruct (FindNextToRun_wf _ _ Hwf) as [[-> He]|(t & s1 & -> & Hwf1 & _)]; [eauto 10|].
  destruct (Run_wf _ _ Hwf1) as (s2 & -> & Hwf2 & _). eexists true, s2. by split_and!.
Qed.

End Invariant.

(** *** Priority inheritance *)

Section Change.
Context (i p th h : Z) (qp : list Z).
Hypotheses (Hi : 0 ≤ i) (Hp : 0 ≤ p) (Hip : i ≠ p) (Hh : h ≠ th).
Implicit Types (s : sched) (rest seen : list Z).

(** The queues once the loop has gone through [rest]. *)
Definition change_result s rest seen : sched :=
  let s1 := if bool_decide (th ∈ rest) then set_ready (<[Z.to_nat p := th :: qp]> (readyListP s)) s else s in
  set_ready (<[Z.to_nat i := seen ++ filter (λ x, x ≠ th) rest]> (readyListP s1)) s1.

Lemma queue_Remove_ok s x q : readyListP s !! Z.to_nat i = Some (x :: q) →
  queue_Remove i s = Ok (Some x, set_ready (<[Z.to_nat i := q]> (readyListP s)) s).
Proof. intros H. unfold queue_Remove. unfold_M. by rewrite (queue_at_ok _ _ _ Hi H). Qed.

Lemma Change_loop_after s fuel rest seen : (length rest < fuel)%nat →
  readyListP s !! Z.to_nat i = Some (rest ++ h :: seen) →
  (h ∉ rest) → (th ∉ rest) →
  Change_loop fuel i p th h s =
    Ok (tt, set_ready (<[Z.to_nat i := seen ++ rest]> (readyListP s)) s).
Proof.
  revert s rest seen. induction fuel as [|fuel IH]; intros s rest seen Hf Hq Hhr Htr; [lia|].
  destruct rest as [|x rest]; cbn [Change_loop].
  - unfold mbind, M_bind. rewrite (queue_Remove_ok s h seen) by done.
    rewrite bool_decide_eq_true_2 by done. by rewrite app_nil_r.
  - cbn in Hf. apply not_elem_of_cons in Hhr as [Hhx Hhr]. apply not_elem_of_cons in Htr as [Htx Htr].
    unfold mbind at 1, M_bind at 1. rewrite (queue_Remove_ok s x (rest ++ h :: seen)) by done.
    rewrite bool_decide_eq_false_2 by congruence. rewrite bool_decide_eq_false_2 by congruence.
    pose proof (lookup_lt_Some _ _ _ Hq) as Hlt.
    unfold queue_Append, queue_set. unfold_M.
    erewrite queue_at_ok; [|done|cbn; by rewrite list_lookup_insert_eq].
    rewrite (IH _ rest (seen ++ [x])); [|lia| |done|done].
    + cbn. by rewrite !list_insert_insert_eq, <- app_assoc.
    + cbn. rewrite list_insert_insert_eq, list_lookup_insert_eq by done. by rewrite <- app_assoc.
Qed.

Lemma Change_loop_ok s fuel rest seen : (length rest < fuel)%nat →
  readyListP s !! Z.to_nat i = Some (rest ++ h :: seen) →
  readyListP s !! Z.to_nat p = Some qp →
  (h ∉ rest) → NoDup rest →
  Change_loop fuel i p th h s = Ok (tt, change_result s rest seen).
Proof.
  revert s rest seen. induction fuel as [|fuel IH]; intros s rest seen Hf Hq Hqp Hhr Hnd; [lia|].
  destruct rest as [|x rest]; cbn [Change_loop].
  - unfold mbind, M_bind. rewrite (queue_Remove_ok s h seen) by done.
    rewrite bool_decide_eq_true_2 by done. unfold change_result.
    rewrite bool_decide_eq_false_2 by apply not_elem_of_nil. by rewrite app_nil_r.
  - cbn in Hf. apply not_elem_of_cons in Hhr as [Hhx Hhr]. apply NoDup_cons in Hnd as [Hx Hnd].
    unfold mbind at 1, M_bind at 1. rewrite (queue_Remove_ok s x (rest ++ h :: seen)) by done.
    rewrite bool_decide_eq_false_2 by congruence.
    pose proof (lookup_lt_Some _ _ _ Hq) as Hlt. case_bool_decide as Hxt.
    + subst x. unfold queue_Prepend, queue_set. unfold_M.
      erewrite queue_at_ok; [|done|cbn; rewrite list_lookup_insert_ne by lia; exact Hqp].
      rewrite (Change_loop_after _ fuel rest seen); [|lia| |done|done].
      2:{ cbn. rewrite list_lookup_insert_ne by lia. by rewrite list_lookup_insert_eq. }
      unfold change_result. rewrite bool_decide_eq_true_2 by set_solver.
      rewrite filter_cons_False by auto. rewrite filter_all.
      2:{ apply Forall_forall. by intros y Hy ->. }
      cbn.
      rewrite list_insert_insert_ne by lia. rewrite list_insert_insert_eq. by rewrite list_insert_insert_ne by lia.
    + unfold queue_Append, queue_set. unfold_M.
      erewrite queue_at_ok; [|done|cbn; by rewrite list_lookup_insert_eq].
      rewrite (IH _ rest (seen ++ [x])); [|lia| | |done|done].
      * unfold change_result. rewrite filter_cons_True by done. cbn.
        rewrite (bool_decide_ext (th ∈ x :: rest) (th ∈ rest)) by set_solver.
        do 2 f_equal. case_bool_decide; cbn; unfold set_ready; cbn; f_equal.
        -- rewrite (list_insert_insert_eq (readyListP s)), (list_insert_insert_ne _ (Z.to_nat p)) by lia.
           by rewrite !list_insert_insert_eq, <- app_assoc.
        -- rewrite !list_insert_insert_eq, <- app_assoc. done.
      * cbn. rewrite list_insert_insert_eq, list_lookup_insert_eq by done. by rewrite <- app_assoc.
      * cbn. rewrite list_insert_insert_eq. by rewrite list_lookup_insert_ne by lia.
Qed.

End Change.

(** What [ChangeQueuePriority] does to the queues when the thread's queue
    [i] starts with [h]: a thread at the head moves to the front of the queue
    of the new priority; a thread further back moves too, but the head [h] of
    its old queue is dropped from every queue; a thread that is not in its
    queue (a lock holder that is blocked) stays where it is and [h] is dropped
    all the same; and with an empty queue the code dereferences [NULL]. *)
Theorem ChangeQueuePriority_drops_head (s : sched) (th p : Z) (thr : Thread) (qp : list Z) :
  threads s !! th = Some thr → 0 ≤ th_priority thr → 0 ≤ p → th_priority thr ≠ p →
  readyListP s !! Z.to_nat p = Some qp →
  let i := Z.to_nat (th_priority thr) in
  (readyListP s !! i = Some [] → ChangeQueuePriority th p s = Err NullDeref) ∧
  (∀ h q, readyListP s !! i = Some (h :: q) → is_Some (threads s !! h) → NoDup (h :: q) →
    ∃ s', ChangeQueuePriority th p s = Ok (tt, s') ∧ s' = set_ready (readyListP s') s ∧
      readyListP s' =
        if bool_decide (h = th) then <[Z.to_nat p := th :: qp]> (<[i := q]> (readyListP s))
        else if bool_decide (th ∈ q)
        then <[i := filter (λ x, x ≠ th) q]> (<[Z.to_nat p := th :: qp]> (readyListP s))
        else <[i := q]> (readyListP s)).
Proof.
  intros Ht Hi Hp Hip Hqp i. unfold ChangeQueuePriority, thread_at, queue_Append, queue_set. split.
  - intros Hq. unfold queue_Remove. unfold_M. rewrite Ht. by rewrite (queue_at_ok _ [] s Hi Hq).
  - intros h q Hq [thh Hh] Hnd. apply NoDup_cons in Hnd as [Hhq Hnd]. unfold_M. rewrite Ht.
    pose proof (lookup_lt_Some _ _ _ Hq) as Hlt.
    rewrite (queue_Remove_ok _ Hi s h q Hq). cbn [threads set_ready]. rewrite Hh.
    case_bool_decide as Hht.
    + unfold queue_Prepend, queue_set. unfold_M.
      erewrite queue_at_ok; [|done|cbn; rewrite list_lookup_insert_ne by lia; exact Hqp].
      eexists. by split_and!.
    + erewrite queue_at_ok; [|done|cbn; by rewrite list_lookup_insert_eq].
      erewrite queue_at_ok; [|done|cbn; rewrite list_insert_insert_eq; by rewrite list_lookup_insert_eq].
      erewrite (Change_loop_ok _ _ _ _ qp Hi Hp Hip Hht _ _ q []); try done.
      * eexists. split_and!; [done| |].
        -- unfold change_result. by case_bool_decide.
        -- unfold change_result. case_bool_decide as Hin; cbn.
           ++ rewrite list_insert_insert_eq, (list_insert_insert_ne _ (Z.to_nat p)) by lia.
              by rewrite list_insert_insert_eq.
           ++ rewrite !list_insert_insert_eq. rewrite filter_all; [done|].
              apply Forall_forall. by intros y Hy ->.
      * rewrite length_app. cbn. lia.
      * cbn. rewrite list_insert_insert_eq. by rewrite list_lookup_insert_eq.
      * cbn. rewrite list_insert_insert_eq. by rewrite list_lookup_insert_ne by lia.
Qed.

(** What [Lock::Acquire] does for the holder [th] of a lock when the caller's
    priority [p] is higher (threads/synch.cc), and the threads it drops. *)
Definition inherit (th p : Z) : M sched unit :=
  ChangeQueuePriority th p ≫= λ _, thread_upd th (th_setPriority p).

Definition dropped (th : Z) (s : sched) : list Z :=
  match threads s !! th with
  | Some thr => match readyListP s !! Z.to_nat (th_priority thr) with
                | Some (h :: _) => if bool_decide (h = th) then [] else [h]
                | _ => []
                end
  | None => []
  end.

Section Inherit.
Context {L : list Z}.
Implicit Types (s : sched) (p : Z).

Lemma concat_move (rq : list (list Z)) i j (q : list Z) t qp : rq !! j = Some qp → i ≠ j →
  concat (<[j := t :: qp]> (<[i := q]> rq)) ≡ₚ t :: concat (<[i := q]> rq).
Proof.
  intros Hj Hne. destruct (concat_insert (<[i := q]> rq) j qp) as (rest & H1 & H2).
  { by rewrite list_lookup_insert_ne. }
  by rewrite H2, H1.
Qed.

Lemma filter_out_perm (t : Z) q : t ∈ q → NoDup q → t :: filter (λ x, x ≠ t) q ≡ₚ q.
Proof.
  induction q as [|x q IH]; intros Ht Hnd; [set_solver|]. apply NoDup_cons in Hnd as [Hx Hnd].
  destruct (decide (x = t)) as [->|Hne].
  - rewrite filter_cons_False by auto. rewrite filter_all; [done|]. apply Forall_forall. by intros y Hy ->.
  - rewrite filter_cons_True by done. rewrite Permutation_swap, IH; [done| |done]. set_solver.
Qed.

(** New queues that hold the threads of the old ones, but for those in [l], with
    [th] in the queue of its new priority. *)
Lemma wf_requeue s (th : Z) thr p rq l : sched_wf false None L s →
  threads s !! th = Some thr → 0 ≤ p < Z.of_nat MaxPriority →
  length rq = MaxPriority → NoDup (concat rq) →
  (∀ i q t, rq !! i = Some q → t ∈ q → t ∈ concat (readyListP s) ∧
     if decide (t = th) then Z.of_nat i = p else ∃ q0, readyListP s !! i = Some q0 ∧ t ∈ q0) →
  (∀ t, t ∈ concat (readyListP s) ↔ t ∈ concat rq ∨ t ∈ l) →
  (∀ t, t ∈ l → t ∉ concat rq) →
  sched_wf false None (L ++ l) (set_threads (alter (th_setPriority p) th (threads s)) (set_ready rq s)).
Proof.
  intros [Hl Hndq Hr Hqd Htk Hcur Hrun Hth Hreg Hd Hls] Ht Hp Hlen Hnd Hin Hsame Hout.
  assert (Hm : ∀ t th0, threads s !! t = Some th0 →
    ∃ th1, alter (th_setPriority p) th (threads s) !! t = Some th1 ∧ th_status th1 = th_status th0).
  { intros t th0 E. destruct (decide (t = th)) as [->|Hne].
    - rewrite lookup_alter_eq, E. by eexists.
    - rewrite lookup_alter_ne by done. eauto. }
  assert (Hm' : ∀ t th1, alter (th_setPriority p) th (threads s) !! t = Some th1 →
    ∃ th0, threads s !! t = Some th0 ∧ th_status th1 = th_status th0).
  { intros t th1 [(<- & th0 & E & ->)|(Hne & E)]%lookup_alter_Some; eauto. }
  assert (Hrd : ∀ t, t ∈ concat (readyListP s) → ∃ th0, threads s !! t = Some th0 ∧ th_status th0 = READY).
  { intros t (i & q & Hi & Hq)%elem_of_concat_lookup. destruct (Hr i q t Hi Hq) as (th0 & E & Hs & _). eauto. }
  split; cbn; try done.
  - intros i q t Hi Hq. destruct (Hin i q t Hi Hq) as [Hc Ho]. case_decide as Htt.
    + subst t. destruct (Hrd th Hc) as (th0 & E & Hs). rewrite lookup_alter_eq, E. eexists. by split.
    + destruct Ho as (q0 & Hi0 & Hq0). rewrite lookup_alter_ne by done. by apply (Hr i q0).
  - intros t th1 (th0 & E & ->)%Hm' Hs. destruct (Hqd t th0 E Hs) as [Hc|[|Hc]]; [|done|].
    + apply Hsame in Hc as [|]; [by left|]. right. right. set_solver.
    + right. right. set_solver.
  - destruct Hcur as (c & Hc & Hs). destruct (Hm _ _ Hc) as (th1 & E & Hs1). exists th1. by rewrite Hs1.
  - intros t th1 (th0 & E & ->)%Hm' Hs. by eapply Hrun.
  - intros t th1 [(<- & th0 & E & ->)|(Hne & E)]%lookup_alter_Some; [|by eapply Hth].
    destruct (Hth _ _ E) as (_ & ? & ?). cbn. split_and!; [lia|lia|done..].
  - intros d Hds. destruct (Hd d Hds) as (Hne & th0 & E & Hs). split; [done|].
    destruct (Hm _ _ E) as (th1 & E1 & Hs1). exists th1. by rewrite Hs1.
  - assert (Hgo : ∀ t, (∃ th0, threads s !! t = Some th0 ∧ th_status th0 = READY) →
      ∃ th1, alter (th_setPriority p) th (threads s) !! t = Some th1 ∧ th_status th1 = READY).
    { intros t (th0 & E & Hs). destruct (Hm _ _ E) as (th1 & E1 & Hs1). exists th1. by rewrite Hs1. }
    intros t [Hc|Hc]%elem_of_app.
    + destruct (Hls t Hc) as (Hn & _ & Hrdy). split_and!; [|done|by apply Hgo].
      intros Hc'. apply Hn, Hsame. by left.
    + split_and!; [by apply Hout|done|]. apply Hgo, Hrd, Hsame. by right.
Qed.

(** The queues of priority inheritance in the form [wf_requeue] wants. *)
Lemma inherit_wf s (th : Z) thr p : sched_wf false None L s → threads s !! th = Some thr →
  th_priority thr < p < Z.of_nat MaxPriority →
  (readyListP s !! Z.to_nat (th_priority thr) = Some [] ∧ inherit th p s = Err NullDeref) ∨
  (∃ s', inherit th p s = Ok (tt, s') ∧ sched_wf false None (L ++ dropped th s) s' ∧
     s' = set_threads (alter (th_setPriority p) th (threads s)) (set_ready (readyListP s') s)).
Proof.
  intros Hwf Ht Hp. destruct (wf_threads _ _ _ _ Hwf _ _ Ht) as (Hp0 & _).
  set (i := Z.to_nat (th_priority thr)).
  destruct (lookup_lt_is_Some_2 (readyListP s) i) as [q Hq]; [rewrite (wf_queues _ _ _ _ Hwf); lia|].
  destruct (lookup_lt_is_Some_2 (readyListP s) (Z.to_nat p)) as [qp Hqp]; [rewrite (wf_queues _ _ _ _ Hwf); lia|].
  destruct (ChangeQueuePriority_drops_head s th p thr qp) as [Hnil Hcons]; [done|lia|lia|lia|done|].
  fold i in Hnil, Hcons. unfold inherit, dropped. unfold_M. rewrite Ht. fold i. rewrite Hq.
  destruct q as [|h q]; [left; split; [done|]; by rewrite Hnil|right].
  destruct (wf_ready _ _ _ _ Hwf i (h :: q) h Hq) as (thh & Hh & _); [set_solver|].
  destruct (concat_insert _ _ _ Hq) as (rest & Hc & Hc').
  pose proof (wf_nodup _ _ _ _ Hwf) as Hnd. rewrite Hc in Hnd. cbn in Hnd.
  destruct (Hcons h q Hq) as (s1 & E & Hs1 & Hrq); [by eexists|by apply (NoDup_app (h :: q)) in Hnd as (? & _)|].
  rewrite E. remember (readyListP s1) as rq1 eqn:Erq. subst s1. clear Erq E Hcons Hnil.
  rewrite (thread_upd_ok th _ _ thr) by done.
  eexists. split; [done|]. split; [|done]. cbn [threads set_ready]. rewrite Hrq. clear rq1 Hrq.
  destruct (decide (h = th)) as [->|Hht].
  - rewrite !bool_decide_eq_true_2 by done.
    assert (Hperm : concat (<[Z.to_nat p := th :: qp]> (<[i := q]> (readyListP s))) ≡ₚ concat (readyListP s)).
    { rewrite (concat_move _ i (Z.to_nat p) q th qp) by (done || lia). rewrite Hc, Hc'. done. }
    apply (wf_requeue s th thr p _ []); try done.
    + lia.
    + rewrite !length_insert. apply Hwf.
    + by rewrite Hperm, Hc.
    + intros j q' t Hj Ht'. split; [rewrite <- Hperm; apply elem_of_concat_lookup; eauto|].
      assert (Hthin : th ∉ q) by (apply NoDup_cons in Hnd as [? _]; set_solver).
      apply list_lookup_insert_Some in Hj as [(<- & <- & _)|(Hjp & Hj)].
      * case_decide; [lia|]. exists qp. split; [done|]. set_solver.
      * apply list_lookup_insert_Some in Hj as [(<- & <- & _)|(Hji & Hj)].
        -- rewrite decide_False by (intros ->; done). exists (th :: q). split; [done|]. set_solver.
        -- rewrite decide_False; [eauto|]. intros ->.
           destruct (wf_ready _ _ _ _ Hwf j q' th Hj Ht') as (th' & E & _ & Hpr). apply Hji.
           assert (th' = thr) as -> by congruence. unfold i. lia.
    + intros t. rewrite Hperm. set_solver.
    + set_solver.
  - rewrite (bool_decide_eq_false_2 (h = th)) by done.
    set (rq := if bool_decide (th ∈ q) then _ else _).
    assert (Hperm : concat rq ≡ₚ q ++ rest).
    { unfold rq. case_bool_decide as Hin; [|by rewrite Hc'].
      rewrite list_insert_insert_ne by (unfold i; lia).
      rewrite (concat_move _ i (Z.to_nat p) (filter (λ x, x ≠ th) q) th qp) by (done || lia).
      rewrite Hc'. apply NoDup_cons in Hnd as [_ Hnd]. apply NoDup_app in Hnd as (Hnd & _ & _).
      by rewrite <- (filter_out_perm th q) at 2. }
    apply (wf_requeue s th thr p rq [h]); try done.
    + lia.
    + unfold rq. case_bool_decide; rewrite !length_insert; apply Hwf.
    + rewrite Hperm. by apply NoDup_cons in Hnd as [_ Hnd].
    + intros j q' t Hj Ht'. split.
      { rewrite Hc. cbn. apply elem_of_cons. right. rewrite <- Hperm. apply elem_of_concat_lookup. eauto. }
      assert (Hone : ∀ j q', readyListP s !! j = Some q' → th ∈ q' → j = i).
      { intros j0 q0 Hj0 Hq0. destruct (wf_ready _ _ _ _ Hwf j0 q0 th Hj0 Hq0) as (th' & E & _ & Hpr).
        assert (th' = thr) as -> by congruence. unfold i. lia. }
      unfold rq in Hj. case_bool_decide as Hin.
      * apply list_lookup_insert_Some in Hj as [(<- & <- & _)|(Hji & Hj)].
        -- apply list_elem_of_filter in Ht' as [Htne Ht']. rewrite decide_False by done. exists (h :: q). split; [done|]. set_solver.
        -- apply list_lookup_insert_Some in Hj as [(<- & <- & _)|(Hjp & Hj)].
           ++ case_decide; [lia|]. exists qp. split; [done|]. set_solver.
           ++ rewrite decide_False; [eauto|]. intros ->. by apply Hji; symmetry; apply (Hone j q').
      * apply list_lookup_insert_Some in Hj as [(<- & <- & _)|(Hji & Hj)].
        -- rewrite decide_False by (intros ->; done). exists (h :: q). split; [done|]. set_solver.
        -- rewrite decide_False; [eauto|]. intros ->. by apply Hji; symmetry; apply (Hone j q').
    + intros t. rewrite Hc, Hperm. cbn. rewrite elem_of_cons, list_elem_of_singleton. tauto.
    + intros t ->%list_elem_of_singleton. rewrite Hperm. by apply NoDup_cons in Hnd as [? _].
Qed.

End Inherit.

(** ** The machine of threads

    One transition is one uninterrupted run of kernel code; the boolean of a
    configuration is the [idle] of the invariant, and the list on a transition is
    the threads it drops from the ready queues.  A wake-up is the [ReadyToRun] of
    [Semaphore::V], made by the running thread or by an interrupt handler while
    the current thread idles; it never names the finished thread, which is on no
    semaphore's queue.  [step_inherit] is the running thread asking for a lock
    that another thread of a lower priority holds (or held, when it is gone).
    [step_user] is user code of the running thread, which may do anything to the
    registers. *)
Inductive sched_step : bool * sched → list Z → bool * sched → Prop :=
  | step_yield s b s' :
      Yield (currentThread s) s = Ok (b, s') → sched_step (false, s) [] (false, s')
  | step_wake idle s t th s' :
      threads s !! t = Some th → th_status th = BLOCKED →
      threadToBeDestroyed s ≠ Some t →
      ReadyToRun t s = Ok (tt, s') → sched_step (idle, s) [] (idle, s')
  | step_new s t junk :
      threads s !! t = None → length junk = Z.to_nat NumTotalRegs →
      sched_step (false, s) [] (false, set_threads (<[t := new_Thread junk]> (threads s)) s)
  | step_fork s t th port j p s' :
      threads s !! t = Some th → th_status th = JUST_CREATED → 0 ≤ p < Z.of_nat MaxPriority →
      Fork t port j p s = Ok (tt, s') → sched_step (false, s) [] (false, s')
  | step_inherit s t th c s' :
      threads s !! currentThread s = Some c → threads s !! t = Some th → t ≠ currentThread s →
      th_priority th < th_priority c →
      inherit t (th_priority c) s = Ok (tt, s') → sched_step (false, s) (dropped t s) (false, s')
  | step_user s regs : length regs = Z.to_nat NumTotalRegs →
      sched_step (false, s) [] (false, set_registers regs s)
  | step_level s l : sched_step (false, s) [] (false, set_slevel l s)
  | step_sleep s s' :
      Sleep_begin (currentThread s) s = Ok (tt, s') → sched_step (false, s) [] (true, s')
  | step_finish s s' :
      Finish_end (currentThread s) s = Ok (tt, s') → sched_step (false, s) [] (true, s')
  | step_round s b s' :
      Sleep_round s = Ok (b, s') → sched_step (true, s) [] (negb b, s').

(** A run of the machine, with the threads it has dropped. *)
Inductive sched_run : bool * sched → list Z → bool * sched → Prop :=
  | run_refl c : sched_run c [] c
  | run_step c lost c1 l c2 : sched_run c lost c1 → sched_step c1 l c2 → sched_run c (lost ++ l) c2.

(** The state [Initialize] of threads/system.cc leaves: the main thread runs. *)
Definition boot_sched (regs junk : list Z) : sched :=
  mkSched {[ 0 := th_setStatus RUNNING (new_Thread junk) ]} new_Scheduler 0 None IntOn regs None.

Section Machine.
Context {L : list Z}.
Implicit Types (s : sched) (t n : Z) (th : Thread).

Lemma boot_wf regs junk : length regs = Z.to_nat NumTotalRegs → length junk = Z.to_nat NumTotalRegs →
  sched_wf false None [] (boot_sched regs junk).
Proof.
  intros Hr Hj. split; cbn; try done.
  - by repeat constructor.
  - intros [|[|[|i]]] q t; cbn; intros [= <-] Ht%not_elem_of_nil; done.
  - by intros t th [<- <-]%lookup_singleton_Some.
  - rewrite lookup_singleton_eq. eauto.
  - by intros t th [<- <-]%lookup_singleton_Some.
  - intros t th [<- <-]%lookup_singleton_Some. cbn. unfold MaxPriority. split_and!; [lia|lia|done|done].
  - by intros t ?%not_elem_of_nil.
Qed.

Lemma wf_new s t junk : sched_wf false None L s → threads s !! t = None →
  length junk = Z.to_nat NumTotalRegs →
  sched_wf false None L (set_threads (<[t := new_Thread junk]> (threads s)) s).
Proof.
  intros [Hl Hndq Hr Hqd Htk Hcur Hrun Hth Hreg Hd Hls] Ht Hj. split; cbn; try done.
  - intros i q t' Hi Ht'. destruct (Hr i q t' Hi Ht') as (th0 & E & H).
    exists th0. by rewrite lookup_insert_ne by congruence.
  - intros t' th [(<- & <-)|(Hne & E)]%lookup_insert_Some Hs; [done|by eapply Hqd].
  - destruct Hcur as (c & E & H). exists c. by rewrite lookup_insert_ne by congruence.
  - intros t' th [(<- & <-)|(Hne & E)]%lookup_insert_Some Hs; [done|by eapply Hrun].
  - intros t' th [(<- & <-)|(Hne & E)]%lookup_insert_Some; [|by eapply Hth].
    cbn. unfold MaxPriority. split_and!; [lia|lia|done|done].
  - intros d Hds. destruct (Hd d Hds) as (Hne & th0 & E & H). split; [done|].
    exists th0. by rewrite lookup_insert_ne by congruence.
  - intros t' Ht'. destruct (Hls t' Ht') as (Hn & Htn & th0 & E & H). split_and!; [done|done|].
    exists th0. by rewrite lookup_insert_ne by congruence.
Qed.

(** A thread that is not ready may change its stack, priority and port. *)
Lemma wf_not_ready idle taken s t th f : sched_wf idle taken L s →
  threads s !! t = Some th → th_status th ≠ READY →
  th_status (f th) = th_status th → th_userRegisters (f th) = th_userRegisters th →
  0 ≤ th_priority (f th) < Z.of_nat MaxPriority →
  (∀ w, th_stack (f th) = Some w → w = STACK_FENCEPOST) →
  sched_wf idle taken L (set_threads (alter f t (threads s)) s).
Proof.
  intros [Hl Hndq Hr Hqd Htk Hcur Hrun Hth Hreg Hd Hls] Ht Hs Hfs Hfu Hfp Hfk.
  assert (Hm' : ∀ t' th0, threads s !! t' = Some th0 →
    ∃ th, alter f t (threads s) !! t' = Some th ∧ th_status th = th_status th0).
  { intros t' th0 H. destruct (decide (t' = t)) as [->|Hne].
    - rewrite lookup_alter_eq, H. exists (f th0). split; [done|congruence].
    - rewrite lookup_alter_ne by done. eauto. }
  split; cbn; try done.
  - intros i q t' Hi Ht'. destruct (Hr i q t' Hi Ht') as (th0 & E & H1 & H2).
    exists th0. by rewrite lookup_alter_ne by congruence.
  - intros t' th' [(<- & th0 & E & ->)|(Hne & E)]%lookup_alter_Some Hs'; [congruence|by eapply Hqd].
  - intros t' Ht'. destruct (Htk t' Ht') as (Hn & th0 & E & Hs0). split; [done|].
    exists th0. by rewrite lookup_alter_ne by congruence.
  - destruct Hcur as (c & E & H). destruct (Hm' _ _ E) as (th' & E' & Hs'). exists th'.
    split; [done|]. by rewrite Hs'.
  - intros t' th' [(<- & th0 & E & ->)|(Hne & E)]%lookup_alter_Some Hs'; [|by eapply Hrun].
    apply (Hrun t th0 E). congruence.
  - intros t' th' [(<- & th0 & E & ->)|(Hne & E)]%lookup_alter_Some; [|by eapply Hth].
    assert (th0 = th) as -> by congruence. rewrite Hfu. split_and!; try done; try lia. by eapply Hth.
  - intros d Hds. destruct (Hd d Hds) as (Hne & th0 & E & H). split; [done|].
    destruct (Hm' _ _ E) as (th' & E' & Hs'). exists th'. split; [done|congruence].
  - intros t' Ht'. destruct (Hls t' Ht') as (Hn & Htn & th0 & E & H). split_and!; [done|done|].
    destruct (Hm' _ _ E) as (th' & E' & Hs'). exists th'. split; [done|congruence].
Qed.

Lemma Fork_wf s t th port j p : sched_wf false None L s →
  threads s !! t = Some th → th_status th = JUST_CREATED → 0 ≤ p < Z.of_nat MaxPriority →
  ∃ s', Fork t port j p s = Ok (tt, s') ∧ sched_wf false None L s'.
Proof.
  intros Hwf Ht Hs Hp. destruct (wf_threads _ _ _ _ Hwf t th Ht) as (Hp0 & _).
  assert (Hn : t ≠ currentThread s).
  { destruct (wf_current _ _ _ _ Hwf) as (c & Hc & Hcs). congruence. }
  set (f1 := th_setStack (Some STACK_FENCEPOST) true).
  set (f2 := if bool_decide (j = 0) then th_setJoin true (Some port) else λ th, th).
  set (s1 := set_threads (alter f1 t (threads s)) s).
  set (s2 := set_threads (alter f2 t (threads s1)) s1).
  set (s3 := set_threads (alter (th_setPriority p) t (threads s2)) s2).
  assert (H1 : threads s1 !! t = Some (f1 th)) by (unfold s1; cbn; by rewrite lookup_alter_eq, Ht).
  assert (H2 : threads s2 !! t = Some (f2 (f1 th))) 
    by (unfold s2; cbn [threads set_threads]; by rewrite lookup_alter_eq, H1).
  assert (H3 : threads s3 !! t = Some (th_setPriority p (f2 (f1 th)))).
  { unfold s3. cbn [threads set_threads]. by rewrite lookup_alter_eq, H2. }
  assert (Hf2 : th_status (f2 (f1 th)) = JUST_CREATED ∧ th_priority (f2 (f1 th)) = th_priority th ∧
     th_stack (f2 (f1 th)) = Some STACK_FENCEPOST ∧ th_userRegisters (f2 (f1 th)) = th_userRegisters th).
  { unfold f2. by case_bool_decide. }
  destruct Hf2 as (Hf2s & Hf2p & Hf2k & Hf2u).
  assert (Hwf1 : sched_wf false None L s1).
  { apply (wf_not_ready _ _ s t th); try done; [congruence|]. by intros w [= <-]. }
  assert (Hwf2 : sched_wf false None L s2).
  { apply (wf_not_ready _ _ s1 t (f1 th)); try done; [cbn; congruence|cbn; congruence|lia|].
    rewrite Hf2k. by intros w [= <-]. }
  assert (Hwf3 : sched_wf false None L s3).
  { apply (wf_not_ready _ _ s2 t (f2 (f1 th))); try done; [congruence|].
    cbn. rewrite Hf2k. by intros w [= <-]. }
  destruct (ReadyToRun_wf _ _ (set_slevel IntOff s3) t _ (wf_slevel _ _ _ _ Hwf3) H3)
    as (s4 & E4 & Hwf4 & _).
  { cbn. congruence. }
  { intros Hd. destruct (wf_destroyed _ _ _ _ Hwf3 t Hd) as (_ & th' & E & Hb).
    rewrite H3 in E. injection E as <-. cbn [th_status th_setPriority] in Hb. congruence. }
  rewrite bool_decide_eq_false_2 in Hwf4 by done.
  unfold Fork, StackAllocate. unfold_M. rewrite (thread_upd_ok t _ s th Ht). fold f1. fold s1.
  assert (E2 : (if bool_decide (j = 0) then thread_upd t (th_setJoin true (Some port))
                else λ s, Ok (tt, s)) s1 = Ok (tt, s2)).
  { unfold s2, f2. case_bool_decide; [by eapply thread_upd_ok|].
    do 2 f_equal. destruct s1 as [m ? ? ? ? ? ?]. unfold set_threads. cbn. f_equal.
    apply map_eq. intros i. destruct (decide (i = t)) as [->|Hi].
    - rewrite lookup_alter_eq. by destruct (m !! t).
    - by rewrite lookup_alter_ne. }
  rewrite E2, (thread_upd_ok t _ s2 _ H2). fold s3. rewrite E4.
  eexists. split; [done|]. by apply wf_slevel.
Qed.

Lemma Sleep_begin_level this s s' : Sleep_begin this s = Ok (tt, s') → s_level s = IntOff.
Proof.
  unfold Sleep_begin. unfold_M. destruct (s_level s) eqn:El; [done|].
  case_bool_decide; [|done]. by rewrite bool_decide_eq_false_2 by done.
Qed.

Lemma Finish_end_wf s s' : sched_wf false None L s →
  Finish_end (currentThread s) s = Ok (tt, s') → sched_wf true None L s'.
Proof.
  intros Hwf E. unfold Finish_end in E. unfold_M.
  pose proof (Sleep_begin_level _ _ _ E) as Hl. cbn in Hl.
  destruct (wf_current _ _ _ _ Hwf) as (c & Hc & _).
  destruct (Sleep_begin_wf s Hwf Hl) as (s1 & _ & H & Hs1).
  assert (E' : s' = set_toBeDestroyed (Some (currentThread s)) s1).
  { subst s1. unfold Sleep_begin in E. unfold_M. cbn in E. rewrite Hl in E.
    rewrite !bool_decide_eq_true_2 in E by done.
    by rewrite (thread_upd_ok _ _ (set_toBeDestroyed _ s) c Hc) in E; injection E as <-. }
  subst s'. destruct H as [Hl1 Hndq Hr Hqd Htk Hcur Hrun Hth Hreg Hd Hls]. split; try done.
  intros d [= <-]. split; [done|]. subst s1. cbn. rewrite lookup_alter_eq, Hc. eauto.
Qed.

Lemma sched_step_wf c l c' : sched_step c l c' →
  sched_wf c.1 None L c.2 → sched_wf c'.1 None (L ++ l) c'.2.
Proof.
  intros Hstep Hwf.
  destruct Hstep as [s b s' E|idle s t th s' Ht Hs Hd E|s t junk Ht Hl|s t th port j p s' Ht Hs Hp E
    |s t th c s' Hc Ht Hne Hlt E|s regs Hl|s l|s s' E|s s' E|s b s' E]; cbn [fst snd] in *; rewrite ?app_nil_r.
  - destruct (Yield_wf s Hwf) as (b' & s1 & E1 & H). congruence.
  - destruct (ReadyToRun_wf _ _ s t th Hwf Ht) as (s1 & E1 & H & _); [congruence|done|].
    destruct (decide (t = currentThread s)) as [->|Hne].
    + destruct (wf_current _ _ _ _ Hwf) as (c & Hc & Hcs). destruct idle; [|congruence].
      rewrite orb_true_l in H. congruence.
    + rewrite bool_decide_eq_false_2, orb_false_r in H by done. congruence.
  - by apply wf_new.
  - destruct (Fork_wf s t th port j p Hwf Ht Hs Hp) as (s1 & E1 & H). congruence.
  - destruct (wf_threads _ _ _ _ Hwf _ _ Hc) as (Hp & _).
    destruct (inherit_wf s t th (th_priority c) Hwf Ht) as [[_ E1]|(s1 & E1 & H & _)]; [lia|congruence..].
  - destruct Hwf. by split.
  - by apply wf_slevel.
  - destruct (Sleep_begin_wf s Hwf (Sleep_begin_level _ _ _ E)) as (s1 & E1 & H & _). congruence.
  - by eapply Finish_end_wf.
  - destruct (Sleep_round_wf s Hwf) as (b' & s1 & E1 & H & _).
    rewrite E in E1. by injection E1 as <- <-.
Qed.

(** *** The user context of a thread

    [user_ctx t R sp s]: thread [t] runs a user program in the space [sp], has
    not finished, and its registers are [R], in the machine when [t] has the
    processor and in its control block otherwise. *)
Definition user_ctx (t : Z) (R : list Z) (sp : Z) (s : sched) : Prop :=
  ∃ th, threads s !! t = Some th ∧ th_space th = Some sp ∧ th_fresh th = false ∧
    th_status th ≠ JUST_CREATED ∧ threadToBeDestroyed s ≠ Some t ∧
    if decide (currentThread s = t) then registers s = R ∧ machine_pageTable s = Some sp
    else th_userRegisters th = R.

Lemma user_ctx_alter t R sp s t' f :
  (∀ th, th_space (f th) = th_space th ∧ th_userRegisters (f th) = th_userRegisters th ∧
     th_fresh (f th) = th_fresh th ∧ th_status (f th) ≠ JUST_CREATED) →
  user_ctx t R sp s → user_ctx t R sp (set_threads (alter f t' (threads s)) s).
Proof.
  intros Hf (th & Ht & Hsp & Hfr & Hst & Hd & Hr). unfold user_ctx. cbn.
  destruct (decide (t' = t)) as [->|Hne].
  - rewrite lookup_alter_eq, Ht. destruct (Hf th) as (H1 & H2 & H3 & H4). exists (f th).
    rewrite H1, H2, H3. by split_and!.
  - rewrite lookup_alter_ne by done. exists th. by split_and!.
Qed.

Lemma user_ctx_ready t R sp s q : user_ctx t R sp s → user_ctx t R sp (set_ready q s).
Proof. done. Qed.
Lemma user_ctx_slevel t R sp s l : user_ctx t R sp s → user_ctx t R sp (set_slevel l s).
Proof. done. Qed.

(** A context switch moves the registers between the two places. *)
Lemma Run_user_ctx t R sp n s s' : sched_wf true (Some n) L s → user_ctx t R sp s →
  Run n s = Ok (tt, s') → user_ctx t R sp s'.
Proof.
  intros Hwf (th & Ht & Hsp & Hfr & Hst & Hd & Hr) E.
  destruct (wf_taken _ _ _ _ Hwf n eq_refl) as (_ & thn & Hn & Hns).
  destruct (wf_current _ _ _ _ Hwf) as (old & Hc & _).
  destruct (wf_threads _ _ _ _ Hwf _ _ Hc) as (_ & Hlu & Hf).
  destruct (Run_before_wf n s Hwf) as (s1 & E1 & Hwf1 & Hc1 & _ & _ & Hd1).
  unfold Run, thread_at in E. unfold_M. rewrite E1 in E.
  pose proof (Run_before_ok n s old thn Hc Hn Hf (wf_registers _ _ _ _ Hwf) Hlu) as E1'.
  rewrite E1 in E1'. injection E1' as Hs1.
  assert (∃ th1, threads s1 !! t = Some th1 ∧ th_space th1 = Some sp ∧ th_fresh th1 = false ∧
    th_status th1 ≠ JUST_CREATED ∧ th_userRegisters th1 = R) as (th1 & Ht1 & Hsp1 & Hfr1 & Hst1 & Hr1).
  { rewrite Hs1. cbn. destruct (decide (currentThread s = t)) as [Hct|Hct].
    - assert (old = th) as -> by congruence. rewrite Hsp, Hct. destruct Hr as [Hr _].
      destruct (decide (n = t)) as [->|Hnt].
      + rewrite lookup_alter_eq, lookup_alter_eq, Ht. eexists. by split_and!.
      + rewrite lookup_alter_ne, lookup_alter_eq, Ht by done. eexists. by split_and!.
    - assert (Hm : (match th_space old with
        | Some _ => alter (th_setRegisters (registers s)) (currentThread s) (threads s)
        | None => threads s end) !! t = Some th).
      { destruct (th_space old); [|done]. by rewrite lookup_alter_ne. }
      destruct (decide (n = t)) as [->|Hnt].
      + rewrite lookup_alter_eq, Hm. eexists. by split_and!.
      + rewrite lookup_alter_ne, Hm by done. eexists. by split_and!. }
  destruct (wf_current _ _ _ _ Hwf1) as (thn1 & Hn1 & _). rewrite Hc1 in Hn1. rewrite Hn1 in E.
  destruct (th_fresh thn1) eqn:Ef.
  - rewrite (thread_upd_ok n _ s1 thn1 Hn1) in E. injection E as <-.
    assert (n ≠ t) by congruence. unfold user_ctx. cbn. rewrite lookup_alter_ne by done.
    exists th1. rewrite Hd1, Hc1, decide_False by done. by split_and!.
  - destruct (Run_after_wf s1 Hwf1) as (s2 & thc & E2 & _ & Hc2 & _ & _ & Hd2 & Hm2 & Htc & Hr2 & Hp2).
    assert (s' = s2) as -> by congruence. exists th1. rewrite Hd2, Hc2, Hm2, Hd1.
    assert (Ht1' : (match threadToBeDestroyed s with Some d => delete d (threads s1)
                    | None => threads s1 end) !! t = Some th1).
    { destruct (threadToBeDestroyed s) as [d|]; [|done]. rewrite lookup_delete_ne; congruence. }
    split_and!; try done. destruct (decide (currentThread s1 = t)) as [Hdec|]; [|done].
    assert (thc = th1) as -> by congruence. rewrite Hr2, Hp2, Hsp1. done.
Qed.

Lemma ReadyToRun_user_ctx t R sp idle taken s t' th' s' : sched_wf idle taken L s →
  threads s !! t' = Some th' → user_ctx t R sp s → ReadyToRun t' s = Ok (tt, s') → user_ctx t R sp s'.
Proof.
  intros Hwf Ht HJ E. destruct (wf_threads _ _ _ _ Hwf _ _ Ht) as (Hp & _).
  destruct (lookup_lt_is_Some_2 (readyListP s) (Z.to_nat (th_priority th'))) as [q Hq].
  { rewrite (wf_queues _ _ _ _ Hwf). lia. }
  rewrite (ReadyToRun_ok _ s th' q Ht) in E by (done || lia). injection E as <-.
  apply user_ctx_ready. by apply user_ctx_alter.
Qed.

Lemma Yield_user_ctx t R sp s b s' : sched_wf false None L s → user_ctx t R sp s →
  Yield (currentThread s) s = Ok (b, s') → user_ctx t R sp s'.
Proof.
  intros Hwf HJ E. apply (wf_slevel _ _ _ IntOff) in Hwf. apply (user_ctx_slevel _ _ _ _ IntOff) in HJ.
  unfold Yield in E. unfold_M. rewrite bool_decide_eq_true_2 in E by done. cbn [negb] in E.
  destruct (FindNextToRun_wf _ _ Hwf) as [[E1 _]|(n & s1 & E1 & Hwf1 & _ & Hs1)]; rewrite E1 in E.
  { injection E as <- <-. by apply user_ctx_slevel. }
  assert (HJ1 : user_ctx t R sp s1) by (rewrite Hs1; by apply user_ctx_ready).
  assert (Ecur : currentThread s1 = currentThread s) by (by rewrite Hs1).
  destruct (wf_current _ _ _ _ Hwf1) as (c & Hc & Hcs). rewrite Ecur in Hc.
  destruct (ReadyToRun_wf _ _ s1 _ _ Hwf1 Hc) as (s2 & E2 & Hwf2 & _).
  { congruence. }
  { intros Hd. destruct (wf_destroyed _ _ _ _ Hwf1 _ Hd) as (Hne & _).
    rewrite Ecur in Hne. by apply Hne. }
  rewrite Ecur, bool_decide_eq_true_2, orb_true_r in Hwf2 by done. rewrite E2 in E.
  destruct (Run_wf _ _ Hwf2) as (s3 & E3 & _). rewrite E3 in E. injection E as <- <-.
  eapply Run_user_ctx; [done| |done]. exact (ReadyToRun_user_ctx _ _ _ _ _ s1 _ c s2 Hwf1 Hc HJ1 E2).
Qed.

Lemma inherit_user_ctx t R sp s t' th' p s' : sched_wf false None L s → threads s !! t' = Some th' →
  th_priority th' < p < Z.of_nat MaxPriority →
  user_ctx t R sp s → inherit t' p s = Ok (tt, s') → user_ctx t R sp s'.
Proof.
  intros Hwf Ht Hp (th & H & Hsp & Hfr & Hst & Hd & Hr) E.
  destruct (inherit_wf s t' th' p Hwf Ht Hp) as [[_ E1]|(s1 & E1 & _ & Hs1)]; [congruence|].
  assert (s' = s1) as -> by congruence. rewrite Hs1. unfold user_ctx. cbn.
  destruct (decide (t' = t)) as [->|Hne].
  - rewrite lookup_alter_eq, H. eexists. by split_and!.
  - rewrite lookup_alter_ne by done. exists th. by split_and!.
Qed.

Lemma Fork_user_ctx t R sp s t' th' port j p s' : sched_wf false None L s →
  threads s !! t' = Some th' → th_status th' = JUST_CREATED → 0 ≤ p < Z.of_nat MaxPriority →
  user_ctx t R sp s → Fork t' port j p s = Ok (tt, s') → user_ctx t R sp s'.
Proof.
  intros Hwf Ht Hs Hp (th & H & Hsp & Hfr & Hst & Hd & Hr) E.
  assert (Hne : t' ≠ t) by congruence.
  unfold Fork, StackAllocate in E. unfold_M. rewrite (thread_upd_ok _ _ s _ Ht) in E.
  set (s1 := set_threads _ s) in E.
  assert (Ht1 : threads s1 !! t' = Some (th_setStack (Some STACK_FENCEPOST) true th')).
  { cbn. by rewrite lookup_alter_eq, Ht. }
  assert (∃ f, (if bool_decide (j = 0) then thread_upd t' (th_setJoin true (Some port))
     else λ s, Ok (tt, s)) s1 = Ok (tt, set_threads (alter f t' (threads s1)) s1)) as [f Ef].
  { case_bool_decide; [eexists; by eapply thread_upd_ok|]. exists (λ th, th).
    do 2 f_equal. destruct s1 as [m ? ? ? ? ? ?]. unfold set_threads. cbn. f_equal.
    symmetry. apply alter_id. by intros. }
  rewrite Ef in E. clear Ef. set (s2 := set_threads _ s1) in E.
  assert (∃ th2, threads s2 !! t' = Some th2) as [th2 Ht2].
  { unfold s2. cbn [threads set_threads]. rewrite lookup_alter_eq, Ht1. by eexists. }
  rewrite (thread_upd_ok _ _ s2 _ Ht2) in E. set (s3 := set_threads _ s2) in E.
  destruct (ReadyToRun t' (set_slevel IntOff s3)) as [[[] s4]|] eqn:E4; [|done].
  injection E as <-. apply user_ctx_slevel.
  unfold ReadyToRun, queue_Append, queue_set, thread_at in E4. unfold_M.
  assert (Ht3 : threads (set_slevel IntOff s3) !! t' = Some (th_setPriority p th2)).
  { cbn [threads set_slevel]. unfold s3. cbn [threads set_threads]. by rewrite lookup_alter_eq, Ht2. }
  rewrite (thread_upd_ok _ _ _ _ Ht3) in E4. cbn [threads set_threads] in E4.
  rewrite lookup_alter_eq, Ht3 in E4. cbn [fmap option_fmap option_map] in E4.
  destruct (queue_at _ _) as [[q s5]|] eqn:E5; [|done]. injection E4 as <-.
  unfold queue_at in E5. case_bool_decide; [|done]. destruct (_ !! _) in E5; [|done].
  injection E5 as _ <-. apply user_ctx_ready. exists th.
  split_and!; try done. cbn [threads set_threads set_slevel]. unfold s3, s2, s1.
  cbn [threads set_threads set_slevel]. by rewrite !lookup_alter_ne.
Qed.

End Machine.

Lemma sched_run_wf regs junk lost c : length regs = Z.to_nat NumTotalRegs → length junk = Z.to_nat NumTotalRegs →
  sched_run (false, boot_sched regs junk) lost c → sched_wf c.1 None lost c.2.
Proof.
  intros Hr Hj Hrun. remember (false, boot_sched regs junk) as c0 eqn:Hc0.
  induction Hrun as [c|c lost c1 l c2 _ IH Hstep]; subst.
  - by apply boot_wf.
  - eapply sched_step_wf; [exact Hstep|by apply IH].
Qed.

(** ** Theorems *)

(** [FindNextToRun] is FIFO within the highest non-empty priority: it
    returns [NULL] and changes nothing exactly when every queue is empty, and
    otherwise it takes the head of a queue above which all queues are empty,
    leaving the others as they are. *)
Theorem FindNextToRun_highest_fifo (s : sched) : length (readyListP s) = MaxPriority →
  ∃ r s', FindNextToRun s = Ok (r, s') ∧
    match r with
    | None => s' = s ∧ concat (readyListP s) = []
    | Some t => ∃ i q, readyListP s !! i = Some (t :: q) ∧
        (∀ j q', (i < j)%nat → readyListP s !! j = Some q' → q' = []) ∧
        s' = set_ready (<[i := q]> (readyListP s)) s
    end.
Proof.
  intros Hl. destruct (FindNextToRun_cases s Hl) as [[E He]|(i & t & q & E & Hi & Hj)].
  - exists None, s. split_and!; [done|done|]. destruct (concat (readyListP s)) as [|x l] eqn:Ec; [done|].
    assert (x ∈ concat (readyListP s)) as Hx by (rewrite Ec; set_solver).
    apply elem_of_concat_lookup in Hx as (j & q & Hq & Hx).
    apply list_elem_of_lookup_2, He in Hq. subst q. set_solver.
  - eexists (Some t), _. split; [exact E|]. eauto.
Qed.

(** C5: every state the thread machine reaches from boot satisfies the invariant
    (one running thread, each ready thread in exactly the queue of its priority
    and once, no blocked or running thread queued, stacks intact, the finished
    thread blocked until it is freed), but for the threads [lost] that priority
    inheritance has dropped: these stay ready and in no queue, so that none of them
    ever gets the processor again, and no other operation loses a thread.
    No operation of a reachable state faults: [Yield] of the running thread, a
    wake-up, [Fork] and, once the thread sleeps, every round of its loop succeed;
    but when the running thread raises the priority of a holder of lower priority
    whose ready queue is empty, [ChangeQueuePriority] dereferences [NULL], and with
    a queue that another thread heads, that thread is the one dropped. *)
Theorem sched_machine_safe (regs junk lost : list Z) (idle : bool) (s : sched) :
  length regs = Z.to_nat NumTotalRegs → length junk = Z.to_nat NumTotalRegs →
  sched_run (false, boot_sched regs junk) lost (idle, s) →
  sched_wf idle None lost s ∧
  (idle = false → ∃ b s', Yield (currentThread s) s = Ok (b, s') ∧ currentThread s' ∉ lost) ∧
  (idle = false → s_level s = IntOff → ∃ s', Sleep_begin (currentThread s) s = Ok (tt, s')) ∧
  (idle = true → ∃ b s', Sleep_round s = Ok (b, s') ∧ (b = false ↔ concat (readyListP s) = []) ∧
                         (b = true → currentThread s' ∉ lost)) ∧
  (∀ t th, threads s !! t = Some th → th_status th = BLOCKED → ∃ s', ReadyToRun t s = Ok (tt, s')) ∧
  (∀ t th p, threads s !! t = Some th → th_priority th < p < Z.of_nat MaxPriority → idle = false →
     match readyListP s !! Z.to_nat (th_priority th) with
     | Some [] => inherit t p s = Err NullDeref
     | Some (h :: _) => ∃ s', inherit t p s = Ok (tt, s') ∧
         sched_wf false None (lost ++ if bool_decide (h = t) then [] else [h]) s'
     | None => False
     end).
Proof.
  intros Hr Hj Hrun. pose proof (sched_run_wf _ _ _ _ Hr Hj Hrun) as Hwf. cbn in Hwf. clear Hrun.
  assert (Hnl : ∀ s', sched_wf false None lost s' → currentThread s' ∉ lost).
  { intros s' Hwf' Hin. destruct (wf_lost _ _ _ _ Hwf' _ Hin) as (_ & _ & th & E & Hs).
    destruct (wf_current _ _ _ _ Hwf') as (c & Hc & Hcs). congruence. }
  split_and!; [done| | | | |].
  - intros ->. destruct (Yield_wf s Hwf) as (b & s' & E & Hwf'). eauto.
  - intros -> Hl. destruct (Sleep_begin_wf s Hwf Hl) as (s' & E & _). eauto.
  - intros ->. destruct (Sleep_round_wf s Hwf) as (b & s' & E & Hwf' & Hb). exists b, s'.
    split; [done|]. split; [|intros ->; by apply Hnl]. split; [by intros [_ ?]%Hb|].
    intros He. destruct b; [|done]. revert E. unfold Sleep_round. unfold_M.
    destruct (FindNextToRun_wf _ _ Hwf) as [[-> _]|(t & s1 & _ & _ & Hp & _)]; [done|].
    rewrite He in Hp. by apply Permutation_nil_cons in Hp.
  - intros t th Ht Hs. destruct (wf_threads _ _ _ _ Hwf t th Ht) as (Hp & _).
    destruct (lookup_lt_is_Some_2 (readyListP s) (Z.to_nat (th_priority th))) as [q Hq].
    { rewrite (wf_queues _ _ _ _ Hwf). lia. }
    rewrite (ReadyToRun_ok t s th q Ht ltac:(lia) Hq). eauto.
  - intros t th p Ht Hp ->. destruct (wf_threads _ _ _ _ Hwf t th Ht) as (Hp0 & _).
    pose proof (inherit_wf s t th p Hwf Ht Hp) as Hi. unfold dropped in Hi. rewrite Ht in Hi.
    destruct (readyListP s !! Z.to_nat (th_priority th)) as [[|h q]|] eqn:Hq.
    + destruct Hi as [[_ Hi]|(s' & E & _)]; [done|]. exfalso. revert E. unfold inherit, ChangeQueuePriority, thread_at, queue_Remove.
      unfold_M. rewrite Ht. by rewrite (queue_at_ok _ [] s) by (done || lia).
    + destruct Hi as [[[=] _]|(s' & E & Hwf' & _)]. eauto.
    + apply lookup_ge_None in Hq. rewrite (wf_queues _ _ _ _ Hwf) in Hq. lia.
Qed.

(** A step that is neither user code of [t] nor the end of [t]. *)
Definition not_by (t : Z) (c c' : bool * sched) : Prop :=
  (∃ l, sched_step c l c') ∧
  (currentThread c.2 = t → registers c'.2 = registers c.2 ∨ currentThread c'.2 ≠ t) ∧
  threadToBeDestroyed c'.2 ≠ Some t.

Lemma not_by_user_ctx L t R sp c c' : not_by t c c' →
  sched_wf c.1 None L c.2 → user_ctx t R sp c.2 → user_ctx t R sp c'.2.
Proof.
  intros ([l' Hstep] & Hreg & Hd) Hwf HJ.
  destruct Hstep as [s b s' E|idle s t' th' s' Ht Hs Hd' E|s t' junk Ht Hl|s t' th' port j p s' Ht Hs Hp E
                    |s t' th' c s' Hc Ht Hne Hlt E|s regs Hl|s l|s s' E|s s' E|s b s' E]; cbn [fst snd] in *.
  - by eapply Yield_user_ctx.
  - by eapply ReadyToRun_user_ctx.
  - destruct HJ as (th & H & HJ). exists th. split; [|done]. cbn. by rewrite lookup_insert_ne by congruence.
  - by eapply Fork_user_ctx.
  - destruct (wf_threads _ _ _ _ Hwf _ _ Hc) as (Hp & _). apply (inherit_user_ctx (L := L) t R sp s t' th' (th_priority c)); [done|done|lia|done|done].
  - destruct HJ as (th & H & H1 & H2 & H3 & H4 & HJ). exists th. split_and!; try done. cbn in *.
    case_decide as Hc; [|done]. destruct (Hreg Hc) as [->|]; [done|done].
  - by apply user_ctx_slevel.
  - destruct (Sleep_begin_wf s Hwf (Sleep_begin_level _ _ _ E)) as (s1 & E1 & _ & Hs1).
    assert (s' = s1) as -> by congruence. rewrite Hs1. by apply user_ctx_alter.
  - unfold Finish_end, Sleep_begin in E. unfold_M.
    case_bool_decide; [|done]. case_bool_decide; [|done].
    destruct (wf_current _ _ _ _ Hwf) as (c & Hc & _).
    rewrite (thread_upd_ok _ _ (set_toBeDestroyed _ s) c Hc) in E. injection E as <-.
    apply (user_ctx_alter t R sp (set_toBeDestroyed (Some (currentThread s)) s)); [done|].
    destruct HJ as (th & Hth & Hj1 & Hj2 & Hj3 & Hj4 & HJ). exists th. by split_and!.
  - unfold Sleep_round in E. unfold_M.
    destruct (FindNextToRun_wf _ _ Hwf) as [[E1 _]|(n & s1 & E1 & Hwf1 & _ & Hs1)]; rewrite E1 in E.
    { by injection E as <- <-. }
    destruct (Run_wf _ _ Hwf1) as (s2 & E2 & _). rewrite E2 in E. injection E as <- <-.
    eapply Run_user_ctx; [done| |done]. rewrite Hs1. by apply user_ctx_ready.
Qed.

(** C13: the registers and the page table of a user thread survive everything
    the other threads do: along any run of the machine in which [t] executes no
    user instruction and does not finish, whatever user code the other threads
    run, whenever [t] has the processor again the machine holds the registers
    it had, and its own page table. *)
Theorem user_registers_isolated (t sp : Z) (R L : list Z) (idle idle' : bool) (s s' : sched) :
  sched_wf idle None L s → user_ctx t R sp s →
  rtc (not_by t) (idle, s) (idle', s') →
  user_ctx t R sp s' ∧
  (currentThread s' = t → registers s' = R ∧ machine_pageTable s' = Some sp).
Proof.
  intros Hwf HJ Hrtc.
  assert (Hinv : ∀ c c', rtc (not_by t) c c' → ∀ L, sched_wf c.1 None L c.2 → user_ctx t R sp c.2 →
            user_ctx t R sp c'.2).
  { induction 1 as [|c c1 c2 H _ IH]; [done|]. intros L' HL HJc. destruct (proj1 H) as [l Hl].
    apply (IH (L' ++ l)); [by eapply sched_step_wf|]. by eapply not_by_user_ctx. }
  pose proof (Hinv _ _ Hrtc _ Hwf HJ) as HJ'. split; [done|]. intros Hc.
  destruct HJ' as (th & _ & _ & _ & _ & _ & Hr). cbn in Hr. by rewrite decide_True in Hr.
Qed.

(** [Yield] is a round robin over the ready queues: with nobody ready it
    returns at once and leaves the kernel as it was; otherwise the head of the
    highest non-empty queue gets the processor, and the caller, still ready,
    goes to the end of the queue of its own priority, whether or not that
    priority is higher. *)
Theorem Yield_round_robin (s : sched) (c : Thread) (L : list Z) :
  sched_wf false None L s → threads s !! currentThread s = Some c →
  (concat (readyListP s) = [] ∧ Yield (currentThread s) s = Ok (false, s)) ∨
  (∃ i t q qc s', readyListP s !! i = Some (t :: q) ∧
     (∀ j q', (i < j)%nat → readyListP s !! j = Some q' → q' = []) ∧
     Yield (currentThread s) s = Ok (true, s') ∧ sched_wf false None L s' ∧ currentThread s' = t ∧
     <[i := q]> (readyListP s) !! Z.to_nat (th_priority c) = Some qc ∧
     readyListP s' = <[Z.to_nat (th_priority c) := qc ++ [currentThread s]]>
                       (<[i := q]> (readyListP s))).
Proof.
  intros Hwf Hc. pose proof (wf_slevel _ _ _ IntOff Hwf) as Hwf0.
  unfold Yield. unfold_M. rewrite bool_decide_eq_true_2 by done. cbn [negb].
  destruct (FindNextToRun_wf _ _ Hwf0) as [[-> He]|(t & s1 & E & Hwf1 & _ & Hs1)].
  { left. split; [done|]. do 2 f_equal. by destruct s. }
  right. rewrite E.
  destruct (FindNextToRun_cases _ (wf_queues _ _ _ _ Hwf0)) as [[E' _]|(i & t' & q & E' & Hi & Hj)];
    [congruence|]. rewrite E in E'. injection E' as <- E'. cbn in Hi, Hj, E'.
  assert (Hc1 : threads s1 !! currentThread s = Some c) by (by rewrite E').
  destruct (wf_current _ _ _ _ Hwf) as (c' & Hc' & Hcs). rewrite Hc in Hc'. injection Hc' as <-.
  destruct (ReadyToRun_wf _ _ s1 _ _ Hwf1 Hc1) as (s2 & -> & Hwf2 & (qc & Hqc & Hr2) & _).
  { congruence. }
  { rewrite E'. cbn. intros Hd. destruct (wf_destroyed _ _ _ _ Hwf _ Hd) as (Hne & _). by apply Hne. }
  rewrite bool_decide_eq_true_2, orb_true_r in Hwf2 by (by rewrite E').
  destruct (Run_wf _ _ Hwf2) as (s3 & -> & Hwf3 & Hc3 & Hr3 & _).
  exists i, t, q, qc, s3. rewrite Hr3, Hr2. rewrite E' in Hqc |- *. cbn in Hqc |- *. by split_and!.
Qed.

(** ** Witnesses *)

Definition two_threads : sched :=
  mkSched {[ 0 := th_setStatus RUNNING (new_Thread (replicate 40 0));
             1 := mkThread READY 0 false None (Some STACK_FENCEPOST) true (replicate 40 0) None 0;
             2 := mkThread READY 0 false None (Some STACK_FENCEPOST) true (replicate 40 0) None 0 ]}
    [[1; 2]; []; []] 0 None IntOn (replicate 40 0) None.

Lemma FindNextToRun_highest_fifo_witness :
  ∃ r s', FindNextToRun two_threads = Ok (r, s') ∧
    match r with
    | None => s' = two_threads ∧ concat (readyListP two_threads) = []
    | Some t => ∃ i q, readyListP two_threads !! i = Some (t :: q) ∧
        (∀ j q', (i < j)%nat → readyListP two_threads !! j = Some q' → q' = []) ∧
        s' = set_ready (<[i := q]> (readyListP two_threads)) two_threads
    end.
Proof. apply (FindNextToRun_highest_fifo two_threads). reflexivity. Defined.

(** The state an operation leaves. *)
Definition after {A} (m : M sched A) (s : sched) : sched :=
  match m s with Ok (_, s') => s' | Err _ => s end.

(** The main thread creates threads 1 and 2 at priority 0 and thread 3 at
    priority 1 and yields to that one, which asks for a lock that thread 2 holds:
    thread 1, at the head of the queue of priority 0, is lost. *)
Definition booted : sched := boot_sched (replicate 40 0) (replicate 40 0).
Definition created (t : Z) (s : sched) : sched := set_threads (<[t := new_Thread (replicate 40 0)]> (threads s)) s.
Definition forked (t p : Z) (s : sched) : sched := after (Fork t 0 1 p) (created t s).
Definition three_forked : sched := forked 3 1 (forked 2 0 (forked 1 0 booted)).
Definition switched : sched := after (Yield 0) three_forked.
Definition raised : sched := after (inherit 2 1) switched.

Lemma sched_machine_safe_witness :
  sched_wf false None [1] raised ∧ currentThread raised = 3 ∧ readyListP raised = [[0]; [2]; []].
Proof.
  split; [|vm_compute; split; reflexivity].
  refine (proj1 (sched_machine_safe (replicate 40 0) (replicate 40 0) [1] false raised _ _ _)).
  - reflexivity.
  - reflexivity.
  - apply (run_step _ [] (false, switched) [1]).
    + assert (Hstep : ∀ c c1 c2, sched_run c [] c1 → sched_step c1 [] c2 → sched_run c [] c2).
      { intros c c1 c2. apply (run_step c [] c1 []). }
      assert (Hfork : ∀ t p s th, threads s !! t = None → 0 ≤ p < 3 → threads (created t s) !! t = Some th →
        th_status th = JUST_CREATED → Fork t 0 1 p (created t s) = Ok (tt, forked t p s) →
        sched_run (false, booted) [] (false, s) → sched_run (false, booted) [] (false, forked t p s)).
      { intros t p s th Hn Hp Ht Hs E Hr. eapply Hstep; [eapply Hstep; [exact Hr|by apply (step_new s t (replicate 40 0))]|].
        by eapply step_fork. }
      eapply Hstep; [|apply (step_yield three_forked true switched); vm_compute; reflexivity].
      do 3 (eapply Hfork; [vm_compute; reflexivity|lia|vm_compute; reflexivity|reflexivity|vm_compute; reflexivity|]).
      apply run_refl.
    + eapply (step_inherit switched 2 _ _ raised);
        [vm_compute; reflexivity|vm_compute; reflexivity|vm_compute; discriminate|reflexivity|vm_compute; reflexivity].
Defined.

(** Thread 0 is a user program that yields to the thread it forked and gets the
    processor back when that one yields. *)
Definition one_user (R : list Z) : sched :=
  mkSched {[ 0 := mkThread RUNNING 0 false None None false (replicate 40 0) (Some 7) 1 ]}
    new_Scheduler 0 None IntOn R (Some 7).

Lemma one_user_wf : sched_wf false None [] (one_user (replicate 40 5)).
Proof.
  split; cbn; try done.
  - by repeat constructor.
  - intros [|[|[|i]]] q t; cbn; intros [= <-] Ht%not_elem_of_nil; done.
  - by intros t th [<- <-]%lookup_singleton_Some.
  - rewrite lookup_singleton_eq. eauto.
  - by intros t th [<- <-]%lookup_singleton_Some.
  - intros t th [<- <-]%lookup_singleton_Some. cbn. unfold MaxPriority. split_and!; [lia|lia|done|done].
  - by intros t ?%not_elem_of_nil.
Qed.

(** Two user programs: thread 0 yields, thread 1 overwrites every register and
    yields back. *)
Definition two_users : sched :=
  mkSched {[ 0 := mkThread RUNNING 0 false None None false (replicate 40 0) (Some 7) 1;
             1 := mkThread READY 0 false None (Some STACK_FENCEPOST) false (replicate 40 1) (Some 8) 2 ]}
    [[1]; []; []] 0 None IntOn (replicate 40 5) (Some 7).

Lemma two_users_wf : sched_wf false None [] two_users.
Proof.
  split; cbn; try done.
  - repeat constructor; set_solver.
  - intros [|[|[|i]]] q t; cbn; try done; intros [= <-] Ht; [|set_solver..].
    apply list_elem_of_singleton in Ht as ->. eexists. split; [reflexivity|done].
  - intros t th [(<- & <-)|(_ & [<- <-]%lookup_singleton_Some)]%lookup_insert_Some; [done|].
    intros _. left. set_solver.
  - eexists. split; reflexivity.
  - by intros t th [(<- & <-)|(_ & [<- <-]%lookup_singleton_Some)]%lookup_insert_Some.
  - intros t th [(<- & <-)|(_ & [<- <-]%lookup_singleton_Some)]%lookup_insert_Some; cbn;
      unfold MaxPriority; (split_and!; [lia|lia|done|]); [done|congruence].
  - by intros t ?%not_elem_of_nil.
Qed.

Definition other_runs : sched := after (Yield 0) two_users.
Definition clobbered : sched := set_registers (replicate 40 9) other_runs.
Definition back : sched := after (Yield 1) clobbered.

Lemma user_registers_isolated_witness :
  currentThread other_runs = 1 ∧ registers other_runs = replicate 40 1 ∧
  currentThread back = 0 ∧ registers back = replicate 40 5 ∧ machine_pageTable back = Some 7.
Proof.
  split; [vm_compute; reflexivity|]. split; [vm_compute; reflexivity|].
  split; [vm_compute; reflexivity|].
  apply (user_registers_isolated 0 7 (replicate 40 5) [] false false two_users back).
  - exact two_users_wf.
  - eexists. split; [reflexivity|]. cbn. by split_and!.
  - eapply rtc_l; [split; [exists []; apply (step_yield two_users true other_runs); vm_compute; reflexivity|]|].
    { split; [right; vm_compute; discriminate|vm_compute; discriminate]. }
    eapply rtc_l; [split; [exists []; apply (step_user other_runs (replicate 40 9)); reflexivity|]|].
    { split; [vm_compute; discriminate|vm_compute; discriminate]. }
    eapply rtc_l; [split; [exists []; apply (step_yield clobbered true back); vm_compute; reflexivity|]|].
    { split; [vm_compute; discriminate|vm_compute; discriminate]. }
    apply rtc_refl.
  - vm_compute. reflexivity.
Defined.

Lemma Yield_round_robin_witness :
  (concat (readyListP (one_user (replicate 40 5))) = [] ∧
   Yield 0 (one_user (replicate 40 5)) = Ok (false, one_user (replicate 40 5))) ∨
  (∃ i t q qc s', readyListP (one_user (replicate 40 5)) !! i = Some (t :: q) ∧
     (∀ j q', (i < j)%nat → readyListP (one_user (replicate 40 5)) !! j = Some q' → q' = []) ∧
     Yield 0 (one_user (replicate 40 5)) = Ok (true, s') ∧ sched_wf false None [] s' ∧
     currentThread s' = t ∧
     <[i := q]> (readyListP (one_user (replicate 40 5))) !! Z.to_nat 0 = Some qc ∧
     readyListP s' = <[Z.to_nat 0 := qc ++ [0]]> (<[i := q]> (readyListP (one_user (replicate 40 5))))).
Proof.
  apply (Yield_round_robin (one_user (replicate 40 5))
           (mkThread RUNNING 0 false None None false (replicate 40 0) (Some 7) 1) []).
  - exact one_user_wf.
  - reflexivity.
Defined.

(** Raising thread 2 to priority 1 while thread 1 is at the head of the queue of
    priority 0: thread 1 is gone. *)
Lemma ChangeQueuePriority_drops_head_witness :
  ∃ s', ChangeQueuePriority 2 1 two_threads = Ok (tt, s') ∧ readyListP s' = [[]; [2]; []].
Proof.
  destruct (ChangeQueuePriority_drops_head two_threads 2 1
    (mkThread READY 0 false None (Some STACK_FENCEPOST) true (replicate 40 0) None 0) []) as [_ H];
    [reflexivity|done|done|done|reflexivity|].
  destruct (H 1 [2]) as (s' & E & _ & Hq); [reflexivity|by eexists| |].
  - repeat constructor; set_solver.
  - exists s'. split; [exact E|]. rewrite Hq. reflexivity.
Defined.
