(* ===== verification/Synch.v ===== *)
(** * Synchronization: semaphores, locks, conditions and ports

    threads/synch.cc with the parts of threads/thread.cc that use it ([Finish],
    [Join]).  The kernel is the scheduler state of Scheduler.v, the objects, and
    a control stack per thread.

    Kernel code of this simulator is only interrupted where the clock advances,
    that is when interrupts are enabled again (machine/interrupt.h).  So a
    method that blocks or re-enables interrupts in the middle is cut there: the
    definition that bears its name runs up to the first such point and returns
    the [frame]s that are left to do, innermost first.  [V] has such a point only
    at its end, and [P] at its end and where it sleeps.  [step] executes the top frame
    of the current thread, a call of its client code, a time slice or the
    interrupt handler of a device.

    An object is named by who creates it: [SLock l] is the semaphore that the
    constructor of lock [l] allocates, [SWait c n] the one that the [n]-th call
    of [Wait] on [c] allocates, [LPort p] the lock of port [p]; two [new]s never
    give the same name. *)

From S2P Require Import Prelude.
From S2P Require Import LinkedList.
From S2P Require Import Interrupt.
From S2P Require Import Scheduler.

(** ** Names *)

Inductive lock_id := LUser (n : Z) | LPort (p : Z).
Inductive cond_id := CUser (n : Z) | CPortS (p : Z) | CPortR (p : Z).
Inductive sem_id := SUser (n : Z) | SLock (l : lock_id) | SInv (l : lock_id) | SWait (c : cond_id) (n : nat).

#[export] Instance lock_id_eq_dec : EqDecision lock_id.
Proof. solve_decision. Defined.
#[export] Instance cond_id_eq_dec : EqDecision cond_id.
Proof. solve_decision. Defined.
#[export] Instance sem_id_eq_dec : EqDecision sem_id.
Proof. solve_decision. Defined.

#[export] Instance lock_id_countable : Countable lock_id.
Proof.
  refine (inj_countable' (λ l, match l with LUser n => inl n | LPort p => inr p end)
    (λ x, match x with inl n => LUser n | inr p => LPort p end) _). by intros [].
Defined.
#[export] Instance cond_id_countable : Countable cond_id.
Proof.
  refine (inj_countable' (λ c, match c with CUser n => inl n | CPortS p => inr (inl p) | CPortR p => inr (inr p) end)
    (λ x, match x with inl n => CUser n | inr (inl p) => CPortS p | inr (inr p) => CPortR p end) _).
  by intros [].
Defined.
#[export] Instance sem_id_countable : Countable sem_id.
Proof.
  refine (inj_countable'
    (λ s, match s with SUser n => inl (inl n) | SLock l => inl (inr l)
                     | SInv l => inr (inl l) | SWait c n => inr (inr (c, n)) end)
    (λ x, match x with inl (inl n) => SUser n | inl (inr l) => SLock l
                     | inr (inl l) => SInv l | inr (inr (c, n)) => SWait c n end) _).
  by intros [].
Defined.

(** ** Objects *)

Record Semaphore := mkSemaphore { value : Z; queue : list Z }.
Record Lock := mkLock { Prioritymax : Z; thname : option Z; sem : sem_id; semInvP : sem_id }.
(** [waits] counts the calls of [Wait], to name what they allocate. *)
Record Condition := mkCondition { lock : lock_id; semList : list sem_id; waits : nat }.
Record Puerto := mkPuerto {
  plock : lock_id; pcondS : cond_id; pcondR : cond_id; buffer : Z; access : bool
}.

(** What is left to do in a thread: [FUser] is the procedure it runs, [FCrit l]
    the client code between [Acquire] and [Release] of [l]. *)
Inductive frame :=
  | FEnable | FUser | FCrit (l : lock_id)
  | FSleep | FYield (oldLevel : IntStatus)
  | FP (s : sem_id) (oldLevel : IntStatus)
  | FAcquire_inv (l : lock_id) | FAcquire_sem (l : lock_id) | FAcquire_end (l : lock_id)
  | FWait_sem (c : cond_id) (s : sem_id) | FWait_lock (l : lock_id)
  | FBroadcast (c : cond_id)
  | FSend (p msg : Z) | FSend_end (p : Z)
  | FReceive (p : Z) | FReceive_end (p : Z)
  | FFinish | FFinish_end.

#[export] Instance frame_eq_dec : EqDecision frame.
Proof. solve_decision. Defined.

(** The messages of the DEBUG calls of [Send] and [Receive]. *)
Inductive event := Sent (p msg : Z) | Received (p msg : Z).

Record kernel := mkKernel {
  k_sched : sched;
  sems : gmap sem_id Semaphore;
  locks : gmap lock_id Lock;
  conds : gmap cond_id Condition;
  ports : gmap Z Puerto;
  conts : gmap Z (list frame);
  log : list event
}.

(** ** Access to the parts of the kernel *)

Definition on_sched {A} (m : M sched A) : M kernel A := λ k,
  match m (k_sched k) with
  | Ok (a, s) => Ok (a, mkKernel s (sems k) (locks k) (conds k) (ports k) (conts k) (log k))
  | Err f => Err f
  end.

Definition at_ptr {A} (o : option A) : M kernel A :=
  match o with Some a => mret a | None => fail BadPointer end.
Definition sem_at (s : sem_id) : M kernel Semaphore := k ← get; at_ptr (sems k !! s).
Definition lock_at (l : lock_id) : M kernel Lock := k ← get; at_ptr (locks k !! l).
Definition cond_at (c : cond_id) : M kernel Condition := k ← get; at_ptr (conds k !! c).
Definition port_at (p : Z) : M kernel Puerto := k ← get; at_ptr (ports k !! p).
Definition stack_at (t : Z) : M kernel (list frame) := k ← get; at_ptr (conts k !! t).

Definition set_sems (m : gmap sem_id Semaphore) (k : kernel) : kernel :=
  mkKernel (k_sched k) m (locks k) (conds k) (ports k) (conts k) (log k).
Definition set_locks (m : gmap lock_id Lock) (k : kernel) : kernel :=
  mkKernel (k_sched k) (sems k) m (conds k) (ports k) (conts k) (log k).
Definition set_conds (m : gmap cond_id Condition) (k : kernel) : kernel :=
  mkKernel (k_sched k) (sems k) (locks k) m (ports k) (conts k) (log k).
Definition set_ports (m : gmap Z Puerto) (k : kernel) : kernel :=
  mkKernel (k_sched k) (sems k) (locks k) (conds k) m (conts k) (log k).
Definition set_conts (m : gmap Z (list frame)) (k : kernel) : kernel :=
  mkKernel (k_sched k) (sems k) (locks k) (conds k) (ports k) m (log k).
Definition emit (e : event) : M kernel unit := modify (λ k,
  mkKernel (k_sched k) (sems k) (locks k) (conds k) (ports k) (conts k) (log k ++ [e])).

Definition put_sem (s : sem_id) (x : Semaphore) : M kernel unit :=
  modify (λ k, set_sems (<[s := x]> (sems k)) k).
Definition put_lock (l : lock_id) (x : Lock) : M kernel unit :=
  modify (λ k, set_locks (<[l := x]> (locks k)) k).
Definition put_cond (c : cond_id) (x : Condition) : M kernel unit :=
  modify (λ k, set_conds (<[c := x]> (conds k)) k).
Definition put_port (p : Z) (x : Puerto) : M kernel unit :=
  modify (λ k, set_ports (<[p := x]> (ports k)) k).
Definition put_stack (t : Z) (fs : list frame) : M kernel unit :=
  modify (λ k, set_conts (<[t := fs]> (conts k)) k).

Definition current : M kernel Z := gets (λ k, currentThread (k_sched k)).
(** The level part of [Interrupt::SetLevel]; the tick of enabling is the point
    at which [step] may preempt. *)
Definition set_intr (l : IntStatus) : M kernel IntStatus :=
  old ← gets (λ k, s_level (k_sched k));
  on_sched (modify (set_slevel l)) ≫= λ _, mret old.

(** ** Semaphore *)

Definition new_Semaphore (s : sem_id) (initialValue : Z) : M kernel unit :=
  put_sem s (mkSemaphore initialValue []).

Definition delete_Semaphore (s : sem_id) : M kernel unit :=
  sem_at s ≫= λ _, modify (λ k, set_sems (delete s (sems k)) k).

(** [P] from the test of its [while] on. *)
Definition P_loop (s : sem_id) (oldLevel : IntStatus) : M kernel (list frame) :=
  x ← sem_at s;
  if bool_decide (value x = 0) then
    t ← current;
    put_sem s (mkSemaphore (value x) (queue x ++ [t])) ≫= λ _,
    on_sched (Sleep_begin t) ≫= λ _,
    mret [FSleep; FP s oldLevel]
  else
    put_sem s (mkSemaphore (value x - 1) (queue x)) ≫= λ _,
    set_intr oldLevel ≫= λ _,
    mret [].

Definition Semaphore_P (s : sem_id) : M kernel (list frame) :=
  oldLevel ← set_intr IntOff; P_loop s oldLevel.

Definition Semaphore_V (s : sem_id) : M kernel unit :=
  oldLevel ← set_intr IntOff;
  x ← sem_at s;
  (match queue x with
   | t :: q => put_sem s (mkSemaphore (value x) q) ≫= λ _, on_sched (ReadyToRun t)
   | [] => mret tt
   end) ≫= λ _,
  y ← sem_at s;
  put_sem s (mkSemaphore (value y + 1) (queue y)) ≫= λ _,
  set_intr oldLevel ≫= λ _, mret tt.

(** ** Lock *)

Definition new_Lock (l : lock_id) (junk : Z) : M kernel unit :=
  new_Semaphore (SLock l) 1 ≫= λ _,
  new_Semaphore (SInv l) 1 ≫= λ _,
  put_lock l (mkLock junk None (SLock l) (SInv l)).

(** [Lock::~Lock] frees [sem] only. *)
Definition delete_Lock (l : lock_id) : M kernel unit :=
  x ← lock_at l;
  delete_Semaphore (sem x) ≫= λ _,
  modify (λ k, set_locks (delete l (locks k)) k).

Definition isHeldByCurrentThread (l : lock_id) : M kernel bool :=
  x ← lock_at l; t ← current; mret (bool_decide (thname x = Some t)).

(** [Lock::Acquire] up to the return of [semInvP->P()]. *)
Definition Lock_Acquire (l : lock_id) : M kernel (list frame) :=
  held ← isHeldByCurrentThread l;
  if held : bool then mret []
  else x ← lock_at l; fs ← Semaphore_P (semInvP x); mret (fs ++ [FAcquire_inv l]).

(** The priority inheritance of [Lock::Acquire] and [semInvP->V()]. *)
Definition Acquire_inherit (l : lock_id) : M kernel (list frame) :=
  x ← lock_at l;
  (match thname x with
   | Some h =>
       th ← on_sched (thread_at h);
       put_lock l (mkLock (th_priority th) (thname x) (sem x) (semInvP x)) ≫= λ _,
       t ← current;
       tc ← on_sched (thread_at t);
       let pcurrent := th_priority tc in
       if bool_decide (th_priority th < pcurrent) then
         on_sched (ChangeQueuePriority h pcurrent) ≫= λ _,
         on_sched (thread_upd h (th_setPriority pcurrent)) ≫= λ _,
         put_lock l (mkLock pcurrent (thname x) (sem x) (semInvP x))
       else mret tt
   | None => mret tt
   end) ≫= λ _,
  Semaphore_V (semInvP x) ≫= λ _,
  mret [FAcquire_sem l].

(** [sem->P()]. *)
Definition Acquire_sem (l : lock_id) : M kernel (list frame) :=
  x ← lock_at l; fs ← Semaphore_P (sem x); mret (fs ++ [FAcquire_end l]).

(** [thname = currentThread]. *)
Definition Acquire_end (l : lock_id) : M kernel (list frame) :=
  x ← lock_at l; t ← current;
  put_lock l (mkLock (Prioritymax x) (Some t) (sem x) (semInvP x)) ≫= λ _, mret [].

Definition Lock_Release (l : lock_id) : M kernel unit :=
  held ← isHeldByCurrentThread l;
  ASSERT held ≫= λ _,
  held' ← isHeldByCurrentThread l;
  if held' : bool then
    x ← lock_at l;
    put_lock l (mkLock (Prioritymax x) None (sem x) (semInvP x)) ≫= λ _,
    Semaphore_V (sem x)
  else mret tt.

(** ** Condition *)

Definition new_Condition (c : cond_id) (conditionLock : lock_id) : M kernel unit :=
  put_cond c (mkCondition conditionLock [] 0).

(** [Condition::~Condition] deletes the lock it was given. *)
Definition delete_Condition (c : cond_id) : M kernel unit :=
  x ← cond_at c;
  delete_Lock (lock x) ≫= λ _,
  modify (λ k, set_conds (delete c (conds k)) k).

(** [Condition::Wait] up to the return of [lock->Release()]. *)
Definition Condition_Wait (c : cond_id) : M kernel (list frame) :=
  x ← cond_at c;
  held ← isHeldByCurrentThread (lock x);
  ASSERT held ≫= λ _,
  let s := SWait c (waits x) in
  new_Semaphore s 1 ≫= λ _,
  put_cond c (mkCondition (lock x) (semList x ++ [s]) (S (waits x))) ≫= λ _,
  Lock_Release (lock x) ≫= λ _,
  mret [FWait_sem c s; FWait_lock (lock x)].

(** [sem->P()] of [Wait]. *)
Definition Wait_sem (c : cond_id) (s : sem_id) : M kernel (list frame) := Semaphore_P s.
(** [lock->Acquire()] of [Wait]. *)
Definition Wait_lock (l : lock_id) : M kernel (list frame) := Lock_Acquire l.

Definition Condition_Signal (c : cond_id) : M kernel unit :=
  x ← cond_at c;
  held ← isHeldByCurrentThread (lock x);
  ASSERT held ≫= λ _,
  match semList x with
  | s :: rest => put_cond c (mkCondition (lock x) rest (waits x)) ≫= λ _, Semaphore_V s
  | [] => mret tt
  end.

(** [while (!semList->IsEmpty()) Signal()]. *)
Definition Broadcast_loop (c : cond_id) : M kernel (list frame) :=
  x ← cond_at c;
  match semList x with
  | [] => mret []
  | _ => Condition_Signal c ≫= λ _, mret [FBroadcast c]
  end.

Definition Condition_Broadcast (c : cond_id) : M kernel (list frame) :=
  x ← cond_at c;
  held ← isHeldByCurrentThread (lock x);
  ASSERT held ≫= λ _, Broadcast_loop c.

(** ** Puerto *)

Definition new_Puerto (p junk junk' : Z) : M kernel unit :=
  new_Lock (LPort p) junk ≫= λ _,
  new_Condition (CPortS p) (LPort p) ≫= λ _,
  new_Condition (CPortR p) (LPort p) ≫= λ _,
  put_port p (mkPuerto (LPort p) (CPortS p) (CPortR p) junk' true).

Definition delete_Puerto (p : Z) : M kernel unit :=
  x ← port_at p;
  delete_Lock (plock x) ≫= λ _,
  delete_Condition (pcondS x) ≫= λ _,
  delete_Condition (pcondR x) ≫= λ _,
  modify (λ k, set_ports (delete p (ports k)) k).

Definition Puerto_Send (p msg : Z) : M kernel (list frame) :=
  x ← port_at p; fs ← Lock_Acquire (plock x); mret (fs ++ [FSend p msg]).

(** [Send] from the test of its [while] to the return of [Signal]. *)
Definition Send_loop (p msg : Z) : M kernel (list frame) :=
  x ← port_at p;
  if negb (access x) then
    fs ← Condition_Wait (pcondS x); mret (fs ++ [FSend p msg])
  else
    emit (Sent p msg) ≫= λ _,
    put_port p (mkPuerto (plock x) (pcondS x) (pcondR x) msg false) ≫= λ _,
    Condition_Signal (pcondR x) ≫= λ _,
    mret [FSend_end p].

Definition Send_end (p : Z) : M kernel (list frame) :=
  x ← port_at p; Lock_Release (plock x) ≫= λ _, mret [].

Definition Puerto_Receive (p : Z) : M kernel (list frame) :=
  x ← port_at p; fs ← Lock_Acquire (plock x); mret (fs ++ [FReceive p]).

Definition Receive_loop (p : Z) : M kernel (list frame) :=
  x ← port_at p;
  if access x then
    fs ← Condition_Wait (pcondR x); mret (fs ++ [FReceive p])
  else
    let buf := buffer x in
    emit (Received p buf) ≫= λ _,
    put_port p (mkPuerto (plock x) (pcondS x) (pcondR x) (buffer x) true) ≫= λ _,
    Condition_Signal (pcondS x) ≫= λ _,
    mret [FReceive_end p].

Definition Receive_end (p : Z) : M kernel (list frame) :=
  x ← port_at p; Lock_Release (plock x) ≫= λ _, mret [].

(** ** The rest of Thread *)

(** [Thread::Finish] up to the message to the parent. *)
Definition Thread_Finish : M kernel (list frame) :=
  set_intr IntOff ≫= λ _,
  t ← current;
  th ← on_sched (thread_at t);
  if th_join th then
    port ← deref (th_portJoin th);
    fs ← Puerto_Send port 0; mret (fs ++ [FFinish_end])
  else mret [FFinish_end].

Definition Thread_Finish_end : M kernel (list frame) :=
  t ← current; on_sched (Finish_end t) ≫= λ _, mret [FSleep].

Definition Thread_Join (t : Z) : M kernel (list frame) :=
  th ← on_sched (thread_at t);
  if th_join th then port ← deref (th_portJoin th); Puerto_Receive port else mret [].

(** [Thread::Fork] of Scheduler.v, with its port and with the control stack
    that [ThreadRoot] gives the thread: enable interrupts, run the procedure,
    finish. *)
Definition Thread_Fork (t j p junk junk' : Z) : M kernel unit :=
  (if bool_decide (j = 0) then new_Puerto t junk junk' else mret tt) ≫= λ _,
  put_stack t [FEnable; FUser; FFinish] ≫= λ _,
  on_sched (Fork t t j p).

(** One round of the loop of [Thread::Sleep]. *)
Definition Sleep_frame : M kernel (list frame) :=
  b ← on_sched Sleep_round; mret (if b : bool then [] else [FSleep]).

(** ** The machine *)

Definition run_frame (f : frame) : M kernel (list frame) :=
  match f with
  | FEnable => set_intr IntOn ≫= λ _, mret []
  | FUser => mret []
  | FCrit l => Lock_Release l ≫= λ _, mret []
  | FSleep => Sleep_frame
  | FYield oldLevel => set_intr oldLevel ≫= λ _, mret []
  | FP s oldLevel => P_loop s oldLevel
  | FAcquire_inv l => Acquire_inherit l
  | FAcquire_sem l => Acquire_sem l
  | FAcquire_end l => Acquire_end l
  | FWait_sem c s => Wait_sem c s
  | FWait_lock l => Wait_lock l
  | FBroadcast c => Broadcast_loop c
  | FSend p msg => Send_loop p msg
  | FSend_end p => Send_end p
  | FReceive p => Receive_loop p
  | FReceive_end p => Receive_end p
  | FFinish => Thread_Finish
  | FFinish_end => Thread_Finish_end
  end.

(** What happens next: the current thread goes on; its time slice ends; a device
    interrupt handler calls [V]; or its client code calls a method.  Client code
    only runs when it is on top of the stack, and it uses the semaphores it
    created itself, not those inside locks, conditions and ports.  [Enter n] is
    [Acquire] by a client that is not in a critical section of that lock and
    will release it at the end of this one (the step that runs [FCrit]). *)
Inductive label :=
  | Resume | Preempt | DeviceV (n : Z)
  | CallP (n : Z) | CallV (n : Z)
  | Enter (n : Z)
  | CallWait (c : cond_id) | CallSignal (c : cond_id) | CallBroadcast (c : cond_id)
  | CallSend (p msg : Z) | CallReceive (p : Z) | CallJoin (t : Z)
  | NewSem (n v : Z) | NewLock (n junk : Z) | NewCond (n : Z) (l : lock_id)
  | NewThread (t : Z) (junk : list Z) | CallFork (t j p junk junk' : Z).

(** Client code is running. *)
Definition client_top (fs : list frame) : bool :=
  match fs with FUser :: _ | FCrit _ :: _ => true | _ => false end.

Definition is_new {A} (o : option A) : bool := match o with Some _ => false | None => true end.

(** [new Thread] and, at some time before it, the host memory its control block
    is made of. *)
Definition Thread_new (t : Z) (junk : list Z) : M kernel unit :=
  on_sched (modify (λ s, set_threads (<[t := new_Thread junk]> (threads s)) s)).

Definition client_call (l : label) (k : kernel) (fs : list frame) : M kernel (list frame) :=
  match l with
  | CallP n => Semaphore_P (SUser n)
  | CallV n => Semaphore_V (SUser n) ≫= λ _, mret []
  | Enter n => ASSERT (negb (bool_decide (FCrit (LUser n) ∈ fs))) ≫= λ _,
               gs ← Lock_Acquire (LUser n); mret (gs ++ [FCrit (LUser n)])
  | CallWait c => x ← cond_at c; ASSERT (bool_decide (FCrit (lock x) ∈ fs)) ≫= λ _, Condition_Wait c
  | CallSignal c => Condition_Signal c ≫= λ _, mret []
  | CallBroadcast c => Condition_Broadcast c
  | CallSend p msg => Puerto_Send p msg
  | CallReceive p => Puerto_Receive p
  | CallJoin t => Thread_Join t
  | NewSem n v => ASSERT (bool_decide (0 ≤ v) && is_new (sems k !! SUser n)) ≫= λ _,
                  new_Semaphore (SUser n) v ≫= λ _, mret []
  | NewLock n junk => ASSERT (is_new (locks k !! LUser n)) ≫= λ _, new_Lock (LUser n) junk ≫= λ _, mret []
  | NewCond n l => ASSERT (is_new (conds k !! CUser n)) ≫= λ _, new_Condition (CUser n) l ≫= λ _, mret []
  | NewThread t junk => ASSERT (is_new (threads (k_sched k) !! t)) ≫= λ _, Thread_new t junk ≫= λ _, mret []
  | CallFork t j p junk junk' =>
      ASSERT (is_new (ports k !! t) && is_new (locks k !! LPort t) && is_new (conts k !! t)) ≫= λ _,
      Thread_Fork t j p junk junk' ≫= λ _, mret []
  | Resume | Preempt | DeviceV _ => fail AssertFailed
  end.

(** The frames a thread's code returns go on top of what is left of its stack. *)
Definition push (t : Z) (fs : list frame) : M kernel unit :=
  rest ← stack_at t; put_stack t (fs ++ rest).

Definition idling (fs : list frame) : bool := match fs with FSleep :: _ => true | _ => false end.

Definition step (l : label) : M kernel unit :=
  k ← get;
  let t := currentThread (k_sched k) in
  fs ← stack_at t;
  match l with
  | Resume =>
      match fs with
      | f :: rest => put_stack t rest ≫= λ _, gs ← run_frame f; push t gs
      | [] => fail AssertFailed
      end
  | Preempt =>
      ASSERT (bool_decide (s_level (k_sched k) = IntOn)) ≫= λ _,
      b ← on_sched (Yield t);
      if b : bool then push t [FYield IntOn] else mret tt
  | DeviceV n =>
      ASSERT (bool_decide (s_level (k_sched k) = IntOn) || idling fs) ≫= λ _,
      old ← set_intr IntOff;
      Semaphore_V (SUser n) ≫= λ _, set_intr old ≫= λ _, mret tt
  | l => ASSERT (client_top fs) ≫= λ _, gs ← client_call l k fs; push t gs
  end.

Fixpoint run (ls : list label) (k : kernel) : res kernel :=
  match ls with
  | [] => Ok k
  | l :: ls => match step l k with Ok (_, k') => run ls k' | Err f => Err f end
  end.

Definition boot (regs junk : list Z) : kernel :=
  mkKernel (boot_sched regs junk) ∅ ∅ ∅ ∅ {[ 0 := [FUser] ]} [].

(** ** What the operations do *)

(** Everything but the scheduler and the semaphores is as it was. *)
Definition rest_same (k k' : kernel) : Prop :=
  locks k' = locks k ∧ conds k' = conds k ∧ ports k' = ports k ∧ conts k' = conts k ∧ log k' = log k.

#[export] Instance rest_same_preorder : PreOrder rest_same.
Proof. split; [by intros k|]. unfold rest_same. intros k1 k2 k3. naive_solver congruence. Qed.

Section Effects.
Implicit Types (k : kernel) (s : sem_id) (l : lock_id) (t : Z) (fs gs : list frame).

Lemma on_sched_Ok {A} (m : M sched A) k a k' : on_sched m k = Ok (a, k') →
  rest_same k k' ∧ sems k' = sems k.
Proof. unfold on_sched. destruct (m (k_sched k)) as [[]|]; [|done]. by intros [= <- <-]. Qed.

Lemma set_intr_Ok i k a k' : set_intr i k = Ok (a, k') → rest_same k k' ∧ sems k' = sems k.
Proof.
  unfold set_intr. intros H. binds H.
  match goal with H : on_sched _ _ = _ |- _ => by apply on_sched_Ok in H end.
Qed.

Lemma at_ptr_Ok {A} (o : option A) k a k' : at_ptr o k = Ok (a, k') → o = Some a ∧ k' = k.
Proof. destruct o; [|done]. by intros [= <- <-]. Qed.

End Effects.

(** [effects H] takes the run [H] of a method apart into what its calls did. *)
Ltac effects_step :=
  match goal with
  | H : on_sched _ _ = Ok _ |- _ => apply on_sched_Ok in H as [? ?]
  | H : set_intr _ _ = Ok _ |- _ => apply set_intr_Ok in H as [? ?]
  | H : at_ptr _ _ = Ok _ |- _ => apply at_ptr_Ok in H as [? ->]
  end.
Ltac effects H :=
  unfold sem_at, lock_at, cond_at, port_at, put_sem, put_lock, put_cond, put_port, current, emit in H;
  binds H; repeat effects_step.

(** Closes the claims that some components are as they were. *)
Ltac same_solver :=
  unfold rest_same in *; cbn in *; destruct_and?; split_and?; congruence.

Section Effects2.
Implicit Types (k : kernel) (s : sem_id) (l : lock_id) (t : Z) (fs gs : list frame).

Lemma P_loop_Ok s old k gs k' : P_loop s old k = Ok (gs, k') →
  ∃ x, sems k !! s = Some x ∧ rest_same k k' ∧
    ((value x ≠ 0 ∧ gs = [] ∧ sems k' = <[s := mkSemaphore (value x - 1) (queue x)]> (sems k)) ∨
     (value x = 0 ∧ gs = [FSleep; FP s old] ∧
      sems k' = <[s := mkSemaphore 0 (queue x ++ [currentThread (k_sched k)])]> (sems k))).
Proof.
  unfold P_loop. intros H. effects H. exists a. split; [done|].
  case_bool_decide as Hv; effects H.
  - rewrite Hv in *. split; [same_solver|]. right. same_solver.
  - split; [same_solver|]. left. same_solver.
Qed.

Lemma P_Ok s k gs k' : Semaphore_P s k = Ok (gs, k') →
  ∃ x old, sems k !! s = Some x ∧ rest_same k k' ∧
    ((value x ≠ 0 ∧ gs = [] ∧ sems k' = <[s := mkSemaphore (value x - 1) (queue x)]> (sems k)) ∨
     (value x = 0 ∧ gs = [FSleep; FP s old] ∧
      sems k' = <[s := mkSemaphore 0 (queue x ++ [currentThread (k_sched k)])]> (sems k))).
Proof.
  unfold Semaphore_P. intros H. apply bind_Ok in H as (old & k1 & E & H).
  assert (Hc : currentThread (k_sched k1) = currentThread (k_sched k)).
  { unfold set_intr, on_sched in E. unfold_M. by injection E as _ <-. }
  apply set_intr_Ok in E as [E E'].
  apply P_loop_Ok in H as (x & Hx & Hr & H). rewrite Hc, E' in *. exists x, old.
  split_and!; [done|by etrans|done].
Qed.

Lemma V_Ok s k a k' : Semaphore_V s k = Ok (a, k') →
  ∃ x, sems k !! s = Some x ∧ rest_same k k' ∧
    sems k' = <[s := mkSemaphore (value x + 1) (tail (queue x))]> (sems k).
Proof.
  unfold Semaphore_V. intros H. unfold sem_at in H. apply bind_Ok in H as (old & k1 & E1 & H).
  apply set_intr_Ok in E1 as [Hr1 Hs1].
  apply bind_Ok in H as (x & k2 & Ex & H). binds Ex. effects_step.
  match goal with H : sems k1 !! s = _ |- _ => rename H into Hx end.
  apply bind_Ok in H as ([] & k3 & E3 & H).
  assert (Hk3 : rest_same k1 k3 ∧ sems k3 = match queue x with
     | [] => sems k1 | _ :: q => <[s := mkSemaphore (value x) q]> (sems k1) end).
  { destruct (queue x) as [|t q]; effects E3; same_solver. }
  destruct Hk3 as [Hr3 Hs3]. effects H. rewrite Hs1 in *. exists x. split; [done|].
  match goal with H : sems k3 !! s = Some ?y |- _ => rename H into Hy; rename y into y0 end.
  split; [same_solver|].
  assert (y0 = mkSemaphore (value x) (tail (queue x))) as ->.
  { rewrite Hs3 in Hy. destruct (queue x) eqn:Eq.
    - rewrite Hx in Hy. injection Hy as <-. destruct x. cbn in *. by subst.
    - rewrite lookup_insert_eq in Hy. by injection Hy as <-. }
  match goal with H : sems ?z = _ |- sems ?z = _ => rewrite H end. cbn. rewrite Hs3.
  destruct (queue x); [done|]. by rewrite insert_insert_eq.
Qed.

End Effects2.

(** ** The invariant of locks *)

(** Where a thread stands with a lock, read off the first frame of its stack
    that concerns it: on its way to the lock, past [sem->P()] but not yet
    recorded in [thname], or inside the critical section. *)
Inductive mode := Free | Waiting | Got | Held.

Definition role (l : lock_id) (f : frame) : option mode :=
  match f with
  | FAcquire_inv l' | FAcquire_sem l' | FWait_lock l' | FP (SLock l') _ =>
      if decide (l = l') then Some Waiting else None
  | FAcquire_end l' => if decide (l = l') then Some Got else None
  | FCrit l' => if decide (l = l') then Some Held else None
  | FSend p _ | FSend_end p | FReceive p | FReceive_end p =>
      if decide (l = LPort p) then Some Held else None
  | _ => None
  end.

Fixpoint lmode (l : lock_id) (fs : list frame) : mode :=
  match fs with
  | [] => Free
  | f :: rest => match role l f with Some m => m | None => lmode l rest end
  end.

(** The frames of the procedure a thread runs. *)
Definition base (f : frame) : bool :=
  match f with FUser | FFinish | FCrit (LUser _) => true | _ => false end.

Definition is_wait_sem (s : sem_id) : bool := match s with SWait _ _ => true | _ => false end.

(** What lies below a frame. *)
Definition frame_ok (f : frame) (rest : list frame) : Prop :=
  match f with
  | FP (SLock l) _ => lmode l rest = Got
  | FAcquire_inv l | FAcquire_sem l | FAcquire_end l | FWait_lock l => lmode l rest = Held
  | FWait_sem _ s => is_wait_sem s = true
  | FSend p _ | FSend_end p | FReceive p | FReceive_end p => lmode (LPort p) rest = Free
  | FUser | FFinish => Forall base rest
  | FCrit l => Forall base rest ∧ lmode l rest = Free ∧ base f = true
  | _ => True
  end.

Fixpoint stack_ok (fs : list frame) : Prop :=
  match fs with [] => True | f :: rest => frame_ok f rest ∧ stack_ok rest end.

(** The names of the objects inside objects. *)
Record objs_ok (k : kernel) : Prop := {
  ok_locks : ∀ l x, locks k !! l = Some x → sem x = SLock l ∧ semInvP x = SInv l;
  ok_sems : ∀ l x, locks k !! l = Some x → is_Some (sems k !! SLock l);
  ok_conds : ∀ c x, conds k !! c = Some x → Forall is_wait_sem (semList x) ∧
    match c with CPortS p | CPortR p => lock x = LPort p | CUser _ => True end;
  ok_ports : ∀ p x, ports k !! p = Some x →
    plock x = LPort p ∧ pcondS x = CPortS p ∧ pcondR x = CPortR p
}.

(** The value of the lock's semaphore, and its holder. *)
Definition view (k : kernel) (l : lock_id) : option (Z * option Z) :=
  match locks k !! l, sems k !! SLock l with
  | Some x, Some sx => Some (value sx, thname x)
  | _, _ => None
  end.

(** The semaphore is 1 exactly when nobody owns the lock; the owner is the
    thread past [sem->P()], recorded in [thname] from [Acquire_end] on. *)
Definition lock_inv (v : option (Z * option Z)) (l : lock_id) (st : gmap Z (list frame)) : Prop :=
  match v with
  | Some (v, h) => ∃ owner : option Z,
      v = (match owner with Some _ => 0 | None => 1 end) ∧ (∀ t, h = Some t → owner = Some t) ∧
      ∀ t fs, st !! t = Some fs →
        (lmode l fs = Got → owner = Some t ∧ h = None) ∧ (lmode l fs = Held → h = Some t)
  | None => ∀ t fs, st !! t = Some fs → lmode l fs = Free
  end.

Record kinv (k : kernel) : Prop := {
  inv_objs : objs_ok k;
  inv_stacks : ∀ t fs, conts k !! t = Some fs → stack_ok fs;
  inv_locks : ∀ l, lock_inv (view k l) l (conts k)
}.

(** What a step of thread [t] may do to a lock, given how [t] stands with it
    before and after. *)
Inductive lock_step (t : Z) : option (Z * option Z) → option (Z * option Z) → mode → mode → Prop :=
  | ls_same v m m' :
      m' = m ∨ m' = Free ∨ (m' = Waiting ∧ is_Some v) ∨ (m' = Held ∧ ∃ n, v = Some (n, Some t)) →
      lock_step t v v m m'
  | ls_take n h m : n ≠ 0 → lock_step t (Some (n, h)) (Some (n - 1, h)) m Got
  | ls_own n h : lock_step t (Some (n, h)) (Some (n, Some t)) Got Held
  | ls_release n m m' : m' = Free ∨ m' = Waiting →
      lock_step t (Some (n, Some t)) (Some (n + 1, None)) m m'
  | ls_new m' : m' = Free → lock_step t None (Some (1, None)) m' m'.

Section Invariant.
Implicit Types (k : kernel) (s : sem_id) (l : lock_id) (t : Z) (fs gs rest : list frame).

Lemma lock_step_inv t v v' l st fs fs' :
  lock_inv v l st → st !! t = Some fs → lock_step t v v' (lmode l fs) (lmode l fs') →
  lock_inv v' l (<[t := fs']> st).
Proof.
  intros Hinv Ht Hstep. remember (lmode l fs) as m eqn:Em. remember (lmode l fs') as m' eqn:Em'.
  destruct Hstep as [v m m' Hm|n h m Hn|n h|n m m' Hm|m' Hm]; cbn in Hinv |- *.
  - destruct v as [[n h]|]; cbn in *.
    + destruct Hinv as (owner & Hv & Ho & Hst). exists owner. split_and!; [done|done|].
      destruct (Hst t fs Ht) as [Hg Hh].
      intros t' fs1 [(<- & <-)|(Hne & H)]%lookup_insert_Some; [|by apply Hst]. rewrite <- Em, <- Em' in *.
      destruct Hm as [->|[->|[[-> _]|[-> [n' [= -> ->]]]]]]; naive_solver.
    + pose proof (Hinv t fs Ht) as Hf.
      intros t' fs1 [(<- & <-)|(Hne & H)]%lookup_insert_Some; [|by apply (Hinv t')]. rewrite <- Em, <- Em' in *.
      destruct Hm as [->|[->|[[_ [? [=]]]|[-> [n' [=]]]]]]; done.
  - destruct Hinv as (owner & -> & Ho & Hst). destruct owner as [o|]; [done|]. exists (Some t).
    split_and!; [done| |].
    + intros t' Hh. specialize (Ho t' Hh). done.
    + intros t' fs1 [(<- & <-)|(Hne & H)]%lookup_insert_Some.
      * rewrite <- Em'. split; [|done]. intros _. split; [done|]. destruct h as [t'|]; [|done].
        by specialize (Ho t' eq_refl).
      * destruct (Hst t' fs1 H) as [Hg Hh]. split.
        -- intros Hm. by destruct (Hg Hm).
        -- intros Hm. specialize (Hh Hm). by specialize (Ho t' Hh).
  - destruct Hinv as (owner & -> & Ho & Hst). destruct (Hst t fs Ht) as [Hg _].
    destruct (Hg (eq_sym Em)) as [-> ->]. exists (Some t). split_and!; [done|by intros ? [= ->]|].
    intros t' fs1 [(<- & <-)|(Hne & H)]%lookup_insert_Some; [by rewrite <- Em'|].
    destruct (Hst t' fs1 H) as [Hg' Hh']. split; naive_solver.
  - destruct Hinv as (owner & -> & Ho & Hst). rewrite (Ho t eq_refl) in *. exists None.
    split_and!; [done|done|]. intros t' fs1 [(<- & <-)|(Hne & H)]%lookup_insert_Some.
    + rewrite <- Em'. by destruct Hm as [->| ->].
    + destruct (Hst t' fs1 H) as [Hg' Hh']. split; naive_solver.
  - exists None. split_and!; [done|done|].
    intros t' fs1 [(<- & <-)|(Hne & H)]%lookup_insert_Some; [by rewrite <- Em', Hm|].
    by rewrite (Hinv t' fs1 H).
Qed.

Lemma base_mode fs l : Forall base fs →
  lmode l fs = if decide (FCrit l ∈ fs) then Held else Free.
Proof.
  induction 1 as [|f fs Hf _ IH]; [done|]. cbn [lmode].
  destruct f as [| |l'| | | | | | | | | | | | | | |]; try done; cbn.
  - rewrite IH. by rewrite (decide_ext (FCrit l ∈ FUser :: fs) (FCrit l ∈ fs)) by set_solver.
  - destruct (decide (l = l')) as [->|Hne].
    + by rewrite decide_True by set_solver.
    + rewrite IH. by rewrite (decide_ext (FCrit l ∈ FCrit l' :: fs) (FCrit l ∈ fs)) by set_solver.
  - rewrite IH. by rewrite (decide_ext (FCrit l ∈ FFinish :: fs) (FCrit l ∈ fs)) by set_solver.
Qed.

End Invariant.

(** ** The operations and the invariant *)

(** A run that touches neither the stacks nor a lock. *)
Definition quiet (k k' : kernel) : Prop :=
  conts k' = conts k ∧ (objs_ok k → objs_ok k') ∧ ∀ l, view k' l = view k l.

#[export] Instance quiet_preorder : PreOrder quiet.
Proof.
  split; [by intros k|]. intros k1 k2 k3 (H1 & H2 & H3) (H4 & H5 & H6).
  split_and!; [congruence|auto|]. intros l. by rewrite H6.
Qed.

(** The frames that say nothing about any lock. *)
Definition mute (f : frame) : bool :=
  match f with
  | FSleep | FYield _ | FEnable | FBroadcast _ | FFinish_end => true
  | FP s _ => match s with SLock _ => false | _ => true end
  | FWait_sem _ s => is_wait_sem s
  | _ => false
  end.

Section Operations.
Implicit Types (k : kernel) (s : sem_id) (l : lock_id) (t : Z) (fs gs rest : list frame).

Lemma rest_same_objs k k' : rest_same k k' →
  (sems k' = sems k ∨ ∃ s x, sems k' = <[s := x]> (sems k)) → objs_ok k → objs_ok k'.
Proof.
  intros (H1 & H2 & H3 & _) Hs []. split; try by rewrite ?H1, ?H2, ?H3.
  rewrite H1. intros l x Hx. destruct Hs as [->|(s & y & ->)]; [eauto|].
  apply lookup_insert_is_Some'. eauto.
Qed.

Lemma view_same k k' l : locks k' !! l = locks k !! l → sems k' !! SLock l = sems k !! SLock l →
  view k' l = view k l.
Proof. unfold view. by intros -> ->. Qed.

Lemma rest_same_quiet k k' : rest_same k k' → sems k' = sems k → quiet k k'.
Proof.
  intros H Hs. split_and!; [apply H|apply rest_same_objs; auto|].
  intros l. apply view_same; [by rewrite (proj1 H)|by rewrite Hs].
Qed.

(** A change of a semaphore that belongs to no lock. *)
Lemma other_sem_quiet k k' s x : rest_same k k' → sems k' = <[s := x]> (sems k) →
  (∀ l, s ≠ SLock l) → quiet k k'.
Proof.
  intros H Hs Hne. split_and!; [apply H|apply rest_same_objs; eauto|].
  intros l. apply view_same; [by rewrite (proj1 H)|]. rewrite Hs. by rewrite lookup_insert_ne.
Qed.

Lemma P_loop_quiet s old k gs k' : P_loop s old k = Ok (gs, k') → (∀ l, s ≠ SLock l) →
  quiet k k' ∧ (gs = [] ∨ gs = [FSleep; FP s old]).
Proof.
  intros (x & Hx & Hr & [(_ & -> & Hs)|(_ & -> & Hs)])%P_loop_Ok Hne; split; auto;
    by eapply other_sem_quiet.
Qed.

Lemma P_quiet s k gs k' : Semaphore_P s k = Ok (gs, k') → (∀ l, s ≠ SLock l) →
  quiet k k' ∧ (gs = [] ∨ ∃ old, gs = [FSleep; FP s old]).
Proof.
  intros (x & old & Hx & Hr & [(_ & -> & Hs)|(_ & -> & Hs)])%P_Ok Hne; split; eauto;
    by eapply other_sem_quiet.
Qed.

Lemma V_quiet s k a k' : Semaphore_V s k = Ok (a, k') → (∀ l, s ≠ SLock l) → quiet k k'.
Proof. intros (x & Hx & Hr & Hs)%V_Ok Hne. by eapply other_sem_quiet. Qed.

Lemma isHeld_Ok l k b k' : isHeldByCurrentThread l k = Ok (b, k') →
  k' = k ∧ ∃ x, locks k !! l = Some x ∧ b = bool_decide (thname x = Some (currentThread (k_sched k))).
Proof. unfold isHeldByCurrentThread. intros H. effects H. eauto. Qed.

Lemma Acquire_Ok l k gs k' : objs_ok k → Lock_Acquire l k = Ok (gs, k') →
  quiet k k' ∧
  ((gs = [] ∧ ∃ x, locks k !! l = Some x ∧ thname x = Some (currentThread (k_sched k))) ∨
   ∃ pre, gs = pre ++ [FAcquire_inv l] ∧ Forall mute pre).
Proof.
  intros Hok H. unfold Lock_Acquire in H. apply bind_Ok in H as (b & k1 & Hb & H).
  apply isHeld_Ok in Hb as (-> & x & Hx & ->). case_bool_decide as Hh.
  - binds H. split; [done|]. left. eauto.
  - effects H. destruct (ok_locks _ Hok l x Hx) as [_ Hi].
    match goal with Hl : locks k !! l = Some ?y |- _ => assert (y = x) as -> by congruence end.
    match goal with HP : Semaphore_P _ _ = _ |- _ => apply P_quiet in HP as [Hq Hg] end.
    + split; [done|]. right. eexists. split; [done|].
      destruct Hg as [->|[old ->]]; rewrite ?Hi; by repeat constructor.
    + intros l'. by rewrite Hi.
Qed.

(** Re-recording the holder or the priority of a lock. *)
Lemma put_lock_view k l x x' l' : locks k !! l = Some x → thname x' = thname x →
  view (set_locks (<[l := x']> (locks k)) k) l' = view k l'.
Proof.
  intros Hx Ht. unfold view. cbn. destruct (decide (l = l')) as [->|Hne].
  - rewrite lookup_insert_eq, Hx. by rewrite Ht.
  - by rewrite lookup_insert_ne.
Qed.

Lemma put_lock_quiet k l x x' : locks k !! l = Some x → thname x' = thname x →
  sem x' = sem x → semInvP x' = semInvP x → quiet k (set_locks (<[l := x']> (locks k)) k).
Proof.
  intros Hx Ht Hs Hi. split_and!; [done| |intros l'; by eapply put_lock_view].
  intros []. split; cbn; [| |done|done].
  - intros l' y [(<- & <-)|(Hne & Hy)]%lookup_insert_Some; [|auto]. rewrite Hs, Hi. auto.
  - intros l' y [(<- & <-)|(Hne & Hy)]%lookup_insert_Some; eauto.
Qed.

Lemma on_sched_quiet {A} (m : M sched A) k a k' : on_sched m k = Ok (a, k') →
  quiet k k' ∧ locks k' = locks k.
Proof. intros [Hr Hs]%on_sched_Ok. split; [by apply rest_same_quiet|apply Hr]. Qed.

Lemma Acquire_inherit_Ok l k gs k' : objs_ok k → Acquire_inherit l k = Ok (gs, k') →
  quiet k k' ∧ gs = [FAcquire_sem l].
Proof.
  intros Hok H. unfold Acquire_inherit, lock_at in H.
  apply bind_Ok in H as (x & k1 & Ex & H). binds Ex. effects_step.
  match goal with Hl : locks k !! l = _ |- _ => rename Hl into Hx end.
  apply bind_Ok in H as ([] & k2 & E2 & H).
  assert (Hq : quiet k k2).
  { destruct (thname x) as [h|] eqn:Eh; [|by binds E2].
    apply bind_Ok in E2 as (th & k3 & [Hq3 Hl3]%on_sched_quiet & E2). unfold put_lock in E2.
    apply bind_Ok in E2 as ([] & k4 & E4 & E2). binds E4.
    set (x1 := mkLock _ _ _ _) in E2. set (k4 := set_locks _ _) in E2.
    assert (Hq4 : quiet k3 k4) by (eapply put_lock_quiet; [by rewrite Hl3|done..]).
    apply bind_Ok in E2 as (t & k5 & E5 & E2). unfold current in E5. binds E5.
    apply bind_Ok in E2 as (tc & k6 & [Hq6 Hl6]%on_sched_quiet & E2).
    assert (quiet k k6) by (by do 2 (etrans; [eassumption|])).
    case_bool_decide; [|by binds E2].
    apply bind_Ok in E2 as ([] & k7 & [Hq7 Hl7]%on_sched_quiet & E2).
    apply bind_Ok in E2 as ([] & k8 & [Hq8 Hl8]%on_sched_quiet & E2). binds E2.
    do 3 (etrans; [eassumption|]). eapply (put_lock_quiet _ l x1); try done.
    rewrite Hl8, Hl7, Hl6. unfold k4. cbn. by rewrite lookup_insert_eq. }
  apply bind_Ok in H as ([] & k3 & E3 & H). binds H. split; [|done].
  etrans; [exact Hq|]. eapply V_quiet; [exact E3|].
  intros l'. by rewrite (proj2 (ok_locks _ Hok l x Hx)).
Qed.

(** [sem->P()]: the lock's semaphore is taken, or the thread queues for it. *)
Lemma Acquire_sem_Ok l k gs k' : objs_ok k → Acquire_sem l k = Ok (gs, k') →
  conts k' = conts k ∧ objs_ok k' ∧ (∀ l', l' ≠ l → view k' l' = view k l') ∧
  ((gs = [FAcquire_end l] ∧ ∃ n h, view k l = Some (n, h) ∧ view k' l = Some (n - 1, h) ∧ n ≠ 0) ∨
   (view k' l = view k l ∧ ∃ old, gs = [FSleep; FP (SLock l) old; FAcquire_end l])).
Proof.
  intros Hok H. unfold Acquire_sem, lock_at in H.
  apply bind_Ok in H as (x & k1 & Ex & H). binds Ex. effects_step.
  match goal with Hl : locks k !! l = _ |- _ => rename Hl into Hx end.
  apply bind_Ok in H as (hs & k2 & E2 & H). binds H.
  rewrite (proj1 (ok_locks _ Hok l x Hx)) in E2.
  apply P_Ok in E2 as (y & old & Hy & Hr & Hs).
  split_and!; [apply Hr|eapply rest_same_objs; [exact Hr| |done]; naive_solver| |].
  - intros l' Hne. apply view_same; [by rewrite (proj1 Hr)|].
    destruct Hs as [(_ & _ & ->)|(_ & _ & ->)]; by rewrite lookup_insert_ne by congruence.
  - destruct Hs as [(Hv & -> & Hs)|(Hv & -> & Hs)]; [left|right].
    + split; [done|]. exists (value y), (thname x). unfold view.
      rewrite (proj1 Hr), Hs, lookup_insert_eq, Hx, Hy. done.
    + split; [|eauto]. unfold view. rewrite (proj1 Hr), Hs, lookup_insert_eq, Hx, Hy. cbn. by rewrite Hv.
Qed.

(** The same for a thread that [V] has woken in [sem->P()]. *)
Lemma P_loop_lock_Ok l old k gs k' : objs_ok k → is_Some (view k l) → P_loop (SLock l) old k = Ok (gs, k') →
  conts k' = conts k ∧ objs_ok k' ∧ (∀ l', l' ≠ l → view k' l' = view k l') ∧
  ((gs = [] ∧ ∃ n h, view k l = Some (n, h) ∧ view k' l = Some (n - 1, h) ∧ n ≠ 0) ∨
   (view k' l = view k l ∧ gs = [FSleep; FP (SLock l) old])).
Proof.
  intros Hok [[v0 h0] Hv0] (y & Hy & Hr & Hs)%P_loop_Ok.
  split_and!; [apply Hr|eapply rest_same_objs; [exact Hr| |done]; naive_solver| |].
  - intros l' Hne. apply view_same; [by rewrite (proj1 Hr)|].
    destruct Hs as [(_ & _ & ->)|(_ & _ & ->)]; by rewrite lookup_insert_ne by congruence.
  - unfold view in *. rewrite (proj1 Hr). destruct (locks k !! l) as [x|]; [|done].
    destruct Hs as [(Hv & -> & Hs)|(Hv & -> & Hs)]; rewrite Hs, lookup_insert_eq, Hy; [left|right]; cbn.
    + eauto 10.
    + by rewrite Hv.
Qed.

Lemma Acquire_end_Ok l k gs k' : objs_ok k → Acquire_end l k = Ok (gs, k') →
  gs = [] ∧ conts k' = conts k ∧ objs_ok k' ∧ (∀ l', l' ≠ l → view k' l' = view k l') ∧
  ∃ n h, view k l = Some (n, h) ∧ view k' l = Some (n, Some (currentThread (k_sched k))).
Proof.
  intros Hok H. unfold Acquire_end in H. effects H.
  match goal with Hl : locks k !! l = Some ?z |- _ => rename Hl into Hx; rename z into x end.
  destruct (ok_sems _ Hok l x Hx) as [sx Hsx]. split_and!; try done.
  - destruct Hok as [Hl Hm Hc Hp]. split; cbn; [| |done|done];
      intros l' y [(<- & <-)|(Hne & Hy)]%lookup_insert_Some; cbn; eauto.
  - intros l' Hne. unfold view. cbn. by rewrite lookup_insert_ne by congruence.
  - unfold view. cbn. rewrite lookup_insert_eq, Hx, Hsx. eauto.
Qed.

Lemma Release_Ok l k a k' : objs_ok k → Lock_Release l k = Ok (a, k') →
  conts k' = conts k ∧ conds k' = conds k ∧ ports k' = ports k ∧ objs_ok k' ∧
  (∀ l', l' ≠ l → view k' l' = view k l') ∧
  ∃ n, view k l = Some (n, Some (currentThread (k_sched k))) ∧ view k' l = Some (n + 1, None).
Proof.
  intros Hok H. unfold Lock_Release, lock_at in H.
  apply bind_Ok in H as (b & k1 & Hb & H). apply isHeld_Ok in Hb as (-> & x & Hx & ->).
  apply bind_Ok in H as (u & k1 & E1 & H). binds E1.
  apply bind_Ok in H as (b & k2 & Hb & H). apply isHeld_Ok in Hb as (-> & x' & Hx' & ->).
  rewrite Hx in Hx'. injection Hx' as <-. rewrite E1 in H. apply bool_decide_eq_true in E1.
  apply bind_Ok in H as (y & k2 & Hy & H). binds Hy. effects_step.
  match goal with Hl : locks k !! l = Some ?z |- _ => assert (z = x) as -> by congruence end.
  unfold put_lock in H. apply bind_Ok in H as ([] & k3 & E3 & H). binds E3.
  destruct (ok_locks _ Hok l x Hx) as [Hsem Hinv]. rewrite Hsem in H.
  apply V_Ok in H as (y & Hy & Hr & Hs). cbn in Hy, Hs.
  split_and!; [by rewrite (proj1 (proj2 (proj2 (proj2 Hr))))|by rewrite (proj1 (proj2 Hr))
              |by rewrite (proj1 (proj2 (proj2 Hr)))| | |].
  - eapply rest_same_objs; [exact Hr|cbn; eauto|]. destruct Hok as [Hl Hm Hc Hp]. split; cbn; [| |done|done];
      intros l' z [(<- & <-)|(Hne & Hz)]%lookup_insert_Some; eauto.
  - intros l' Hne. unfold view. rewrite (proj1 Hr), Hs. cbn.
    by rewrite !lookup_insert_ne by congruence.
  - unfold view. rewrite (proj1 Hr), Hs. cbn. rewrite !lookup_insert_eq, Hx, Hy, E1. eauto.
Qed.

Lemma put_cond_quiet k c x y : conds k !! c = Some x → lock y = lock x →
  Forall is_wait_sem (semList y) → quiet k (set_conds (<[c := y]> (conds k)) k).
Proof.
  intros Hx Hl Hs. split_and!; [done| |done]. intros [H1 H2 H3 H4]. split; cbn; try done.
  intros c' z [(<- & <-)|(Hne & Hz)]%lookup_insert_Some; [|auto].
  split; [done|]. rewrite Hl. apply (H3 c x Hx).
Qed.

Lemma Signal_Ok c k a k' : objs_ok k → Condition_Signal c k = Ok (a, k') →
  quiet k k' ∧ ports k' = ports k.
Proof.
  intros Hok H. unfold Condition_Signal, cond_at in H.
  apply bind_Ok in H as (x & k1 & Ex & H). binds Ex. effects_step.
  match goal with Hl : conds k !! c = _ |- _ => rename Hl into Hx end.
  apply bind_Ok in H as (b & k2 & Hb & H). apply isHeld_Ok in Hb as (-> & _).
  apply bind_Ok in H as (u & k3 & E3 & H). binds E3.
  destruct (semList x) as [|s rest] eqn:Es; [by binds H|].
  unfold put_cond in H. apply bind_Ok in H as (u & k4 & E4 & H). binds E4.
  destruct (ok_conds _ Hok c x Hx) as [Hw _]. rewrite Es in Hw. apply Forall_cons in Hw as [Hs Hw].
  split.
  - etrans; [exact (put_cond_quiet k c x (mkCondition (lock x) rest (waits x)) Hx eq_refl Hw)|].
    eapply V_quiet; [exact H|]. by intros l ->.
  - apply V_Ok in H as (y & _ & Hr & _). by rewrite (proj1 (proj2 (proj2 Hr))).
Qed.

Lemma Broadcast_loop_Ok c k gs k' : objs_ok k → Broadcast_loop c k = Ok (gs, k') →
  quiet k k' ∧ Forall mute gs.
Proof.
  intros Hok H. unfold Broadcast_loop, cond_at in H.
  apply bind_Ok in H as (x & k1 & Ex & H). binds Ex. effects_step.
  destruct (semList x) as [|s rest] eqn:Es; [by binds H|].
  apply bind_Ok in H as (u & k2 & E2 & H). binds H. apply Signal_Ok in E2 as [Hq _]; [|done].
  split; [done|]. by repeat constructor.
Qed.

(** [Wait] gives up the lock of the condition. *)
Lemma Wait_Ok c x k gs k' : objs_ok k → conds k !! c = Some x → Condition_Wait c k = Ok (gs, k') →
  conts k' = conts k ∧ ports k' = ports k ∧ objs_ok k' ∧
  (∀ l', l' ≠ lock x → view k' l' = view k l') ∧
  (∃ n, view k (lock x) = Some (n, Some (currentThread (k_sched k))) ∧
        view k' (lock x) = Some (n + 1, None)) ∧
  gs = [FWait_sem c (SWait c (waits x)); FWait_lock (lock x)].
Proof.
  intros Hok Hx H. unfold Condition_Wait, cond_at in H.
  apply bind_Ok in H as (x' & k1 & Ex & H). binds Ex. effects_step.
  match goal with Hl : conds k !! c = Some ?z |- _ => assert (z = x) as -> by congruence end.
  apply bind_Ok in H as (b & k2 & Hb & H). apply isHeld_Ok in Hb as (-> & _).
  apply bind_Ok in H as (u & k3 & E3 & H). binds E3.
  unfold new_Semaphore, put_sem, put_cond in H. cbv zeta in H.
  apply bind_Ok in H as (u & k4 & E4 & H). binds E4. set (k1 := set_sems _ k) in H.
  apply bind_Ok in H as (u & k4 & E4 & H). binds E4. set (k2 := set_conds _ k1) in H.
  apply bind_Ok in H as (u & k4 & E4 & H). binds H.
  assert (Hq1 : quiet k k1) by (by eapply other_sem_quiet).
  assert (Hq2 : quiet k1 k2).
  { refine (put_cond_quiet k1 c x
      (mkCondition (lock x) (semList x ++ [SWait c (waits x)]) (S (waits x))) Hx eq_refl _). cbn. apply Forall_app. split; [by eapply ok_conds|].
    by repeat constructor. }
  assert (Hq : quiet k k2) by (by etrans). destruct Hq as (Hc & Ho & Hv).
  apply Release_Ok in E4 as (Hc4 & _ & Hp4 & Ho4 & Hv4 & n & Hn & Hn'); [|auto].
  split_and!; try done; try congruence.
  - intros l' Hne. by rewrite Hv4, Hv.
  - exists n. rewrite <- Hv. done.
Qed.

End Operations.

(** ** The invariant is preserved *)

(** A run of thread [t] from stack [fs] to stack [fs']. *)
Definition segment (t : Z) (k : kernel) (fs : list frame) (k' : kernel) (fs' : list frame) : Prop :=
  conts k' = conts k ∧ objs_ok k' ∧ stack_ok fs' ∧
  ∀ l, lock_step t (view k l) (view k' l) (lmode l fs) (lmode l fs').

Section Preservation.
Implicit Types (k : kernel) (s : sem_id) (l : lock_id) (t : Z) (fs gs rest pre : list frame).

Lemma lmode_mute l pre rest : Forall mute pre → lmode l (pre ++ rest) = lmode l rest.
Proof.
  induction 1 as [|f pre Hf _ IH]; [done|]. cbn [lmode app].
  destruct f as [| | | | |[]| | | | | | | | | | | |]; cbn in *; try done.
Qed.

Lemma stack_ok_mute pre rest : Forall mute pre → stack_ok rest → stack_ok (pre ++ rest).
Proof.
  induction 1 as [|f pre Hf _ IH]; [done|]. intros Hr. cbn [stack_ok app]. split; [|auto].
  destruct f as [| | | | |[]| | | | | | | | | | | |]; cbn in *; try done. by apply Is_true_true.
Qed.

Lemma quiet_segment t k fs k' fs' : quiet k k' → objs_ok k → stack_ok fs' →
  (∀ l, lmode l fs' = lmode l fs ∨ lmode l fs' = Free ∨ (lmode l fs' = Waiting ∧ is_Some (view k l)) ∨
        (lmode l fs' = Held ∧ ∃ n, view k l = Some (n, Some t))) →
  segment t k fs k' fs'.
Proof.
  intros (Hc & Ho & Hv) Hok Hst Hm. split_and!; [done|auto|done|]. intros l. rewrite Hv.
  constructor. apply Hm.
Qed.

Lemma locks_view k l x : objs_ok k → locks k !! l = Some x → ∃ n, view k l = Some (n, thname x).
Proof. intros Hok Hx. destruct (ok_sems _ Hok l x Hx) as [sx Hs]. unfold view. rewrite Hx, Hs. eauto. Qed.

(** [Acquire] called by a frame above the critical section it opens. *)
Lemma Acquire_segment l k gs k' fs rest : objs_ok k → Lock_Acquire l k = Ok (gs, k') →
  stack_ok rest → lmode l rest = Held →
  (∀ l', l' ≠ l → lmode l' rest = lmode l' fs ∨ lmode l' rest = Free) →
  segment (currentThread (k_sched k)) k fs k' (gs ++ rest).
Proof.
  intros Hok H Hst Hl Hne. assert (Hx : ∃ x, locks k !! l = Some x).
  { unfold Lock_Acquire in H. apply bind_Ok in H as (b & k1 & Hb & _).
    apply isHeld_Ok in Hb as (_ & x & Hx & _). eauto. }
  destruct Hx as [x Hx]. destruct (locks_view _ _ _ Hok Hx) as [n Hn].
  apply Acquire_Ok in H as [Hq Hg]; [|done]. apply quiet_segment; [done|done| |].
  - destruct Hg as [[-> _]|(pre & -> & Hp)]; [done|]. rewrite <- app_assoc.
    apply stack_ok_mute; [done|]. by split.
  - intros l'. destruct (decide (l' = l)) as [->|Hl'].
    + destruct Hg as [[-> (x' & Hx' & Ht)]|(pre & -> & Hp)].
      * right; right; right. split; [done|]. assert (x' = x) as -> by congruence.
        exists n. by rewrite Hn, Ht.
      * right; right; left. rewrite <- app_assoc, lmode_mute by done. cbn. rewrite decide_True by done.
        split; [done|]. by rewrite Hn.
    + assert (lmode l' (gs ++ rest) = lmode l' rest) as ->.
      { destruct Hg as [[-> _]|(pre & -> & Hp)]; [done|]. rewrite <- app_assoc, lmode_mute by done.
        cbn. by rewrite decide_False. }
      destruct (Hne l' Hl'); auto.
Qed.

(** Frames that say nothing come and go. *)
Lemma mute_segment t k f pre k' rest : quiet k k' → objs_ok k → stack_ok rest →
  mute f → Forall mute pre → segment t k (f :: rest) k' (pre ++ rest).
Proof.
  intros Hq Hok Hst Hf Hp. apply quiet_segment; [done|done|by apply stack_ok_mute|].
  intros l. left. rewrite lmode_mute by done.
  change (f :: rest) with ([f] ++ rest). rewrite lmode_mute by (by constructor). done.
Qed.

Lemma set_intr_quiet i k a k' : set_intr i k = Ok (a, k') → quiet k k'.
Proof. intros [Hr Hs]%set_intr_Ok. by apply rest_same_quiet. Qed.

Lemma FP_segment s old k gs k' rest : objs_ok k → stack_ok (FP s old :: rest) →
  (∀ l, lmode l (FP s old :: rest) ≠ Free → is_Some (view k l)) →
  P_loop s old k = Ok (gs, k') → ∀ t, segment t k (FP s old :: rest) k' (gs ++ rest).
Proof.
  intros Hok [Hf Hst] Hv H t. assert (Hs : (∃ l, s = SLock l) ∨ ∀ l, s ≠ SLock l) by (destruct s; naive_solver).
  destruct Hs as [[l ->]|Hne].
  - cbn in Hf. destruct (P_loop_lock_Ok l old k gs k' Hok) as (Hc & Ho & Hvn & Hvl); [|done|].
    { apply Hv. cbn. by rewrite decide_True. }
    split_and!; [done|done| |].
    { destruct Hvl as [[-> _]|[_ ->]]; cbn; done. }
    intros l'. destruct (decide (l' = l)) as [->|Hl]; cbn [lmode role].
    + rewrite decide_True by done. destruct Hvl as [(-> & n & h & E & E' & Hn)|[E ->]].
      * rewrite E, E'. cbn. rewrite Hf. by constructor.
      * rewrite E. constructor. left. cbn. by rewrite decide_True.
    + rewrite decide_False, Hvn by done. constructor. left.
      destruct Hvl as [[-> _]|[_ ->]]; cbn; [done|]. by rewrite decide_False.
  - apply P_loop_quiet in H as [Hq Hg]; [|naive_solver].
    assert (mute (FP s old)) by (destruct s; naive_solver).
    apply mute_segment; try done. destruct Hg as [->| ->]; by repeat constructor.
Qed.

(** A frame that ends a critical section. *)
Lemma Release_segment l f k a k' rest : objs_ok k → Lock_Release l k = Ok (a, k') →
  stack_ok rest → lmode l rest = Free → (∀ l', l' ≠ l → role l' f = None) →
  segment (currentThread (k_sched k)) k (f :: rest) k' rest.
Proof.
  intros Hok H Hst Hl Hr. apply Release_Ok in H as (Hc & _ & _ & Ho & Hvn & n & E & E'); [|done].
  split_and!; [done|done|done|]. intros l'. destruct (decide (l' = l)) as [->|Hne].
  - rewrite E, E'. apply ls_release. by left.
  - rewrite Hvn by done. constructor. left. cbn [lmode]. by rewrite Hr.
Qed.

(** The loops of the ports: wait again, or go on with the message passed. *)
Lemma Wait_segment c x f f' k gs k' rest : objs_ok k → conds k !! c = Some x →
  Condition_Wait c k = Ok (gs, k') → stack_ok (f' :: rest) → role (lock x) f' = Some Held →
  (∀ l, role l f' = role l f) →
  segment (currentThread (k_sched k)) k (f :: rest) k' (gs ++ f' :: rest).
Proof.
  intros Hok Hx H Hst Hh Hr.
  destruct (Wait_Ok c x k gs k' Hok Hx H) as (Hc & _ & Ho & Hvn & (n & E & E') & ->).
  split_and!; [done|done| |].
  - cbn [app stack_ok frame_ok]. split_and!; [done| |apply Hst|apply Hst]. cbn [lmode]. by rewrite Hh.
  - intros l'. destruct (decide (l' = lock x)) as [->|Hne].
    + rewrite E, E'. apply ls_release. right. cbn. by rewrite decide_True.
    + rewrite Hvn by done. constructor. left. cbn. rewrite decide_False by done. by rewrite Hr.
Qed.

Lemma emit_quiet e k a k' : emit e k = Ok (a, k') → quiet k k' ∧ ports k' = ports k ∧
  conds k' = conds k ∧ k_sched k' = k_sched k.
Proof. unfold emit. intros H. binds H. split; [|done]. split_and!; [done|by intros []|done]. Qed.

Lemma put_port_quiet k p x y : ports k !! p = Some x → plock y = plock x →
  pcondS y = pcondS x → pcondR y = pcondR x → quiet k (set_ports (<[p := y]> (ports k)) k).
Proof.
  intros Hx Hl Hs Hr. split_and!; [done| |done]. intros [H1 H2 H3 H4]. split; cbn; try done.
  intros p' z [(<- & <-)|(Hne & Hz)]%lookup_insert_Some; [|auto]. rewrite Hl, Hs, Hr. auto.
Qed.

Lemma quiet_role_segment t k f f' k' rest : quiet k k' → objs_ok k → stack_ok (f :: rest) →
  (∀ l, role l f' = role l f) → frame_ok f' rest → segment t k (f :: rest) k' (f' :: rest).
Proof.
  intros Hq Hok [_ Hst] Hr Hf. apply quiet_segment; [done|done|done|].
  intros l. left. cbn [lmode]. by rewrite Hr.
Qed.

Lemma Send_segment p msg k gs k' rest : objs_ok k → stack_ok (FSend p msg :: rest) →
  Send_loop p msg k = Ok (gs, k') →
  segment (currentThread (k_sched k)) k (FSend p msg :: rest) k' (gs ++ rest).
Proof.
  intros Hok Hst H. unfold Send_loop, port_at in H.
  apply bind_Ok in H as (x & k1 & Ex & H). binds Ex. effects_step.
  match goal with Hp : ports k !! p = _ |- _ => rename Hp into Hx end.
  destruct (ok_ports _ Hok p x Hx) as (Hl & Hs & Hr).
  destruct (negb (access x)).
  - apply bind_Ok in H as (hs & k2 & E2 & H). binds H. rewrite Hs in E2.
    assert (Hc : ∃ y, conds k !! CPortS p = Some y).
    { unfold Condition_Wait, cond_at in E2. apply bind_Ok in E2 as (y & k3 & Ey & _). binds Ey.
      effects_step. eauto. }
    destruct Hc as [y Hy]. rewrite <- app_assoc. cbn [app].
    eapply Wait_segment; try done. rewrite (proj2 (ok_conds _ Hok _ _ Hy)). cbn. by rewrite decide_True.
  - apply bind_Ok in H as (u & k2 & E2 & H). apply emit_quiet in E2 as (Hq2 & Hp2 & _ & _).
    unfold put_port in H. apply bind_Ok in H as (u' & k3 & E3 & H). binds E3.
    apply bind_Ok in H as (u'' & k4 & E4 & H). binds H.
    assert (Hq3 : quiet k (set_ports (<[p := mkPuerto (plock x) (pcondS x) (pcondR x) msg false]> (ports k2)) k2)).
    { etrans; [exact Hq2|]. eapply put_port_quiet; [by rewrite Hp2|done..]. }
    apply Signal_Ok in E4 as [Hq4 _]; [|by apply Hq3].
    cbn [app]. apply quiet_role_segment; [by etrans|done|done|done|apply Hst].
Qed.

Lemma Receive_segment p k gs k' rest : objs_ok k → stack_ok (FReceive p :: rest) →
  Receive_loop p k = Ok (gs, k') →
  segment (currentThread (k_sched k)) k (FReceive p :: rest) k' (gs ++ rest).
Proof.
  intros Hok Hst H. unfold Receive_loop, port_at in H.
  apply bind_Ok in H as (x & k1 & Ex & H). binds Ex. effects_step.
  match goal with Hp : ports k !! p = _ |- _ => rename Hp into Hx end.
  destruct (ok_ports _ Hok p x Hx) as (Hl & Hs & Hr).
  destruct (access x).
  - apply bind_Ok in H as (hs & k2 & E2 & H). binds H. rewrite Hr in E2.
    assert (Hc : ∃ y, conds k !! CPortR p = Some y).
    { unfold Condition_Wait, cond_at in E2. apply bind_Ok in E2 as (y & k3 & Ey & _). binds Ey.
      effects_step. eauto. }
    destruct Hc as [y Hy]. rewrite <- app_assoc. cbn [app].
    eapply Wait_segment; try done. rewrite (proj2 (ok_conds _ Hok _ _ Hy)). cbn. by rewrite decide_True.
  - cbv zeta in H.
    apply bind_Ok in H as (u & k2 & E2 & H). apply emit_quiet in E2 as (Hq2 & Hp2 & _ & _).
    unfold put_port in H. apply bind_Ok in H as (u' & k3 & E3 & H). binds E3.
    apply bind_Ok in H as (u'' & k4 & E4 & H). binds H.
    assert (Hq3 : quiet k (set_ports (<[p := mkPuerto (plock x) (pcondS x) (pcondR x) (buffer x) true]> (ports k2)) k2)).
    { etrans; [exact Hq2|]. eapply put_port_quiet; [by rewrite Hp2|done..]. }
    apply Signal_Ok in E4 as [Hq4 _]; [|by apply Hq3].
    cbn [app]. apply quiet_role_segment; [by etrans|done|done|done|apply Hst].
Qed.

(** A call of [Send] or [Receive]: [f] is the frame of its loop. *)
Lemma port_call_segment p x hs f k k' fs rest : objs_ok k → ports k !! p = Some x →
  Lock_Acquire (plock x) k = Ok (hs, k') →
  (∀ l, role l f = if decide (l = LPort p) then Some Held else None) →
  frame_ok f rest → stack_ok rest → (∀ l, lmode l rest = lmode l fs) →
  segment (currentThread (k_sched k)) k fs k' (hs ++ f :: rest).
Proof.
  intros Hok Hx H Hr Hf Hst Hm. rewrite (proj1 (ok_ports _ Hok p x Hx)) in H.
  eapply Acquire_segment; try done.
  - cbn [lmode]. by rewrite Hr, decide_True.
  - intros l' Hne. cbn [lmode]. rewrite Hr, decide_False by done. auto.
Qed.

Lemma Send_call_segment p msg k gs k' fs rest : objs_ok k → Puerto_Send p msg k = Ok (gs, k') →
  stack_ok rest → lmode (LPort p) rest = Free → (∀ l, lmode l rest = lmode l fs) →
  segment (currentThread (k_sched k)) k fs k' (gs ++ rest).
Proof.
  intros Hok H Hst Hp Hm. unfold Puerto_Send, port_at in H.
  apply bind_Ok in H as (x & k1 & Ex & H). binds Ex. effects_step.
  apply bind_Ok in H as (hs & k2 & E2 & H). binds H. rewrite <- app_assoc.
  by eapply port_call_segment.
Qed.

Lemma Receive_call_segment p k gs k' fs rest : objs_ok k → Puerto_Receive p k = Ok (gs, k') →
  stack_ok rest → lmode (LPort p) rest = Free → (∀ l, lmode l rest = lmode l fs) →
  segment (currentThread (k_sched k)) k fs k' (gs ++ rest).
Proof.
  intros Hok H Hst Hp Hm. unfold Puerto_Receive, port_at in H.
  apply bind_Ok in H as (x & k1 & Ex & H). binds Ex. effects_step.
  apply bind_Ok in H as (hs & k2 & E2 & H). binds H. rewrite <- app_assoc.
  by eapply port_call_segment.
Qed.

Lemma segment_prefix t k1 k fs k' fs' : quiet k1 k → segment t k fs k' fs' → segment t k1 fs k' fs'.
Proof.
  intros (Hc & _ & Hv) (Hc' & Ho & Hs & Hl). split_and!; [congruence|done|done|].
  intros l. rewrite <- Hv. apply Hl.
Qed.

Lemma base_LPort p rest : Forall base rest → lmode (LPort p) rest = Free.
Proof.
  intros Hb. rewrite base_mode by done. rewrite decide_False; [done|]. intros Hin.
  by apply (proj1 (Forall_forall _ _) Hb) in Hin.
Qed.

Lemma on_sched_current k A (m : M sched A) a k' : on_sched m k = Ok (a, k') →
  (∀ (z z' : sched) b, m z = Ok (b, z') → currentThread z' = currentThread z) →
  currentThread (k_sched k') = currentThread (k_sched k).
Proof.
  unfold on_sched. destruct (m (k_sched k)) as [[a' s']|] eqn:E; [|done].
  intros [= <- <-] H. cbn. by eapply H.
Qed.

Lemma Finish_segment k gs k' rest : objs_ok k → stack_ok (FFinish :: rest) →
  Thread_Finish k = Ok (gs, k') →
  segment (currentThread (k_sched k)) k (FFinish :: rest) k' (gs ++ rest).
Proof.
  intros Hok [Hb Hst] H. unfold Thread_Finish in H.
  apply bind_Ok in H as (i & k1 & E1 & H).
  assert (Hc1 : currentThread (k_sched k1) = currentThread (k_sched k)).
  { unfold set_intr, on_sched in E1. unfold_M. by injection E1 as _ <-. }
  apply set_intr_quiet in E1.
  apply bind_Ok in H as (t & k2 & E2 & H). unfold current in E2. binds E2.
  apply bind_Ok in H as (th & k3 & E3 & H).
  assert (Hc3 : currentThread (k_sched k3) = currentThread (k_sched k)).
  { rewrite <- Hc1. eapply on_sched_current; [exact E3|]. intros z z' b. unfold thread_at.
    destruct (threads z !! _); [|done]. by intros [= <- <-]. }
  apply on_sched_quiet in E3 as [Hq3 _]. assert (Hq : quiet k k3) by (by etrans).
  destruct (th_join th).
  - apply bind_Ok in H as (port & k4 & E4 & H). unfold deref in E4. destruct (th_portJoin th); [|done]. binds E4.
    apply bind_Ok in H as (hs & k5 & E5 & H). binds H. eapply segment_prefix; [exact Hq|].
    rewrite <- Hc3, <- app_assoc. cbn [app].
    eapply Send_call_segment; [by apply Hq|exact E5|done|exact (base_LPort _ rest Hb)|done].
  - binds H. apply quiet_segment; [done|done|done|]. by left.
Qed.

Lemma run_frame_segment f k gs k' rest : objs_ok k → stack_ok (f :: rest) →
  (∀ l, lmode l (f :: rest) ≠ Free → is_Some (view k l)) →
  run_frame f k = Ok (gs, k') → segment (currentThread (k_sched k)) k (f :: rest) k' (gs ++ rest).
Proof.
  intros Hok Hst Hv H. pose proof Hst as [Hf Hr].
  destruct f as [| |l| |i|s i|l|l|l|c s|l|c|p m|p|p|p| |]; cbn [run_frame] in H.
  - apply bind_Ok in H as (a & k1 & E & H). binds H. apply set_intr_quiet in E. by apply mute_segment.
  - binds H. apply quiet_segment; try done. by left.
  - apply bind_Ok in H as (a & k1 & E & H). binds H. destruct Hf as (_ & Hl & _).
    eapply Release_segment; try done. intros l' Hne. cbn. by rewrite decide_False.
  - unfold Sleep_frame in H. apply bind_Ok in H as (b & k1 & E & H). binds H.
    apply on_sched_quiet in E as [Hq _]. apply mute_segment; try done. destruct b; by repeat constructor.
  - apply bind_Ok in H as (a & k1 & E & H). binds H. apply set_intr_quiet in E. by apply mute_segment.
  - by apply FP_segment.
  - apply Acquire_inherit_Ok in H as [Hq ->]; [|done]. by apply quiet_role_segment.
  - apply Acquire_sem_Ok in H as (Hc & Ho & Hvn & Hvl); [|done].
    split_and!; [done|done| |].
    + by destruct Hvl as [[-> _]|[_ [old ->]]]; cbn; rewrite ?decide_True.
    + intros l'. destruct (decide (l' = l)) as [->|Hne]; cbn [lmode role].
      * rewrite decide_True by done. destruct Hvl as [(-> & n & h & E & E' & Hn)|[E [old ->]]]; cbn.
        -- rewrite decide_True by done. rewrite E, E'. by constructor.
        -- rewrite decide_True, E by done. constructor. auto.
      * rewrite decide_False, Hvn by done. constructor. left.
        destruct Hvl as [[-> _]|[_ [old ->]]]; cbn; by rewrite ?decide_False.
  - apply Acquire_end_Ok in H as (-> & Hc & Ho & Hvn & n & h & E & E'); [|done].
    split_and!; try done. intros l'. destruct (decide (l' = l)) as [->|Hne]; cbn [lmode role app].
    + rewrite decide_True by done. rewrite Hf, E, E'. constructor.
    + rewrite decide_False, Hvn by done. constructor. auto.
  - cbn in Hf. unfold Wait_sem in H. apply P_quiet in H as [Hq Hg]; [|by intros l ->].
    apply mute_segment; try done; [cbn; by rewrite Hf|].
    destruct Hg as [->|[old ->]]; destruct s; by repeat constructor.
  - eapply Acquire_segment; try done. intros l' Hne. left. cbn. by rewrite decide_False.
  - apply Broadcast_loop_Ok in H as [Hq Hm]; [|done]. by apply mute_segment.
  - by apply Send_segment.
  - unfold Send_end, port_at in H. apply bind_Ok in H as (x & k1 & Ex & H). binds Ex. effects_step.
    apply bind_Ok in H as (a & k2 & E & H). binds H.
    rewrite (proj1 (ok_ports _ Hok p x ltac:(done))) in E.
    eapply Release_segment; try done. intros l' Hne. cbn. by rewrite decide_False.
  - by apply Receive_segment.
  - unfold Receive_end, port_at in H. apply bind_Ok in H as (x & k1 & Ex & H). binds Ex. effects_step.
    apply bind_Ok in H as (a & k2 & E & H). binds H.
    rewrite (proj1 (ok_ports _ Hok p x ltac:(done))) in E.
    eapply Release_segment; try done. intros l' Hne. cbn. by rewrite decide_False.
  - by apply Finish_segment.
  - unfold Thread_Finish_end in H. apply bind_Ok in H as (t & k1 & E1 & H). unfold current in E1. binds E1.
    apply bind_Ok in H as (u & k2 & E2 & H). binds H. apply on_sched_quiet in E2 as [Hq _].
    apply mute_segment; try done. by repeat constructor.
Qed.

Lemma client_base fs : stack_ok fs → client_top fs → Forall base fs.
Proof.
  destruct fs as [|f fs]; [done|]. intros [Hf _] Ht.
  destruct f; try done; constructor; try done; cbn in Hf; destruct_and?; try done.
  by apply Is_true_true.
Qed.

Lemma kinv_view_some k t fs l : kinv k → conts k !! t = Some fs → lmode l fs ≠ Free → is_Some (view k l).
Proof.
  intros Hinv Ht Hm. pose proof (inv_locks _ Hinv l) as H. destruct (view k l); [done|].
  exfalso. by apply Hm, (H t).
Qed.

(** The creation of a lock. *)
Lemma new_Lock_Ok l junk k a k' : objs_ok k → locks k !! l = None → new_Lock l junk k = Ok (a, k') →
  conts k' = conts k ∧ objs_ok k' ∧ conds k' = conds k ∧ ports k' = ports k ∧
  view k l = None ∧ view k' l = Some (1, None) ∧ ∀ l', l' ≠ l → view k' l' = view k l'.
Proof.
  intros Hok Hl H. unfold new_Lock, new_Semaphore in H. effects H.
  split_and!; try done.
  - destruct Hok as [H1 H2 H3 H4]. split; cbn; try done.
    + intros l' x [(<- & <-)|(Hne & Hx)]%lookup_insert_Some; [done|auto].
    + intros l' x [(<- & <-)|(Hne & Hx)]%lookup_insert_Some.
      * rewrite lookup_insert_ne, lookup_insert_eq by done. eauto.
      * destruct (H2 l' x Hx) as [y Hy]. rewrite lookup_insert_ne by done.
        rewrite lookup_insert_ne by congruence. eauto.
  - unfold view. by rewrite Hl.
  - unfold view. cbn. rewrite lookup_insert_eq. rewrite lookup_insert_ne, lookup_insert_eq by done. done.
  - intros l' Hne. unfold view. cbn. rewrite lookup_insert_ne by done.
    by rewrite !lookup_insert_ne by congruence.
Qed.

(** What a call from client code starts from. *)
Lemma client_facts k fs : kinv k → conts k !! currentThread (k_sched k) = Some fs → client_top fs →
  objs_ok k ∧ stack_ok fs ∧ Forall base fs.
Proof.
  intros Hinv Hfs Htop. pose proof (inv_stacks _ Hinv _ _ Hfs) as Hst.
  split_and!; [apply Hinv|done|by apply client_base].
Qed.

Lemma Enter_segment n k fs gs k' : objs_ok k → stack_ok fs → Forall base fs →
  client_call (Enter n) k fs k = Ok (gs, k') → segment (currentThread (k_sched k)) k fs k' (gs ++ fs).
Proof.
  intros Hok Hst Hb H. cbn [client_call] in H. apply bind_Ok in H as (u & k1 & E & H). binds E.
  apply bind_Ok in H as (hs & k1 & E1 & H). binds H. rewrite <- app_assoc.
  apply negb_true_iff, bool_decide_eq_false in E.
  assert (Hm : lmode (LUser n) fs = Free) by (rewrite base_mode by done; by rewrite decide_False).
  eapply Acquire_segment; try done.
  - cbn. by rewrite decide_True.
  - intros l' Hne. left. cbn. by rewrite decide_False.
Qed.

Lemma Wait_call_segment c k fs gs k' : objs_ok k → stack_ok fs → Forall base fs →
  client_call (CallWait c) k fs k = Ok (gs, k') → segment (currentThread (k_sched k)) k fs k' (gs ++ fs).
Proof.
  intros Hok Hst Hb H. cbn [client_call] in H. unfold cond_at in H. apply bind_Ok in H as (x & k1 & Ex & H). binds Ex. effects_step.
  apply bind_Ok in H as (u & k1 & E & H). binds E. apply bool_decide_eq_true in E.
  match goal with Hc : conds k !! c = _ |- _ => rename Hc into Hx end.
  destruct (Wait_Ok c x k gs k' Hok Hx H) as (Hc & _ & Ho & Hvn & (n & En & En') & ->).
  split_and!; [done|done| |].
  - cbn [app stack_ok frame_ok]. split_and!; [done| |done]. rewrite base_mode by done. by rewrite decide_True.
  - intros l'. cbn. destruct (decide (l' = lock x)) as [->|Hne].
    + rewrite En, En'. apply ls_release. by right.
    + rewrite Hvn by done. constructor. auto.
Qed.

Lemma Join_segment t k fs gs k' : objs_ok k → stack_ok fs → Forall base fs →
  client_call (CallJoin t) k fs k = Ok (gs, k') → segment (currentThread (k_sched k)) k fs k' (gs ++ fs).
Proof.
  intros Hok Hst Hb H. cbn [client_call] in H. unfold Thread_Join in H. apply bind_Ok in H as (th & k1 & E & H).
  assert (Hc1 : currentThread (k_sched k1) = currentThread (k_sched k)).
  { eapply on_sched_current; [exact E|]. intros z z' b. unfold thread_at.
    destruct (threads z !! _); [|done]. by intros [= <- <-]. }
  apply on_sched_quiet in E as [Hq _]. destruct (th_join th).
  - apply bind_Ok in H as (port & k4 & E4 & H). unfold deref in E4.
    destruct (th_portJoin th); [|done]. binds E4. eapply segment_prefix; [exact Hq|].
    rewrite <- Hc1. eapply Receive_call_segment; [by apply Hq|exact H|done|by apply base_LPort|done].
  - binds H. apply quiet_segment; try done. auto.
Qed.

Lemma NewLock_segment n j k fs gs k' : kinv k → stack_ok fs → conts k !! currentThread (k_sched k) = Some fs →
  client_call (NewLock n j) k fs k = Ok (gs, k') → segment (currentThread (k_sched k)) k fs k' (gs ++ fs).
Proof.
  intros Hinv Hst Hfs H. cbn [client_call] in H. pose proof (inv_objs _ Hinv) as Hok.
  apply bind_Ok in H as (u & k1 & E & H). binds E. apply bind_Ok in H as (u & k1 & E1 & H). binds H.
  assert (Hl : locks k !! LUser n = None) by (by destruct (locks k !! LUser n)).
  apply new_Lock_Ok in E1 as (Hc & Ho & _ & _ & Ev & Ev' & Hvn); [|done|done].
  split_and!; [done|done|done|]. intros l'. destruct (decide (l' = LUser n)) as [->|Hne].
  - rewrite Ev, Ev'. constructor. pose proof (inv_locks _ Hinv (LUser n)) as Hi. rewrite Ev in Hi. by eapply Hi.
  - rewrite Hvn by done. constructor. auto.
Qed.

(** A call from client code, creations of threads apart. *)
Lemma client_segment lbl k fs gs k' : kinv k → conts k !! currentThread (k_sched k) = Some fs →
  client_top fs → client_call lbl k fs k = Ok (gs, k') →
  (∀ t j p a b, lbl ≠ CallFork t j p a b) →
  segment (currentThread (k_sched k)) k fs k' (gs ++ fs).
Proof.
  intros Hinv Hfs Htop H Hnf. destruct (client_facts k fs Hinv Hfs Htop) as (Hok & Hst & Hb).
  destruct lbl as [| |n|n|n|n|c|c|c|p m|p|t|n v|n j|n l|t j|t j p a b];
    [done|done|done| | |by eapply Enter_segment|by eapply Wait_call_segment| | | | |by eapply Join_segment| |
     by eapply NewLock_segment| | |by destruct (Hnf t j p a b)]; cbn [client_call] in H.
  - apply P_quiet in H as [Hq Hg]; [|done].
    assert (Forall mute gs) by (destruct Hg as [->|[old ->]]; by repeat constructor).
    apply quiet_segment; [done|done|by apply stack_ok_mute|]. intros l. left. by apply lmode_mute.
  - apply bind_Ok in H as (u & k1 & E & H). binds H. apply V_quiet in E; [|done].
    apply quiet_segment; [done|done|done|]. auto.
  - apply bind_Ok in H as (u & k1 & E & H). binds H. apply Signal_Ok in E as [Hq _]; [|done].
    apply quiet_segment; try done. auto.
  - unfold Condition_Broadcast, cond_at in H. apply bind_Ok in H as (x & k1 & Ex & H). binds Ex. effects_step.
    apply bind_Ok in H as (u & k1 & E & H). apply isHeld_Ok in E as (-> & _).
    apply bind_Ok in H as (u' & k1 & E & H). binds E.
    apply Broadcast_loop_Ok in H as [Hq Hm]; [|done].
    apply quiet_segment; [done|done|by apply stack_ok_mute|]. intros l. left. by apply lmode_mute.
  - eapply Send_call_segment; [done|exact H|done|by apply base_LPort|done].
  - eapply Receive_call_segment; [done|exact H|done|by apply base_LPort|done].
  - apply bind_Ok in H as (u & k1 & E & H). binds E. apply bind_Ok in H as (u & k1 & E1 & H). binds H.
    unfold new_Semaphore, put_sem in E1. binds E1.
    apply quiet_segment; [|done|done|auto]. by eapply other_sem_quiet.
  - apply bind_Ok in H as (u & k1 & E & H). binds E. apply bind_Ok in H as (u & k1 & E1 & H). binds H.
    unfold new_Condition, put_cond in E1. binds E1.
    apply quiet_segment; [|done|done|auto]. split_and!; [done| |done]. intros [H1 H2 H3 H4].
    split; cbn; try done. intros c x [(<- & <-)|(Hne & Hx)]%lookup_insert_Some; [done|auto].
  - apply bind_Ok in H as (u & k1 & E & H). binds E. apply bind_Ok in H as (u & k1 & E1 & H). binds H.
    unfold Thread_new in E1. apply on_sched_quiet in E1 as [Hq _].
    apply quiet_segment; try done. auto.
Qed.

(** [Fork]: maybe a port, and a stack for the new thread. *)
Lemma Fork_Ok t j p a b k u k' : objs_ok k → locks k !! LPort t = None →
  Thread_Fork t j p a b k = Ok (u, k') →
  conts k' = <[t := [FEnable; FUser; FFinish]]> (conts k) ∧ objs_ok k' ∧
  ∀ l, view k' l = view k l ∨ (view k l = None ∧ view k' l = Some (1, None)).
Proof.
  intros Hok Hl H. unfold Thread_Fork in H. apply bind_Ok in H as (u1 & k1 & E1 & H).
  assert (H1 : conts k1 = conts k ∧ objs_ok k1 ∧
    ∀ l, view k1 l = view k l ∨ (view k l = None ∧ view k1 l = Some (1, None))).
  { case_bool_decide; [|binds E1; split_and!; auto]. unfold new_Puerto, new_Condition, put_cond, put_port in E1.
    apply bind_Ok in E1 as (u2 & k2 & E2 & E1).
    apply new_Lock_Ok in E2 as (Hc2 & Ho2 & _ & _ & Ev & Ev' & Hvn); [|done|done].
    binds E1. split_and!; [done| |].
    - destruct Ho2 as [H1 H2 H3 H4]. split; cbn; try done.
      + intros c x [(<- & <-)|(Hne & Hx)]%lookup_insert_Some; [done|].
        apply lookup_insert_Some in Hx as [(<- & <-)|(Hne' & Hx)]; [done|auto].
      + intros q x [(<- & <-)|(Hne & Hx)]%lookup_insert_Some; [done|auto].
    - intros l. destruct (decide (l = LPort t)) as [->|Hne]; [by right|left; by apply Hvn]. }
  destruct H1 as (Hc1 & Ho1 & Hv1). unfold put_stack in H.
  apply bind_Ok in H as (u2 & k2 & E2 & H). binds E2. apply on_sched_Ok in H as [Hr Hs].
  split_and!.
  - rewrite (proj1 (proj2 (proj2 (proj2 Hr)))). cbn. by rewrite Hc1.
  - eapply rest_same_objs; [exact Hr|by left|]. destruct Ho1. by split.
  - intros l. replace (view k' l) with (view k1 l); [done|]. symmetry. apply view_same.
    + by rewrite (proj1 Hr).
    + by rewrite Hs.
Qed.

(** The rest of a step: the frames go on the stack of the thread. *)
Lemma segment_kinv k0 k t fs gs rest k' u k'' : kinv k0 →
  conts k0 !! t = Some fs → conts k = <[t := rest]> (conts k0) → (∀ l, view k l = view k0 l) →
  segment t k fs k' (gs ++ rest) → push t gs k' = Ok (u, k'') → kinv k''.
Proof.
  intros Hinv Hfs Hc Hv (Hc' & Ho & Hst & Hl) H. unfold push, stack_at, put_stack in H.
  apply bind_Ok in H as (r & k1 & Er & H). binds Er. effects_step. binds H.
  match goal with Hr : conts k' !! t = _ |- _ => rewrite Hc', Hc, lookup_insert_eq in Hr; injection Hr as <- end.
  split; cbn.
  - destruct Ho. by split.
  - rewrite Hc', Hc, insert_insert_eq.
    intros t' fs' [(<- & <-)|(Hne & H)]%lookup_insert_Some; [done|by eapply inv_stacks].
  - intros l. rewrite Hc', Hc, insert_insert_eq. change (view (set_conts _ k') l) with (view k' l).
    eapply lock_step_inv; [apply (inv_locks _ Hinv l)|exact Hfs|]. rewrite <- Hv. apply Hl.
Qed.

Lemma push_nil t k u k' : push t [] k = Ok (u, k') → k' = k.
Proof.
  unfold push, stack_at, put_stack. intros H. apply bind_Ok in H as (r & k1 & Er & H). binds Er.
  effects_step. binds H. cbn [app]. destruct k. unfold set_conts. cbn in *. by rewrite insert_id.
Qed.

Lemma Fork_kinv t j p a b k u k' : kinv k → locks k !! LPort t = None → conts k !! t = None →
  Thread_Fork t j p a b k = Ok (u, k') → kinv k'.
Proof.
  intros Hinv Hl Ht H. pose proof (inv_objs _ Hinv) as Hok.
  apply Fork_Ok in H as (Hc & Ho & Hv); [|done|done]. split; [done| |]; rewrite Hc.
  - intros t' fs' [(<- & <-)|(Hn' & H)]%lookup_insert_Some; [|by eapply inv_stacks].
    cbn. by repeat constructor.
  - intros l. pose proof (inv_locks _ Hinv l) as Hi. destruct (Hv l) as [->|[E ->]].
    + destruct (view k l) as [[n h]|]; cbn in *.
      * destruct Hi as (owner & H1 & H2 & H3). exists owner. split_and!; try done.
        intros t' fs' [(<- & <-)|(Hn & H)]%lookup_insert_Some; [done|auto].
      * intros t' fs' [(<- & <-)|(Hn & H)]%lookup_insert_Some; [done|by eapply Hi].
    + rewrite E in Hi. exists None. split_and!; try done.
      intros t' fs' [(<- & <-)|(Hn & H)]%lookup_insert_Some; [done|]. cbn in Hi. by rewrite (Hi _ _ H).
Qed.

Lemma step_kinv lbl k u k' : kinv k → step lbl k = Ok (u, k') → kinv k'.
Proof.
  intros Hinv H. unfold step, stack_at in H. pose proof (inv_objs _ Hinv) as Hok.
  apply bind_Ok in H as (k0 & k1 & E & H). binds E.
  apply bind_Ok in H as (fs & k1 & E & H). binds E. effects_step.
  match goal with Hf : conts k !! _ = Some fs |- _ => rename Hf into Hfs end.
  assert (Hquiet : ∀ k2, quiet k k2 → kinv k2).
  { intros k2 (Hc & Ho & Hv). split; [auto|rewrite Hc; apply (inv_stacks _ Hinv)|].
    intros l. rewrite Hc, Hv. apply (inv_locks _ Hinv). }
  assert (Hcall : ∀ lbl', (ASSERT (client_top fs) ≫= λ _, gs ← client_call lbl' k fs;
     push (currentThread (k_sched k)) gs) k = Ok (u, k') → kinv k').
  { clear H. intros lbl' H. apply bind_Ok in H as (u1 & k1 & E & H). binds E.
    apply bind_Ok in H as (gs & k1 & E1 & H).
    assert (Hf : (∃ t j p a b, lbl' = CallFork t j p a b) ∨ ∀ t j p a b, lbl' ≠ CallFork t j p a b)
      by (destruct lbl'; naive_solver).
    destruct Hf as [(t & j & p & a & b & ->)|Hnf].
    - cbn [client_call] in E1. apply bind_Ok in E1 as (u2 & k2 & E2 & E1). binds E2.
      apply andb_true_iff in E2 as [E2 Ec]. apply andb_true_iff in E2 as [_ El].
      apply bind_Ok in E1 as (u3 & k3 & E3 & E1). binds E1.
      apply push_nil in H as ->. eapply Fork_kinv; [done| | |exact E3].
      + by destruct (locks k !! LPort t).
      + by destruct (conts k !! t).
    - assert (Hseg := client_segment lbl' k fs gs k1 Hinv Hfs ltac:(by rewrite E) E1 Hnf).
      eapply (segment_kinv k k); [done|done| |done|exact Hseg|exact H]. by rewrite insert_id. }
  destruct lbl as [| |n|n|n|n|c|c|c|p m|p|t|n v|n j|n l|t j|t j p a b]; try by eapply Hcall.
  - destruct fs as [|f rest]; [done|]. unfold put_stack in H.
    apply bind_Ok in H as (u1 & k1 & E & H). binds E.
    apply bind_Ok in H as (gs & k2 & E2 & H).
    set (kr := set_conts _ k) in E2.
    assert (Hseg : segment (currentThread (k_sched kr)) kr (f :: rest) k2 (gs ++ rest)).
    { apply run_frame_segment; [|by eapply inv_stacks| |done].
      - destruct Hok. by split.
      - intros l Hm. exact (kinv_view_some k _ _ l Hinv Hfs Hm). }
    by eapply (segment_kinv k kr).
  - apply bind_Ok in H as (u1 & k1 & E & H). binds E.
    apply bind_Ok in H as (b & k2 & E2 & H). apply on_sched_quiet in E2 as [Hq _].
    destruct b; [|binds H; by apply Hquiet].
    eapply (segment_kinv k k); [done|done|by rewrite insert_id|done| |exact H].
    apply quiet_segment; [done|done| |by left]. split; [done|by eapply inv_stacks].
  - apply bind_Ok in H as (u1 & k1 & E & H). binds E.
    apply bind_Ok in H as (old & k2 & E2%set_intr_quiet & H).
    apply bind_Ok in H as (u2 & k3 & E3 & H). apply V_quiet in E3; [|done].
    apply bind_Ok in H as (u3 & k4 & E4%set_intr_quiet & H). binds H.
    apply Hquiet. by do 2 (etrans; [eassumption|]).
Qed.

End Preservation.

(** ** Relations that every operation respects *)
Section RespectsPtr.
Context (R : relation kernel) `{!PreOrder R}.

Lemma respects_at_ptr {A} (o : option A) : respects R (at_ptr o).
Proof. intros k x k' [_ ->]%at_ptr_Ok. done. Qed.

End RespectsPtr.
#[export] Hint Resolve respects_at_ptr : respects.

(** *** Ports: only the two loops touch a buffer *)

Definition ports_same (k k' : kernel) : Prop := ports k' = ports k ∧ log k' = log k.

#[export] Instance ports_same_preorder : PreOrder ports_same.
Proof. split; [by intros k|]. unfold ports_same. intros k1 k2 k3. naive_solver congruence. Qed.

Section PortsSame.

Lemma ports_on_sched {A} (m : M sched A) : respects ports_same (on_sched m).
Proof. intros k a k' [Hr _]%on_sched_Ok. split; apply Hr. Qed.
Lemma ports_set_intr i : respects ports_same (set_intr i).
Proof. intros k a k' [Hr _]%set_intr_Ok. split; apply Hr. Qed.
Lemma ports_put_sem s x : respects ports_same (put_sem s x).
Proof. by intros k a k' [= <- <-]. Qed.
Lemma ports_put_lock s x : respects ports_same (put_lock s x).
Proof. by intros k a k' [= <- <-]. Qed.
Lemma ports_put_cond s x : respects ports_same (put_cond s x).
Proof. by intros k a k' [= <- <-]. Qed.
Lemma ports_put_stack s x : respects ports_same (put_stack s x).
Proof. by intros k a k' [= <- <-]. Qed.

End PortsSame.

#[export] Hint Resolve ports_on_sched ports_set_intr ports_put_sem ports_put_lock ports_put_cond
  ports_put_stack : respects.

Lemma ports_P_loop s old : respects ports_same (P_loop s old).
Proof. unfold P_loop, sem_at, current. respects_tac. Qed.
#[export] Hint Resolve ports_P_loop : respects.
Lemma ports_P s : respects ports_same (Semaphore_P s).
Proof. unfold Semaphore_P. respects_tac. Qed.
Lemma ports_V s : respects ports_same (Semaphore_V s).
Proof. unfold Semaphore_V, sem_at. respects_tac. Qed.
Lemma ports_isHeld l : respects ports_same (isHeldByCurrentThread l).
Proof. unfold isHeldByCurrentThread, lock_at, current. respects_tac. Qed.
#[export] Hint Resolve ports_P ports_V ports_isHeld : respects.
Lemma ports_Acquire l : respects ports_same (Lock_Acquire l).
Proof. unfold Lock_Acquire, lock_at. respects_tac. Qed.
Lemma ports_inherit l : respects ports_same (Acquire_inherit l).
Proof. unfold Acquire_inherit, lock_at, current. respects_tac. Qed.
Lemma ports_Acquire_sem l : respects ports_same (Acquire_sem l).
Proof. unfold Acquire_sem, lock_at. respects_tac. Qed.
Lemma ports_Acquire_end l : respects ports_same (Acquire_end l).
Proof. unfold Acquire_end, lock_at, current. respects_tac. Qed.
Lemma ports_Release l : respects ports_same (Lock_Release l).
Proof. unfold Lock_Release, lock_at. respects_tac. Qed.
#[export] Hint Resolve ports_Acquire ports_inherit ports_Acquire_sem ports_Acquire_end ports_Release : respects.
Lemma ports_Wait c : respects ports_same (Condition_Wait c).
Proof. unfold Condition_Wait, cond_at, new_Semaphore. respects_tac. Qed.
Lemma ports_Signal c : respects ports_same (Condition_Signal c).
Proof. unfold Condition_Signal, cond_at. respects_tac. Qed.
#[export] Hint Resolve ports_Wait ports_Signal : respects.
Lemma ports_Broadcast_loop c : respects ports_same (Broadcast_loop c).
Proof. unfold Broadcast_loop, cond_at. respects_tac. Qed.
#[export] Hint Resolve ports_Broadcast_loop : respects.

(** The messages that went into and came out of a port. *)
Definition sent (p : Z) (es : list event) : list Z :=
  omap (λ e, match e with Sent q m => if decide (q = p) then Some m else None | Received _ _ => None end) es.
Definition received (p : Z) (es : list event) : list Z :=
  omap (λ e, match e with Received q m => if decide (q = p) then Some m else None | Sent _ _ => None end) es.

Definition in_buffer (o : option Puerto) : list Z :=
  match o with Some x => if access x then [] else [buffer x] | None => [] end.

Definition port_inv (k : kernel) : Prop :=
  ∀ p, sent p (log k) = received p (log k) ++ in_buffer (ports k !! p).

Definition port_pres (k k' : kernel) : Prop := port_inv k → port_inv k'.

#[export] Instance port_pres_preorder : PreOrder port_pres.
Proof. unfold port_pres. split; [intros k H; exact H|intros k1 k2 k3; auto]. Qed.

Section PortInv.

Lemma port_pres_same {A} (m : M kernel A) : respects ports_same m → respects port_pres m.
Proof. intros Hm k a k' H Hinv p. destruct (Hm _ _ _ H) as [Hp Hl]. rewrite Hp, Hl. apply Hinv. Qed.

(** A message is written to or read from the buffer of [p]. *)
Lemma port_event k e p y : port_inv k →
  (sent p [e] = received p [e] ++ in_buffer (Some y) ∧ in_buffer (ports k !! p) = [] ∨
   sent p [e] = [] ∧ received p [e] = in_buffer (ports k !! p) ∧ in_buffer (Some y) = []) →
  (∀ q, q ≠ p → sent q [e] = [] ∧ received q [e] = []) →
  port_inv (set_ports (<[p := y]> (ports k))
    (mkKernel (k_sched k) (sems k) (locks k) (conds k) (ports k) (conts k) (log k ++ [e]))).
Proof.
  intros Hinv He Hne q. cbn [log ports set_ports]. unfold sent, received in *. rewrite !omap_app.
  specialize (Hinv q). unfold sent, received in Hinv. rewrite Hinv.
  destruct (decide (q = p)) as [->|Hq].
  - rewrite lookup_insert_eq. destruct He as [[Hs Hb]|(Hs & Hr & Hb)].
    + rewrite Hs, Hb, app_nil_r, <- app_assoc. destruct e; cbn in *; case_decide; naive_solver.
    + by rewrite Hs, Hr, Hb, !app_nil_r.
  - destruct (Hne q Hq) as [Hs Hr]. rewrite Hs, Hr, lookup_insert_ne by done. by rewrite !app_nil_r.
Qed.

Lemma port_Send_loop p msg : respects port_pres (Send_loop p msg).
Proof.
  intros k gs k' H Hinv. unfold Send_loop, port_at in H.
  apply bind_Ok in H as (x & k1 & Ex & H). binds Ex. effects_step.
  match goal with Hp : ports k !! p = _ |- _ => rename Hp into Hx end.
  destruct (access x) eqn:Ea; cbn [negb] in H.
  - unfold emit, put_port in H. apply bind_Ok in H as (u & k2 & E2 & H). binds E2.
    apply bind_Ok in H as (u & k2 & E2 & H). binds E2.
    apply bind_Ok in H as (u & k2 & E2 & H). binds H.
    eapply (port_pres_same _ (ports_Signal _)); [exact E2|].
    apply (port_event k (Sent p msg) p); [done| |].
    + left. rewrite Hx. cbn. rewrite decide_True by done. by rewrite Ea.
    + intros q Hq. cbn. by rewrite decide_False.
  - eapply (port_pres_same (fs ← Condition_Wait (pcondS x); mret (fs ++ [FSend p msg])));
      [|exact H|done]. respects_tac.
Qed.

Lemma port_Receive_loop p : respects port_pres (Receive_loop p).
Proof.
  intros k gs k' H Hinv. unfold Receive_loop, port_at in H.
  apply bind_Ok in H as (x & k1 & Ex & H). binds Ex. effects_step.
  match goal with Hp : ports k !! p = _ |- _ => rename Hp into Hx end.
  destruct (access x) eqn:Ea.
  - eapply (port_pres_same (fs ← Condition_Wait (pcondR x); mret (fs ++ [FReceive p])));
      [|exact H|done]. respects_tac.
  - cbv zeta in H. unfold emit, put_port in H. apply bind_Ok in H as (u & k2 & E2 & H). binds E2.
    apply bind_Ok in H as (u & k2 & E2 & H). binds E2.
    apply bind_Ok in H as (u & k2 & E2 & H). binds H.
    eapply (port_pres_same _ (ports_Signal _)); [exact E2|].
    apply (port_event k (Received p (buffer x)) p); [done| |].
    + right. rewrite Hx. cbn. rewrite decide_True by done. by rewrite Ea.
    + intros q Hq. cbn. by rewrite decide_False.
Qed.

Lemma ports_Send p msg : respects ports_same (Puerto_Send p msg).
Proof. unfold Puerto_Send, port_at. respects_tac. Qed.
Lemma ports_Receive p : respects ports_same (Puerto_Receive p).
Proof. unfold Puerto_Receive, port_at. respects_tac. Qed.

End PortInv.

#[export] Hint Resolve port_Send_loop port_Receive_loop ports_Send ports_Receive : respects.

Lemma port_run_frame f : respects port_pres (run_frame f).
Proof.
  destruct f; cbn [run_frame]; try solve [eauto with respects];
    apply port_pres_same; unfold Sleep_frame, Wait_sem, Wait_lock, Send_end, Receive_end,
    Thread_Finish, Thread_Finish_end, current, port_at; respects_tac.
Qed.

Lemma port_new_Puerto p a b k u k' : ports k !! p = None → new_Puerto p a b k = Ok (u, k') →
  port_pres k k'.
Proof.
  intros Hp H Hinv q. unfold new_Puerto, new_Lock, new_Condition, new_Semaphore in H. effects H.
  change (sent q (log k) = received q (log k) ++
    in_buffer (<[p := mkPuerto (LPort p) (CPortS p) (CPortR p) b true]> (ports k) !! q)).
  rewrite (Hinv q). destruct (decide (q = p)) as [->|Hq].
  - by rewrite lookup_insert_eq, Hp.
  - by rewrite lookup_insert_ne.
Qed.

Lemma port_client_call lbl k fs gs k' : client_call lbl k fs k = Ok (gs, k') → port_pres k k'.
Proof.
  assert (Hother : ∀ m : M kernel (list frame), respects ports_same m → m k = Ok (gs, k') → port_pres k k').
  { intros m Hm Hk. by eapply port_pres_same in Hk. }
  destruct lbl as [| |n|n|n|n|c|c|c|p m|p|t|n v|n j|n l|t j|t j p a b]; cbn [client_call];
    try (apply Hother; unfold Condition_Broadcast, Thread_Join, Thread_new, new_Lock, new_Condition,
         new_Semaphore, cond_at; respects_tac; fail).
  intros H. apply bind_Ok in H as (u & k1 & E & H). binds E.
  apply andb_true_iff in E as [E _]. apply andb_true_iff in E as [E _].
  apply bind_Ok in H as (u & k1 & E1 & H). binds H. unfold Thread_Fork in E1.
  apply bind_Ok in E1 as (u1 & k2 & E2 & E1).
  assert (H2 : port_pres k k2).
  { case_bool_decide; [|by binds E2]. eapply port_new_Puerto; [|exact E2]. by destruct (ports k !! t). }
  etrans; [exact H2|]. eapply (port_pres_same (_ ≫= _)); [|exact E1]. respects_tac.
Qed.

Lemma push_ports t gs : respects ports_same (push t gs).
Proof. unfold push, stack_at. respects_tac. Qed.
#[export] Hint Resolve push_ports : respects.

Lemma step_port_inv lbl k u k' : step lbl k = Ok (u, k') → port_inv k → port_inv k'.
Proof.
  intros H. change (port_pres k k'). unfold step, stack_at in H.
  apply bind_Ok in H as (k0 & k1 & E & H). binds E.
  apply bind_Ok in H as (fs & k1 & E & H). binds E. effects_step.
  assert (Hcall : ∀ lbl', (ASSERT (client_top fs) ≫= λ _, gs ← client_call lbl' k fs;
     push (currentThread (k_sched k)) gs) k = Ok (u, k') → port_pres k k').
  { clear H. intros lbl' H. apply bind_Ok in H as (u1 & k1 & E & H). binds E.
    apply bind_Ok in H as (gs & k1 & E1 & H). etrans; [by eapply port_client_call|].
    by eapply (port_pres_same _ (push_ports _ _)). }
  destruct lbl as [| |n|n|n|n|c|c|c|p m|p|t|n v|n j|n l|t j|t j p a b]; try by eapply Hcall.
  - destruct fs as [|f rest]; [done|]. unfold put_stack in H.
    apply bind_Ok in H as (u1 & k1 & E & H). binds E.
    apply bind_Ok in H as (gs & k2 & E2 & H). etrans; [|etrans; [by eapply port_run_frame|]].
    + intros Hi. exact Hi.
    + by eapply (port_pres_same _ (push_ports _ _)).
  - eapply (port_pres_same (ASSERT _ ≫= _)); [|exact H]. respects_tac.
  - eapply (port_pres_same (ASSERT _ ≫= _)); [|exact H]. respects_tac.
Qed.

(** *** Semaphore values *)

Definition sems_inv (k : kernel) : Prop := ∀ s x, sems k !! s = Some x → 0 ≤ value x.
Definition sems_pres (k k' : kernel) : Prop := sems_inv k → sems_inv k'.

#[export] Instance sems_pres_preorder : PreOrder sems_pres.
Proof. unfold sems_pres. split; [intros k H; exact H|intros k1 k2 k3; auto]. Qed.

Section SemsInv.

Lemma sems_pres_eq k k' : sems k' = sems k → sems_pres k k'.
Proof. unfold sems_pres, sems_inv. by intros ->. Qed.
Lemma sems_on_sched {A} (m : M sched A) : respects sems_pres (on_sched m).
Proof. intros k a k' [_ Hs]%on_sched_Ok. by apply sems_pres_eq. Qed.
Lemma sems_set_intr i : respects sems_pres (set_intr i).
Proof. intros k a k' [_ Hs]%set_intr_Ok. by apply sems_pres_eq. Qed.
Lemma sems_put_lock s x : respects sems_pres (put_lock s x).
Proof. intros k a k' [= <- <-]. by apply sems_pres_eq. Qed.
Lemma sems_put_cond s x : respects sems_pres (put_cond s x).
Proof. intros k a k' [= <- <-]. by apply sems_pres_eq. Qed.
Lemma sems_put_port s x : respects sems_pres (put_port s x).
Proof. intros k a k' [= <- <-]. by apply sems_pres_eq. Qed.
Lemma sems_put_stack s x : respects sems_pres (put_stack s x).
Proof. intros k a k' [= <- <-]. by apply sems_pres_eq. Qed.
Lemma sems_emit e : respects sems_pres (emit e).
Proof. intros k a k' [= <- <-]. by apply sems_pres_eq. Qed.

Lemma sems_insert k k' s x : sems k' = <[s := x]> (sems k) → (sems_inv k → 0 ≤ value x) → sems_pres k k'.
Proof.
  intros Hs Hx Hinv s' y. rewrite Hs. intros [(<- & <-)|(_ & H)]%lookup_insert_Some; eauto.
Qed.

Lemma sems_new s v : 0 ≤ v → respects sems_pres (new_Semaphore s v).
Proof. intros Hv k a k' [= <- <-]. eapply sems_insert; [done|]. done. Qed.
Lemma sems_P_loop s old : respects sems_pres (P_loop s old).
Proof.
  intros k a k' (x & Hx & _ & [(Hv & _ & Hs)|(Hv & _ & Hs)])%P_loop_Ok; (eapply sems_insert; [exact Hs|]); cbn.
  - intros Hinv. specialize (Hinv s x Hx). lia.
  - done.
Qed.
Lemma sems_V s : respects sems_pres (Semaphore_V s).
Proof.
  intros k a k' (x & Hx & _ & Hs)%V_Ok. eapply sems_insert; [exact Hs|]. cbn.
  intros Hinv. specialize (Hinv s x Hx). lia.
Qed.

End SemsInv.

#[export] Hint Resolve sems_on_sched sems_set_intr sems_put_lock sems_put_cond sems_put_port
  sems_put_stack sems_emit sems_P_loop sems_V : respects.
#[export] Hint Extern 1 (respects sems_pres (new_Semaphore _ _)) => (apply sems_new; lia) : respects.

Lemma sems_P s : respects sems_pres (Semaphore_P s).
Proof. unfold Semaphore_P. respects_tac. Qed.
Lemma sems_isHeld l : respects sems_pres (isHeldByCurrentThread l).
Proof. unfold isHeldByCurrentThread, lock_at, current. respects_tac. Qed.
#[export] Hint Resolve sems_P sems_isHeld : respects.
Lemma sems_Acquire l : respects sems_pres (Lock_Acquire l).
Proof. unfold Lock_Acquire, lock_at. respects_tac. Qed.
Lemma sems_Release l : respects sems_pres (Lock_Release l).
Proof. unfold Lock_Release, lock_at. respects_tac. Qed.
#[export] Hint Resolve sems_Acquire sems_Release : respects.
Lemma sems_Wait c : respects sems_pres (Condition_Wait c).
Proof. unfold Condition_Wait, cond_at. respects_tac. Qed.
Lemma sems_Signal c : respects sems_pres (Condition_Signal c).
Proof. unfold Condition_Signal, cond_at. respects_tac. Qed.
#[export] Hint Resolve sems_Wait sems_Signal : respects.

Lemma sems_Broadcast_loop c : respects sems_pres (Broadcast_loop c).
Proof. unfold Broadcast_loop, cond_at. respects_tac. Qed.
#[export] Hint Resolve sems_Broadcast_loop : respects.

Lemma sems_run_frame f : respects sems_pres (run_frame f).
Proof.
  destruct f; cbn [run_frame]; unfold Acquire_inherit, Acquire_sem, Acquire_end, Sleep_frame, Wait_sem,
    Wait_lock, Send_loop, Send_end, Receive_loop, Receive_end, Thread_Finish, Thread_Finish_end, Puerto_Send,
    current, port_at, lock_at; respects_tac.
Qed.

Lemma sems_client_call lbl k fs : respects sems_pres (client_call lbl k fs).
Proof.
  destruct lbl as [| |n|n|n|n|c|c|c|p m|p|t|n v|n j|n l|t j|t j p a b]; cbn [client_call];
    try (unfold Condition_Broadcast, Thread_Join, Thread_new, new_Lock, new_Condition, Puerto_Send,
         Puerto_Receive, Thread_Fork, new_Puerto, new_Lock, new_Condition, cond_at, port_at;
         respects_tac; fail).
  intros k1 a k' H. apply bind_Ok in H as (u & k2 & E & H). binds E.
  apply andb_true_iff in E as [E%bool_decide_eq_true _].
  apply bind_Ok in H as (u & k2 & E2 & H). binds H. by eapply sems_new.
Qed.

Lemma step_sems_inv lbl k u k' : step lbl k = Ok (u, k') → sems_inv k → sems_inv k'.
Proof.
  pose proof sems_run_frame. pose proof sems_client_call.
  assert (Hs : respects sems_pres (step lbl)); [|intros E; by apply Hs in E].
  unfold step, stack_at, push, stack_at. destruct lbl; respects_tac.
Qed.

(** ** Theorems *)

Lemma run_invariant (I : kernel → Prop) ls k k' :
  (∀ lbl k u k', step lbl k = Ok (u, k') → I k → I k') → I k → run ls k = Ok k' → I k'.
Proof.
  intros Hstep. revert k. induction ls as [|lbl ls IH]; intros k Hk; cbn.
  - by intros [= <-].
  - destruct (step lbl k) as [[u k1]|] eqn:E; [|done]. apply IH. by eapply Hstep.
Qed.

Lemma boot_kinv regs junk : kinv (boot regs junk).
Proof.
  split.
  - by split.
  - cbn. intros t fs [<- <-]%lookup_singleton_Some. cbn. by repeat constructor.
  - intros l. unfold view. cbn [locks boot]. rewrite lookup_empty. cbn.
    by intros t fs [<- <-]%lookup_singleton_Some.
Qed.

(** Thread [t] is in the critical section of lock [l]: it has acquired it, and
    neither released it nor is waiting in a condition of it. *)
Definition inside (k : kernel) (l : lock_id) (t : Z) : Prop :=
  ∃ fs, conts k !! t = Some fs ∧ lmode l fs = Held.

(** C2: locks exclude: in every state the machine reaches, with any number of
    threads, any client code, time slices and device interrupts, two threads
    inside the critical section of one lock are the same thread; that thread is
    the one recorded in [thname], and the lock's semaphore is 0 then. *)
Theorem lock_mutual_exclusion (regs junk : list Z) (ls : list label) (k : kernel) (l : lock_id) (t : Z) :
  run ls (boot regs junk) = Ok k → inside k l t →
  (∀ t', inside k l t' → t' = t) ∧
  ∃ x sx, locks k !! l = Some x ∧ thname x = Some t ∧ sems k !! SLock l = Some sx ∧ value sx = 0.
Proof.
  intros Hrun (fs & Hfs & Hm).
  assert (Hinv : kinv k).
  { eapply (run_invariant kinv); [|apply (boot_kinv regs junk)|exact Hrun].
    intros lbl k1 u k2 H1 H2. by eapply step_kinv. }
  pose proof (inv_locks _ Hinv l) as Hl. destruct (view k l) as [[v h]|] eqn:Ev; cbn in Hl.
  - destruct Hl as (owner & Hv & Ho & Hst). destruct (Hst t fs Hfs) as [_ Hh]. specialize (Hh Hm). subst h.
    split.
    + intros t' (fs' & Hfs' & Hm'). destruct (Hst t' fs' Hfs') as [_ Hh']. specialize (Hh' Hm'). congruence.
    + unfold view in Ev. destruct (locks k !! l) as [x|] eqn:Ex; [|done].
      destruct (sems k !! SLock l) as [sx|] eqn:Es; [|done]. injection Ev as Ev1 Ev2.
      exists x, sx. split_and!; try done. rewrite (Ho t eq_refl) in Hv. congruence.
  - specialize (Hl t fs Hfs). congruence.
Qed.

(** C15: ports neither lose, duplicate nor reorder messages: in every reachable
    state, what was sent to a port is what was received from it, in the same order,
    followed by the message in the buffer when there is one. *)
Theorem port_delivers_in_order (regs junk : list Z) (ls : list label) (k : kernel) (p : Z) :
  run ls (boot regs junk) = Ok k →
  sent p (log k) = received p (log k) ++ in_buffer (ports k !! p).
Proof.
  intros Hrun. revert p. change (port_inv k).
  eapply (run_invariant port_inv); [| |exact Hrun].
  - intros. by eapply step_port_inv.
  - intros p. cbn. by rewrite lookup_empty.
Qed.

(** A semaphore's value is never negative (threads/synch.h: "siempre es
    >= 0"), whatever the interleaving. *)
Theorem semaphore_nonnegative (regs junk : list Z) (ls : list label) (k : kernel) (s : sem_id) (x : Semaphore) :
  run ls (boot regs junk) = Ok k → sems k !! s = Some x → 0 ≤ value x.
Proof.
  intros Hrun. revert s x. change (sems_inv k).
  eapply (run_invariant sems_inv); [| |exact Hrun].
  - intros. by eapply step_sems_inv.
  - intros s x. cbn. by rewrite lookup_empty.
Qed.

(** [Condition::Wait] does not wait.  The semaphore it creates starts at 1,
    so the [P] that should block until a [Signal] returns at once: from any
    state in which that semaphore is as [Wait] left it (a [Signal] can only
    raise it), the thread goes straight on to [lock->Acquire()]. *)
Theorem Wait_does_not_wait (c : cond_id) (k : kernel) (gs : list frame) (k1 : kernel) :
  objs_ok k → Condition_Wait c k = Ok (gs, k1) →
  ∃ x s, conds k !! c = Some x ∧ gs = [FWait_sem c s; FWait_lock (lock x)] ∧
    sems k1 !! s = Some (mkSemaphore 1 []) ∧
    ∀ k2 y, sems k2 !! s = Some y → 1 ≤ value y → ∃ k3, run_frame (FWait_sem c s) k2 = Ok ([], k3).
Proof.
  intros Hok H. pose proof H as H0. unfold Condition_Wait, cond_at in H0.
  apply bind_Ok in H0 as (x & k2 & Ex & H0). binds Ex. effects_step.
  match goal with Hc : conds k !! c = _ |- _ => rename Hc into Hx end.
  destruct (Wait_Ok c x k gs k1 Hok Hx H) as (_ & _ & _ & _ & _ & ->).
  exists x, (SWait c (waits x)). split_and!; [done|done| |].
  - apply bind_Ok in H0 as (b & k2 & Hb & H0). apply isHeld_Ok in Hb as (-> & _).
    apply bind_Ok in H0 as (u & k3 & E3 & H0). binds E3.
    unfold new_Semaphore, put_sem, put_cond in H0. cbv zeta in H0.
    apply bind_Ok in H0 as (u & k4 & E4 & H0). binds E4.
    apply bind_Ok in H0 as (u & k4 & E4 & H0). binds E4.
    apply bind_Ok in H0 as (u & k4 & E4 & H0). binds H0.
    unfold Lock_Release, lock_at, put_lock in E4.
    apply bind_Ok in E4 as (b1 & k5 & Hb & E4). apply isHeld_Ok in Hb as (-> & _).
    apply bind_Ok in E4 as (b2 & k5 & Hb & E4). binds Hb.
    apply bind_Ok in E4 as (b3 & k5 & Hb' & E4). apply isHeld_Ok in Hb' as (-> & _).
    destruct b3.
    + apply bind_Ok in E4 as (y & k5 & Ey & E4). binds Ey. effects_step.
      apply bind_Ok in E4 as (u1 & k5 & Ep & E4). binds Ep.
      match goal with Hl : locks _ !! lock x = Some y |- _ => cbn in Hl; rename Hl into Hy end.
      rewrite (proj1 (ok_locks _ Hok _ _ Hy)) in E4. apply V_Ok in E4 as (z & Hz & Hr & Hs).
      rewrite Hs. cbn. by rewrite lookup_insert_ne, lookup_insert_eq by done.
    + binds E4. cbn. by rewrite lookup_insert_eq.
  - intros k2 y Hy Hv. cbn [run_frame]. unfold Wait_sem, Semaphore_P, P_loop, sem_at, set_intr, on_sched, at_ptr.
    unfold_M. cbn [sems k_sched]. rewrite Hy. rewrite bool_decide_eq_false_2 by lia. eauto.
Qed.

(** A port cannot be destroyed: [~Puerto] deletes its lock and then two
    conditions whose destructors delete the same lock again, so the second
    deletion is of a dangling pointer, whatever the state. *)
Theorem delete_Puerto_double_free (k : kernel) (p : Z) :
  objs_ok k → delete_Puerto p k = Err BadPointer.
Proof.
  intros Hok. unfold delete_Puerto, port_at, delete_Condition, cond_at, delete_Lock, lock_at,
    delete_Semaphore, sem_at, at_ptr. unfold_M.
  destruct (ports k !! p) as [x|] eqn:Ep; [|done].
  destruct (ok_ports _ Hok p x Ep) as (-> & -> & ->).
  destruct (locks k !! LPort p) as [l|] eqn:El; [|done].
  destruct (sems k !! sem l); [|done]. cbn [conds set_locks set_sems].
  destruct (conds k !! CPortS p) as [c|] eqn:Ec; [|done].
  rewrite (proj2 (ok_conds _ Hok _ _ Ec)). cbn [locks set_locks set_sems].
  by rewrite lookup_delete_eq.
Qed.

(** ** Witnesses *)

Definition zeros : list Z := replicate 40 0.
Definition after_run (ls : list label) : kernel :=
  match run ls (boot zeros zeros) with Ok k => k | Err _ => boot zeros zeros end.

(** Thread 0 is preempted in its critical section and thread 1 tries to enter. *)
Definition contention : list label :=
  [NewLock 0 0; NewThread 1 zeros; CallFork 1 1 0 0 0; Enter 0; Resume; Resume; Resume;
   Preempt; Resume; Enter 0; Resume; Resume].

Lemma lock_mutual_exclusion_witness :
  inside (after_run contention) (LUser 0) 0 ∧
  conts (after_run contention) !! 1 =
    Some [FSleep; FP (SLock (LUser 0)) IntOn; FAcquire_end (LUser 0); FCrit (LUser 0); FUser; FFinish] ∧
  (∀ t', inside (after_run contention) (LUser 0) t' → t' = 0).
Proof.
  split; [eexists; split; vm_compute; reflexivity|].
  split; [vm_compute; reflexivity|].
  apply (lock_mutual_exclusion zeros zeros contention (after_run contention) (LUser 0) 0).
  - vm_compute. reflexivity.
  - eexists. split; vm_compute; reflexivity.
Defined.

(** Two sends, the second of which has to wait for the receive in between. *)
Definition two_sends : list label :=
  [NewThread 1 zeros; CallFork 1 0 0 0 0; CallSend 1 5; Resume; Resume; Resume; Resume; Resume;
   CallSend 1 6; Resume; Resume; Resume; Resume; Preempt; Resume; CallReceive 1;
   Resume; Resume; Resume; Resume].

Lemma port_delivers_in_order_witness :
  log (after_run two_sends) = [Sent 1 5; Received 1 5] ∧
  sent 1 (log (after_run two_sends)) =
    received 1 (log (after_run two_sends)) ++ in_buffer (ports (after_run two_sends) !! 1).
Proof.
  split; [vm_compute; reflexivity|].
  apply (port_delivers_in_order zeros zeros two_sends (after_run two_sends) 1).
  vm_compute. reflexivity.
Defined.

Lemma semaphore_nonnegative_witness :
  0 ≤ value (mkSemaphore 0 [1]).
Proof.
  apply (semaphore_nonnegative zeros zeros contention (after_run contention) (SLock (LUser 0))
           (mkSemaphore 0 [1])); vm_compute; reflexivity.
Defined.

(** A thread alone: it waits on a condition that nobody signals, and five steps
    later it is back in its critical section. *)
Definition about_to_wait : list label :=
  [NewLock 0 0; NewCond 0 (LUser 0); Enter 0; Resume; Resume; Resume].

Lemma about_to_wait_objs : objs_ok (after_run about_to_wait).
Proof.
  apply inv_objs, (run_invariant kinv about_to_wait (boot zeros zeros)).
  - intros lbl k1 u k2 H1 H2. by eapply step_kinv.
  - apply boot_kinv.
  - vm_compute. reflexivity.
Qed.

Definition unsignalled : kernel :=
  after_run (about_to_wait ++ [CallWait (CUser 0); Resume; Resume; Resume; Resume; Resume]).

Lemma Wait_does_not_wait_witness :
  conts unsignalled !! 0 = Some [FCrit (LUser 0); FUser] ∧
  ∃ gs k1, Condition_Wait (CUser 0) (after_run about_to_wait) = Ok (gs, k1) ∧
  ∃ x s, conds (after_run about_to_wait) !! CUser 0 = Some x ∧
    gs = [FWait_sem (CUser 0) s; FWait_lock (lock x)] ∧
    sems k1 !! s = Some (mkSemaphore 1 []) ∧
    ∀ k2 y, sems k2 !! s = Some y → 1 ≤ value y →
      ∃ k3, run_frame (FWait_sem (CUser 0) s) k2 = Ok ([], k3).
Proof.
  split; [vm_compute; reflexivity|].
  destruct (Condition_Wait (CUser 0) (after_run about_to_wait)) as [[gs k1]|e] eqn:E;
    [|exfalso; vm_compute in E; discriminate].
  exists gs, k1. split; [reflexivity|].
  apply (Wait_does_not_wait (CUser 0) (after_run about_to_wait) gs k1).
  - exact about_to_wait_objs.
  - exact E.
Defined.

Lemma two_sends_objs : objs_ok (after_run two_sends).
Proof.
  apply inv_objs, (run_invariant kinv two_sends (boot zeros zeros)).
  - intros lbl k1 u k2 H1 H2. by eapply step_kinv.
  - apply boot_kinv.
  - vm_compute. reflexivity.
Qed.

Lemma delete_Puerto_double_free_witness : delete_Puerto 1 (after_run two_sends) = Err BadPointer.
Proof. apply (delete_Puerto_double_free (after_run two_sends) 1). exact two_sends_objs. Defined.
