(* ===== verification/Machine.v ===== *)
(** * The simulated machine: memory, registers and address translation

    machine/machine.cc and machine/translate.cc.  Main memory is a list of
    bytes (0 to 255), the registers are 32-bit signed integers, the translation
    is by a linear page table or by a TLB.  The host is little endian (the
    byte-order routines are the identity, Makefile.dep), and [char] is signed,
    so a byte read is sign-extended.

    [ExceptionHandler] is the kernel's entry point: here it is a parameter of
    the routines that can trap, a state transformer of the machine. *)

From S2P Require Import Prelude.
From S2P Require Import Scheduler.

(** ** Data *)

Definition SectorSize : Z := 128.
Definition PageSize : Z := SectorSize.
Definition NumPhysPages : Z := 128.
Definition MemorySize : Z := NumPhysPages * PageSize.
Definition TLBSize : Z := 4.

Inductive ExceptionType :=
  | NoException | SyscallException | PageFaultException | ReadOnlyException
  | BusErrorException | AddressErrorException | OverflowException | IllegalInstrException
  | NumExceptionTypes.

#[export] Instance ExceptionType_eq_dec : EqDecision ExceptionType.
Proof. solve_decision. Defined.

Definition StackReg : Z := 29.
Definition RetAddrReg : Z := 31.
Definition NumGPRegs : Z := 32.
Definition HiReg : Z := 32.
Definition LoReg : Z := 33.
Definition PCReg : Z := 34.
Definition NextPCReg : Z := 35.
Definition PrevPCReg : Z := 36.
Definition LoadReg : Z := 37.
Definition LoadValueReg : Z := 38.
Definition BadVAddrReg : Z := 39.

Record TranslationEntry := mkEntry {
  virtualPage : Z; physicalPage : Z; valid : bool; readOnly : bool; use : bool; dirty : bool
}.

(** [m_pageTable] is the array the page table pointer points to. *)
Record Machine := mkMachine {
  mainMemory : list Z;
  m_registers : list Z;
  tlb : option (list TranslationEntry);
  m_pageTable : option (list TranslationEntry);
  pageTableSize : Z
}.

Definition set_memory (m : list Z) (k : Machine) : Machine :=
  mkMachine m (m_registers k) (tlb k) (m_pageTable k) (pageTableSize k).
Definition set_regs (r : list Z) (k : Machine) : Machine :=
  mkMachine (mainMemory k) r (tlb k) (m_pageTable k) (pageTableSize k).
Definition set_tlb (t : list TranslationEntry) (k : Machine) : Machine :=
  mkMachine (mainMemory k) (m_registers k) (Some t) (m_pageTable k) (pageTableSize k).
Definition set_pt (t : list TranslationEntry) (k : Machine) : Machine :=
  mkMachine (mainMemory k) (m_registers k) (tlb k) (Some t) (pageTableSize k).

(** ** Byte order *)

Definition WordToHost (word : Z) : Z := word.
Definition ShortToHost (shortword : Z) : Z := shortword.
Definition WordToMachine (word : Z) : Z := WordToHost word.
Definition ShortToMachine (shortword : Z) : Z := ShortToHost shortword.

(** A little-endian access through a pointer into [mainMemory]. *)
Fixpoint load_bytes (n pa : nat) (mem : list Z) : option Z :=
  match n with
  | O => Some 0
  | S n => match mem !! pa, load_bytes n (S pa) mem with
           | Some b, Some r => Some (b + 256 * r)
           | _, _ => None
           end
  end.
Fixpoint store_bytes (n pa : nat) (v : Z) (mem : list Z) : list Z :=
  match n with
  | O => mem
  | S n => store_bytes n (S pa) (v / 256) (<[pa := v `mod` 256]> mem)
  end.

(** ** Registers *)

Definition reg_get (num : Z) : M Machine Z := λ k,
  if bool_decide (0 ≤ num) then
    match m_registers k !! Z.to_nat num with Some v => Ok (v, k) | None => Err OutOfBounds end
  else Err OutOfBounds.
Definition reg_set (num value : Z) : M Machine unit := λ k,
  if bool_decide (0 ≤ num < Z.of_nat (length (m_registers k)))
  then Ok (tt, set_regs (<[Z.to_nat num := value]> (m_registers k)) k)
  else Err OutOfBounds.

Definition ReadRegister (num : Z) : M Machine Z :=
  ASSERT (bool_decide (0 ≤ num ∧ num < NumTotalRegs)) ≫= λ _, reg_get num.
Definition WriteRegister (num value : Z) : M Machine unit :=
  ASSERT (bool_decide (0 ≤ num ∧ num < NumTotalRegs)) ≫= λ _, reg_set num value.

(** [Machine::Machine], without a TLB. *)
Definition new_Machine (junk : Z) : Machine :=
  mkMachine (replicate (Z.to_nat MemorySize) 0) (replicate (Z.to_nat NumTotalRegs) 0) None None junk.

(** machine/mipssim.cc, [Machine::DelayedLoad]. *)
Definition DelayedLoad (nextReg nextValue : Z) : M Machine unit :=
  r ← reg_get LoadReg; v ← reg_get LoadValueReg;
  reg_set r v ≫= λ _,
  reg_set LoadReg nextReg ≫= λ _,
  reg_set LoadValueReg nextValue ≫= λ _,
  reg_set 0 0.

(** ** Translation *)

Definition entry_access (writing : bool) (e : TranslationEntry) : TranslationEntry :=
  mkEntry (virtualPage e) (physicalPage e) (valid e) (readOnly e) true
    (if writing then true else dirty e).

(** [for (entry = NULL, i = 0; i < TLBSize; i++) if (tlb[i].valid && ...)]. *)
Fixpoint tlb_search (vpn : Z) (i : nat) (t : list TranslationEntry) : option (nat * TranslationEntry) :=
  match t with
  | [] => None
  | e :: t => if valid e && bool_decide (virtualPage e = vpn) then Some (i, e)
              else tlb_search vpn (S i) t
  end.

(** The entry that translates [vpn], and where it is, or the exception. *)
Definition find_entry (vpn : Z) : M Machine (ExceptionType + (nat * TranslationEntry)) :=
  k ← get;
  match tlb k with
  | None =>
      if bool_decide (pageTableSize k ≤ vpn) then mret (inl AddressErrorException)
      else
        pt ← deref (m_pageTable k);
        match pt !! Z.to_nat vpn with
        | None => fail OutOfBounds
        | Some e => mret (if negb (valid e) then inl PageFaultException else inr (Z.to_nat vpn, e))
        end
  | Some t =>
      match tlb_search (sint vpn) 0 t with
      | None => mret (inl PageFaultException)
      | Some (i, e) => mret (inr (i, e))
      end
  end.

(** The use and dirty bits, set in the table the entry is in. *)
Definition update_entry (i : nat) (e : TranslationEntry) : M Machine unit :=
  modify (λ k, match tlb k, m_pageTable k with
               | Some t, _ => set_tlb (<[i := e]> t) k
               | None, Some t => set_pt (<[i := e]> t) k
               | None, None => k
               end).

Definition is_null {A} (p : option A) : bool := match p with None => true | Some _ => false end.

(** [Machine::Translate]: the exception, or the physical address. *)
Definition Translate (virtAddr size : Z) (writing : bool) : M Machine (ExceptionType + Z) :=
  if (bool_decide (size = 4) && negb (Z.land virtAddr 3 =? 0)) ||
     (bool_decide (size = 2) && negb (Z.land virtAddr 1 =? 0))
  then mret (inl AddressErrorException)
  else
    k ← get;
    ASSERT (is_null (tlb k) || is_null (m_pageTable k)) ≫= λ _,
    ASSERT (negb (is_null (tlb k)) || negb (is_null (m_pageTable k))) ≫= λ _,
    let vpn := uint virtAddr / PageSize in
    let offset := uint virtAddr `mod` PageSize in
    r ← find_entry vpn;
    match r with
    | inl x => mret (inl x)
    | inr (i, entry) =>
        if readOnly entry && writing then mret (inl ReadOnlyException)
        else
          let pageFrame := uint (physicalPage entry) in
          if bool_decide (NumPhysPages ≤ pageFrame) then mret (inl BusErrorException)
          else
            update_entry i (entry_access writing entry) ≫= λ _,
            let physAddr := pageFrame * PageSize + offset in
            ASSERT (bool_decide (0 ≤ physAddr ∧ physAddr + size ≤ MemorySize)) ≫= λ _,
            mret (inr physAddr)
    end.

Section Trap.
Context (ExceptionHandler : ExceptionType → M Machine unit).

(** [Machine::RaiseException]; the status changes of the interrupt simulation
    do not concern the machine's own state. *)
Definition RaiseException (which : ExceptionType) (badVAddr : Z) : M Machine unit :=
  reg_set BadVAddrReg badVAddr ≫= λ _,
  DelayedLoad 0 0 ≫= λ _,
  ExceptionHandler which.

(** [Machine::ReadMem]: [None] is the return value [false]. *)
Definition ReadMem (addr size : Z) : M Machine (option Z) :=
  r ← Translate addr size false;
  match r with
  | inl exception => RaiseException exception addr ≫= λ _, mret None
  | inr physicalAddress =>
      k ← get;
      let data n := load_bytes n (Z.to_nat physicalAddress) (mainMemory k) in
      if bool_decide (size = 1) then
        match data 1%nat with
        | Some b => mret (Some (if bool_decide (b < 128) then b else b - 256))
        | None => fail OutOfBounds
        end
      else if bool_decide (size = 2) then
        match data 2%nat with Some v => mret (Some (ShortToHost v)) | None => fail OutOfBounds end
      else if bool_decide (size = 4) then
        match data 4%nat with Some v => mret (Some (sint (WordToHost v))) | None => fail OutOfBounds end
      else fail AssertFailed
  end.

(** [n] bytes stored at the physical address [pa]; outside [mainMemory] it is a
    fault. *)
Definition store_memory (n : nat) (pa v : Z) : M Machine unit :=
  k ← get;
  if bool_decide (0 ≤ pa ∧ pa + Z.of_nat n ≤ Z.of_nat (length (mainMemory k)))
  then modify (set_memory (store_bytes n (Z.to_nat pa) v (mainMemory k)))
  else fail OutOfBounds.

(** [Machine::WriteMem]. *)
Definition WriteMem (addr size value : Z) : M Machine bool :=
  r ← Translate addr size true;
  match r with
  | inl exception => RaiseException exception addr ≫= λ _, mret false
  | inr physicalAddress =>
      let store n v := store_memory n physicalAddress v in
      (if bool_decide (size = 1) then store 1%nat (Z.land value 255)
       else if bool_decide (size = 2) then store 2%nat (ShortToMachine (Z.land value 65535))
       else if bool_decide (size = 4) then store 4%nat (WordToMachine (uint value))
       else fail AssertFailed) ≫= λ _,
      mret true
  end.

End Trap.

(** ** Well-formed machines *)

Definition is_byte (b : Z) : Prop := 0 ≤ b < 256.

Record machine_wf (k : Machine) : Prop := {
  wf_memory : length (mainMemory k) = Z.to_nat MemorySize;
  wf_bytes : Forall is_byte (mainMemory k);
  wf_regs : length (m_registers k) = Z.to_nat NumTotalRegs;
  wf_one_table : is_null (tlb k) = negb (is_null (m_pageTable k));
  wf_table : ∀ pt, m_pageTable k = Some pt → Z.of_nat (length pt) = pageTableSize k
}.

(** ** Memory *)

Section Memory.
Implicit Types (mem : list Z) (n pa : nat).

Lemma length_store n pa v mem : length (store_bytes n pa v mem) = length mem.
Proof. revert pa v mem. induction n as [|n IH]; intros; cbn; [done|]. by rewrite IH, length_insert. Qed.

Lemma store_other n pa v mem j : (j < pa ∨ pa + n ≤ j)%nat → store_bytes n pa v mem !! j = mem !! j.
Proof.
  revert pa v mem. induction n as [|n IH]; intros pa v mem Hj; cbn; [done|].
  rewrite IH by lia. apply list_lookup_insert_ne. lia.
Qed.

Lemma store_bytes_ok n pa v mem : Forall is_byte mem → Forall is_byte (store_bytes n pa v mem).
Proof.
  revert pa v mem. induction n as [|n IH]; intros pa v mem H; cbn; [done|].
  apply IH, Forall_insert; [done|]. unfold is_byte. lia.
Qed.

Lemma load_ext n pa mem mem' : (∀ j, (pa ≤ j < pa + n)%nat → mem' !! j = mem !! j) →
  load_bytes n pa mem' = load_bytes n pa mem.
Proof.
  revert pa. induction n as [|n IH]; intros pa H; cbn; [done|].
  rewrite (H pa) by lia. by rewrite (IH (S pa)) by (intros; apply H; lia).
Qed.

(** What was stored is loaded back, truncated to the bytes stored. *)
Lemma load_store n pa v mem : (pa + n ≤ length mem)%nat →
  load_bytes n pa (store_bytes n pa v mem) = Some (v `mod` 256 ^ Z.of_nat n).
Proof.
  revert pa v mem. induction n as [|n IH]; intros pa v mem Hl; cbn [load_bytes store_bytes].
  - by rewrite Z.mod_1_r.
  - rewrite store_other by lia. rewrite list_lookup_insert_eq by lia.
    rewrite IH by (rewrite length_insert; lia). f_equal.
    rewrite Nat2Z.inj_succ, Z.pow_succ_r by lia. by rewrite Z.rem_mul_r by lia.
Qed.

Lemma load_some n pa mem : (pa + n ≤ length mem)%nat → Forall is_byte mem →
  ∃ v, load_bytes n pa mem = Some v ∧ 0 ≤ v < 256 ^ Z.of_nat n.
Proof.
  intros Hl Hb. revert pa Hl. induction n as [|n IH]; intros pa Hl; cbn [load_bytes].
  - exists 0. split; [done|]. lia.
  - destruct (lookup_lt_is_Some_2 mem pa) as [b Hp]; [lia|]. rewrite Hp.
    destruct (IH (S pa)) as (r & -> & Hr); [lia|]. eexists. split; [done|].
    pose proof (proj1 (Forall_lookup _ _) Hb pa b Hp) as Hby. unfold is_byte in Hby.
    rewrite Nat2Z.inj_succ, Z.pow_succ_r by lia. lia.
Qed.

End Memory.

(** ** Translation in closed form *)

Definition misaligned (virtAddr size : Z) : bool :=
  (bool_decide (size = 4) && negb (virtAddr `mod` 4 =? 0)) ||
  (bool_decide (size = 2) && negb (virtAddr `mod` 2 =? 0)).

(** What the page table [pt] says about an access. *)
Definition translation (pt : list TranslationEntry) (virtAddr size : Z) (writing : bool) :
    ExceptionType + (nat * TranslationEntry * Z) :=
  if misaligned virtAddr size then inl AddressErrorException
  else
    let vpn := Z.to_nat (uint virtAddr / PageSize) in
    match pt !! vpn with
    | None => inl AddressErrorException
    | Some e =>
        if negb (valid e) then inl PageFaultException
        else if readOnly e && writing then inl ReadOnlyException
        else if bool_decide (NumPhysPages ≤ uint (physicalPage e)) then inl BusErrorException
        else inr (vpn, e, uint (physicalPage e) * PageSize + uint virtAddr `mod` PageSize)
    end.

Section Translation.
Implicit Types (k : Machine) (pt : list TranslationEntry).

Lemma land_pow2 a n : 0 ≤ n → Z.land a (2 ^ n - 1) = a `mod` 2 ^ n.
Proof. intros Hn. rewrite <- Z.land_ones by done. by rewrite Z.ones_equiv, <- Z.sub_1_r. Qed.

Lemma misaligned_land virtAddr size :
  (bool_decide (size = 4) && negb (Z.land virtAddr 3 =? 0)) ||
  (bool_decide (size = 2) && negb (Z.land virtAddr 1 =? 0)) = misaligned virtAddr size.
Proof.
  unfold misaligned.
  pose proof (land_pow2 virtAddr 2 ltac:(lia)) as H4. pose proof (land_pow2 virtAddr 1 ltac:(lia)) as H2.
  change (2 ^ 2 - 1) with 3 in H4. change (2 ^ 1 - 1) with 1 in H2.
  change (2 ^ 2) with 4 in H4. change (2 ^ 1) with 2 in H2. by rewrite H4, H2.
Qed.

Lemma uint_mod a d : 0 < d → (4294967296 `mod` d = 0) → uint a `mod` d = a `mod` d.
Proof.
  intros Hd Hm. unfold uint. apply Z.mod_divide in Hm; [|lia]. destruct Hm as [q Hq]. rewrite Hq.
  rewrite (Z.mul_comm q d). rewrite Z.rem_mul_r by lia.
  rewrite Z.mul_comm, Z.mod_add, Z.mod_mod by lia. done.
Qed.

(** An aligned access does not cross a page. *)
Lemma aligned_in_page virtAddr size : (size = 1 ∨ size = 2 ∨ size = 4) →
  misaligned virtAddr size = false →
  0 ≤ uint virtAddr `mod` PageSize ∧ uint virtAddr `mod` PageSize + size ≤ PageSize.
Proof.
  intros Hs Hm. unfold misaligned, PageSize, SectorSize in *.
  rewrite (uint_mod virtAddr 128) by (done || lia).
  destruct Hs as [->|[->| ->]]; cbn in Hm.
  - lia.
  - destruct (Z.eqb_spec (virtAddr `mod` 2) 0); [|done]. lia.
  - destruct (Z.eqb_spec (virtAddr `mod` 4) 0); [|done]. lia.
Qed.

Lemma translation_range pt virtAddr size writing i e pa :
  (size = 1 ∨ size = 2 ∨ size = 4) →
  translation pt virtAddr size writing = inr (i, e, pa) →
  pt !! i = Some e ∧ valid e = true ∧ 0 ≤ uint (physicalPage e) < NumPhysPages ∧
  uint (physicalPage e) * PageSize ≤ pa ∧ pa + size ≤ (uint (physicalPage e) + 1) * PageSize ∧
  pa + size ≤ MemorySize.
Proof.
  intros Hs H. unfold translation in H. destruct (misaligned virtAddr size) eqn:Em; [done|].
  destruct (pt !! _) as [e'|] eqn:Ee; [|done]. destruct (valid e') eqn:Ev; [|done]. cbn in H.
  destruct (readOnly e' && writing); [done|]. case_bool_decide as Hf; [done|].
  injection H as <- <- <-. pose proof (aligned_in_page _ _ Hs Em) as [Ho Hp].
  pose proof (uint_range (physicalPage e')) as [Hu _].
  unfold MemorySize, NumPhysPages, PageSize, SectorSize in *. split_and!; try done; lia.
Qed.

Lemma Translate_eq k pt virtAddr size writing :
  machine_wf k → m_pageTable k = Some pt → (size = 1 ∨ size = 2 ∨ size = 4) →
  Translate virtAddr size writing k =
    match translation pt virtAddr size writing with
    | inl x => Ok (inl x, k)
    | inr (i, e, pa) => Ok (inr pa, set_pt (<[i := entry_access writing e]> pt) k)
    end.
Proof.
  intros Hwf Hpt Hs. unfold Translate. rewrite misaligned_land.
  destruct (misaligned virtAddr size) eqn:Em; [unfold translation; by rewrite Em|].
  pose proof (wf_one_table _ Hwf) as H1. rewrite Hpt in H1. cbn in H1.
  destruct (tlb k) eqn:Et; [done|].
  unfold find_entry, update_entry. unfold_M. rewrite Et, Hpt. cbn [is_null orb negb]. rewrite ?Et, ?Hpt.
  pose proof (wf_table _ Hwf pt Hpt) as Hlen.
  destruct (uint_range virtAddr) as [Hu0 Hu1].
  assert (Hv : 0 ≤ uint virtAddr / PageSize) by (unfold PageSize, SectorSize; lia).
  unfold translation. rewrite Em. cbv zeta.
  destruct (decide (pageTableSize k ≤ uint virtAddr / PageSize)) as [Hb|Hb].
  { rewrite (bool_decide_eq_true_2 (pageTableSize k ≤ _)) by done. by rewrite lookup_ge_None_2 by lia. }
  rewrite (bool_decide_eq_false_2 (pageTableSize k ≤ _)) by done.
  destruct (lookup_lt_is_Some_2 pt (Z.to_nat (uint virtAddr / PageSize))) as [e He]; [lia|].
  rewrite He. destruct (valid e) eqn:Ev; cbn [negb]; [|done].
  destruct (readOnly e && writing) eqn:Er; [done|].
  destruct (decide (NumPhysPages ≤ uint (physicalPage e))) as [Hf|Hf].
  { by rewrite bool_decide_eq_true_2. }
  rewrite (bool_decide_eq_false_2 (NumPhysPages ≤ _)) by done. rewrite ?Et, ?Hpt.
  rewrite bool_decide_eq_true_2; [done|].
  assert (Ht : translation pt virtAddr size writing =
    inr (Z.to_nat (uint virtAddr / PageSize), e,
         uint (physicalPage e) * PageSize + uint virtAddr `mod` PageSize)).
  { unfold translation. rewrite Em, He, Ev, Er. cbn. by rewrite bool_decide_eq_false_2. }
  apply translation_range in Ht as (_ & _ & Hr & H2 & _ & H4); [|done]. split; [|done].
  unfold PageSize, SectorSize in *. lia.
Qed.

End Translation.

(** ** Theorems *)

Definition access_size (size : Z) : Prop := size = 1 ∨ size = 2 ∨ size = 4.

(** The value of [size] bytes, as [ReadMem] returns it. *)
Definition extend (size v : Z) : Z :=
  if bool_decide (size = 1) then (v + 128) `mod` 256 - 128
  else if bool_decide (size = 2) then v `mod` 65536
  else sint v.

(** C14: [Translate] through a page table is total and safe: it never trips an
    assertion; an exception leaves the machine untouched; and a physical
    address it returns lies, with the whole access, inside the frame that a
    valid entry of the table maps the page to, at the offset of the virtual
    address, an entry that is not read-only if the access writes; only that
    entry's use bit, and its dirty bit on a write, are set. *)
Theorem Translate_sound (k : Machine) (pt : list TranslationEntry) (virtAddr size : Z) (writing : bool) :
  machine_wf k → m_pageTable k = Some pt → access_size size →
  ∃ r k', Translate virtAddr size writing k = Ok (r, k') ∧
    match r with
    | inl x => x ≠ NoException ∧ k' = k
    | inr pa => ∃ i e, i = Z.to_nat (uint virtAddr / PageSize) ∧ pt !! i = Some e ∧
        valid e = true ∧ readOnly e && writing = false ∧
        pa / PageSize = uint (physicalPage e) ∧ pa `mod` PageSize = uint virtAddr `mod` PageSize ∧
        (pa + size - 1) / PageSize = uint (physicalPage e) ∧ 0 ≤ pa ∧ pa + size ≤ MemorySize ∧
        k' = set_pt (<[i := entry_access writing e]> pt) k
    end.
Proof.
  intros Hwf Hpt Hs. rewrite (Translate_eq k pt) by done.
  destruct (translation pt virtAddr size writing) as [x|[[i e] pa]] eqn:Et.
  - exists (inl x), k. split_and!; try done. unfold translation in Et.
    repeat (case_match; try (injection Et as <-); try done).
  - exists (inr pa). eexists. split; [done|].
    pose proof (translation_range _ _ _ _ _ _ _ Hs Et) as (Hi & Hv & Hf & H1 & H2 & H3).
    exists i, e. unfold translation in Et. destruct (misaligned virtAddr size) eqn:Em; [done|].
    destruct (pt !! Z.to_nat (uint virtAddr / PageSize)) as [e'|]; [|done].
    destruct (valid e'); [|done]. cbn in Et. destruct (readOnly e' && writing) eqn:Er; [done|].
    destruct (bool_decide _); [done|]. injection Et as <- <- <-.
    pose proof (aligned_in_page _ _ Hs Em) as [Ho Hp].
    set (o := uint virtAddr `mod` PageSize) in *. set (f := uint (physicalPage e')) in *.
    assert (1 ≤ size) by (destruct Hs as [->|[->| ->]]; lia).
    unfold PageSize, SectorSize in *. split_and!; try done; lia.
Qed.

(** The memory of the machine and a page table, which [AddrSpace::RestoreState]
    makes the current one. *)
Definition load_table (pt : list TranslationEntry) (k : Machine) : Machine :=
  mkMachine (mainMemory k) (m_registers k) None (Some pt) (Z.of_nat (length pt)).

Section MemoryAccess.
Context (h : ExceptionType → M Machine unit).
Implicit Types (k : Machine) (pt : list TranslationEntry).

Lemma store_memory_run n pa v k : 0 ≤ pa → pa + Z.of_nat n ≤ Z.of_nat (length (mainMemory k)) →
  store_memory n pa v k = Ok (tt, set_memory (store_bytes n (Z.to_nat pa) v (mainMemory k)) k).
Proof. intros H0 Hl. unfold store_memory. unfold_M. by rewrite bool_decide_eq_true_2 by lia. Qed.

Lemma store_memory_Ok n pa v k u k' : store_memory n pa v k = Ok (u, k') →
  k' = set_memory (store_bytes n (Z.to_nat pa) v (mainMemory k)) k.
Proof. unfold store_memory. unfold_M. case_bool_decide; by intros [= _ <-]. Qed.

(** A write that returns [true] stores the bytes where the table says. *)
Lemma WriteMem_true k pt addr size v k1 :
  machine_wf k → m_pageTable k = Some pt → access_size size →
  WriteMem h addr size v k = Ok (true, k1) →
  ∃ i e pa, translation pt addr size true = inr (i, e, pa) ∧
    mainMemory k1 = store_bytes (Z.to_nat size) (Z.to_nat pa) (v `mod` 256 ^ size) (mainMemory k) ∧
    k1 = set_memory (mainMemory k1) (set_pt (<[i := entry_access true e]> pt) k).
Proof.
  intros Hwf Hpt Hs H. unfold WriteMem in H. apply bind_Ok in H as (r & k2 & E & H).
  rewrite (Translate_eq k pt) in E by done.
  destruct (translation pt addr size true) as [x|[[i e] pa]] eqn:Et; injection E as <- <-.
  { apply bind_Ok in H as (u & k3 & _ & H). done. }
  exists i, e, pa. split; [done|].
  assert (Hl : ∀ n, 0 ≤ n → Z.land v (2 ^ n - 1) = v `mod` 2 ^ n) by (intros; by apply land_pow2).
  apply bind_Ok in H as (u & k3 & E & H). binds H. destruct Hs as [->|[->| ->]].
  - rewrite bool_decide_eq_true_2 in E by done. apply store_memory_Ok in E as ->. split; [|done].
    change (256 ^ 1) with (2 ^ 8). by rewrite <- (Hl 8).
  - rewrite bool_decide_eq_false_2, bool_decide_eq_true_2 in E by done. apply store_memory_Ok in E as ->. split; [|done].
    change (256 ^ 2) with (2 ^ 16). by rewrite <- (Hl 16).
  - rewrite !bool_decide_eq_false_2, bool_decide_eq_true_2 in E by done. apply store_memory_Ok in E as ->. by split.
Qed.

Lemma ReadMem_ok k pt addr size i e pa :
  machine_wf k → m_pageTable k = Some pt → access_size size →
  translation pt addr size false = inr (i, e, pa) →
  ∃ v, load_bytes (Z.to_nat size) (Z.to_nat pa) (mainMemory k) = Some v ∧
    ReadMem h addr size k = Ok (Some (extend size v), set_pt (<[i := entry_access false e]> pt) k).
Proof.
  intros Hwf Hpt Hs Et. pose proof (translation_range _ _ _ _ _ _ _ Hs Et) as (_ & _ & Hf & H1 & _ & H3).
  unfold MemorySize, NumPhysPages, PageSize, SectorSize in *.
  destruct (load_some (Z.to_nat size) (Z.to_nat pa) (mainMemory k)) as (v & Hv & Hr).
  { rewrite (wf_memory _ Hwf). unfold MemorySize, NumPhysPages, PageSize, SectorSize.
    destruct Hs as [->|[->| ->]]; lia. }
  { apply Hwf. }
  exists v. split; [done|]. unfold ReadMem. unfold mbind, M_bind.
  rewrite (Translate_eq k pt), Et by done. unfold get. cbn [mainMemory set_pt]. unfold extend.
  destruct Hs as [->|[->| ->]]; cbn [bool_decide].
  - change (Z.to_nat 1) with 1%nat in *. rewrite bool_decide_eq_true_2 by done.
    cbv zeta. rewrite Hv. unfold mret, M_ret. do 3 f_equal. change (256 ^ Z.of_nat 1) with 256 in Hr.
    case_bool_decide; lia.
  - change (Z.to_nat 2) with 2%nat in *. rewrite bool_decide_eq_false_2, bool_decide_eq_true_2 by done.
    cbv zeta. rewrite Hv. unfold mret, M_ret, ShortToHost. do 3 f_equal. change (256 ^ Z.of_nat 2) with 65536 in Hr.
    lia.
  - change (Z.to_nat 4) with 4%nat in *. rewrite !bool_decide_eq_false_2, bool_decide_eq_true_2 by done.
    cbv zeta. by rewrite Hv.
Qed.

Lemma machine_wf_write k pt i e e' n pa v : machine_wf k → m_pageTable k = Some pt → pt !! i = Some e →
  machine_wf (set_memory (store_bytes n pa v (mainMemory k)) (set_pt (<[i := e']> pt) k)).
Proof.
  intros [H1 H2 H3 H4 H5] Hpt Hi. split; cbn; try done.
  - by rewrite length_store.
  - by apply store_bytes_ok.
  - by rewrite H4, Hpt.
  - intros pt' [= <-]. rewrite length_insert. auto.
Qed.

End MemoryAccess.

(** What user code writes it reads back: after a successful [WriteMem], a
    [ReadMem] of the same address and size returns the low bytes of the value,
    sign-extended for a byte or a word and zero-extended for a half word,
    whatever the exception handler. *)
Theorem ReadMem_after_WriteMem (h : ExceptionType → M Machine unit) (k k1 : Machine)
    (pt : list TranslationEntry) (addr size v : Z) :
  machine_wf k → m_pageTable k = Some pt → access_size size →
  WriteMem h addr size v k = Ok (true, k1) →
  ∃ k2, ReadMem h addr size k1 = Ok (Some (extend size v), k2) ∧ mainMemory k2 = mainMemory k1.
Proof.
  intros Hwf Hpt Hs H. destruct (WriteMem_true h k pt addr size v k1 Hwf Hpt Hs H) as (i & e & pa & Et & Hm & Hk1).
  pose proof (translation_range _ _ _ _ _ _ _ Hs Et) as (Hi & Hv & Hf & H1 & _ & H3).
  set (pt1 := <[i := entry_access true e]> pt).
  assert (Et1 : translation pt1 addr size false = inr (i, entry_access true e, pa)).
  { unfold translation in Et |- *. destruct (misaligned addr size); [done|].
    destruct (pt !! Z.to_nat (uint addr / PageSize)) as [e'|] eqn:Ee; [|done].
    destruct (valid e') eqn:Ev; [|done]. cbn in Et. destruct (readOnly e' && true); [done|].
    destruct (bool_decide _) eqn:Eb; [done|]. injection Et as <- <- <-.
    unfold pt1. rewrite list_lookup_insert_eq by (by eapply lookup_lt_Some).
    cbn. by rewrite Ev, andb_false_r, Eb. }
  assert (Hwf1 : machine_wf k1).
  { rewrite Hk1, Hm. by eapply machine_wf_write. }
  destruct (ReadMem_ok h k1 pt1 addr size i (entry_access true e) pa Hwf1) as (v' & Hv' & E);
    [by rewrite Hk1|done|done|].
  enough (Hx : extend size v' = extend size v) by (eexists; split; [by rewrite E, Hx|done]).
  rewrite Hm in Hv'. rewrite load_store in Hv'.
  2:{ rewrite (wf_memory _ Hwf). unfold MemorySize, NumPhysPages, PageSize, SectorSize in *.
      destruct Hs as [->|[->| ->]]; lia. }
  injection Hv' as <-. unfold extend, sint. destruct Hs as [->|[->| ->]].
  - rewrite !bool_decide_eq_true_2 by done. change (256 ^ Z.of_nat (Z.to_nat 1)) with 256. lia.
  - rewrite !(bool_decide_eq_false_2 (2 = 1)), !(bool_decide_eq_true_2 (2 = 2)) by done.
    change (256 ^ Z.of_nat (Z.to_nat 2)) with 65536. lia.
  - rewrite !bool_decide_eq_false_2 by done. change (256 ^ Z.of_nat (Z.to_nat 4)) with 4294967296. lia.
Qed.

(** Address spaces are isolated: when no frame of a valid entry of [pt2] is
    the frame of a valid entry of [pt1], a program that writes through [pt1]
    changes nothing a program can read through [pt2]. *)
Theorem WriteMem_isolated (h : ExceptionType → M Machine unit) (k k1 : Machine)
    (pt1 pt2 : list TranslationEntry) (addr size v addr2 size2 : Z) i2 e2 pa2 :
  machine_wf k → m_pageTable k = Some pt1 → access_size size → access_size size2 →
  (∀ e1 e2, e1 ∈ pt1 → e2 ∈ pt2 → valid e1 = true → valid e2 = true →
     uint (physicalPage e1) ≠ uint (physicalPage e2)) →
  WriteMem h addr size v k = Ok (true, k1) →
  translation pt2 addr2 size2 false = inr (i2, e2, pa2) →
  ∃ r k2 k3, ReadMem h addr2 size2 (load_table pt2 k) = Ok (Some r, k2) ∧
             ReadMem h addr2 size2 (load_table pt2 k1) = Ok (Some r, k3).
Proof.
  intros Hwf Hpt Hs Hs2 Hdis H Et2.
  destruct (WriteMem_true h k pt1 addr size v k1 Hwf Hpt Hs H) as (i & e & pa & Et & Hm & Hk1).
  pose proof (translation_range _ _ _ _ _ _ _ Hs Et) as (Hi & Hv & Hf & H1 & H2 & H3).
  pose proof (translation_range _ _ _ _ _ _ _ Hs2 Et2) as (Hi2 & Hv2 & Hf2 & H12 & H22 & H32).
  assert (Hne : uint (physicalPage e) ≠ uint (physicalPage e2)).
  { apply Hdis; try done; by eapply list_elem_of_lookup_2. }
  assert (Hwf1 : machine_wf k1) by (rewrite Hk1, Hm; by eapply machine_wf_write).
  assert (Hload : ∀ k, machine_wf k → machine_wf (load_table pt2 k)).
  { intros k' []. split; cbn; try done. by intros ? [= <-]. }
  destruct (ReadMem_ok h (load_table pt2 k) pt2 addr2 size2 i2 e2 pa2) as (r & Hr & E); auto.
  destruct (ReadMem_ok h (load_table pt2 k1) pt2 addr2 size2 i2 e2 pa2) as (r' & Hr' & E'); auto.
  assert (r = r') as <-.
  { cbn [mainMemory load_table] in Hr, Hr'. rewrite Hm in Hr'.
    rewrite (load_ext (Z.to_nat size2) (Z.to_nat pa2) (mainMemory k)) in Hr'; [congruence|].
    intros j Hj. apply store_other.
    assert (0 ≤ size ∧ 0 ≤ size2) as [? ?] by (destruct Hs as [->|[->| ->]], Hs2 as [->|[->| ->]]; lia).
    unfold PageSize, SectorSize in *.
    destruct (decide (uint (physicalPage e) < uint (physicalPage e2))); lia. }
  eauto 10.
Qed.

(** ** Witnesses *)

Definition table1 : list TranslationEntry := [mkEntry 0 5 true false false false; mkEntry 1 9 true true false false].
Definition table2 : list TranslationEntry := [mkEntry 0 6 true false false false].
Definition machine1 : Machine := load_table table1 (new_Machine 0).

Lemma machine1_wf : machine_wf machine1.
Proof.
  split; cbn [machine1 load_table mainMemory m_registers tlb m_pageTable pageTableSize new_Machine].
  - apply length_replicate.
  - apply Forall_replicate. unfold is_byte. lia.
  - apply length_replicate.
  - done.
  - by intros pt [= <-].
Qed.

Lemma Translate_sound_witness :
  ∃ r k', Translate 132 4 false machine1 = Ok (r, k') ∧
    match r with
    | inl x => x ≠ NoException ∧ k' = machine1
    | inr pa => ∃ i e, i = Z.to_nat (uint 132 / PageSize) ∧ table1 !! i = Some e ∧
        valid e = true ∧ readOnly e && false = false ∧
        pa / PageSize = uint (physicalPage e) ∧ pa `mod` PageSize = uint 132 `mod` PageSize ∧
        (pa + 4 - 1) / PageSize = uint (physicalPage e) ∧ 0 ≤ pa ∧ pa + 4 ≤ MemorySize ∧
        k' = set_pt (<[i := entry_access false e]> table1) machine1
    end.
Proof.
  apply (Translate_sound machine1 table1 132 4 false).
  - exact machine1_wf.
  - reflexivity.
  - unfold access_size. lia.
Defined.

Definition no_handler (x : ExceptionType) : M Machine unit := fail Halted.
Definition machine1_written : Machine :=
  match WriteMem no_handler 8 4 (-2) machine1 with Ok (_, k) => k | Err _ => machine1 end.

Lemma ReadMem_after_WriteMem_witness :
  ∃ k2, ReadMem no_handler 8 4 machine1_written = Ok (Some (-2), k2) ∧
        mainMemory k2 = mainMemory machine1_written.
Proof.
  apply (ReadMem_after_WriteMem no_handler machine1 machine1_written table1 8 4 (-2)).
  - exact machine1_wf.
  - reflexivity.
  - unfold access_size. lia.
  - vm_compute. reflexivity.
Defined.

Lemma WriteMem_isolated_witness :
  ∃ r k2 k3, ReadMem no_handler 8 4 (load_table table2 machine1) = Ok (Some r, k2) ∧
             ReadMem no_handler 8 4 (load_table table2 machine1_written) = Ok (Some r, k3).
Proof.
  apply (WriteMem_isolated no_handler machine1 machine1_written table1 table2 8 4 (-2) 8 4
           0 (mkEntry 0 6 true false false false) 776).
  - exact machine1_wf.
  - reflexivity.
  - unfold access_size. lia.
  - unfold access_size. lia.
  - intros e1 e2 He1 He2 _ _. unfold table1, table2 in *.
    apply list_elem_of_singleton in He2 as ->.
    apply list_elem_of_In in He1 as [<-|[<-|[]]]; vm_compute; discriminate.
  - vm_compute. reflexivity.
  - vm_compute. reflexivity.
Defined.
