(* ===== verification/Mips.v ===== *)
(** * The MIPS simulator

    machine/mipssim.cc and mipssim.h: instruction decoding, the execution of one
    instruction with branch and load delay slots, and the multiplication
    routine.  Registers hold 32-bit signed integers: every store into a register
    converts to [int] ([sint]).  The switch of [OneInstruction] is cut into five
    definitions, in the order of the source. *)

From S2P Require Import Prelude.
From S2P Require Import Scheduler.
From S2P Require Import Machine.

(** ** Opcodes *)

Inductive opcode :=
  | OP_ADD | OP_ADDI | OP_ADDIU | OP_ADDU | OP_AND | OP_ANDI | OP_BEQ | OP_BGEZ | OP_BGEZAL
  | OP_BGTZ | OP_BLEZ | OP_BLTZ | OP_BLTZAL | OP_BNE | OP_DIV | OP_DIVU | OP_J | OP_JAL | OP_JALR
  | OP_JR | OP_LB | OP_LBU | OP_LH | OP_LHU | OP_LUI | OP_LW | OP_LWL | OP_LWR | OP_MFHI | OP_MFLO
  | OP_MTHI | OP_MTLO | OP_MULT | OP_MULTU | OP_NOR | OP_OR | OP_ORI | OP_RFE | OP_SB | OP_SH
  | OP_SLL | OP_SLLV | OP_SLT | OP_SLTI | OP_SLTIU | OP_SLTU | OP_SRA | OP_SRAV | OP_SRL | OP_SRLV
  | OP_SUB | OP_SUBU | OP_SW | OP_SWL | OP_SWR | OP_XOR | OP_XORI | OP_SYSCALL | OP_UNIMP | OP_RES
  | SPECIAL | BCOND.

#[export] Instance opcode_eq_dec : EqDecision opcode.
Proof. solve_decision. Defined.

Inductive format := IFMT | JFMT | RFMT.

Definition IndexToAddr (x : Z) : Z := Z.shiftl x 2.
Definition SIGN_BIT : Z := 0x80000000.
Definition R31 : Z := 31.

Definition opTable : list (opcode * format) := [
  (SPECIAL, RFMT); (BCOND, IFMT); (OP_J, JFMT); (OP_JAL, JFMT);
  (OP_BEQ, IFMT); (OP_BNE, IFMT); (OP_BLEZ, IFMT); (OP_BGTZ, IFMT);
  (OP_ADDI, IFMT); (OP_ADDIU, IFMT); (OP_SLTI, IFMT); (OP_SLTIU, IFMT);
  (OP_ANDI, IFMT); (OP_ORI, IFMT); (OP_XORI, IFMT); (OP_LUI, IFMT);
  (OP_UNIMP, IFMT); (OP_UNIMP, IFMT); (OP_UNIMP, IFMT); (OP_UNIMP, IFMT);
  (OP_RES, IFMT); (OP_RES, IFMT); (OP_RES, IFMT); (OP_RES, IFMT);
  (OP_RES, IFMT); (OP_RES, IFMT); (OP_RES, IFMT); (OP_RES, IFMT);
  (OP_RES, IFMT); (OP_RES, IFMT); (OP_RES, IFMT); (OP_RES, IFMT);
  (OP_LB, IFMT); (OP_LH, IFMT); (OP_LWL, IFMT); (OP_LW, IFMT);
  (OP_LBU, IFMT); (OP_LHU, IFMT); (OP_LWR, IFMT); (OP_RES, IFMT);
  (OP_SB, IFMT); (OP_SH, IFMT); (OP_SWL, IFMT); (OP_SW, IFMT);
  (OP_RES, IFMT); (OP_RES, IFMT); (OP_SWR, IFMT); (OP_RES, IFMT);
  (OP_UNIMP, IFMT); (OP_UNIMP, IFMT); (OP_UNIMP, IFMT); (OP_UNIMP, IFMT);
  (OP_RES, IFMT); (OP_RES, IFMT); (OP_RES, IFMT); (OP_RES, IFMT);
  (OP_UNIMP, IFMT); (OP_UNIMP, IFMT); (OP_UNIMP, IFMT); (OP_UNIMP, IFMT);
  (OP_RES, IFMT); (OP_RES, IFMT); (OP_RES, IFMT); (OP_RES, IFMT) ].

Definition specialTable : list opcode := [
  OP_SLL; OP_RES; OP_SRL; OP_SRA; OP_SLLV; OP_RES; OP_SRLV; OP_SRAV;
  OP_JR; OP_JALR; OP_RES; OP_RES; OP_SYSCALL; OP_UNIMP; OP_RES; OP_RES;
  OP_MFHI; OP_MTHI; OP_MFLO; OP_MTLO; OP_RES; OP_RES; OP_RES; OP_RES;
  OP_MULT; OP_MULTU; OP_DIV; OP_DIVU; OP_RES; OP_RES; OP_RES; OP_RES;
  OP_ADD; OP_ADDU; OP_SUB; OP_SUBU; OP_AND; OP_OR; OP_XOR; OP_NOR;
  OP_RES; OP_RES; OP_SLT; OP_SLTU; OP_RES; OP_RES; OP_RES; OP_RES;
  OP_RES; OP_RES; OP_RES; OP_RES; OP_RES; OP_RES; OP_RES; OP_RES;
  OP_RES; OP_RES; OP_RES; OP_RES; OP_RES; OP_RES; OP_RES; OP_RES ].

(** ** Decoding *)

Record Instruction := mkInstr { i_opCode : opcode; i_rs : Z; i_rt : Z; i_rd : Z; i_extra : Z }.

(** [Instruction::Decode] of the word [value], an [unsigned int]; [None] when a
    table is indexed out of range. *)
Definition Decode (value : Z) : option Instruction :=
  let rs := Z.land (Z.shiftr value 21) 0x1f in
  let rt := Z.land (Z.shiftr value 16) 0x1f in
  let rd := Z.land (Z.shiftr value 11) 0x1f in
  match opTable !! Z.to_nat (Z.land (Z.shiftr value 26) 0x3f) with
  | None => None
  | Some (opCode, fmt) =>
      let extra :=
        match fmt with
        | IFMT => let extra := Z.land value 0xffff in
                  if negb (Z.land extra 0x8000 =? 0) then sint (Z.lor extra 0xffff0000) else extra
        | RFMT => Z.land (Z.shiftr value 6) 0x1f
        | JFMT => Z.land value 0x3ffffff
        end in
      match opCode with
      | SPECIAL =>
          match specialTable !! Z.to_nat (Z.land value 0x3f) with
          | Some op => Some (mkInstr op rs rt rd extra)
          | None => None
          end
      | BCOND =>
          let i := Z.land value 0x1f0000 in
          let op := if i =? 0 then OP_BLTZ
                    else if i =? 0x10000 then OP_BGEZ
                    else if i =? 0x100000 then OP_BLTZAL
                    else if i =? 0x110000 then OP_BGEZAL
                    else OP_UNIMP in
          Some (mkInstr op rs rt rd extra)
      | op => Some (mkInstr op rs rt rd extra)
      end
  end.

(** ** Multiplication *)

(** The loop of [Mult]: [n] iterations left; [a] is an [int], the others are
    [unsigned int]. *)
Fixpoint Mult_loop (n : nat) (a bHi bLo hi lo : Z) : Z * Z :=
  match n with
  | O => (hi, lo)
  | S n =>
      if negb (Z.land a 1 =? 0) then
        let lo' := uint (lo + bLo) in
        let hi' := uint (hi + (if bool_decide (lo' < bLo) then 1 else 0) + bHi) in
        if Z.land a 0xfffffffe =? 0 then (hi', lo')
        else Mult_loop n (Z.shiftr a 1)
               (Z.lor (uint (Z.shiftl bHi 1)) (if negb (Z.land bLo 0x80000000 =? 0) then 1 else 0))
               (uint (Z.shiftl bLo 1)) hi' lo'
      else Mult_loop n (Z.shiftr a 1)
             (Z.lor (uint (Z.shiftl bHi 1)) (if negb (Z.land bLo 0x80000000 =? 0) then 1 else 0))
             (uint (Z.shiftl bLo 1)) hi lo
  end.

(** [Mult]: the words stored at [hiPtr] and [loPtr]. *)
Definition Mult (a b : Z) (signedArith : bool) : Z * Z :=
  if (a =? 0) || (b =? 0) then (0, 0)
  else
    let negative := signedArith && xorb (a <? 0) (b <? 0) in
    let a := if signedArith && (a <? 0) then sint (- a) else a in
    let b := if signedArith && (b <? 0) then sint (- b) else b in
    let '(hi, lo) := Mult_loop 32 a 0 (uint b) 0 0 in
    let '(hi, lo) :=
      if negative then
        let hi := uint (Z.lnot hi) in
        let lo := uint (uint (Z.lnot lo) + 1) in
        (if lo =? 0 then uint (hi + 1) else hi, lo)
      else (hi, lo) in
    (sint hi, sint lo).

(** ** Execution *)

(** How an instruction leaves the switch: a [return] after a trap, or a [break]
    with [pcAfter] and the delayed load. *)
Inductive outcome := Return | Break (pcAfter nextLoadReg nextLoadValue : Z).

Definition W (num value : Z) : M Machine unit := reg_set num (sint value).
Definition sign (x : Z) : bool := negb (Z.land x SIGN_BIT =? 0).
Definition signed_quot_traps (a b : Z) : bool := (a =? int_min) && (b =? -1).

Section Execution.
Context (ExceptionHandler : ExceptionType → M Machine unit).

Definition trap (which : ExceptionType) (badVAddr : Z) : M Machine outcome :=
  RaiseException ExceptionHandler which badVAddr ≫= λ _, mret Return.

(** The registers an instruction names. *)
Definition with_rs_rt (instr : Instruction) (f : Z → Z → M Machine outcome) : M Machine outcome :=
  rs ← reg_get (i_rs instr); rt ← reg_get (i_rt instr); f rs rt.

(** [case OP_ADD] to [case OP_DIVU]. *)
Definition exec_1 (instr : Instruction) (pcAfter : Z) : M Machine outcome :=
  let extra := i_extra instr in
  let done := mret (Break pcAfter 0 0) : M Machine outcome in
  npc ← reg_get NextPCReg;
  let branch (taken : bool) : M Machine outcome :=
    mret (Break (if taken then sint (npc + IndexToAddr extra) else pcAfter) 0 0) in
  with_rs_rt instr (λ rs rt,
  match i_opCode instr with
  | OP_ADD =>
      let sum := sint (rs + rt) in
      if negb (sign (Z.lxor rs rt)) && sign (Z.lxor rs sum) then trap OverflowException 0
      else W (i_rd instr) sum ≫= λ _, done
  | OP_ADDI =>
      let sum := sint (rs + extra) in
      if negb (sign (Z.lxor rs extra)) && sign (Z.lxor extra sum) then trap OverflowException 0
      else W (i_rt instr) sum ≫= λ _, done
  | OP_ADDIU => W (i_rt instr) (rs + extra) ≫= λ _, done
  | OP_ADDU => W (i_rd instr) (rs + rt) ≫= λ _, done
  | OP_AND => W (i_rd instr) (Z.land rs rt) ≫= λ _, done
  | OP_ANDI => W (i_rt instr) (Z.land rs (Z.land extra 0xffff)) ≫= λ _, done
  | OP_BEQ => branch (rs =? rt)
  | OP_BGEZAL => W R31 (npc + 4) ≫= λ _, rs' ← reg_get (i_rs instr); branch (negb (sign rs'))
  | OP_BGEZ => branch (negb (sign rs))
  | OP_BGTZ => branch (0 <? rs)
  | OP_BLEZ => branch (rs <=? 0)
  | OP_BLTZAL => W R31 (npc + 4) ≫= λ _, rs' ← reg_get (i_rs instr); branch (sign rs')
  | OP_BLTZ => branch (sign rs)
  | OP_BNE => branch (negb (rs =? rt))
  | OP_DIV =>
      if rt =? 0 then W LoReg 0 ≫= λ _, W HiReg 0 ≫= λ _, done
      else if signed_quot_traps rs rt then fail HostTrap
      else W LoReg (Z.quot rs rt) ≫= λ _, W HiReg (Z.rem rs rt) ≫= λ _, done
  | OP_DIVU =>
      let urs := uint rs in
      let urt := uint rt in
      if urt =? 0 then W LoReg 0 ≫= λ _, W HiReg 0 ≫= λ _, done
      else W LoReg (urs / urt) ≫= λ _, W HiReg (urs `mod` urt) ≫= λ _, done
  | _ => fail AssertFailed
  end).

(** [nextLoadValue] before the merge of [LWL] and [LWR]. *)
Definition merge_base (instr : Instruction) : M Machine Z :=
  lr ← reg_get LoadReg;
  if bool_decide (lr = i_rt instr) then reg_get LoadValueReg else reg_get (i_rt instr).

(** [case OP_JAL] to [case OP_LWL]. *)
Definition exec_2 (instr : Instruction) (pcAfter : Z) : M Machine outcome :=
  let extra := i_extra instr in
  npc ← reg_get NextPCReg;
  rs ← reg_get (i_rs instr);
  let jump := mret (Break (sint (Z.lor (Z.land (uint pcAfter) 0xf0000000) (IndexToAddr extra))) 0 0) : M Machine outcome in
  let load (v : Z) : M Machine outcome := mret (Break pcAfter (i_rt instr) (sint v)) in
  let tmp := sint (rs + extra) in
  match i_opCode instr with
  | OP_JAL => W R31 (npc + 4) ≫= λ _, jump
  | OP_J => jump
  | OP_JALR => W (i_rd instr) (npc + 4) ≫= λ _, rs' ← reg_get (i_rs instr); mret (Break rs' 0 0)
  | OP_JR => mret (Break rs 0 0)
  | OP_LB | OP_LBU =>
      r ← ReadMem ExceptionHandler tmp 1;
      match r with
      | None => mret Return
      | Some value =>
          load (if negb (Z.land value 0x80 =? 0) && bool_decide (i_opCode instr = OP_LB)
                then Z.lor (uint value) 0xffffff00 else Z.land value 0xff)
      end
  | OP_LH | OP_LHU =>
      if negb (Z.land tmp 1 =? 0) then trap AddressErrorException tmp
      else
        r ← ReadMem ExceptionHandler tmp 2;
        match r with
        | None => mret Return
        | Some value =>
            load (if negb (Z.land value 0x8000 =? 0) && bool_decide (i_opCode instr = OP_LH)
                  then Z.lor (uint value) 0xffff0000 else Z.land value 0xffff)
        end
  | OP_LUI => W (i_rt instr) (Z.shiftl extra 16) ≫= λ _, mret (Break pcAfter 0 0)
  | OP_LW =>
      if negb (Z.land tmp 3 =? 0) then trap AddressErrorException tmp
      else
        r ← ReadMem ExceptionHandler tmp 4;
        match r with None => mret Return | Some value => load value end
  | OP_LWL =>
      ASSERT (Z.land tmp 3 =? 0) ≫= λ _,
      r ← ReadMem ExceptionHandler tmp 4;
      match r with
      | None => mret Return
      | Some value =>
          base ← merge_base instr;
          load (let c := Z.land tmp 3 in
                if c =? 0 then value
                else if c =? 1 then Z.lor (Z.land base 0xff) (Z.shiftl value 8)
                else if c =? 2 then Z.lor (Z.land base 0xffff) (Z.shiftl value 16)
                else Z.lor (Z.land base 0xffffff) (Z.shiftl value 24))
      end
  | _ => fail AssertFailed
  end.

(** [case OP_LWR] to [case OP_SH]. *)
Definition exec_3 (instr : Instruction) (pcAfter : Z) : M Machine outcome :=
  let extra := i_extra instr in
  let done := mret (Break pcAfter 0 0) : M Machine outcome in
  let load (v : Z) : M Machine outcome := mret (Break pcAfter (i_rt instr) (sint v)) in
  with_rs_rt instr (λ rs rt,
  let tmp := sint (rs + extra) in
  match i_opCode instr with
  | OP_LWR =>
      ASSERT (Z.land tmp 3 =? 0) ≫= λ _,
      r ← ReadMem ExceptionHandler tmp 4;
      match r with
      | None => mret Return
      | Some value =>
          base ← merge_base instr;
          load (let c := Z.land tmp 3 in
                if c =? 0 then Z.lor (Z.land (uint base) 0xffffff00) (Z.land (Z.shiftr value 24) 0xff)
                else if c =? 1 then Z.lor (Z.land (uint base) 0xffff0000) (Z.land (Z.shiftr value 16) 0xffff)
                else if c =? 2 then Z.lor (Z.land (uint base) 0xff000000) (Z.land (Z.shiftr value 8) 0xffffff)
                else value)
      end
  | OP_MFHI => v ← reg_get HiReg; W (i_rd instr) v ≫= λ _, done
  | OP_MFLO => v ← reg_get LoReg; W (i_rd instr) v ≫= λ _, done
  | OP_MTHI => W HiReg rs ≫= λ _, done
  | OP_MTLO => W LoReg rs ≫= λ _, done
  | OP_MULT => let '(hi, lo) := Mult rs rt true in W HiReg hi ≫= λ _, W LoReg lo ≫= λ _, done
  | OP_MULTU => let '(hi, lo) := Mult rs rt false in W HiReg hi ≫= λ _, W LoReg lo ≫= λ _, done
  | OP_NOR => W (i_rd instr) (Z.lnot (Z.lor rs rt)) ≫= λ _, done
  | OP_OR => W (i_rd instr) (Z.lor rs rs) ≫= λ _, done
  | OP_ORI => W (i_rt instr) (Z.lor rs (Z.land extra 0xffff)) ≫= λ _, done
  | OP_SB => b ← WriteMem ExceptionHandler tmp 1 rt; if b : bool then done else mret Return
  | OP_SH => b ← WriteMem ExceptionHandler tmp 2 rt; if b : bool then done else mret Return
  | _ => fail AssertFailed
  end).

(** [case OP_SLL] to [case OP_SW]. *)
Definition exec_4 (instr : Instruction) (pcAfter : Z) : M Machine outcome :=
  let extra := i_extra instr in
  let done := mret (Break pcAfter 0 0) : M Machine outcome in
  with_rs_rt instr (λ rs rt,
  match i_opCode instr with
  | OP_SLL => W (i_rd instr) (Z.shiftl rt extra) ≫= λ _, done
  | OP_SLLV => W (i_rd instr) (Z.shiftl rt (Z.land rs 0x1f)) ≫= λ _, done
  | OP_SLT => W (i_rd instr) (if rs <? rt then 1 else 0) ≫= λ _, done
  | OP_SLTI => W (i_rt instr) (if rs <? extra then 1 else 0) ≫= λ _, done
  | OP_SLTIU => W (i_rt instr) (if uint rs <? uint extra then 1 else 0) ≫= λ _, done
  | OP_SLTU => W (i_rd instr) (if uint rs <? uint rt then 1 else 0) ≫= λ _, done
  | OP_SRA => W (i_rd instr) (Z.shiftr rt extra) ≫= λ _, done
  | OP_SRAV => W (i_rd instr) (Z.shiftr rt (Z.land rs 0x1f)) ≫= λ _, done
  | OP_SRL => let tmp := rt in let tmp := Z.shiftr tmp extra in W (i_rd instr) tmp ≫= λ _, done
  | OP_SRLV => let tmp := rt in let tmp := Z.shiftr tmp (Z.land rs 0x1f) in W (i_rd instr) tmp ≫= λ _, done
  | OP_SUB =>
      let diff := sint (rs - rt) in
      if sign (Z.lxor rs rt) && sign (Z.lxor rs diff) then trap OverflowException 0
      else W (i_rd instr) diff ≫= λ _, done
  | OP_SUBU => W (i_rd instr) (rs - rt) ≫= λ _, done
  | OP_SW => b ← WriteMem ExceptionHandler (sint (rs + extra)) 4 rt; if b : bool then done else mret Return
  | _ => fail AssertFailed
  end).

(** [case OP_SWL] to the end of the switch. *)
Definition exec_5 (instr : Instruction) (pcAfter : Z) : M Machine outcome :=
  let extra := i_extra instr in
  let done := mret (Break pcAfter 0 0) : M Machine outcome in
  with_rs_rt instr (λ rs rt,
  let tmp := sint (rs + extra) in
  let word := Z.land tmp (Z.lnot 3) in
  let merge (f : Z → Z → Z) : M Machine outcome :=
    ASSERT (Z.land tmp 3 =? 0) ≫= λ _,
    r ← ReadMem ExceptionHandler word 4;
    match r with
    | None => mret Return
    | Some value => b ← WriteMem ExceptionHandler word 4 (sint (f (Z.land tmp 3) value));
                    if b : bool then done else mret Return
    end in
  match i_opCode instr with
  | OP_SWL => merge (λ c value,
      if c =? 0 then rt
      else if c =? 1 then Z.lor (Z.land (uint value) 0xff000000) (Z.land (Z.shiftr rt 8) 0xffffff)
      else if c =? 2 then Z.lor (Z.land (uint value) 0xffff0000) (Z.land (Z.shiftr rt 16) 0xffff)
      else Z.lor (Z.land (uint value) 0xffffff00) (Z.land (Z.shiftr rt 24) 0xff))
  | OP_SWR => merge (λ c value,
      if c =? 0 then Z.lor (Z.land value 0xffffff) (Z.shiftl rt 24)
      else if c =? 1 then Z.lor (Z.land value 0xffff) (Z.shiftl rt 16)
      else if c =? 2 then Z.lor (Z.land value 0xff) (Z.shiftl rt 8)
      else rt)
  | OP_SYSCALL => trap SyscallException 0
  | OP_XOR => W (i_rd instr) (Z.lxor rs rt) ≫= λ _, done
  | OP_XORI => W (i_rt instr) (Z.lxor rs (Z.land extra 0xffff)) ≫= λ _, done
  | OP_RES | OP_UNIMP => trap IllegalInstrException 0
  | _ => fail AssertFailed
  end).

(** The switch. *)
Definition execute (instr : Instruction) (pcAfter : Z) : M Machine outcome :=
  match i_opCode instr with
  | OP_ADD | OP_ADDI | OP_ADDIU | OP_ADDU | OP_AND | OP_ANDI | OP_BEQ | OP_BGEZAL | OP_BGEZ | OP_BGTZ
  | OP_BLEZ | OP_BLTZAL | OP_BLTZ | OP_BNE | OP_DIV | OP_DIVU => exec_1 instr pcAfter
  | OP_JAL | OP_J | OP_JALR | OP_JR | OP_LB | OP_LBU | OP_LH | OP_LHU | OP_LUI | OP_LW | OP_LWL =>
      exec_2 instr pcAfter
  | OP_LWR | OP_MFHI | OP_MFLO | OP_MTHI | OP_MTLO | OP_MULT | OP_MULTU | OP_NOR | OP_OR | OP_ORI
  | OP_SB | OP_SH => exec_3 instr pcAfter
  | OP_SLL | OP_SLLV | OP_SLT | OP_SLTI | OP_SLTIU | OP_SLTU | OP_SRA | OP_SRAV | OP_SRL | OP_SRLV
  | OP_SUB | OP_SUBU | OP_SW => exec_4 instr pcAfter
  | _ => exec_5 instr pcAfter
  end.

(** [Machine::OneInstruction]. *)
Definition OneInstruction : M Machine unit :=
  pc ← reg_get PCReg;
  r ← ReadMem ExceptionHandler pc 4;
  match r with
  | None => mret tt
  | Some raw =>
      match Decode (uint raw) with
      | None => fail OutOfBounds
      | Some instr =>
          npc ← reg_get NextPCReg;
          o ← execute instr (sint (npc + 4));
          match o with
          | Return => mret tt
          | Break pcAfter nextLoadReg nextLoadValue =>
              DelayedLoad nextLoadReg nextLoadValue ≫= λ _,
              pc' ← reg_get PCReg;
              reg_set PrevPCReg pc' ≫= λ _,
              npc' ← reg_get NextPCReg;
              reg_set PCReg npc' ≫= λ _,
              reg_set NextPCReg pcAfter
          end
      end
  end.

End Execution.

(** ** Multiplication is right *)

Section MultProof.
Local Abbreviation B32 := 4294967296 (only parsing).
Local Abbreviation B64 := 18446744073709551616 (only parsing).

Lemma land_1 a : Z.land a 1 = a `mod` 2.
Proof. exact (land_pow2 a 1 ltac:(lia)). Qed.

Lemma land_high a : Z.land a 0xfffffffe = uint a / 2 * 2.
Proof.
  change 0xfffffffe with (Z.ldiff (Z.ones 32) (Z.ones 1)).
  rewrite Z.ldiff_land, Z.land_assoc, Z.land_ones, <- Z.ldiff_land by lia.
  rewrite Z.ldiff_ones_r, Z.shiftl_mul_pow2, Z.shiftr_div_pow2 by lia. done.
Qed.

(** Only 0 and 1 have no bit above the lowest. *)
Lemma land_no_high a : is_int a → Z.land a 0xfffffffe = 0 → a = 0 ∨ a = 1.
Proof. rewrite land_high. unfold is_int, uint, int_min, int_max. lia. Qed.

Lemma land_top a : is_uint a → negb (Z.land a 0x80000000 =? 0) = (2147483648 <=? a).
Proof.
  intros Ha. replace (Z.land a 0x80000000) with (Z.land a (uint (Z.shiftl 1 31))) by done.
  rewrite land_one_zero by lia.
  unfold is_uint in Ha. rewrite Z.testbit_odd, Z.shiftr_div_pow2 by lia. change (2 ^ 31) with 2147483648.
  destruct (Z.leb_spec 2147483648 a).
  - replace (a / 2147483648) with 1 by lia. done.
  - replace (a / 2147483648) with 0 by lia. done.
Qed.

Lemma lor_even x c : 0 ≤ x → x `mod` 2 = 0 → (c = 0 ∨ c = 1) → Z.lor x c = x + c.
Proof.
  intros Hx Hm Hc. destruct Hc as [->| ->]; [rewrite Z.lor_0_r; lia|].
  assert (Hz : Z.land x 1 = 0) by (by rewrite land_1).
  by rewrite Z.add_nocarry_lxor, Z.lxor_lor.
Qed.

(** Doubling the double word [bHi:bLo]. *)
Lemma double_word bHi bLo : is_uint bHi → is_uint bLo →
  let bHi' := Z.lor (uint (Z.shiftl bHi 1)) (if negb (Z.land bLo 0x80000000 =? 0) then 1 else 0) in
  let bLo' := uint (Z.shiftl bLo 1) in
  is_uint bHi' ∧ is_uint bLo' ∧ ∃ q, bHi' * B32 + bLo' = 2 * (bHi * B32 + bLo) + q * B64.
Proof.
  intros Hh Hl. cbv zeta. rewrite land_top by done. rewrite !Z.shiftl_mul_pow2 by lia. change (2 ^ 1) with 2.
  rewrite lor_even; [|unfold uint; lia|unfold uint; lia|destruct (_ <=? _); lia].
  unfold is_uint, uint in *. split_and!; try lia; [destruct (Z.leb_spec 2147483648 bLo); lia..|].
  exists (- (bHi / 2147483648)). destruct (Z.leb_spec 2147483648 bLo); lia.
Qed.

(** One conditional addition. *)
Lemma add_word bHi bLo hi lo : is_uint bHi → is_uint bLo → is_uint hi → is_uint lo →
  let lo' := uint (lo + bLo) in
  let hi' := uint (hi + (if bool_decide (lo' < bLo) then 1 else 0) + bHi) in
  is_uint hi' ∧ is_uint lo' ∧ ∃ q, hi' * B32 + lo' = (hi * B32 + lo) + (bHi * B32 + bLo) + q * B64.
Proof.
  intros H1 H2 H3 H4. cbv zeta. unfold is_uint, uint in *. split_and!; try lia.
  set (s := hi + (if bool_decide ((lo + bLo) `mod` 4294967296 < bLo) then 1 else 0) + bHi).
  exists (- (s / 4294967296)). unfold s. case_bool_decide; lia.
Qed.

Lemma mod_pow_step a n : a `mod` 2 ^ Z.of_nat (S n) = a `mod` 2 + 2 * (Z.shiftr a 1 `mod` 2 ^ Z.of_nat n).
Proof.
  rewrite Nat2Z.inj_succ, Z.pow_succ_r by lia. rewrite Z.rem_mul_r by lia.
  rewrite Z.shiftr_div_pow2 by lia. done.
Qed.

Lemma Mult_loop_correct n a bHi bLo hi lo : is_int a →
  is_uint bHi → is_uint bLo → is_uint hi → is_uint lo →
  let '(h, l) := Mult_loop n a bHi bLo hi lo in
  is_uint h ∧ is_uint l ∧
  ∃ q, h * B32 + l = (hi * B32 + lo) + (bHi * B32 + bLo) * (a `mod` 2 ^ Z.of_nat n) + q * B64.
Proof.
  revert a bHi bLo hi lo. induction n as [|n IH]; intros a bHi bLo hi lo Ha Hbh Hbl Hh Hl; cbn [Mult_loop].
  { split_and!; [done|done|]. exists 0. rewrite Z.mod_1_r. lia. }
  pose proof (double_word bHi bLo Hbh Hbl) as (D1 & D2 & qd & D3).
  set (bHi' := Z.lor _ _) in *. set (bLo' := uint (Z.shiftl bLo 1)) in *.
  assert (Ha' : is_int (Z.shiftr a 1)).
  { rewrite Z.shiftr_div_pow2 by lia. unfold is_int, int_min, int_max in *. change (2 ^ 1) with 2. lia. }
  rewrite land_1, mod_pow_step. set (r := Z.shiftr a 1 `mod` 2 ^ Z.of_nat n).
  destruct (Z.eqb_spec (a `mod` 2) 0) as [E|E]; cbn [negb].
  - pose proof (IH (Z.shiftr a 1) bHi' bLo' hi lo Ha' D1 D2 Hh Hl) as H.
    destruct (Mult_loop n (Z.shiftr a 1) bHi' bLo' hi lo) as [h l]. destruct H as (H1 & H2 & q & H3).
    split_and!; [done|done|]. exists (q + qd * r). rewrite H3, D3, E. fold r. ring.
  - pose proof (add_word bHi bLo hi lo Hbh Hbl Hh Hl) as (A1 & A2 & qa & A3).
    set (lo' := uint (lo + bLo)) in *. set (hi' := uint (hi + _ + bHi)) in *.
    assert (Em : a `mod` 2 = 1) by lia. rewrite Em.
    destruct (Z.eqb_spec (Z.land a 0xfffffffe) 0) as [Eh|Eh].
    + apply land_no_high in Eh; [|done]. assert (a = 1) as -> by lia.
      assert (r = 0) as -> by (unfold r; by rewrite Z.mod_0_l by lia).
      split_and!; [done|done|]. exists qa. rewrite A3. ring.
    + pose proof (IH (Z.shiftr a 1) bHi' bLo' hi' lo' Ha' D1 D2 A1 A2) as H.
      destruct (Mult_loop n (Z.shiftr a 1) bHi' bLo' hi' lo') as [h l]. destruct H as (H1 & H2 & q & H3).
      split_and!; [done|done|]. exists (q + qa + qd * r). rewrite H3, A3, D3. fold r. ring.
Qed.

End MultProof.

Section MultCorrect.
Local Abbreviation B32 := 4294967296 (only parsing).
Local Abbreviation B64 := 18446744073709551616 (only parsing).

(** The loop multiplies the operands as unsigned words. *)
Lemma Mult_loop_product a b : is_int a →
  let '(h, l) := Mult_loop 32 a 0 (uint b) 0 0 in
  is_uint h ∧ is_uint l ∧ h * B32 + l = uint a * uint b.
Proof.
  intros Ha. pose proof (Mult_loop_correct 32 a 0 (uint b) 0 0 Ha) as H.
  destruct (Mult_loop 32 a 0 (uint b) 0 0) as [h l].
  destruct H as (H1 & H2 & q & H3); [done|apply uint_range|done|done|].
  split_and!; [done|done|]. change (2 ^ Z.of_nat 32) with B32 in H3. fold (uint a) in H3.
  pose proof (uint_range a) as Hua. pose proof (uint_range b) as Hub. unfold is_uint in *.
  assert (0 ≤ uint a * uint b < B64) by nia. nia.
Qed.

(** Two's complement negation of a double word. *)
Lemma negate_word h l : is_uint h → is_uint l → 0 < h * B32 + l →
  let h1 := uint (Z.lnot h) in
  let l1 := uint (uint (Z.lnot l) + 1) in
  let h2 := if l1 =? 0 then uint (h1 + 1) else h1 in
  is_uint h2 ∧ is_uint l1 ∧ h2 * B32 + l1 = B64 - (h * B32 + l).
Proof.
  unfold is_uint, uint, Z.lnot. intros Hh Hl Hp. cbv zeta.
  destruct (Z.eqb_spec (((Z.pred (- l)) `mod` 4294967296 + 1) `mod` 4294967296) 0); lia.
Qed.

Lemma uint_abs a : is_int a → uint (if a <? 0 then sint (- a) else a) = Z.abs a.
Proof.
  unfold is_int, uint, sint, int_min, int_max. intros Ha. destruct (Z.ltb_spec a 0); lia.
Qed.

(** C32: [Mult] computes the full 64-bit product: signed, [hi] (signed) and [lo]
    (unsigned) together are exactly [a * b]; unsigned, the two words together
    are exactly the product of the operands read as unsigned, for all operands,
    the most negative one included. *)
Theorem Mult_correct (a b : Z) : is_int a → is_int b →
  (let '(hi, lo) := Mult a b true in is_int hi ∧ is_int lo ∧ hi * 4294967296 + uint lo = a * b) ∧
  (let '(hi, lo) := Mult a b false in is_int hi ∧ is_int lo ∧
     uint hi * 4294967296 + uint lo = uint a * uint b).
Proof.
  intros Ha Hb. unfold Mult.
  destruct (Z.eqb_spec a 0) as [->|Ha0]; [split; split_and!; done|].
  destruct (Z.eqb_spec b 0) as [->|Hb0].
  { cbn [orb]. split; (split_and!; [done|done|]); change (uint 0) with 0; lia. }
  cbn [orb andb]. split.
  - set (a1 := if a <? 0 then sint (- a) else a). set (b1 := if b <? 0 then sint (- b) else b).
    assert (Ha1 : is_int a1) by (unfold a1; destruct (a <? 0); [apply sint_range|done]).
    pose proof (Mult_loop_product a1 b1 Ha1) as H.
    destruct (Mult_loop 32 a1 0 (uint b1) 0 0) as [h l]. destruct H as (H1 & H2 & H3).
    unfold a1, b1 in H3. rewrite !uint_abs in H3 by done.
    assert (Hab : 0 < Z.abs a * Z.abs b ≤ 4611686018427387904).
    { unfold is_int, int_min, int_max in *. nia. }
    assert (Hs : a * b = if xorb (a <? 0) (b <? 0) then - (Z.abs a * Z.abs b) else Z.abs a * Z.abs b).
    { destruct (Z.ltb_spec a 0), (Z.ltb_spec b 0); cbn [xorb]; nia. }
    rewrite Hs. destruct (xorb (a <? 0) (b <? 0)).
    + pose proof (negate_word h l H1 H2 ltac:(lia)) as (N1 & N2 & N3).
      set (l1 := uint (uint (Z.lnot l) + 1)) in *.
      set (h2 := if l1 =? 0 then _ else _) in *. cbv iota.
      split_and!; [apply sint_range|apply sint_range|]. rewrite uint_sint, uint_id by done.
      unfold is_uint, sint in *. lia.
    + split_and!; [apply sint_range|apply sint_range|]. rewrite uint_sint, uint_id by done.
      unfold is_uint, sint in *. lia.
  - pose proof (Mult_loop_product a b Ha) as H.
    destruct (Mult_loop 32 a 0 (uint b) 0 0) as [h l]. destruct H as (H1 & H2 & H3).
    split_and!; [apply sint_range|apply sint_range|]. rewrite !uint_sint, !uint_id by done. done.
Qed.

End MultCorrect.

(** ** Decoding is total *)

Lemma land_ones_range v n : 0 ≤ n → 0 ≤ Z.land v (2 ^ n - 1) < 2 ^ n.
Proof. intros Hn. rewrite land_pow2 by done. apply Z.mod_pos_bound. lia. Qed.

(** The opcodes [OneInstruction] has a case for. *)
Definition executable (op : opcode) : bool :=
  match op with OP_RFE | SPECIAL | BCOND => false | _ => true end.

(** Every 32-bit word decodes, to an opcode that the switch of
    [OneInstruction] handles (its [default] is never reached), with register
    numbers below 32 and an immediate that fits an [int]. *)
Theorem Decode_total (w : Z) :
  ∃ i, Decode w = Some i ∧ executable (i_opCode i) = true ∧
    0 ≤ i_rs i < 32 ∧ 0 ≤ i_rt i < 32 ∧ 0 ≤ i_rd i < 32 ∧ is_int (i_extra i).
Proof.
  assert (Hop : Forall (λ x, x.1 ≠ OP_RFE) opTable) by (vm_compute; repeat constructor; discriminate).
  assert (Hsp : Forall executable specialTable) by (vm_compute; repeat constructor).
  pose proof (land_ones_range (Z.shiftr w 21) 5 ltac:(lia)) as H1.
  pose proof (land_ones_range (Z.shiftr w 16) 5 ltac:(lia)) as H2.
  pose proof (land_ones_range (Z.shiftr w 11) 5 ltac:(lia)) as H3.
  pose proof (land_ones_range (Z.shiftr w 26) 6 ltac:(lia)) as H4.
  pose proof (land_ones_range w 6 ltac:(lia)) as H5.
  pose proof (land_ones_range (Z.shiftr w 6) 5 ltac:(lia)) as H6.
  pose proof (land_ones_range w 16 ltac:(lia)) as H7.
  pose proof (land_ones_range w 26 ltac:(lia)) as H8.
  change (2 ^ 5) with 32 in *. change (2 ^ 6) with 64 in *. change (2 ^ 16) with 65536 in *.
  change (2 ^ 26) with 67108864 in *. change (32 - 1) with 31 in *. change (64 - 1) with 63 in *.
  change (65536 - 1) with 65535 in *. change (67108864 - 1) with 67108863 in *. unfold Decode.
  destruct (lookup_lt_is_Some_2 opTable (Z.to_nat (Z.land (Z.shiftr w 26) 0x3f))) as [[op fmt] Eop].
  { change (length opTable) with 64%nat. lia. }
  destruct (lookup_lt_is_Some_2 specialTable (Z.to_nat (Z.land w 0x3f))) as [sop Esop].
  { change (length specialTable) with 64%nat. lia. }
  rewrite Eop, Esop.
  pose proof (proj1 (Forall_lookup _ _) Hop _ _ Eop) as Hne. cbn in Hne.
  pose proof (proj1 (Forall_lookup _ _) Hsp _ _ Esop) as Hse.
  set (extra := match fmt with IFMT => _ | JFMT => _ | RFMT => _ end).
  assert (He : is_int extra).
  { unfold extra. destruct fmt; [destruct (negb _); [apply sint_range|]| |];
      unfold is_int, int_min, int_max; lia. }
  clearbody extra.
  destruct op; try done; (eexists; split; [reflexivity|]; cbn [i_opCode i_rs i_rt i_rd i_extra];
    split_and!; try done; try lia); [by apply Is_true_true|].
  repeat (destruct (_ =? _); [done|]). done.
Qed.

(** ** User code cannot break the simulator

    A weakest-precondition style predicate: from a well-formed state, a run
    either returns in a well-formed state with [Q], or stops in a way that is
    not a bad memory access of the simulator. *)

Definition memory_fault (e : fault) : Prop := e = OutOfBounds ∨ e = NullDeref ∨ e = BadPointer.

(** The machine between two register assignments: well formed, and the pending
    delayed load names a general register. *)
Record live (k : Machine) : Prop := {
  live_wf : machine_wf k;
  live_load : ∃ v, m_registers k !! Z.to_nat LoadReg = Some v ∧ 0 ≤ v < NumGPRegs
}.

Definition r0_zero (k : Machine) : Prop := m_registers k !! 0%nat = Some 0.

Definition run_ok {A} (m : M Machine A) (k : Machine) (Q : A → Machine → Prop) : Prop :=
  match m k with Ok (a, k') => live k' ∧ Q a k' | Err e => ¬ memory_fault e end.

Section RunOk.
Implicit Types (k : Machine).

Lemma run_ok_bind {A B} (m : M Machine A) (f : A → M Machine B) k Q Q' :
  run_ok m k Q → (∀ a k', live k' → Q a k' → run_ok (f a) k' Q') → run_ok (m ≫= f) k Q'.
Proof.
  unfold run_ok, mbind, M_bind. destruct (m k) as [[a k']|]; [|done]. intros [H1 H2] H. by apply H.
Qed.

Lemma run_ok_ret {A} (a : A) k (Q : A → Machine → Prop) : live k → Q a k → run_ok (mret a) k Q.
Proof. by split. Qed.

Lemma run_ok_assert b k (Q : unit → Machine → Prop) : live k → (b = true → Q tt k) → run_ok (ASSERT b) k Q.
Proof. destruct b; unfold run_ok; cbn; [by split; auto|]. unfold memory_fault. naive_solver. Qed.

Lemma run_ok_get k (Q : Machine → Machine → Prop) : live k → Q k k → run_ok get k Q.
Proof. by split. Qed.

Lemma run_ok_fail {A} e k (Q : A → Machine → Prop) : ¬ memory_fault e → run_ok (fail e) k Q.
Proof. done. Qed.

Lemma reg_get_ok i k : live k → 0 ≤ i < NumTotalRegs → run_ok (reg_get i) k (λ _ _, True).
Proof.
  intros Hl Hi. unfold run_ok, reg_get. rewrite bool_decide_eq_true_2 by lia.
  destruct (lookup_lt_is_Some_2 (m_registers k) (Z.to_nat i)) as [v ->]; [|done].
  rewrite (wf_regs _ (live_wf _ Hl)). lia.
Qed.

Lemma load_reg_ok k : live k → run_ok (reg_get LoadReg) k (λ v _, 0 ≤ v < NumGPRegs).
Proof.
  intros Hl. destruct (live_load _ Hl) as (v & Hv & Hr).
  unfold run_ok, reg_get. rewrite bool_decide_eq_true_2 by done. by rewrite Hv.
Qed.

(** Assigning a register other than [LoadReg], or [LoadReg] in its range. *)
Lemma reg_set_ok i v k (Q : unit → Machine → Prop) : live k → 0 ≤ i < NumTotalRegs →
  (i = LoadReg → 0 ≤ v < NumGPRegs) →
  Q tt (set_regs (<[Z.to_nat i := v]> (m_registers k)) k) → run_ok (reg_set i v) k Q.
Proof.
  intros Hl Hi Hv HQ. pose proof (wf_regs _ (live_wf _ Hl)) as Hlen. unfold run_ok, reg_set.
  rewrite bool_decide_eq_true_2 by lia. split; [|done]. destruct Hl as [[H1 H2 H3 H4 H5] (w & Hw & Hr)].
  split; [split; cbn; try done; by rewrite length_insert|]. cbn.
  destruct (decide (i = LoadReg)) as [->|Hne].
  - rewrite list_lookup_insert_eq by (rewrite H3; unfold LoadReg, NumTotalRegs; lia). eauto.
  - rewrite list_lookup_insert_ne by (unfold LoadReg in *; lia). eauto.
Qed.

Lemma W_ok i v k : live k → 0 ≤ i < LoadReg → run_ok (W i v) k (λ _ _, True).
Proof.
  intros Hl Hi. apply reg_set_ok; try done; unfold LoadReg, NumTotalRegs in *; lia.
Qed.

Lemma DelayedLoad_ok r v k : live k → 0 ≤ r < NumGPRegs →
  run_ok (DelayedLoad r v) k (λ _ k', r0_zero k').
Proof.
  intros Hl Hr. unfold DelayedLoad. unfold NumGPRegs in Hr.
  eapply run_ok_bind; [by apply load_reg_ok|]. intros a k1 Hl1 Ha. unfold NumGPRegs in Ha.
  eapply run_ok_bind; [apply reg_get_ok; [done|unfold LoadValueReg, NumTotalRegs; lia]|]. intros b k2 Hl2 _.
  eapply run_ok_bind; [apply (reg_set_ok a b k2 (λ _ _, True)); try done; unfold LoadReg, NumTotalRegs; lia|].
  intros [] k3 Hl3 _.
  eapply run_ok_bind; [apply (reg_set_ok LoadReg r k3 (λ _ _, True)); try done|].
  intros [] k4 Hl4 _.
  eapply run_ok_bind; [apply (reg_set_ok LoadValueReg v k4 (λ _ _, True)); try done|].
  intros [] k5 Hl5 _. apply reg_set_ok; try done.
  unfold r0_zero. cbn. apply list_lookup_insert_eq.
  rewrite (wf_regs _ (live_wf _ Hl5)). unfold NumTotalRegs. lia.
Qed.

Lemma update_entry_ok i e k (Q : unit → Machine → Prop) : live k → (∀ k', Q tt k') →
  run_ok (update_entry i e) k Q.
Proof.
  intros Hl HQ. unfold run_ok, update_entry, modify. split; [|auto].
  destruct Hl as [[H1 H2 H3 H4 H5] H6].
  destruct (tlb k) as [t|] eqn:Et.
  - split; [|done]. by split.
  - destruct (m_pageTable k) as [pt|] eqn:Ep; [|done]. split; [|done]. split; cbn; try done.
    + by rewrite Et.
    + intros pt' [= <-]. rewrite length_insert. auto.
Qed.

Lemma find_entry_ok vpn k : live k → 0 ≤ vpn → run_ok (find_entry vpn) k (λ _ _, True).
Proof.
  intros Hl Hv. unfold find_entry, run_ok. unfold_M. destruct (live_wf _ Hl) as [H1 H2 H3 H4 H5].
  destruct (tlb k) as [t|].
  - by destruct (tlb_search _ _ _) as [[]|].
  - case_bool_decide as Hb; [done|]. destruct (m_pageTable k) as [pt|] eqn:Ep; [|done].
    destruct (lookup_lt_is_Some_2 pt (Z.to_nat vpn)) as [e He]; [|by rewrite He].
    specialize (H5 pt eq_refl). lia.
Qed.

(** [Translate] with a page table or a TLB. *)
Lemma Translate_ok addr size w k : live k →
  run_ok (Translate addr size w) k (λ r _, match r with inr pa => 0 ≤ pa ∧ pa + size ≤ MemorySize | inl _ => True end).
Proof.
  intros Hl. unfold Translate. destruct (_ || _); [by apply run_ok_ret|].
  eapply run_ok_bind; [by apply (run_ok_get k (λ _ _, True))|]. intros k0 k1 Hl1 _.
  eapply run_ok_bind; [by apply (run_ok_assert _ _ (λ _ _, True))|]. intros [] k2 Hl2 _.
  eapply run_ok_bind; [by apply (run_ok_assert _ _ (λ _ _, True))|]. intros [] k3 Hl3 _.
  eapply run_ok_bind; [apply find_entry_ok; [done|]|].
  { destruct (uint_range addr). unfold PageSize, SectorSize. lia. }
  intros [x|[i e]] k4 Hl4 _; [by apply run_ok_ret|].
  destruct (readOnly e && w); [by apply run_ok_ret|]. case_bool_decide; [by apply run_ok_ret|].
  eapply run_ok_bind; [by apply (update_entry_ok _ _ _ (λ _ _, True))|]. intros [] k5 Hl5 _.
  eapply run_ok_bind; [apply (run_ok_assert _ _ (λ _ _,
     0 ≤ uint (physicalPage e) * PageSize + uint addr `mod` PageSize ∧
     uint (physicalPage e) * PageSize + uint addr `mod` PageSize + size ≤ MemorySize)); [done|]|].
  - by intros Hb%bool_decide_eq_true.
  - intros [] k6 Hl6 Hr. by apply run_ok_ret.
Qed.

End RunOk.

Section Safety.
Context (h : ExceptionType → M Machine unit).
Hypothesis (h_ok : ∀ x k, live k → r0_zero k → run_ok (h x) k (λ _ k', r0_zero k')).
Implicit Types (k : Machine).

Lemma RaiseException_ok x a k : live k → run_ok (RaiseException h x a) k (λ _ k', r0_zero k').
Proof.
  intros Hl. unfold RaiseException.
  eapply run_ok_bind; [apply (reg_set_ok BadVAddrReg a k (λ _ _, True)); try done|]. intros [] k1 Hl1 _.
  eapply run_ok_bind; [by apply DelayedLoad_ok|]. intros [] k2 Hl2 Hz. by apply h_ok.
Qed.

Lemma ReadMem_safe addr size k : live k → access_size size →
  run_ok (ReadMem h addr size) k (λ r k', r = None → r0_zero k').
Proof.
  intros Hl Hs. unfold ReadMem. eapply run_ok_bind; [by apply Translate_ok|].
  intros [x|pa] k1 Hl1 Hr.
  - eapply run_ok_bind; [by apply RaiseException_ok|]. intros [] k2 Hl2 Hz. by apply run_ok_ret.
  - eapply run_ok_bind; [by apply (run_ok_get k1 (λ a b, a = b))|]. intros k2 k3 Hl3 ->.
    assert (Hld : ∃ v, load_bytes (Z.to_nat size) (Z.to_nat pa) (mainMemory k3) = Some v).
    { destruct (load_some (Z.to_nat size) (Z.to_nat pa) (mainMemory k3)) as (v & -> & _); [| |eauto].
      - rewrite (wf_memory _ (live_wf _ Hl3)). destruct Hs as [->|[->| ->]]; lia.
      - apply (live_wf _ Hl3). }
    destruct Hld as [v Hv]. destruct Hs as [->|[->| ->]]; cbv zeta.
    + rewrite bool_decide_eq_true_2 by done. change (Z.to_nat 1) with 1%nat in Hv. rewrite Hv. by apply run_ok_ret.
    + rewrite bool_decide_eq_false_2, bool_decide_eq_true_2 by done.
      change (Z.to_nat 2) with 2%nat in Hv. rewrite Hv. by apply run_ok_ret.
    + rewrite !bool_decide_eq_false_2, bool_decide_eq_true_2 by done.
      change (Z.to_nat 4) with 4%nat in Hv. rewrite Hv. by apply run_ok_ret.
Qed.

Lemma WriteMem_safe addr size v k : live k → access_size size →
  run_ok (WriteMem h addr size v) k (λ b k', b = false → r0_zero k').
Proof.
  intros Hl Hs. unfold WriteMem. eapply run_ok_bind; [by apply Translate_ok|].
  intros [x|pa] k1 Hl1 Hr.
  - eapply run_ok_bind; [by apply RaiseException_ok|]. intros [] k2 Hl2 Hz. by apply run_ok_ret.
  - assert (Hst : ∀ n w, size = Z.of_nat n → run_ok (store_memory n pa w) k1 (λ _ _, True)).
    { intros n w ->. pose proof (wf_memory _ (live_wf _ Hl1)). unfold run_ok.
      rewrite store_memory_run by lia. split; [|done]. destruct Hl1 as [[H1 H2 H3 H4 H5] H6]. split; [|done]. split; cbn; try done.
      - by rewrite length_store.
      - by apply store_bytes_ok. }
    eapply run_ok_bind; [|intros [] k2 Hl2 _; by apply run_ok_ret].
    destruct Hs as [->|[->| ->]]; cbv zeta.
    + rewrite bool_decide_eq_true_2 by done. by apply Hst.
    + rewrite bool_decide_eq_false_2, bool_decide_eq_true_2 by done. by apply Hst.
    + rewrite !bool_decide_eq_false_2, bool_decide_eq_true_2 by done. by apply Hst.
Qed.

(** How an instruction may leave the switch. *)
Definition outcome_ok (o : outcome) (k : Machine) : Prop :=
  match o with Return => r0_zero k | Break _ r _ => 0 ≤ r < NumGPRegs end.

Lemma trap_ok x a k : live k → run_ok (trap h x a) k outcome_ok.
Proof.
  intros Hl. unfold trap. eapply run_ok_bind; [by apply RaiseException_ok|].
  intros [] k1 Hl1 Hz. by apply run_ok_ret.
Qed.

Lemma W_done i v pcAfter k : live k → 0 ≤ i < LoadReg →
  run_ok (W i v ≫= λ _, mret (Break pcAfter 0 0)) k outcome_ok.
Proof.
  intros Hl Hi. eapply run_ok_bind; [by apply W_ok|]. intros [] k1 Hl1 _.
  by apply run_ok_ret.
Qed.

Lemma W2_done i v j w pcAfter k : live k → 0 ≤ i < LoadReg → 0 ≤ j < LoadReg →
  run_ok (W i v ≫= λ _, W j w ≫= λ _, mret (Break pcAfter 0 0)) k outcome_ok.
Proof.
  intros Hl Hi Hj. eapply run_ok_bind; [by apply W_ok|]. intros [] k1 Hl1 _. by apply W_done.
Qed.

Lemma W_then i v j (f : Z → M Machine outcome) k : live k → 0 ≤ i < LoadReg → 0 ≤ j < NumGPRegs →
  (∀ a k', live k' → run_ok (f a) k' outcome_ok) →
  run_ok (W i v ≫= λ _, reg_get j ≫= f) k outcome_ok.
Proof.
  intros Hl Hi Hj Hf. eapply run_ok_bind; [by apply W_ok|]. intros [] k1 Hl1 _.
  eapply run_ok_bind; [apply reg_get_ok; [done|unfold NumGPRegs, NumTotalRegs in *; lia]|].
  intros a k2 Hl2 _. by apply Hf.
Qed.

Lemma ReadMem_then addr size (f : option Z → M Machine outcome) k : live k → access_size size →
  (∀ k', live k' → r0_zero k' → run_ok (f None) k' outcome_ok) →
  (∀ v k', live k' → run_ok (f (Some v)) k' outcome_ok) →
  run_ok (ReadMem h addr size ≫= f) k outcome_ok.
Proof.
  intros Hl Hs Hn Hf. eapply run_ok_bind; [by apply ReadMem_safe|].
  intros [v|] k1 Hl1 Hz; [by apply Hf|by apply Hn; auto].
Qed.

Lemma WriteMem_then addr size v pcAfter k : live k → access_size size →
  run_ok (b ← WriteMem h addr size v;
          if b : bool then mret (Break pcAfter 0 0) else mret Return) k outcome_ok.
Proof.
  intros Hl Hs. eapply run_ok_bind; [by apply WriteMem_safe|].
  intros [|] k1 Hl1 Hz; apply run_ok_ret; try done. by apply Hz.
Qed.

Section Instr.
Context (i : Instruction).
Hypotheses (Hrs : 0 ≤ i_rs i < 32) (Hrt : 0 ≤ i_rt i < 32) (Hrd : 0 ≤ i_rd i < 32).

Lemma with_rs_rt_ok f k : live k → (∀ rs rt k', live k' → run_ok (f rs rt) k' outcome_ok) →
  run_ok (with_rs_rt i f) k outcome_ok.
Proof.
  intros Hl Hf. unfold with_rs_rt.
  eapply run_ok_bind; [apply reg_get_ok; [done|unfold NumTotalRegs; lia]|]. intros rs k1 Hl1 _.
  eapply run_ok_bind; [apply reg_get_ok; [done|unfold NumTotalRegs; lia]|]. intros rt k2 Hl2 _. by apply Hf.
Qed.

Lemma merge_base_ok k : live k → run_ok (merge_base i) k (λ _ _, True).
Proof.
  intros Hl. unfold merge_base. eapply run_ok_bind; [by apply load_reg_ok|]. intros lr k1 Hl1 _.
  case_bool_decide; apply reg_get_ok; try done. unfold NumTotalRegs. lia.
Qed.

Local Ltac reg := unfold LoadReg, NumGPRegs, NumTotalRegs, HiReg, LoReg, R31 in *; cbn; lia.
Local Ltac size := unfold access_size; lia.
Local Ltac ret := apply run_ok_ret; [done|cbn; try done; reg].
Local Ltac other := apply run_ok_fail; unfold memory_fault; naive_solver.
Local Ltac read := apply ReadMem_then; [done|size|intros ? ? ?; by apply run_ok_ret|intros ? ? ?; ret].

Lemma exec_1_ok pcAfter k : live k → run_ok (exec_1 h i pcAfter) k outcome_ok.
Proof.
  intros Hl. unfold exec_1.
  eapply run_ok_bind; [apply reg_get_ok; [done|unfold NextPCReg; reg]|]. intros npc k1 Hl1 _.
  apply with_rs_rt_ok; [done|]. intros rs rt k2 Hl2. cbv zeta.
  destruct (i_opCode i); try other; try (apply W_done; [done|reg]); try ret;
    try (apply W_then; [done|reg|reg|intros a k3 Hl3; ret]).
  - destruct (_ && _); [by apply trap_ok|apply W_done; [done|reg]].
  - destruct (_ && _); [by apply trap_ok|apply W_done; [done|reg]].
  - destruct (_ =? _); [apply W2_done; [done|reg|reg]|].
    destruct (signed_quot_traps _ _); [other|]. apply W2_done; [done|reg|reg].
  - destruct (_ =? _); apply W2_done; try done; reg.
Qed.

Lemma exec_2_ok pcAfter k : live k → run_ok (exec_2 h i pcAfter) k outcome_ok.
Proof.
  intros Hl. unfold exec_2.
  eapply run_ok_bind; [apply reg_get_ok; [done|unfold NextPCReg; reg]|]. intros npc k1 Hl1 _.
  eapply run_ok_bind; [apply reg_get_ok; [done|reg]|]. intros rs k2 Hl2 _. cbv zeta.
  destruct (i_opCode i); try other; try (apply W_done; [done|reg]); try ret;
    try (apply W_then; [done|reg|reg|intros a k3 Hl3; ret]); try read.
  - destruct (negb _); [by apply trap_ok|read].
  - destruct (negb _); [by apply trap_ok|read].
  - destruct (negb _); [by apply trap_ok|read].
  - eapply run_ok_bind; [by apply (run_ok_assert _ _ (λ _ _, True))|]. intros [] k3 Hl3 _.
    apply ReadMem_then; [done|size|intros k4 Hl4 Hz; by apply run_ok_ret|]. intros v k4 Hl4.
    eapply run_ok_bind; [by apply merge_base_ok|]. intros b k5 Hl5 _. ret.
Qed.

Lemma exec_3_ok pcAfter k : live k → run_ok (exec_3 h i pcAfter) k outcome_ok.
Proof.
  intros Hl. unfold exec_3. apply with_rs_rt_ok; [done|]. intros rs rt k2 Hl2. cbv zeta.
  destruct (i_opCode i); try other; try (apply W_done; [done|reg]); try (apply WriteMem_then; [done|size]).
  - eapply run_ok_bind; [by apply (run_ok_assert _ _ (λ _ _, True))|]. intros [] k3 Hl3 _.
    apply ReadMem_then; [done|size|intros k4 Hl4 Hz; by apply run_ok_ret|]. intros v k4 Hl4.
    eapply run_ok_bind; [by apply merge_base_ok|]. intros b k5 Hl5 _. ret.
  - eapply run_ok_bind; [apply reg_get_ok; [done|reg]|]. intros v k3 Hl3 _. apply W_done; [done|reg].
  - eapply run_ok_bind; [apply reg_get_ok; [done|reg]|]. intros v k3 Hl3 _. apply W_done; [done|reg].
  - destruct (Mult rs rt true). apply W2_done; [done|reg|reg].
  - destruct (Mult rs rt false). apply W2_done; [done|reg|reg].
Qed.

Lemma exec_4_ok pcAfter k : live k → run_ok (exec_4 h i pcAfter) k outcome_ok.
Proof.
  intros Hl. unfold exec_4. apply with_rs_rt_ok; [done|]. intros rs rt k2 Hl2. cbv zeta.
  destruct (i_opCode i); try other; try (apply W_done; [done|reg]); try (apply WriteMem_then; [done|size]).
  destruct (_ && _); [by apply trap_ok|apply W_done; [done|reg]].
Qed.

Lemma exec_5_ok pcAfter k : live k → run_ok (exec_5 h i pcAfter) k outcome_ok.
Proof.
  intros Hl. unfold exec_5. apply with_rs_rt_ok; [done|]. intros rs rt k2 Hl2. cbv zeta.
  destruct (i_opCode i); try other; try (apply W_done; [done|reg]); try (by apply trap_ok);
    (eapply run_ok_bind; [by apply (run_ok_assert _ _ (λ _ _, True))|]; intros [] k3 Hl3 _;
     apply ReadMem_then; [done|size|intros k4 Hl4 Hz; by apply run_ok_ret|]; intros v k4 Hl4;
     apply WriteMem_then; [done|size]).
Qed.

Lemma execute_ok pcAfter k : live k → run_ok (execute h i pcAfter) k outcome_ok.
Proof.
  intros Hl. unfold execute. destruct (i_opCode i);
    first [by apply exec_1_ok|by apply exec_2_ok|by apply exec_3_ok|by apply exec_4_ok|by apply exec_5_ok].
Qed.

End Instr.

(** The program counters move; register 0 does not. *)
Lemma advance_ok pcAfter k : live k → r0_zero k →
  run_ok (pc' ← reg_get PCReg; reg_set PrevPCReg pc' ≫= λ _,
          npc' ← reg_get NextPCReg; reg_set PCReg npc' ≫= λ _, reg_set NextPCReg pcAfter) k
    (λ _ k', r0_zero k').
Proof.
  assert (Hget : ∀ i k, live k → r0_zero k → 0 ≤ i < NumTotalRegs → run_ok (reg_get i) k (λ _ k', r0_zero k')).
  { intros i k0 Hl Hz Hi. pose proof (reg_get_ok i k0 Hl Hi) as H. unfold run_ok, reg_get in *.
    case_bool_decide; [|done]. by destruct (_ !! _). }
  assert (Hset : ∀ i v k, live k → r0_zero k → PCReg ≤ i < LoadReg → run_ok (reg_set i v) k (λ _ k', r0_zero k')).
  { intros i v k0 Hl Hz Hi. unfold PCReg, LoadReg in Hi.
    apply reg_set_ok; try done; [unfold NumTotalRegs; lia|unfold LoadReg; lia|].
    unfold r0_zero. cbn. by rewrite list_lookup_insert_ne by lia. }
  intros Hl Hz. eapply run_ok_bind; [by apply Hget|]. intros a k1 Hl1 Hz1.
  eapply run_ok_bind; [by apply Hset|]. intros [] k2 Hl2 Hz2.
  eapply run_ok_bind; [by apply Hget|]. intros b k3 Hl3 Hz3.
  eapply run_ok_bind; [by apply Hset|]. intros [] k4 Hl4 Hz4. by apply Hset.
Qed.

End Safety.

(** C9: user code cannot make the simulator access memory badly.  Whatever word
    the program counter points to, [OneInstruction] on a well-formed machine
    returns a well-formed machine, with register 0 zero again, or stops for
    another reason than an array index out of range or a bad pointer, provided
    the kernel's exception handler does the same. *)
Theorem OneInstruction_memory_safe (h : ExceptionType → M Machine unit) (k : Machine) :
  (∀ x k, live k → r0_zero k → run_ok (h x) k (λ _ k', r0_zero k')) →
  live k →
  match OneInstruction h k with
  | Ok (_, k') => live k' ∧ r0_zero k'
  | Err e => ¬ memory_fault e
  end.
Proof.
  intros Hh Hl. change (run_ok (OneInstruction h) k (λ _ k', r0_zero k')). unfold OneInstruction.
  eapply run_ok_bind; [apply reg_get_ok; [done|unfold PCReg, NumTotalRegs; lia]|]. intros pc k1 Hl1 _.
  eapply run_ok_bind; [apply ReadMem_safe; [done|done|unfold access_size; lia]|].
  intros [raw|] k2 Hl2 Hz; [|apply run_ok_ret; [done|by apply Hz]].
  destruct (Decode_total (uint raw)) as (i & -> & _ & Hrs & Hrt & Hrd & _).
  eapply run_ok_bind; [apply reg_get_ok; [done|unfold NextPCReg, NumTotalRegs; lia]|]. intros npc k3 Hl3 _.
  eapply run_ok_bind; [by apply execute_ok|]. intros [|pcAfter r v] k4 Hl4 Ho; [by apply run_ok_ret|].
  eapply run_ok_bind; [by apply DelayedLoad_ok|]. intros [] k5 Hl5 Hz5. by apply advance_ok.
Qed.

(** ** Arithmetic of single instructions *)

Section Arithmetic.

Lemma sign_testbit x : sign x = Z.testbit x 31.
Proof.
  unfold sign, SIGN_BIT. replace (Z.land x 0x80000000) with (Z.land x (uint (Z.shiftl 1 31))) by done.
  by rewrite land_one_zero by lia.
Qed.

Lemma sign_int x : is_int x → sign x = (x <? 0).
Proof.
  intros Hx. rewrite sign_testbit, Z.testbit_odd, Z.shiftr_div_pow2 by lia. change (2 ^ 31) with 2147483648.
  unfold is_int, int_min, int_max in Hx. destruct (Z.ltb_spec x 0).
  - replace (x / 2147483648) with (-1) by lia. done.
  - replace (x / 2147483648) with 0 by lia. done.
Qed.

Lemma sign_lxor x y : sign (Z.lxor x y) = xorb (sign x) (sign y).
Proof. rewrite !sign_testbit. by rewrite Z.lxor_spec. Qed.

(** The overflow tests of [ADD] and [SUB]. *)
Lemma add_overflow a b : is_int a → is_int b →
  negb (sign (Z.lxor a b)) && sign (Z.lxor a (sint (a + b))) = negb (bool_decide (is_int (a + b))).
Proof.
  intros Ha Hb. rewrite !sign_lxor, !sign_int by (done || apply sint_range).
  unfold is_int, sint, int_min, int_max in *. case_bool_decide as H; cbn [negb];
    destruct (Z.ltb_spec a 0), (Z.ltb_spec b 0),
      (Z.ltb_spec ((a + b + 2147483648) `mod` 4294967296 - 2147483648) 0); cbn; lia || done.
Qed.

Lemma sub_overflow a b : is_int a → is_int b →
  sign (Z.lxor a b) && sign (Z.lxor a (sint (a - b))) = negb (bool_decide (is_int (a - b))).
Proof.
  intros Ha Hb. rewrite !sign_lxor, !sign_int by (done || apply sint_range).
  unfold is_int, sint, int_min, int_max in *. case_bool_decide as H; cbn [negb];
    destruct (Z.ltb_spec a 0), (Z.ltb_spec b 0),
      (Z.ltb_spec ((a - b + 2147483648) `mod` 4294967296 - 2147483648) 0); cbn; lia || done.
Qed.

End Arithmetic.

(** [ADD] and [SUB] trap exactly on overflow: when the mathematical sum or
    difference of the two registers fits an [int] it is stored, and otherwise the
    overflow exception is raised and the destination keeps its value. *)
Theorem ADD_SUB_exact (h : ExceptionType → M Machine unit) (rs rt rd extra pcAfter npc a b : Z) (k : Machine) :
  reg_get NextPCReg k = Ok (npc, k) → reg_get rs k = Ok (a, k) → reg_get rt k = Ok (b, k) →
  is_int a → is_int b →
  exec_1 h (mkInstr OP_ADD rs rt rd extra) pcAfter k =
    (if bool_decide (is_int (a + b)) then reg_set rd (a + b) ≫= λ _, mret (Break pcAfter 0 0)
     else trap h OverflowException 0) k ∧
  exec_4 h (mkInstr OP_SUB rs rt rd extra) pcAfter k =
    (if bool_decide (is_int (a - b)) then reg_set rd (a - b) ≫= λ _, mret (Break pcAfter 0 0)
     else trap h OverflowException 0) k.
Proof.
  intros Hn Hs Ht Ha Hb.
  unfold exec_1, exec_4, with_rs_rt. cbn [i_opCode i_rs i_rt i_rd i_extra].
  unfold mbind at 1 2 3, M_bind at 1 2 3. rewrite Hn, Hs, Ht.
  cbv zeta. rewrite add_overflow by done. split.
  - case_bool_decide as H; cbn [negb]; [|done]. unfold W. by rewrite !(sint_id (a + b)).
  - unfold mbind at 1 2, M_bind at 1 2. rewrite Hs, Ht. cbv beta. rewrite sub_overflow by done.
    case_bool_decide as H; cbn [negb]; [|done]. unfold W. by rewrite !(sint_id (a - b)).
Qed.

(** Two instructions do not compute what their names say: [OR] stores its
    first operand whatever the second is, and [SRL] and [SRLV] are the same as the
    arithmetic shifts [SRA] and [SRAV], so a shift right of a negative number
    fills with ones. *)
Theorem OR_and_SRL_wrong (h : ExceptionType → M Machine unit) (rs rt rd extra pcAfter a b : Z) (k : Machine) :
  reg_get rs k = Ok (a, k) → reg_get rt k = Ok (b, k) → is_int a →
  exec_3 h (mkInstr OP_OR rs rt rd extra) pcAfter k =
    (reg_set rd a ≫= λ _, mret (Break pcAfter 0 0)) k ∧
  exec_4 h (mkInstr OP_SRL rs rt rd extra) pcAfter k = exec_4 h (mkInstr OP_SRA rs rt rd extra) pcAfter k ∧
  exec_4 h (mkInstr OP_SRLV rs rt rd extra) pcAfter k = exec_4 h (mkInstr OP_SRAV rs rt rd extra) pcAfter k.
Proof.
  intros Hs Ht Ha. split; [|done].
  unfold exec_3, with_rs_rt. cbn [i_opCode i_rs i_rt i_rd i_extra].
  unfold mbind at 1 2, M_bind at 1 2. rewrite Hs, Ht. cbv zeta. unfold W. by rewrite Z.lor_diag, sint_id.
Qed.

(** ** Witnesses *)

Lemma Mult_correct_witness :
  (let '(hi, lo) := Mult (-2147483648) 3 true in
   is_int hi ∧ is_int lo ∧ hi * 4294967296 + uint lo = -2147483648 * 3) ∧
  (let '(hi, lo) := Mult (-2147483648) 3 false in
   is_int hi ∧ is_int lo ∧ uint hi * 4294967296 + uint lo = uint (-2147483648) * uint 3).
Proof. apply (Mult_correct (-2147483648) 3); unfold is_int, int_min, int_max; lia. Defined.

Lemma machine1_live : live machine1.
Proof. split; [exact machine1_wf|]. exists 0. split; [reflexivity|]. unfold NumGPRegs. lia. Qed.

Lemma OneInstruction_memory_safe_witness :
  match OneInstruction no_handler machine1 with
  | Ok (_, k') => live k' ∧ r0_zero k'
  | Err e => ¬ memory_fault e
  end.
Proof.
  apply (OneInstruction_memory_safe no_handler machine1).
  - intros x k _ _. unfold run_ok, no_handler, fail, memory_fault. intros [H|[H|H]]; discriminate.
  - exact machine1_live.
Defined.

(** Registers 1 and 2 hold the largest [int] and 1. *)
Definition machine2 : Machine :=
  set_regs (<[1%nat := 2147483647]> (<[2%nat := 1]> (m_registers machine1))) machine1.

Lemma ADD_SUB_exact_witness :
  exec_1 no_handler (mkInstr OP_ADD 1 2 3 0) 8 machine2 = trap no_handler OverflowException 0 machine2 ∧
  exec_4 no_handler (mkInstr OP_SUB 1 2 3 0) 8 machine2 =
    (reg_set 3 2147483646 ≫= λ _, mret (Break 8 0 0)) machine2.
Proof.
  apply (ADD_SUB_exact no_handler 1 2 3 0 8 0 2147483647 1 machine2);
    [reflexivity|reflexivity|reflexivity|unfold is_int, int_min, int_max; lia..].
Defined.

Lemma OR_and_SRL_wrong_witness :
  exec_3 no_handler (mkInstr OP_OR 2 1 3 0) 8 machine2 =
    (reg_set 3 1 ≫= λ _, mret (Break 8 0 0)) machine2 ∧
  exec_4 no_handler (mkInstr OP_SRL 2 1 3 1) 8 machine2 = exec_4 no_handler (mkInstr OP_SRA 2 1 3 1) 8 machine2.
Proof.
  destruct (OR_and_SRL_wrong no_handler 2 1 3 0 8 1 2147483647 machine2) as (H1 & _ & _);
    [reflexivity|reflexivity|unfold is_int, int_min, int_max; lia|].
  split; [exact H1|reflexivity].
Defined.
