(* ===== verification/Disk.v ===== *)
(** * Disk: the simulated disk and its synchronous interface

    machine/disk.cc and filesys/synchdisk.cc.  The disk keeps its sectors in a
    UNIX file, behind a magic number; a request transfers a whole sector at
    once and schedules the interrupt that reports its completion, after a
    latency computed from the position of the head.  [SynchDisk] turns this
    into calls that return when the transfer is over.

    The file system reads and writes sectors only: what it relies on is the
    class [SectorDevice] with the laws [SectorDeviceOK], and the last part of
    this file shows that [SynchDisk] over [Disk] keeps them. *)

From S2P Require Import Prelude LinkedList Interrupt OneThread Machine.

Definition SectorsPerTrack : Z := 32.
Definition NumTracks : Z := 32.
Definition NumSectors : Z := SectorsPerTrack * NumTracks.

Definition MagicNumber : Z := 1164413355.
Definition MagicSize : Z := 4.
Definition DiskSize : Z := MagicSize + NumSectors * SectorSize.

(** ** The interface to the file system *)

Class SectorDevice (D : Type) := {
  ReadSector : Z → M D (list Z);
  WriteSector : Z → list Z → M D unit;
  dev_wf : D → Prop;
  sectors : D → list (list Z)
}.

(** The bytes of one sector. *)
Definition is_sector (data : list Z) : Prop :=
  length data = Z.to_nat SectorSize ∧ Forall is_byte data.

(** A request for a sector of the disk is served and leaves the other sectors
    alone; a request for any other number stops at an assertion. *)
Class SectorDeviceOK (D : Type) `{!SectorDevice D} := {
  dev_shape d : dev_wf d →
    length (sectors d) = Z.to_nat NumSectors ∧ Forall is_sector (sectors d);
  ReadSector_ok d n : dev_wf d → 0 ≤ n < NumSectors →
    ∃ data d', sectors d !! Z.to_nat n = Some data ∧ ReadSector n d = Ok (data, d') ∧
               dev_wf d' ∧ sectors d' = sectors d;
  WriteSector_ok d n data : dev_wf d → 0 ≤ n < NumSectors → is_sector data →
    ∃ d', WriteSector n data d = Ok (tt, d') ∧ dev_wf d' ∧
          sectors d' = <[Z.to_nat n := data]> (sectors d);
  ReadSector_bad d n : dev_wf d → ¬ (0 ≤ n < NumSectors) → ReadSector n d = Err AssertFailed;
  WriteSector_bad d n data : dev_wf d → ¬ (0 ≤ n < NumSectors) →
    WriteSector n data d = Err AssertFailed
}.

(** ** The disk *)

(** class [Disk]; [hostfile] is the contents of the UNIX file [fileno]. *)
Record Disk := mkDisk {
  hostfile : list Z; active : bool; lastSector : Z; bufferInit : Z
}.

(** Bytes of the host file from [off] on: [Lseek] and [Read], and [Lseek] and
    [WriteFile] (machine/sysdep.cc), which extends a file that is too short. *)
Definition host_read (off n : nat) (f : list Z) : list Z := take n (drop off f).
Definition host_write (off : nat) (data f : list Z) : list Z :=
  take off f ++ replicate (off - length f) 0 ++ data ++ drop (off + length data) f.

(** [n] bytes of a little-endian integer. *)
Fixpoint le_bytes (n : nat) (v : Z) : list Z :=
  match n with O => [] | S n => v `mod` 256 :: le_bytes n (v / 256) end.

(** The constructor, for a UNIX file that exists with contents [f], or not. *)
Definition new_Disk (f : option (list Z)) : res Disk :=
  match f with
  | Some f =>
      let magic := host_read 0 (Z.to_nat MagicSize) f in
      if bool_decide (length magic = Z.to_nat MagicSize) &&
         bool_decide (load_bytes 4 0 magic = Some MagicNumber)
      then Ok (mkDisk f false 0 0)
      else Err AssertFailed
  | None =>
      let f := host_write 0 (le_bytes 4 MagicNumber) [] in
      Ok (mkDisk (host_write (Z.to_nat (DiskSize - 4)) (le_bytes 4 0) f) false 0 0)
  end.

(** [TimeToSeek]: the time of the seek, and [*rotation]. *)
Definition TimeToSeek (d : Disk) (totalTicks newSector : Z) : Z * Z :=
  let newTrack := Z.quot newSector SectorsPerTrack in
  let oldTrack := Z.quot (lastSector d) SectorsPerTrack in
  let seek := Z.abs (newTrack - oldTrack) * SeekTime in
  let over := Z.rem (totalTicks + seek) RotationTime in
  (seek, if bool_decide (over > 0) then RotationTime - over else 0).

Definition ModuloDiff (to from : Z) : Z :=
  let toOffset := Z.rem to SectorsPerTrack in
  let fromOffset := Z.rem from SectorsPerTrack in
  Z.rem ((toOffset - fromOffset) + SectorsPerTrack) SectorsPerTrack.

Definition ComputeLatency (d : Disk) (totalTicks newSector : Z) (writing : bool) : Z :=
  let '(seek, rotation) := TimeToSeek d totalTicks newSector in
  let timeAfter := totalTicks + seek + rotation in
  if bool_decide (writing = false) && bool_decide (seek = 0)
     && bool_decide (Z.quot (timeAfter - bufferInit d) RotationTime
                     > ModuloDiff newSector (Z.quot (bufferInit d) RotationTime))
  then RotationTime
  else
    let rotation := rotation + ModuloDiff newSector (Z.quot timeAfter RotationTime) * RotationTime in
    seek + rotation + RotationTime.

Definition UpdateLast (totalTicks newSector : Z) (d : Disk) : Disk :=
  let '(seek, rotate) := TimeToSeek d totalTicks newSector in
  mkDisk (hostfile d) (active d) newSector
    (if bool_decide (seek ≠ 0) then totalTicks + seek + rotate else bufferInit d).

Definition set_active (b : bool) (d : Disk) : Disk :=
  mkDisk (hostfile d) b (lastSector d) (bufferInit d).
Definition set_hostfile (f : list Z) (d : Disk) : Disk :=
  mkDisk f (active d) (lastSector d) (bufferInit d).

Definition count_read (s : Statistics) : Statistics :=
  let '(mkStats t i y u a b c d e f g) := s in mkStats t i y u (a + 1) b c d e f g.
Definition count_write (s : Statistics) : Statistics :=
  let '(mkStats t i y u a b c d e f g) := s in mkStats t i y u a (b + 1) c d e f g.

(** A machine that has a disk: where it is, and the name of [DiskDone] with
    the disk as its argument. *)
Class HasDisk (W H : Type) := {
  disk_of : W → Disk;
  set_disk : Disk → W → W;
  DiskDone : H
}.

Section Requests.
Context {W H : Type} `{!HasDisk W H}.

Definition on_disk (f : Disk → Disk) : M (kstate W H) unit :=
  modify (λ k, mkK (intr k) (stats k) (set_disk (f (disk_of (world k))) (world k))).

Definition sector_offset (sectorNumber : Z) : nat :=
  Z.to_nat (SectorSize * sectorNumber + MagicSize).

Definition ReadRequest (sectorNumber : Z) : M (kstate W H) (list Z) :=
  k ← get;
  let d := disk_of (world k) in
  let ticks := ComputeLatency d (now k) sectorNumber false in
  ASSERT (negb (active d)) ≫= λ _,
  ASSERT (bool_decide (0 ≤ sectorNumber) && bool_decide (sectorNumber < NumSectors)) ≫= λ _,
  let data := host_read (sector_offset sectorNumber) (Z.to_nat SectorSize) (hostfile d) in
  ASSERT (bool_decide (length data = Z.to_nat SectorSize)) ≫= λ _,
  on_disk (set_active true) ≫= λ _,
  on_disk (UpdateLast (now k) sectorNumber) ≫= λ _,
  on_stats count_read ≫= λ _,
  Schedule DiskDone ticks DiskInt ≫= λ _,
  mret data.

Definition WriteRequest (sectorNumber : Z) (data : list Z) : M (kstate W H) unit :=
  k ← get;
  let d := disk_of (world k) in
  let ticks := ComputeLatency d (now k) sectorNumber true in
  ASSERT (negb (active d)) ≫= λ _,
  ASSERT (bool_decide (0 ≤ sectorNumber) && bool_decide (sectorNumber < NumSectors)) ≫= λ _,
  on_disk (set_hostfile (host_write (sector_offset sectorNumber) data (hostfile d))) ≫= λ _,
  on_disk (set_active true) ≫= λ _,
  on_disk (UpdateLast (now k) sectorNumber) ≫= λ _,
  on_stats count_write ≫= λ _,
  Schedule DiskDone ticks DiskInt.

(** [HandleInterrupt]; [handler] is [( *handler)(handlerArg)]. *)
Definition HandleInterrupt (handler : M (kstate W H) unit) : M (kstate W H) unit :=
  on_disk (set_active false) ≫= λ _, handler.

End Requests.

(** ** Sectors of the host file *)

Definition disk_sectors (d : Disk) : list (list Z) :=
  (λ n, host_read (sector_offset (Z.of_nat n)) (Z.to_nat SectorSize) (hostfile d))
    <$> seq 0 (Z.to_nat NumSectors).

Record disk_wf (d : Disk) : Prop := {
  dw_len : length (hostfile d) = Z.to_nat DiskSize;
  dw_bytes : Forall is_byte (hostfile d);
  dw_last : 0 ≤ lastSector d < NumSectors
}.

Lemma disk_sectors_length d : length (disk_sectors d) = Z.to_nat NumSectors.
Proof. unfold disk_sectors. by rewrite length_fmap, length_seq. Qed.

Lemma disk_sectors_lookup d n : (n < Z.to_nat NumSectors)%nat →
  disk_sectors d !! n =
    Some (host_read (sector_offset (Z.of_nat n)) (Z.to_nat SectorSize) (hostfile d)).
Proof.
  intros Hn. unfold disk_sectors. rewrite list_lookup_fmap, lookup_seq_lt by done. done.
Qed.

Lemma host_read_sector d n : disk_wf d → 0 ≤ n < NumSectors →
  is_sector (host_read (sector_offset n) (Z.to_nat SectorSize) (hostfile d)).
Proof.
  intros [Hl Hb _] Hn. unfold is_sector, host_read. split.
  - rewrite length_take, length_drop, Hl. unfold sector_offset, DiskSize, MagicSize, SectorSize in *.
    unfold NumSectors, SectorsPerTrack, NumTracks in *. lia.
  - by apply Forall_take, Forall_drop.
Qed.

Lemma disk_sectors_shape d : disk_wf d → Forall is_sector (disk_sectors d).
Proof.
  intros Hd. apply Forall_lookup. intros n x Hx.
  pose proof (lookup_lt_Some _ _ _ Hx) as Hn. rewrite disk_sectors_length in Hn.
  rewrite disk_sectors_lookup in Hx by done. injection Hx as <-.
  apply host_read_sector; [done|]. unfold NumSectors, SectorsPerTrack, NumTracks in *. lia.
Qed.

(** A write of one sector of the file, seen by a read of any range that is
    that sector or does not meet it. *)
Lemma host_write_eq off data f : (off + length data ≤ length f)%nat →
  host_write off data f = take off f ++ data ++ drop (off + length data) f.
Proof. intros H. unfold host_write. replace (off - length f)%nat with 0%nat by lia. done. Qed.

Lemma host_write_length off data f : (off + length data ≤ length f)%nat →
  length (host_write off data f) = length f.
Proof. intros H. rewrite host_write_eq, !length_app, length_take, length_drop by done. lia. Qed.

Lemma host_read_write off data f : (off + length data ≤ length f)%nat →
  host_read off (length data) (host_write off data f) = data.
Proof.
  intros H. rewrite host_write_eq by done. unfold host_read.
  rewrite drop_app_length' by (rewrite length_take; lia).
  by rewrite take_app_length.
Qed.

Lemma host_read_write_other off data f o n : (off + length data ≤ length f)%nat →
  (o + n ≤ off ∨ off + length data ≤ o)%nat →
  host_read o n (host_write off data f) = host_read o n f.
Proof.
  intros H Ho. rewrite host_write_eq by done. unfold host_read. apply list_eq. intros i.
  destruct (decide (i < n)%nat).
  2: { rewrite !lookup_ge_None_2; [done|..]; rewrite length_take; lia. }
  rewrite !lookup_take by done. case_decide; [|lia]. rewrite !lookup_drop.
  destruct Ho as [Ho|Ho].
  - rewrite lookup_app_l by (rewrite length_take; lia). rewrite lookup_take by lia.
    by case_decide; [|lia].
  - rewrite lookup_app_r by (rewrite length_take; lia). rewrite length_take, Nat.min_l by lia.
    rewrite lookup_app_r by lia. rewrite lookup_drop. f_equal. lia.
Qed.

Lemma sector_in_file n (f : list Z) : 0 ≤ n < NumSectors → length f = Z.to_nat DiskSize →
  (sector_offset n + Z.to_nat SectorSize ≤ length f)%nat.
Proof.
  unfold sector_offset, DiskSize, MagicSize, SectorSize, NumSectors, SectorsPerTrack, NumTracks.
  intros. lia.
Qed.

Lemma disk_sectors_write d n data : disk_wf d → 0 ≤ n < NumSectors → is_sector data →
  let d' := set_hostfile (host_write (sector_offset n) data (hostfile d)) d in
  disk_wf d' ∧ disk_sectors d' = <[Z.to_nat n := data]> (disk_sectors d).
Proof.
  intros [Hl Hb Hs] Hn [Hd Hdb] d'. pose proof (sector_in_file n (hostfile d) Hn Hl) as Hin.
  rewrite <- Hd in Hin. split.
  - split; cbn; [by rewrite host_write_length| |done].
    rewrite host_write_eq by done.
    repeat apply Forall_app_2; auto using Forall_take, Forall_drop.
  - apply list_eq. intros i. destruct (decide (i < Z.to_nat NumSectors)%nat).
    2: { rewrite !lookup_ge_None_2; [done|..];
         rewrite ?length_insert, disk_sectors_length; lia. }
    rewrite disk_sectors_lookup by done. cbn [hostfile d' set_hostfile].
    destruct (decide (i = Z.to_nat n)) as [->|Hne].
    + rewrite list_lookup_insert_eq by (rewrite disk_sectors_length; lia).
      rewrite Z2Nat.id by lia. rewrite <- Hd. by rewrite host_read_write.
    + rewrite list_lookup_insert_ne, disk_sectors_lookup by done. f_equal.
      apply host_read_write_other; [done|]. rewrite Hd.
      unfold sector_offset, SectorSize, MagicSize in *. lia.
Qed.

(** ** Latency *)

Lemma TimeToSeek_spec d t n : disk_wf d → 0 ≤ t → 0 ≤ n < NumSectors →
  let '(seek, rotation) := TimeToSeek d t n in
  0 ≤ seek ≤ 31 * SeekTime ∧ 0 ≤ rotation < RotationTime ∧
  (t + seek + rotation) `mod` RotationTime = 0 ∧
  (seek = 0 ↔ n / SectorsPerTrack = lastSector d / SectorsPerTrack).
Proof.
  intros [_ _ Hl] Ht Hn. unfold TimeToSeek.
  unfold NumSectors, SectorsPerTrack, NumTracks, SeekTime, RotationTime in *.
  case_bool_decide as Ho; split_and!; lia.
Qed.

Lemma ModuloDiff_spec to from : 0 ≤ to → 0 ≤ from →
  0 ≤ ModuloDiff to from < SectorsPerTrack ∧
  (from + ModuloDiff to from) `mod` SectorsPerTrack = to `mod` SectorsPerTrack.
Proof. unfold ModuloDiff, SectorsPerTrack. intros. lia. Qed.

(** From a sector boundary, the wait until sector [n] has passed. *)
Lemma rotational_wait at_ n : 0 ≤ at_ → 0 ≤ n → at_ `mod` RotationTime = 0 →
  let wait := ModuloDiff n (Z.quot at_ RotationTime) * RotationTime + RotationTime in
  RotationTime ≤ wait ≤ 32 * RotationTime ∧
  (at_ + wait) `mod` RotationTime = 0 ∧
  ((at_ + wait) / RotationTime - 1) `mod` SectorsPerTrack = n `mod` SectorsPerTrack.
Proof.
  intros Ht Hn [q Hq]%Z.mod_divide; [|done]. assert (0 ≤ q) by (unfold RotationTime in *; lia).
  rewrite Hq, Z.quot_mul by done. destruct (ModuloDiff_spec n q) as [Hm1 Hm2]; [done..|].
  set (m := ModuloDiff n q) in *. clearbody m. cbn zeta.
  replace (q * RotationTime + (m * RotationTime + RotationTime))
    with ((q + m + 1) * RotationTime) by lia.
  rewrite Z.mod_mul, Z.div_mul by done. replace (q + m + 1 - 1) with (q + m) by lia.
  split_and!; [..|done|done]; clear -Hm1; unfold RotationTime, SectorsPerTrack in *; lia.
Qed.

Lemma ComputeLatency_pos d t n writing : disk_wf d → 0 ≤ t → 0 ≤ n < NumSectors →
  0 < ComputeLatency d t n writing.
Proof.
  intros Hd Ht Hn. pose proof (TimeToSeek_spec d t n Hd Ht Hn) as H.
  unfold ComputeLatency. destruct (TimeToSeek d t n) as [seek rot].
  destruct H as (Hs & Hr & _ & _).
  destruct (ModuloDiff_spec n (Z.quot (t + seek + rot) RotationTime)) as [Hm _]; [lia| |].
  { unfold RotationTime in *. apply Z.quot_pos; lia. }
  unfold RotationTime in *. destruct (_ && _ && _); lia.
Qed.

(** Every request takes at least the transfer of one sector, so that its
    interrupt is always in the future, and at most a seek across the disk with
    a full turn; a read answered by the track buffer takes one transfer and is
    on the track the head is on; any other request ends exactly when the last
    byte of the sector has passed under the head: at a sector boundary, with
    the requested sector the one just passed. *)
Theorem ComputeLatency_physical d t n writing :
  disk_wf d → 0 ≤ t → 0 ≤ n < NumSectors →
  let ticks := ComputeLatency d t n writing in
  RotationTime ≤ ticks ≤ 31 * SeekTime + 33 * RotationTime ∧
  ((writing = false ∧ ticks = RotationTime ∧
    n / SectorsPerTrack = lastSector d / SectorsPerTrack) ∨
   ((t + ticks) `mod` RotationTime = 0 ∧
    ((t + ticks) / RotationTime - 1) `mod` SectorsPerTrack = n `mod` SectorsPerTrack)).
Proof.
  intros Hd Ht Hn. pose proof (TimeToSeek_spec d t n Hd Ht Hn) as H.
  unfold ComputeLatency. destruct (TimeToSeek d t n) as [seek rot].
  destruct H as (Hs & Hr & Ha & Ht0). cbn zeta.
  destruct (rotational_wait (t + seek + rot) n) as (Hw1 & Hw2 & Hw3);
    [clear -Hs Hr Ht; lia|clear -Hn; lia|done|].
  case_bool_decide as Hw; case_bool_decide as Hk; cbn [andb].
  1: case_bool_decide as Hb.
  1: { split; [done|]. left. split_and!; auto. by apply Ht0. }
  all: set (w := ModuloDiff n _ * RotationTime) in *; clearbody w;
    replace (t + (seek + (rot + w) + RotationTime)) with (t + seek + rot + (w + RotationTime)) by ring;
    (split; [clear -Hs Hr Hw1; unfold RotationTime, SeekTime in *; lia|right; split; done]).
Qed.

(** ** SynchDisk

    The file system's one thread runs [SynchDisk] on a machine whose only
    device is the disk.  A thread that blocks idles the processor until the
    interrupt arrives; the semaphores and the lock are those of
    threads/synch.cc (file [Synch] has them with any number of threads), as
    they run when a single thread uses them. *)
Module SynchDisk.

(** The semaphores of a [SynchDisk] and of its lock. *)
Inductive sem_name := sem_done | sem_lock | sem_lockInvP.

(** [wready] says whether the thread is on the ready list, [wheld] whether it
    is [thname] of the lock. *)
Record world_t := mkWorld {
  disk : Disk; done_ : lsem; lsem_ : lsem; linv_ : lsem; wheld : bool; wready : bool
}.
Inductive handler_t := disk_done.

#[export] Instance has_disk : HasDisk world_t handler_t := {|
  disk_of := disk;
  set_disk d w := mkWorld d (done_ w) (lsem_ w) (linv_ w) (wheld w) (wready w);
  DiskDone := disk_done
|}.

Abbreviation K := (kstate world_t handler_t).

#[export] Instance sems : Sems world_t sem_name := {|
  sem_of n w := match n with sem_done => done_ w | sem_lock => lsem_ w | sem_lockInvP => linv_ w end;
  set_sem n x w :=
    let '(mkWorld d a b c h r) := w in
    match n with
    | sem_done => mkWorld d x b c h r
    | sem_lock => mkWorld d a x c h r
    | sem_lockInvP => mkWorld d a b x h r
    end;
  ready := wready;
  set_ready b w := mkWorld (disk w) (done_ w) (lsem_ w) (linv_ w) (wheld w) b
|}.

(** One lock. *)
#[export] Instance locks : Locks world_t sem_name unit := {|
  lock_sem _ := sem_lock;
  lock_semInvP _ := sem_lockInvP;
  held _ := wheld;
  set_held _ b w := mkWorld (disk w) (done_ w) (lsem_ w) (linv_ w) b (wready w)
|}.

(** [RequestDone], called through [DiskRequestDone]. *)
Definition RequestDone : M K unit := V_off sem_done.

#[export] Instance platform : Platform world_t handler_t := {|
  call_handler _ := HandleInterrupt RequestDone;
  machine_DelayedLoad := mret tt;
  currentThread_Yield := mret tt
|}.

(** [SynchDisk::SynchDisk]. *)
Definition new_SynchDisk (f : option (list Z)) : res world_t :=
  d ← new_Disk f;
  mret (mkWorld d (mkSem 0 false) (mkSem 1 false) (mkSem 1 false) false false).

Definition ReadSector (sectorNumber : Z) : M K (list Z) :=
  Acquire tt ≫= λ _,
  data ← ReadRequest sectorNumber;
  P sem_done ≫= λ _,
  Release tt ≫= λ _,
  mret data.

Definition WriteSector (sectorNumber : Z) (data : list Z) : M K unit :=
  Acquire tt ≫= λ _,
  WriteRequest sectorNumber data ≫= λ _,
  P sem_done ≫= λ _,
  Release tt.

(** Between calls: interrupts are on, nothing is pending, the disk is idle,
    the lock is free and the semaphore is at zero. *)
Record at_rest (k : K) : Prop := {
  ar_intr : ∃ y, intr k = mkInterrupt IntOn [] false y SystemMode;
  ar_time : 0 ≤ now k;
  ar_world : world k = mkWorld (disk (world k)) (mkSem 0 false) (mkSem 1 false) (mkSem 1 false)
                         false false;
  ar_active : active (disk (world k)) = false;
  ar_disk : disk_wf (disk (world k))
}.

(** *** The calls from that state *)

Lemma SetLevel_on y st w :
  SetLevel IntOn (mk IntOff [] y st w) = Ok (IntOff, mk IntOn [] false (tick_system 10 st) w).
Proof. destruct y, st; reflexivity. Qed.

Lemma P_free n y st w x : sem_of n w = mkSem (x + 1) false → 0 ≤ x →
  P n (mk IntOn [] y st w) =
    Ok (tt, mk IntOn [] false (tick_system 10 st) (set_sem n (mkSem x false) w)).
Proof.
  intros Hx H0. unfold P. unfold_M.
  assert (E : SetLevel IntOff (mk IntOn [] y st w) = Ok (IntOn, mk IntOff [] y st w)) by done.
  rewrite E. cbn [P_loop]. unfold_M. cbn [world mk]. rewrite Hx. cbn [value waits].
  destruct (Z.eqb_spec (x + 1) 0); [lia|]. unfold on_world. unfold_M.
  replace (x + 1 - 1) with x by lia.
  change (mkK _ _ _) with (mk IntOff [] y st (set_sem n (mkSem x false) w) : K).
  by rewrite SetLevel_on.
Qed.

Lemma V_free n y st w x : sem_of n w = mkSem x false →
  V n (mk IntOn [] y st w) =
    Ok (tt, mk IntOn [] false (tick_system 10 st) (set_sem n (mkSem (x + 1) false) w)).
Proof.
  intros Hx. unfold V. unfold_M.
  assert (E : SetLevel IntOff (mk IntOn [] y st w) = Ok (IntOn, mk IntOff [] y st w)) by done.
  rewrite E. unfold V_off, on_world. unfold_M. cbn [world mk]. rewrite Hx. cbn [value waits].
  change (mkK _ _ _) with (mk IntOff [] y st (set_sem n (mkSem (x + 1) false) w) : K).
  by rewrite SetLevel_on.
Qed.

(** The world between calls, with disk [d], and while the lock is held. *)
Definition idle_world (d : Disk) : world_t :=
  mkWorld d (mkSem 0 false) (mkSem 1 false) (mkSem 1 false) false false.
Definition locked_world (d : Disk) : world_t :=
  mkWorld d (mkSem 0 false) (mkSem 0 false) (mkSem 1 false) true false.

Lemma Acquire_spec y st d : ∃ st', Acquire tt (mk IntOn [] y st (idle_world d)) =
    Ok (tt, mk IntOn [] false st' (locked_world d)) ∧ totalTicks st ≤ totalTicks st'.
Proof.
  unfold Acquire. unfold_M. cbn [held locks wheld world mk idle_world lock_sem lock_semInvP].
  rewrite (P_free sem_lockInvP y st _ 0) by done.
  rewrite (V_free sem_lockInvP _ _ _ 0), (P_free sem_lock _ _ _ 0) by done.
  eexists. split; [reflexivity|]. destruct st; cbn. lia.
Qed.

Lemma Release_spec y st d : ∃ st', Release tt (mk IntOn [] y st (locked_world d)) =
    Ok (tt, mk IntOn [] false st' (idle_world d)) ∧ totalTicks st ≤ totalTicks st'.
Proof.
  unfold Release, on_world. unfold_M. cbn [held locks wheld world mk locked_world lock_sem lock_semInvP].
  match goal with |- context [V sem_lock ?k] =>
    change k with (mk IntOn [] y st (set_held tt false (locked_world d)) : K) end.
  rewrite (V_free sem_lock _ _ _ 0) by done.
  eexists. split; [reflexivity|]. destruct st; cbn. lia.
Qed.

(** The processor idles until the interrupt is due; the handler marks the disk
    idle and wakes the thread. *)
Lemma Idle_fires y st d when : totalTicks st < when →
  Idle (mk IntOff [(when, mkPending disk_done when DiskInt)] y st
          (set_sem sem_done (mkSem 0 true) (locked_world d))) =
  Ok (tt, mk IntOff [] false (tick_idle_to when st)
            (set_ready true (set_sem sem_done (mkSem 1 false) (locked_world (set_active false d))))).
Proof.
  intros Hw. destruct st as [t]. assert (Hb : (t <? when) = true) by (cbn in Hw; lia).
  lazy -[Z.ltb Z.add Z.sub]. rewrite Hb. reflexivity.
Qed.

Lemma wait_spec y st d when : totalTicks st < when →
  ∃ st', P sem_done (mk IntOn [(when, mkPending disk_done when DiskInt)] y st (locked_world d)) =
    Ok (tt, mk IntOn [] false st' (locked_world (set_active false d))) ∧ when ≤ totalTicks st'.
Proof.
  intros Hw. exists (tick_system 10 (tick_idle_to when st)). split; [|destruct st; cbn; lia].
  unfold P. unfold_M.
  replace (SetLevel IntOff _) with (Ok (IntOn,
    mk IntOff [(when, mkPending disk_done when DiskInt)] y st (locked_world d))) by done.
  cbn [P_loop]. unfold Sleep, on_world. unfold_M. cbn [world sem_of sems done_ locked_world mk value].
  cbn [Z.eqb length pending intr level bool_decide mk]. rewrite bool_decide_eq_true_2 by done.
  cbn [Sleep_loop]. unfold_M. cbn [ready sems wready world set_sem locked_world mk].
  match goal with |- context [Idle ?k] =>
    change k with (mk IntOff [(when, mkPending disk_done when DiskInt)] y st
          (set_sem sem_done (mkSem 0 true) (locked_world d)) : K) end.
  rewrite Idle_fires by done. cbn [Sleep_loop]. unfold on_world. unfold_M.
  cbn [ready sems wready world set_ready set_sem locked_world sem_of done_ value waits Z.eqb mk].
  match goal with |- context [SetLevel IntOn ?k] =>
    change k with (mk IntOff [] false (tick_idle_to when st) (locked_world (set_active false d)) : K) end.
  by rewrite SetLevel_on.
Qed.

(** *** A request *)

Lemma count_ticks st : totalTicks (count_read st) = totalTicks st ∧
                       totalTicks (count_write st) = totalTicks st.
Proof. by destruct st. Qed.

Definition due_at (when : Z) : list (Z * PendingInterrupt handler_t) :=
  [(when, mkPending disk_done when DiskInt)].

(** The disk once a request for [n] at time [t] has left the host file [f]. *)
Definition requested (t n : Z) (f : list Z) (d : Disk) : Disk :=
  UpdateLast t n (set_active true (set_hostfile f d)).

Lemma requested_wf t n f d : disk_wf (set_hostfile f d) → 0 ≤ n < NumSectors →
  disk_wf (set_active false (requested t n f d)) ∧
  disk_sectors (set_active false (requested t n f d)) = disk_sectors (set_hostfile f d).
Proof.
  intros [Hl Hb _] Hn. unfold requested, UpdateLast. destruct (TimeToSeek _ _ _). split; done.
Qed.

Lemma ReadRequest_spec y st d n : disk_wf d → active d = false → 0 ≤ totalTicks st →
  0 ≤ n < NumSectors →
  ∃ when, totalTicks st < when ∧
    ReadRequest n (mk IntOn [] y st (locked_world d)) =
      Ok (host_read (sector_offset n) (Z.to_nat SectorSize) (hostfile d),
          mk IntOn (due_at when) y (count_read st)
            (locked_world (requested (totalTicks st) n (hostfile d) d))).
Proof.
  intros Hd Ha Ht Hn. exists (totalTicks st + ComputeLatency d (totalTicks st) n false).
  pose proof (ComputeLatency_pos d (totalTicks st) n false Hd Ht Hn). split; [lia|].
  destruct (host_read_sector d n Hd Hn) as [Hl _].
  unfold ReadRequest, Schedule, set_pending, on_intr, on_stats, on_disk, now. unfold_M.
  cbn [world mk stats intr disk_of has_disk locked_world disk set_disk].
  rewrite Ha, !bool_decide_eq_true_2 by (done || lia). cbn [negb andb].
  destruct (Z.ltb_spec 0 (ComputeLatency d (totalTicks st) n false)); [|lia].
  unfold requested, due_at, mk. destruct st, d. cbn in Ha. subst. reflexivity.
Qed.

Lemma WriteRequest_spec y st d n data : disk_wf d → active d = false → 0 ≤ totalTicks st →
  0 ≤ n < NumSectors →
  ∃ when, totalTicks st < when ∧
    WriteRequest n data (mk IntOn [] y st (locked_world d)) =
      Ok (tt, mk IntOn (due_at when) y (count_write st)
            (locked_world (requested (totalTicks st) n
               (host_write (sector_offset n) data (hostfile d)) d))).
Proof.
  intros Hd Ha Ht Hn. exists (totalTicks st + ComputeLatency d (totalTicks st) n true).
  pose proof (ComputeLatency_pos d (totalTicks st) n true Hd Ht Hn). split; [lia|].
  unfold WriteRequest, Schedule, set_pending, on_intr, on_stats, on_disk, now. unfold_M.
  cbn [world mk stats intr disk_of has_disk locked_world disk set_disk].
  rewrite Ha, !bool_decide_eq_true_2 by lia. cbn [negb andb].
  destruct (Z.ltb_spec 0 (ComputeLatency d (totalTicks st) n true)); [|lia].
  unfold requested, due_at, mk. destruct st, d. cbn in Ha. subst. reflexivity.
Qed.

(** After the request: wait, release, and the machine is at rest again. *)
Lemma complete_spec y st d when : totalTicks st < when → 0 ≤ totalTicks st →
  disk_wf (set_active false d) →
  ∃ k, (P sem_done ≫= λ _, Release tt) (mk IntOn (due_at when) y st (locked_world d)) = Ok (tt, k) ∧
       at_rest k ∧ disk (world k) = set_active false d.
Proof.
  intros Hw Ht Hd. destruct (wait_spec y st d when Hw) as (st1 & E1 & H1).
  destruct (Release_spec false st1 (set_active false d)) as (st2 & E2 & H2).
  eexists. split; [unfold_M; unfold due_at; by rewrite E1, E2|]. split; [|done].
  split; [by eexists|..]; cbn; try done. unfold now. cbn. lia.
Qed.

Lemma at_rest_inv k : at_rest k → ∃ y st d, k = mk IntOn [] y st (idle_world d) ∧
  0 ≤ totalTicks st ∧ active d = false ∧ disk_wf d.
Proof.
  intros [[y Hi] Ht Hw Ha Hd]. destruct k as [i st w]. cbn in *. exists y, st, (disk w).
  split_and!; auto. subst. unfold mk, idle_world. by rewrite <- Hw.
Qed.

Lemma ReadSector_spec k n : at_rest k → 0 ≤ n < NumSectors →
  ∃ data k', disk_sectors (disk (world k)) !! Z.to_nat n = Some data ∧
    ReadSector n k = Ok (data, k') ∧ at_rest k' ∧
    disk_sectors (disk (world k')) = disk_sectors (disk (world k)).
Proof.
  intros (y & st & d & -> & Ht & Ha & Hd)%at_rest_inv Hn.
  destruct (Acquire_spec y st d) as (st1 & E1 & H1).
  destruct (ReadRequest_spec false st1 d n) as (when & Hw & E2); [done|done|lia|done|].
  destruct (requested_wf (totalTicks st1) n (hostfile d) d) as [Hd' Hs']; [by destruct d|done|].
  destruct (complete_spec false (count_read st1) (requested (totalTicks st1) n (hostfile d) d) when)
    as (k' & E3 & Hr & Hk'); 
    [rewrite ?(proj1 (count_ticks _)), ?(proj2 (count_ticks _)); exact Hw|rewrite ?(proj1 (count_ticks _)), ?(proj2 (count_ticks _)); clear -H1 Ht; lia|exact Hd'|].
  eexists _, k'. split_and!; [|unfold ReadSector; unfold_M; rewrite E1, E2|done|].
  - cbn [world mk idle_world disk]. rewrite disk_sectors_lookup by lia. by rewrite Z2Nat.id by lia.
  - unfold mbind, M_bind in E3.
    destruct (P sem_done _) as [[[] k1]|]; [|done]. by rewrite E3.
  - rewrite Hk', Hs'. by destruct d.
Qed.

Lemma WriteSector_spec k n data : at_rest k → 0 ≤ n < NumSectors → is_sector data →
  ∃ k', WriteSector n data k = Ok (tt, k') ∧ at_rest k' ∧
    disk_sectors (disk (world k')) = <[Z.to_nat n := data]> (disk_sectors (disk (world k))).
Proof.
  intros (y & st & d & -> & Ht & Ha & Hd)%at_rest_inv Hn Hdata.
  destruct (Acquire_spec y st d) as (st1 & E1 & H1).
  destruct (WriteRequest_spec false st1 d n data) as (when & Hw & E2); [done|done|lia|done|].
  destruct (disk_sectors_write d n data) as [Hdw Hsw]; [done..|].
  destruct (requested_wf (totalTicks st1) n _ d Hdw Hn) as [Hd' Hs'].
  destruct (complete_spec false (count_write st1) (requested (totalTicks st1) n
      (host_write (sector_offset n) data (hostfile d)) d) when)
    as (k' & E3 & Hr & Hk'); 
    [rewrite ?(proj1 (count_ticks _)), ?(proj2 (count_ticks _)); exact Hw|rewrite ?(proj1 (count_ticks _)), ?(proj2 (count_ticks _)); clear -H1 Ht; lia|exact Hd'|].
  exists k'. split_and!; [unfold WriteSector; unfold_M; rewrite E1, E2|done|].
  - unfold mbind, M_bind in E3. exact E3.
  - by rewrite Hk', Hs', Hsw.
Qed.

(** A number that is not a sector: the request stops after [Acquire]. *)
Lemma bad_request k n data : at_rest k → ¬ (0 ≤ n < NumSectors) →
  ReadSector n k = Err AssertFailed ∧ WriteSector n data k = Err AssertFailed.
Proof.
  intros (y & st & d & -> & Ht & Ha & Hd)%at_rest_inv Hn.
  destruct (Acquire_spec y st d) as (st1 & E1 & _).
  assert (Hb : bool_decide (0 ≤ n) && bool_decide (n < NumSectors) = false).
  { destruct (decide (0 ≤ n)); [|by rewrite bool_decide_eq_false_2].
    rewrite (bool_decide_eq_false_2 (n < NumSectors)) by lia. by destruct (bool_decide _). }
  unfold ReadSector, WriteSector. unfold_M. rewrite E1.
  unfold ReadRequest, WriteRequest. unfold_M.
  cbn [world mk disk_of has_disk locked_world disk]. by rewrite Ha, Hb.
Qed.

#[export] Instance device : SectorDevice K := {|
  Disk.ReadSector := ReadSector;
  Disk.WriteSector := WriteSector;
  dev_wf := at_rest;
  sectors k := disk_sectors (disk (world k))
|}.

#[export] Instance device_ok : SectorDeviceOK K.
Proof.
  split.
  - intros k Hk. destruct (at_rest_inv k Hk) as (y & st & d & -> & _ & _ & Hd).
    split; [apply disk_sectors_length|by apply disk_sectors_shape].
  - exact ReadSector_spec.
  - exact WriteSector_spec.
  - intros k n Hk Hn. by apply (bad_request k n []).
  - intros k n data Hk Hn. by apply bad_request.
Qed.

(** A machine with a new disk, at time [t]. *)
Definition boot (st : Statistics) : res K :=
  w ← new_SynchDisk None; mret (mk IntOn [] false st w).

Lemma le_bytes_ok n v : Forall is_byte (le_bytes n v) ∧ length (le_bytes n v) = n.
Proof.
  revert v. induction n as [|n IH]; intros v; cbn; [done|]. destruct (IH (v / 256)) as [Hb Hl].
  split; [|by rewrite Hl]. constructor; [|done]. unfold is_byte. lia.
Qed.

Lemma host_write_extend off data f : (length f ≤ off)%nat → Forall is_byte f → Forall is_byte data →
  length (host_write off data f) = (off + length data)%nat ∧ Forall is_byte (host_write off data f).
Proof.
  intros Hf Hb Hd. unfold host_write. rewrite (take_ge f off), (drop_ge f) by lia. split.
  - rewrite !length_app, length_replicate, length_nil. lia.
  - repeat apply Forall_app_2; auto. apply Forall_replicate. unfold is_byte. lia.
Qed.

Lemma new_disk_wf : ∃ d, new_Disk None = Ok d ∧ disk_wf d ∧ active d = false.
Proof.
  destruct (le_bytes_ok 4 MagicNumber) as [Hm Hml]. destruct (le_bytes_ok 4 0) as [Hz Hzl].
  destruct (host_write_extend 0 (le_bytes 4 MagicNumber) []) as [Hl Hb]; [done|done|done|].
  destruct (host_write_extend (Z.to_nat (DiskSize - 4)) (le_bytes 4 0)
    (host_write 0 (le_bytes 4 MagicNumber) [])) as [Hl' Hb']; [|done|done|].
  { rewrite Hl, Hml. clear. unfold DiskSize, MagicSize, NumSectors, SectorsPerTrack, NumTracks, SectorSize. lia. }
  eexists. split; [reflexivity|]. split; [|done]. split; cbn [hostfile lastSector]; [|done|].
  - rewrite Hl', Hzl. clear.
    unfold DiskSize, MagicSize, NumSectors, SectorsPerTrack, NumTracks, SectorSize. lia.
  - unfold NumSectors, SectorsPerTrack, NumTracks. lia.
Qed.

Lemma boot_at_rest st : 0 ≤ totalTicks st → ∃ k, boot st = Ok k ∧ at_rest k.
Proof.
  intros Ht. destruct new_disk_wf as (d & E & Hd & Ha).
  exists (mk IntOn [] false st (idle_world d)).
  split; [unfold boot, new_SynchDisk, mbind, res_bind; by rewrite E|].
  split; [by eexists|done|done|done|done].
Qed.

End SynchDisk.

(** C16: on a machine whose devices are at rest, [SynchDisk::ReadSector] returns,
    with the 128 bytes last written to that sector, and [WriteSector] returns
    with exactly that sector replaced; both leave the machine at rest (the
    interrupt has been taken, the disk is idle, the lock free, the semaphore
    at zero); any other sector number stops at the
    assertion of the disk; a new disk is at rest. *)
Theorem SynchDisk_serves_requests :
  (∀ st, 0 ≤ totalTicks st → ∃ k, SynchDisk.boot st = Ok k ∧ SynchDisk.at_rest k) ∧
  ∀ k, SynchDisk.at_rest k →
    let content k := disk_sectors (SynchDisk.disk (world k)) in
    (∀ n, 0 ≤ n < NumSectors →
       (∃ data k', content k !! Z.to_nat n = Some data ∧ is_sector data ∧
          SynchDisk.ReadSector n k = Ok (data, k') ∧ SynchDisk.at_rest k' ∧
          content k' = content k) ∧
       (∀ data, is_sector data →
          ∃ k', SynchDisk.WriteSector n data k = Ok (tt, k') ∧ SynchDisk.at_rest k' ∧
            content k' = <[Z.to_nat n := data]> (content k))) ∧
    (∀ n data, ¬ (0 ≤ n < NumSectors) →
       SynchDisk.ReadSector n k = Err AssertFailed ∧
       SynchDisk.WriteSector n data k = Err AssertFailed).
Proof.
  split.
  - exact SynchDisk.boot_at_rest.
  - intros k Hk. cbn zeta. split.
    + intros n Hn. split; [|intros data; by apply SynchDisk.WriteSector_spec].
      destruct (SynchDisk.ReadSector_spec k n Hk Hn) as (data & k' & Hl & H).
      exists data, k'. split; [done|]. split; [|done].
      destruct (SynchDisk.at_rest_inv k Hk) as (y & st & d & -> & _ & _ & Hd).
      by eapply Forall_lookup_1; [apply disk_sectors_shape|].
    + intros n data Hn. by apply SynchDisk.bad_request.
Qed.

Lemma ComputeLatency_physical_witness : ∃ d, new_Disk None = Ok d ∧
  let ticks := ComputeLatency d 740 37 true in
  ticks = 2260 ∧
  RotationTime ≤ ticks ≤ 31 * SeekTime + 33 * RotationTime ∧
  ((true = false ∧ ticks = RotationTime ∧
    37 / SectorsPerTrack = lastSector d / SectorsPerTrack) ∨
   ((740 + ticks) `mod` RotationTime = 0 ∧
    ((740 + ticks) / RotationTime - 1) `mod` SectorsPerTrack = 37 `mod` SectorsPerTrack)).
Proof.
  destruct SynchDisk.new_disk_wf as (d & E & Hd & _). exists d. split; [exact E|].
  split; [injection E as <-; vm_compute; reflexivity|].
  apply (ComputeLatency_physical d 740 37 true Hd);
    unfold NumSectors, SectorsPerTrack, NumTracks; clear; lia.
Defined.

(** The simplest device that keeps the laws: an array of sectors. *)
Module RamDisk.

Definition ram := list (list Z).

Definition in_disk (n : Z) : bool := bool_decide (0 ≤ n) && bool_decide (n < NumSectors).

#[export] Instance device : SectorDevice ram := {|
  ReadSector n ss :=
    if in_disk n then
      match ss !! Z.to_nat n with Some data => Ok (data, ss) | None => Err OutOfBounds end
    else Err AssertFailed;
  WriteSector n data ss :=
    if in_disk n then Ok (tt, <[Z.to_nat n := data]> ss) else Err AssertFailed;
  dev_wf ss := length ss = Z.to_nat NumSectors ∧ Forall is_sector ss;
  sectors ss := ss
|}.

Lemma in_disk_true n : in_disk n = true ↔ 0 ≤ n < NumSectors.
Proof. unfold in_disk. rewrite andb_true_iff, !bool_decide_eq_true. done. Qed.

#[export] Instance device_ok : SectorDeviceOK ram.
Proof.
  split; cbn [dev_wf sectors ReadSector WriteSector device].
  - done.
  - intros ss n [Hl Hs] Hn. rewrite (proj2 (in_disk_true n) Hn).
    destruct (lookup_lt_is_Some_2 ss (Z.to_nat n)) as [data Hd]; [lia|].
    exists data, ss. by rewrite Hd.
  - intros ss n data [Hl Hs] Hn Hd. rewrite (proj2 (in_disk_true n) Hn).
    eexists. split; [done|]. split; [|done]. split; [by rewrite length_insert|].
    by apply Forall_insert.
  - intros ss n _ Hn. destruct (in_disk n) eqn:E; [by apply in_disk_true in E|done].
  - intros ss n data _ Hn. destruct (in_disk n) eqn:E; [by apply in_disk_true in E|done].
Qed.

Definition blank : ram := replicate 1024 (replicate 128 0).

Lemma blank_wf : dev_wf blank.
Proof.
  split; [reflexivity|]. apply Forall_replicate. split; [reflexivity|].
  apply Forall_replicate. unfold is_byte. lia.
Qed.

End RamDisk.
