(* ===== verification/FileHdr.v ===== *)
(** * FileHdr: the file header of filesys/filehdr.cc

    A header is the table of the disk sectors that hold a file.  It occupies
    one sector: [header_bytes] and [header_of] are the two views of the same
    128 bytes that the casts [(char * )this] of [FetchFrom] and [WriteBack]
    go between. *)

From S2P Require Import Prelude Bitmap Machine Disk.

(** ** Words in memory *)

(** The little-endian value of some bytes, and the words of a byte array. *)
Fixpoint le_value (bs : list Z) : Z :=
  match bs with [] => 0 | b :: bs => b + 256 * le_value bs end.
Definition words_bytes (ws : list Z) : list Z := concat (le_bytes 4 <$> ws).
Fixpoint words_of (n : nat) (bs : list Z) : list Z :=
  match n with O => [] | S n => le_value (take 4 bs) :: words_of n (drop 4 bs) end.

Lemma le_bytes_length n v : length (le_bytes n v) = n.
Proof. revert v. induction n as [|n IH]; intros v; cbn; [done|]. by rewrite IH. Qed.

Lemma le_bytes_bytes n v : Forall is_byte (le_bytes n v).
Proof. revert v. induction n; intros v; cbn; constructor; [unfold is_byte; lia|done]. Qed.

Lemma le_value_bytes n v : le_value (le_bytes n v) = v `mod` 256 ^ Z.of_nat n.
Proof.
  revert v. induction n as [|n IH]; intros v; cbn [le_bytes le_value].
  { by rewrite Z.mod_1_r. }
  rewrite IH, Nat2Z.inj_succ, Z.pow_succ_r by apply Nat2Z.is_nonneg.
  rewrite Z.rem_mul_r; [done|lia|]. apply Z.pow_pos_nonneg; lia.
Qed.

Lemma le_bytes_value bs : Forall is_byte bs → le_bytes (length bs) (le_value bs) = bs.
Proof.
  unfold is_byte. induction 1 as [|b bs Hb _ IH]; cbn [length le_bytes le_value]; [done|].
  f_equal; [lia|]. rewrite <- IH at 3. f_equal. lia.
Qed.

Lemma le_value_range bs : Forall is_byte bs → 0 ≤ le_value bs < 256 ^ Z.of_nat (length bs).
Proof.
  unfold is_byte. induction 1 as [|b bs Hb _ IH]; cbn [length le_value]; [lia|].
  rewrite Nat2Z.inj_succ, Z.pow_succ_r by lia. lia.
Qed.

Lemma words_bytes_length ws : length (words_bytes ws) = (4 * length ws)%nat.
Proof.
  unfold words_bytes. induction ws as [|w ws IH]; [done|]. cbn [fmap list_fmap concat].
  rewrite length_app, le_bytes_length, IH. cbn [length]. lia.
Qed.

Lemma words_bytes_bytes ws : Forall is_byte (words_bytes ws).
Proof.
  unfold words_bytes. apply Forall_concat, Forall_fmap, Forall_true.
  intros w. apply le_bytes_bytes.
Qed.

Lemma words_of_length n bs : length (words_of n bs) = n.
Proof. revert bs. induction n as [|n IH]; intros bs; cbn; [done|]. by rewrite IH. Qed.

(** Words written and read back, and bytes read and written back. *)
Lemma words_of_bytes ws rest : words_of (length ws) (words_bytes ws ++ rest) = uint <$> ws.
Proof.
  induction ws as [|w ws IH]; [done|]. cbn [length words_of fmap list_fmap].
  change (words_bytes (w :: ws)) with (le_bytes 4 w ++ words_bytes ws).
  rewrite <- app_assoc, take_app_length', drop_app_length' by (by rewrite le_bytes_length).
  rewrite le_value_bytes, IH. done.
Qed.

Lemma words_bytes_of n bs : length bs = (4 * n)%nat → Forall is_byte bs →
  words_bytes (words_of n bs) = bs.
Proof.
  revert bs. induction n as [|n IH]; intros bs Hl Hb.
  { destruct bs; [done|cbn in Hl; lia]. }
  cbn [words_of].
  change (words_bytes (le_value (take 4 bs) :: words_of n (drop 4 bs)))
    with (le_bytes 4 (le_value (take 4 bs)) ++ words_bytes (words_of n (drop 4 bs))).
  rewrite IH by (try apply Forall_drop; rewrite ?length_drop; auto; lia).
  rewrite <- (take_drop 4 bs) at 3. f_equal.
  pose proof (le_bytes_value (take 4 bs) (Forall_take _ _ _ Hb)) as H.
  by rewrite length_take, Nat.min_l in H by lia.
Qed.

Lemma words_of_uint n bs : Forall is_byte bs → Forall is_uint (words_of n bs).
Proof.
  revert bs. induction n as [|n IH]; intros bs Hb; cbn [words_of]; constructor.
  - pose proof (le_value_range (take 4 bs) (Forall_take _ _ _ Hb)) as H.
    pose proof (firstn_le_length 4 bs) as Hl. unfold is_uint.
    assert (256 ^ Z.of_nat (length (take 4 bs)) ≤ 256 ^ 4) by (apply Z.pow_le_mono_r; lia). lia.
  - apply IH. by apply Forall_drop.
Qed.

(** ** The header *)

Definition NumDirect : Z := Z.quot (SectorSize - 2 * 4) 4.
Definition MaxFileSize : Z := NumDirect * SectorSize.

(** class [FileHeader]. *)
Record FileHeader := mkHdr { numBytes : Z; numSectors : Z; dataSectors : list Z }.

(** [dataSectors[i]] and [dataSectors[i] = s]. *)
Definition data_get {S} (i : Z) (h : FileHeader) : M S Z :=
  if bool_decide (0 ≤ i) then
    match dataSectors h !! Z.to_nat i with Some s => mret s | None => fail OutOfBounds end
  else fail OutOfBounds.
Definition data_set {S} (i s : Z) (h : FileHeader) : M S FileHeader :=
  if bool_decide (0 ≤ i < Z.of_nat (length (dataSectors h)))
  then mret (mkHdr (numBytes h) (numSectors h) (<[Z.to_nat i := s]> (dataSectors h)))
  else fail OutOfBounds.

(** [for (int i = 0; i < numSectors; i++) dataSectors[i] = freeMap->Find();] *)
Fixpoint Allocate_loop (n : nat) (i : Z) (h : FileHeader) : M BitMap FileHeader :=
  match n with
  | O => mret h
  | S n =>
      s ← BitMap_Find;
      h' ← data_set i s h;
      Allocate_loop n (i + 1) h'
  end.

Definition Allocate (fileSize : Z) (h : FileHeader) : M BitMap (bool * FileHeader) :=
  let h := mkHdr fileSize (divRoundUp fileSize SectorSize) (dataSectors h) in
  c ← BitMap_NumClear;
  if c <? numSectors h then mret (false, h)
  else
    h' ← Allocate_loop (Z.to_nat (numSectors h)) 0 h;
    mret (true, h').

Definition Deallocate (h : FileHeader) : M BitMap unit :=
  for_loop (Z.to_nat (numSectors h)) 0 (λ i,
    s ← data_get i h;
    t ← BitMap_Test s;
    ASSERT t ≫= λ _,
    BitMap_Clear s).

Definition ByteToSector {S} (offset : Z) (h : FileHeader) : M S Z :=
  data_get (Z.quot offset SectorSize) h.

Definition FileLength (h : FileHeader) : Z := numBytes h.

Definition header_bytes (h : FileHeader) : list Z :=
  words_bytes (numBytes h :: numSectors h :: dataSectors h).
Definition header_of (bs : list Z) : FileHeader :=
  let ints := sint <$> words_of 32 bs in
  mkHdr (default 0 (ints !! 0%nat)) (default 0 (ints !! 1%nat)) (drop 2 ints).

Section OnDisk.
Context {D : Type} `{!SectorDevice D}.

Definition FetchFrom (sector : Z) : M D FileHeader :=
  data ← ReadSector sector; mret (header_of data).

Definition WriteBack (sector : Z) (h : FileHeader) : M D unit :=
  WriteSector sector (header_bytes h).

(** [Print]: the bytes of the file that are printed. *)
Fixpoint Print_file (n : nat) (i k : Z) (h : FileHeader) : M D (list Z) :=
  match n with
  | O => mret []
  | S n =>
      s ← data_get i h;
      data ← ReadSector s;
      let shown := take (Z.to_nat (Z.min SectorSize (numBytes h - k))) data in
      rest ← Print_file n (i + 1) (k + Z.of_nat (length shown)) h;
      mret (shown ++ rest)
  end.
Definition FileHeader_Print (h : FileHeader) : M D (list Z) :=
  Print_file (Z.to_nat (numSectors h)) 0 0 h.

End OnDisk.

(** ** Well-formed headers *)

(** The sectors that hold the file. *)
Definition data_of (h : FileHeader) : list Z := take (Z.to_nat (numSectors h)) (dataSectors h).

(** The shape of a [FileHeader] object: thirty [int]s, whatever they are. *)
Record hdr_shape (h : FileHeader) : Prop := {
  hs_bytes : is_int (numBytes h);
  hs_sectors : is_int (numSectors h);
  hs_len : length (dataSectors h) = Z.to_nat NumDirect;
  hs_ints : Forall is_int (dataSectors h)
}.

(** A header that describes a file: as many distinct sectors of the disk as
    its length needs. *)
Record hdr_ok (h : FileHeader) : Prop := {
  ho_shape : hdr_shape h;
  ho_bytes : 0 ≤ numBytes h;
  ho_sectors : numSectors h = divRoundUp (numBytes h) SectorSize;
  ho_max : numSectors h ≤ NumDirect;
  ho_nodup : NoDup (data_of h);
  ho_range : Forall (λ s, 0 ≤ s < NumSectors) (data_of h)
}.

Lemma header_bytes_sector h : hdr_shape h → is_sector (header_bytes h).
Proof.
  intros [_ _ Hl _]. split; [|apply words_bytes_bytes]. unfold header_bytes.
  rewrite words_bytes_length. cbn [length]. rewrite Hl. done.
Qed.

Lemma header_of_bytes h : hdr_shape h → header_of (header_bytes h) = h.
Proof.
  intros [Hb Hs Hl Hi]. unfold header_of, header_bytes.
  pose proof (words_of_bytes (numBytes h :: numSectors h :: dataSectors h) []) as H.
  rewrite app_nil_r in H. cbn [length] in H. rewrite Hl in H.
  change (S (S (Z.to_nat NumDirect))) with 32%nat in H. rewrite H.
  rewrite <- list_fmap_compose. cbn. rewrite !sint_uint, !sint_id by done.
  destruct h as [b s ds]. cbn in *. f_equal. unfold drop.
  rewrite <- (list_fmap_id ds) at 2. apply list_fmap_ext. intros i x Hx.
  cbn. rewrite sint_uint. apply sint_id. by eapply Forall_lookup_1 in Hi.
Qed.

Lemma header_of_shape bs : hdr_shape (header_of bs).
Proof.
  unfold header_of. split; cbn [numBytes numSectors dataSectors].
  - cbn. apply sint_range.
  - cbn. apply sint_range.
  - by rewrite length_drop, length_fmap, words_of_length.
  - apply Forall_drop, Forall_fmap, Forall_true. intros x. apply sint_range.
Qed.

(** ** Allocation *)

Definition clear_count (b : BitMap) : Z := numBits b - Z.of_nat (size (bits_of b)).

Lemma Find_some b : bitmap_wf b → 0 < clear_count b →
  ∃ r b', BitMap_Find b = Ok (r, b') ∧ 0 ≤ r < numBits b ∧ (r ∉ bits_of b) ∧
    bitmap_wf b' ∧ numBits b' = numBits b ∧ bits_of b' = {[r]} ∪ bits_of b ∧
    clear_count b' = clear_count b - 1.
Proof.
  intros Hwf Hc. unfold clear_count in *.
  destruct (Find_cases b Hwf) as [[_ Hall]|(r & b' & E & Hr & Hnin & _ & Hwf' & Hn & Hb)].
  - exfalso. assert (Hs : list_to_set (seqZ 0 (numBits b)) ⊆ bits_of b).
    { intros i. rewrite elem_of_list_to_set, elem_of_seqZ. intros Hi. apply Hall. lia. }
    apply subseteq_size in Hs.
    rewrite size_list_to_set, length_seqZ in Hs by apply NoDup_seqZ. lia.
  - exists r, b'. split_and!; try done; try lia.
    rewrite Hn, Hb, size_union, size_singleton by set_solver. lia.
Qed.

Lemma Find_none b : bitmap_wf b → clear_count b ≤ 0 → BitMap_Find b = Ok (-1, b).
Proof.
  intros Hwf Hc.
  destruct (Find_cases b Hwf) as [[E _]|(r & b1 & _ & _ & Hr & _ & Hwf1 & Hn1 & Hb1)]; [done|].
  exfalso. pose proof (bits_of_size b1 (wf_bits _ Hwf1)) as Hle. unfold clear_count in Hc.
  rewrite Hb1, size_union, size_singleton in Hle by set_solver. lia.
Qed.

(** [n] free sectors are taken, in order, and stored from [i] on. *)
Lemma Allocate_loop_spec n i h b : bitmap_wf b → Z.of_nat n ≤ clear_count b →
  (i + n ≤ length (dataSectors h))%nat →
  ∃ ss b', Allocate_loop n (Z.of_nat i) h b =
      Ok (mkHdr (numBytes h) (numSectors h)
            (take i (dataSectors h) ++ ss ++ drop (i + n) (dataSectors h)), b') ∧
    length ss = n ∧ NoDup ss ∧ Forall (λ s, 0 ≤ s < numBits b ∧ s ∉ bits_of b) ss ∧
    bitmap_wf b' ∧ numBits b' = numBits b ∧ bits_of b' = list_to_set ss ∪ bits_of b.
Proof.
  revert i h b. induction n as [|n IH]; intros i h b Hwf Hc Hl; cbn [Allocate_loop].
  { exists [], b. rewrite Nat.add_0_r, app_nil_l, take_drop. destruct h.
    split_and!; auto using NoDup_nil_2. set_solver. }
  destruct (Find_some b Hwf) as (r & b1 & E & Hr & Hnin & Hwf1 & Hn1 & Hb1 & Hc1); [lia|].
  unfold_M. rewrite E. unfold data_set. rewrite bool_decide_eq_true_2 by lia. unfold_M.
  rewrite Nat2Z.id. replace (Z.of_nat i + 1) with (Z.of_nat (S i)) by lia.
  destruct (IH (S i) (mkHdr (numBytes h) (numSectors h) (<[i := r]> (dataSectors h))) b1)
    as (ss & b' & -> & Hls & Hnd & Hss & Hwf' & Hn' & Hb'); [done|lia|cbn; rewrite length_insert; lia|].
  exists (r :: ss), b'. cbn [numBytes numSectors dataSectors]. split_and!.
  - do 3 f_equal. rewrite (take_S_r _ i r) by (apply list_lookup_insert_eq; lia).
    rewrite take_insert_ge, drop_insert_lt, <- app_assoc by lia. cbn [app].
    by replace (S i + n)%nat with (i + S n)%nat by lia.
  - cbn. by rewrite Hls.
  - constructor; [|done]. intros Hin. rewrite Forall_forall in Hss.
    destruct (Hss r Hin) as [_ H]. rewrite Hb1 in H. set_solver.
  - constructor; [done|]. eapply Forall_impl; [exact Hss|]. cbn. intros s [Hs1 Hs2].
    rewrite Hn1 in Hs1. rewrite Hb1 in Hs2. set_solver.
  - done.
  - congruence.
  - rewrite Hb', Hb1. cbn. set_solver.
Qed.

(** The loop leaves the array when there are more sectors than entries. *)
Lemma Allocate_loop_overflow n i h b : bitmap_wf b → Z.of_nat n ≤ clear_count b →
  (i ≤ length (dataSectors h) < i + n)%nat →
  Allocate_loop n (Z.of_nat i) h b = Err OutOfBounds.
Proof.
  revert i h b. induction n as [|n IH]; intros i h b Hwf Hc Hl; [lia|]. cbn [Allocate_loop].
  destruct (Find_some b Hwf) as (r & b1 & E & _ & _ & Hwf1 & _ & _ & Hc1); [lia|].
  unfold_M. rewrite E. unfold data_set. destruct (decide (i < length (dataSectors h))%nat).
  - rewrite bool_decide_eq_true_2 by lia. unfold_M.
    replace (Z.of_nat i + 1) with (Z.of_nat (S i)) by lia.
    apply IH; [done|lia|cbn; rewrite length_insert; lia].
  - by rewrite bool_decide_eq_false_2 by lia.
Qed.

Lemma divRoundUp_range n : 0 ≤ n →
  0 ≤ divRoundUp n SectorSize ∧ n ≤ SectorSize * divRoundUp n SectorSize < n + SectorSize.
Proof. intros Hn. unfold divRoundUp, SectorSize. case_bool_decide; lia. Qed.

Lemma Allocate_ok fileSize h b : hdr_shape h → bitmap_wf b → numBits b = NumSectors →
  0 ≤ fileSize ≤ MaxFileSize → divRoundUp fileSize SectorSize ≤ clear_count b →
  ∃ h' b', Allocate fileSize h b = Ok ((true, h'), b') ∧ hdr_ok h' ∧ numBytes h' = fileSize ∧
    bitmap_wf b' ∧ numBits b' = NumSectors ∧ Forall (λ s, s ∉ bits_of b) (data_of h') ∧
    bits_of b' = list_to_set (data_of h') ∪ bits_of b.
Proof.
  intros [Hb Hs Hl Hi] Hwf Hnb Hfs Hc. destruct (divRoundUp_range fileSize) as [Hd0 Hd1]; [lia|].
  assert (Hmax : divRoundUp fileSize SectorSize ≤ 30).
  { unfold MaxFileSize, NumDirect, SectorSize in *. change (Z.quot (128 - 2 * 4) 4) with 30 in *. lia. }
  unfold Allocate. unfold_M. rewrite NumClear_spec by done. cbn [numSectors].
  destruct (Z.ltb_spec (numBits b - Z.of_nat (size (bits_of b))) (divRoundUp fileSize SectorSize));
    [unfold clear_count in *; lia|].
  set (n := Z.to_nat (divRoundUp fileSize SectorSize)).
  destruct (Allocate_loop_spec n 0 (mkHdr fileSize (divRoundUp fileSize SectorSize) (dataSectors h)) b)
    as (ss & b' & E & Hls & Hnd & Hss & Hwf' & Hn' & Hb'); 
    [done|lia|cbn [dataSectors]; rewrite Hl; change (Z.to_nat NumDirect) with 30%nat; lia|].
  change (Z.of_nat 0) with 0 in E. rewrite E. cbn [numBytes numSectors dataSectors].
  eexists _, b'. split; [reflexivity|].
  assert (Hdata : data_of (mkHdr fileSize (divRoundUp fileSize SectorSize)
            (take 0 (dataSectors h) ++ ss ++ drop (0 + n) (dataSectors h))) = ss).
  { unfold data_of. cbn [numSectors dataSectors]. rewrite take_0. cbn [app].
    apply take_app_length'. by rewrite Hls. }
  rewrite Forall_and in Hss. destruct Hss as [Hss1 Hss2]. rewrite Hnb in Hss1.
  split_and!; try done.
  - split; [|cbn [numBytes]; lia|done|done|by rewrite Hdata|by rewrite Hdata].
    split; cbn [numBytes numSectors dataSectors].
    + unfold is_int, int_min, int_max, MaxFileSize, NumDirect, SectorSize in *.
      change (Z.quot (128 - 2 * 4) 4) with 30 in *. lia.
    + unfold is_int, int_min, int_max. lia.
    + rewrite take_0, !length_app, length_drop, Hls, Hl.
      change (Z.to_nat NumDirect) with 30%nat. cbn [length]. lia.
    + rewrite take_0. apply Forall_app_2; [done|]. apply Forall_app_2; [|by apply Forall_drop].
      eapply Forall_impl; [exact Hss1|]. cbn. unfold is_int, int_min, int_max.
      unfold NumSectors, SectorsPerTrack, NumTracks. lia.
  - congruence.
  - by rewrite Hdata.
  - by rewrite Hdata.
Qed.

Lemma Allocate_full fileSize h b : bitmap_wf b → clear_count b < divRoundUp fileSize SectorSize →
  ∃ h', Allocate fileSize h b = Ok ((false, h'), b).
Proof.
  intros Hwf Hc. unfold Allocate. unfold_M. rewrite NumClear_spec by done. cbn [numSectors].
  destruct (Z.ltb_spec (numBits b - Z.of_nat (size (bits_of b))) (divRoundUp fileSize SectorSize));
    [by eexists|unfold clear_count in Hc; lia].
Qed.

Lemma data_get_ok {S} i h s (st : S) : dataSectors h !! i = Some s →
  data_get (Z.of_nat i) h st = Ok (s, st).
Proof.
  intros H. unfold data_get. rewrite bool_decide_eq_true_2 by lia. by rewrite Nat2Z.id, H.
Qed.

Lemma data_of_lookup h i : hdr_ok h → (i < Z.to_nat (numSectors h))%nat →
  ∃ s, data_of h !! i = Some s ∧ dataSectors h !! i = Some s ∧ 0 ≤ s < NumSectors.
Proof.
  intros [[_ _ Hl _] _ _ Hm _ Hr] Hi.
  destruct (lookup_lt_is_Some_2 (dataSectors h) i) as [s Hs]; [rewrite Hl; lia|].
  assert (Hd : data_of h !! i = Some s) by (unfold data_of; by rewrite lookup_take_lt).
  exists s. split_and!; try done; eapply Forall_lookup_1 in Hr; eauto; cbn in Hr; lia.
Qed.

Lemma data_of_length h : hdr_ok h → length (data_of h) = Z.to_nat (numSectors h).
Proof. intros [[_ _ Hl _] _ _ Hm _ _]. unfold data_of. rewrite length_take, Hl. lia. Qed.

Lemma numSectors_nonneg h : hdr_ok h → 0 ≤ numSectors h.
Proof. intros [_ H0 -> _ _ _]. by apply divRoundUp_range. Qed.

Lemma Deallocate_ok h b : hdr_ok h → bitmap_wf b → numBits b = NumSectors →
  Forall (λ s, s ∈ bits_of b) (data_of h) →
  ∃ b', Deallocate h b = Ok (tt, b') ∧ bitmap_wf b' ∧ numBits b' = NumSectors ∧
        bits_of b' = bits_of b ∖ list_to_set (data_of h).
Proof.
  intros Hh Hwf Hn Hin. pose proof (data_of_length h Hh) as Hlen.
  unfold Deallocate. edestruct (for_loop_inv (λ i b',
    bitmap_wf b' ∧ numBits b' = NumSectors ∧
    bits_of b' = bits_of b ∖ list_to_set (take (Z.to_nat i) (data_of h)))) as (b' & E & H).
  3: { exists b'. split; [exact E|]. rewrite Z.add_0_l, Nat2Z.id, <- Hlen in H.
       by rewrite firstn_all in H. }
  - cbn. split_and!; [done|done|]. set_solver.
  - cbn. intros i b1 Hi (Hwf1 & Hn1 & Hb1).
    destruct (data_of_lookup h (Z.to_nat i) Hh) as (s & Hs & Hs' & Hr); [lia|].
    pose proof (data_get_ok (Z.to_nat i) h s b1 Hs') as Eg. rewrite Z2Nat.id in Eg by lia.
    unfold_M. rewrite Eg, Test_set by (try done; lia).
    assert (Hm : s ∈ bits_of b1).
    { rewrite Hb1. apply elem_of_difference. split; [by eapply Forall_lookup_1 in Hin|].
      rewrite elem_of_list_to_set. intros (j & Hj)%list_elem_of_lookup.
      apply lookup_take_Some in Hj as [Hj Hlt].
      pose proof (NoDup_lookup _ _ _ _ (ho_nodup h Hh) Hj Hs). lia. }
    rewrite bool_decide_eq_true_2 by done.
    destruct (Clear_set b1 s Hwf1) as (b2 & -> & Hwf2 & Hn2 & Hb2); [lia|].
    exists b2. split_and!; [done|done|congruence|].
    replace (Z.to_nat (i + 1)) with (S (Z.to_nat i)) by lia.
    rewrite Hb2, Hb1, (take_S_r _ _ s Hs), list_to_set_app_L. cbn. set_solver.
Qed.

(** Creating a file of at most 30 sectors takes, when enough sectors are
    free, exactly as many sectors as the length needs, all of them free before
    and now marked, different from each other; when they are not free it
    returns false and leaves the map alone; and releasing the header gives
    back exactly the sectors that were taken. *)
Theorem Allocate_takes_free_sectors fileSize h b :
  hdr_shape h → bitmap_wf b → numBits b = NumSectors → 0 ≤ fileSize ≤ MaxFileSize →
  ∃ ok h' b', Allocate fileSize h b = Ok ((ok, h'), b') ∧ bitmap_wf b' ∧
    ok = bool_decide (divRoundUp fileSize SectorSize ≤ clear_count b) ∧
    (ok = false → b' = b) ∧
    (ok = true → hdr_ok h' ∧ FileLength h' = fileSize ∧
       Forall (λ s, s ∉ bits_of b) (data_of h') ∧
       bits_of b' = list_to_set (data_of h') ∪ bits_of b ∧
       ∃ b'', Deallocate h' b' = Ok (tt, b'') ∧ bits_of b'' = bits_of b).
Proof.
  intros Hh Hwf Hn Hfs. destruct (decide (divRoundUp fileSize SectorSize ≤ clear_count b)) as [Hc|Hc].
  - destruct (Allocate_ok fileSize h b Hh Hwf Hn Hfs Hc)
      as (h' & b' & E & Hok & Hl & Hwf' & Hn' & Hfree & Hb').
    exists true, h', b'. rewrite bool_decide_eq_true_2 by done. split_and!; try done.
    intros _. split_and!; try done.
    destruct (Deallocate_ok h' b' Hok Hwf' Hn') as (b'' & E'' & _ & _ & Hb'').
    { apply Forall_forall. intros s Hs. rewrite Hb'. set_solver. }
    exists b''. split; [done|]. rewrite Hb'', Hb'. rewrite Forall_forall in Hfree. set_solver.
  - destruct (Allocate_full fileSize h b Hwf) as [h' E]; [lia|].
    exists false, h', b. rewrite bool_decide_eq_false_2 by done. split_and!; done.
Qed.

(** [Allocate] never compares the length with [MaxFileSize]: a file that
    needs more than [NumDirect] sectors, with enough of them free, is written
    past the end of [dataSectors]. *)
Theorem Allocate_past_table fileSize h b :
  hdr_shape h → bitmap_wf b → numBits b = NumSectors → MaxFileSize < fileSize →
  divRoundUp fileSize SectorSize ≤ clear_count b →
  Allocate fileSize h b = Err OutOfBounds.
Proof.
  intros [_ _ Hl _] Hwf Hn Hfs Hc. assert (HM : MaxFileSize = 3840) by done.
  destruct (divRoundUp_range fileSize) as [Hd0 Hd1]; [lia|].
  unfold Allocate. unfold_M. rewrite NumClear_spec by done. cbn [numSectors].
  destruct (Z.ltb_spec (numBits b - Z.of_nat (size (bits_of b))) (divRoundUp fileSize SectorSize));
    [unfold clear_count in *; lia|].
  pose proof (Allocate_loop_overflow (Z.to_nat (divRoundUp fileSize SectorSize)) 0
    (mkHdr fileSize (divRoundUp fileSize SectorSize) (dataSectors h)) b Hwf) as E.
  change (Z.of_nat 0) with 0 in E. rewrite E; [done|lia|].
  cbn [dataSectors]. rewrite Hl. change (Z.to_nat NumDirect) with 30%nat.
  unfold SectorSize in *. lia.
Qed.

(** A fresh header and an empty free map. *)
Definition blank_header : FileHeader := mkHdr 0 0 (replicate 30 0).
Definition blank_map : BitMap := mkBitMap 1024 32 (replicate 32 0).

Lemma blank_header_shape : hdr_shape blank_header.
Proof.
  split; try done. apply Forall_replicate. done.
Defined.

Lemma blank_map_wf : bitmap_wf blank_map.
Proof. split; try done. apply Forall_replicate. unfold is_uint. lia. Defined.

Lemma Allocate_takes_free_sectors_witness :
  ∃ ok h' b', Allocate 300 blank_header blank_map = Ok ((ok, h'), b') ∧ bitmap_wf b' ∧
    ok = bool_decide (divRoundUp 300 SectorSize ≤ clear_count blank_map) ∧
    (ok = false → b' = blank_map) ∧
    (ok = true → hdr_ok h' ∧ FileLength h' = 300 ∧
       Forall (λ s, s ∉ bits_of blank_map) (data_of h') ∧
       bits_of b' = list_to_set (data_of h') ∪ bits_of blank_map ∧
       ∃ b'', Deallocate h' b' = Ok (tt, b'') ∧ bits_of b'' = bits_of blank_map).
Proof.
  apply (Allocate_takes_free_sectors 300 blank_header blank_map blank_header_shape blank_map_wf).
  - reflexivity.
  - split; discriminate.
Defined.

Lemma Allocate_past_table_witness : Allocate 3841 blank_header blank_map = Err OutOfBounds.
Proof.
  apply (Allocate_past_table 3841 blank_header blank_map blank_header_shape blank_map_wf).
  - reflexivity.
  - reflexivity.
  - vm_compute. discriminate.
Defined.
