(* ===== verification/OpenFile.v ===== *)
(** * OpenFile: reading and writing an open file, filesys/openfile.cc

    A request names bytes, the disk only transfers sectors.  [ReadAt] and
    [WriteAt] are the code; the theorem says that on the bytes of the file
    ([file_bytes]) they are a slice and the replacement of a slice, and that
    no sector outside the file changes.

    Buffers returned by [new char[n]] hold [junk]: any bytes at all. *)

From S2P Require Import Prelude Bitmap Machine Disk FileHdr.

(** class [OpenFile]; a request is the bytes it transfers. *)
Record OpenFile := mkOpen { hdr : FileHeader; seekPosition : Z }.

(** [bcopy(&buf[off], into, n)]: the bytes copied. *)
Definition bcopy_from {S} (buf : list Z) (off n : Z) : M S (list Z) :=
  if bool_decide (0 ≤ off) && bool_decide (off + n ≤ Z.of_nat (length buf))
  then mret (take (Z.to_nat n) (drop (Z.to_nat off) buf)) else fail OutOfBounds.

(** [bcopy(data, &buf[off], length)]. *)
Definition bcopy_to {S} (data : list Z) (buf : list Z) (off : Z) : M S (list Z) :=
  if bool_decide (0 ≤ off) && bool_decide (off + Z.of_nat (length data) ≤ Z.of_nat (length buf))
  then mret (list_inserts (Z.to_nat off) data buf) else fail OutOfBounds.

(** [new char[n]]. *)
Definition new_buf {S} (junk : Z → Z) (n : Z) : M S (list Z) :=
  if bool_decide (0 ≤ n) then mret (junk <$> seqZ 0 n) else fail BadPointer.

Lemma bcopy_from_ok {S} buf off n (s : S) : 0 ≤ off → off + n ≤ Z.of_nat (length buf) →
  bcopy_from buf off n s = Ok (take (Z.to_nat n) (drop (Z.to_nat off) buf), s).
Proof. intros. unfold bcopy_from. by rewrite !bool_decide_eq_true_2. Qed.

Lemma bcopy_to_ok {S} data buf off (s : S) : 0 ≤ off →
  off + Z.of_nat (length data) ≤ Z.of_nat (length buf) →
  bcopy_to data buf off s = Ok (list_inserts (Z.to_nat off) data buf, s).
Proof. intros. unfold bcopy_to. by rewrite !bool_decide_eq_true_2. Qed.

Lemma new_buf_ok {S} junk n (s : S) : 0 ≤ n → new_buf junk n s = Ok (junk <$> seqZ 0 n, s).
Proof. intros. unfold new_buf. by rewrite bool_decide_eq_true_2. Qed.

Section Code.
Context {D : Type} `{!SectorDevice D}.

(** [for (i = first; ...; i++) synchDisk->ReadSector(hdr->ByteToSector(i * SectorSize), ...)],
    for [n] sectors: the buffer is filled from its start. *)
Fixpoint read_sectors (n : nat) (i : Z) (h : FileHeader) : M D (list Z) :=
  match n with
  | O => mret []
  | S n =>
      s ← ByteToSector (i * SectorSize) h;
      data ← ReadSector s;
      rest ← read_sectors n (i + 1) h;
      mret (data ++ rest)
  end.

(** The same loop of [WriteAt], from offset [off] of the buffer. *)
Fixpoint write_sectors (n : nat) (i : Z) (off : nat) (buf : list Z) (h : FileHeader) : M D unit :=
  match n with
  | O => mret tt
  | S n =>
      s ← ByteToSector (i * SectorSize) h;
      WriteSector s (take (Z.to_nat SectorSize) (drop off buf)) ≫= λ _,
      write_sectors n (i + 1) (off + Z.to_nat SectorSize) buf h
  end.

Definition ReadAt (junk : Z → Z) (h : FileHeader) (n position : Z) : M D (list Z) :=
  let fileLength := FileLength h in
  if bool_decide (n ≤ 0) || (position >=? fileLength) then mret []
  else
    let n := if bool_decide (sint (position + n) > fileLength) then fileLength - position else n in
    let firstSector := divRoundDown position SectorSize in
    let lastSector := divRoundDown (sint (position + n) - 1) SectorSize in
    let numSectors := 1 + lastSector - firstSector in
    new_buf junk (numSectors * SectorSize) ≫= λ _,
    buf ← read_sectors (Z.to_nat (lastSector + 1 - firstSector)) firstSector h;
    bcopy_from buf (position - firstSector * SectorSize) n.

(** [from] holds the bytes to be written, [n] of them. *)
Definition WriteAt (junk : Z → Z) (h : FileHeader) (from : list Z) (n position : Z) : M D Z :=
  let fileLength := FileLength h in
  if bool_decide (n ≤ 0) || (position >=? fileLength) then mret 0
  else
    let n := if bool_decide (sint (position + n) > fileLength) then fileLength - position else n in
    let firstSector := divRoundDown position SectorSize in
    let lastSector := divRoundDown (sint (position + n) - 1) SectorSize in
    let numSectors := 1 + lastSector - firstSector in
    buf ← new_buf junk (numSectors * SectorSize);
    let firstAligned := bool_decide (position = firstSector * SectorSize) in
    let lastAligned := bool_decide (position + n = (lastSector + 1) * SectorSize) in
    buf ← (if negb firstAligned then
             r ← ReadAt junk h SectorSize (firstSector * SectorSize); bcopy_to r buf 0
           else mret buf);
    buf ← (if negb lastAligned && (bool_decide (firstSector ≠ lastSector) || firstAligned) then
             r ← ReadAt junk h SectorSize (lastSector * SectorSize);
             bcopy_to r buf ((lastSector - firstSector) * SectorSize)
           else mret buf);
    data ← bcopy_from from 0 n;
    buf ← bcopy_to data buf (position - firstSector * SectorSize);
    write_sectors (Z.to_nat (lastSector + 1 - firstSector)) firstSector 0 buf h ≫= λ _,
    mret n.

Definition new_OpenFile (sector : Z) : M D OpenFile :=
  h ← FetchFrom sector; mret (mkOpen h 0).

Definition Seek (position : Z) (f : OpenFile) : OpenFile := mkOpen (hdr f) position.

Definition Read (junk : Z → Z) (n : Z) (f : OpenFile) : M D (list Z * OpenFile) :=
  r ← ReadAt junk (hdr f) n (seekPosition f);
  mret (r, mkOpen (hdr f) (seekPosition f + Z.of_nat (length r))).

Definition Write (junk : Z → Z) (into : list Z) (n : Z) (f : OpenFile) : M D (Z * OpenFile) :=
  r ← WriteAt junk (hdr f) into n (seekPosition f);
  mret (r, mkOpen (hdr f) (seekPosition f + r)).

Definition Length (f : OpenFile) : Z := FileLength (hdr f).

End Code.

(** ** The bytes of a file *)

Definition sector_at (ss : list (list Z)) (s : Z) : list Z := default [] (ss !! Z.to_nat s).
Definition blocks_of (ss : list (list Z)) (h : FileHeader) : list (list Z) :=
  sector_at ss <$> data_of h.
Definition file_bytes (ss : list (list Z)) (h : FileHeader) : list Z :=
  take (Z.to_nat (numBytes h)) (concat (blocks_of ss h)).

(** The shape of the disk's contents. *)
Definition disk_shape (ss : list (list Z)) : Prop :=
  length ss = Z.to_nat NumSectors ∧ Forall is_sector ss.

(** *** Blocks of equal size *)

Lemma concat_length_blocks (k : nat) (bs : list (list Z)) :
  Forall (λ b, length b = k) bs → length (concat bs) = (k * length bs)%nat.
Proof. induction 1 as [|b bs Hb _ IH]; cbn; [lia|]. rewrite length_app, IH, Hb. lia. Qed.

Lemma take_blocks (k n : nat) (bs : list (list Z)) : Forall (λ b, length b = k) bs →
  concat (take n bs) = take (k * n) (concat bs).
Proof.
  intros H. revert n. induction H as [|b bs Hb _ IH]; intros [|n]; cbn [take concat];
    rewrite ?take_nil, ?Nat.mul_0_r; auto.
  rewrite IH, take_app, Hb. f_equal; [by rewrite take_ge by lia|]. f_equal. lia.
Qed.

Lemma drop_blocks (k n : nat) (bs : list (list Z)) : Forall (λ b, length b = k) bs →
  concat (drop n bs) = drop (k * n) (concat bs).
Proof.
  intros H. revert n. induction H as [|b bs Hb _ IH]; intros [|n]; cbn [drop concat];
    rewrite ?drop_nil, ?Nat.mul_0_r; auto.
  rewrite IH, drop_app, Hb. rewrite (drop_ge b) by lia. cbn. f_equal. lia.
Qed.

Lemma sector_at_ok ss s : disk_shape ss → 0 ≤ s < NumSectors →
  ss !! Z.to_nat s = Some (sector_at ss s) ∧ is_sector (sector_at ss s).
Proof.
  intros [Hl Hs] Hr. destruct (lookup_lt_is_Some_2 ss (Z.to_nat s)) as [x Hx]; [lia|].
  unfold sector_at. rewrite Hx. split; [done|]. by eapply Forall_lookup_1 in Hs.
Qed.

Lemma blocks_of_shape ss h : disk_shape ss → hdr_ok h →
  length (blocks_of ss h) = Z.to_nat (numSectors h) ∧ Forall is_sector (blocks_of ss h).
Proof.
  intros Hss Hh. unfold blocks_of. rewrite length_fmap, data_of_length by done. split; [done|].
  apply Forall_fmap. eapply Forall_impl; [exact (ho_range h Hh)|]. intros s Hs. cbn.
  by apply sector_at_ok.
Qed.

Lemma sector_blocks bs : Forall is_sector bs → Forall (λ b, length b = 128%nat) bs.
Proof. intros H. eapply Forall_impl; [exact H|]. by intros b [Hb _]. Qed.

Lemma file_bytes_spec ss h : disk_shape ss → hdr_ok h →
  length (file_bytes ss h) = Z.to_nat (numBytes h) ∧
  length (concat (blocks_of ss h)) = (128 * Z.to_nat (numSectors h))%nat ∧
  Forall is_byte (concat (blocks_of ss h)) ∧
  0 ≤ numBytes h ≤ 128 * numSectors h ∧ 128 * numSectors h < numBytes h + 128 ∧ numSectors h ≤ 30.
Proof.
  intros Hss Hh. destruct (blocks_of_shape ss h Hss Hh) as [Hl Hb].
  pose proof (concat_length_blocks 128 _ (sector_blocks _ Hb)) as Hc. rewrite Hl in Hc.
  destruct (divRoundUp_range (numBytes h) (ho_bytes h Hh)) as [H0 H1].
  rewrite <- (ho_sectors h Hh) in *. pose proof (ho_max h Hh). pose proof (ho_bytes h Hh).
  change NumDirect with 30 in *. unfold SectorSize in *.
  unfold file_bytes. rewrite length_take, Hc. split_and!; try lia.
  apply Forall_concat. eapply Forall_impl; [exact Hb|]. by intros b [_ ?].
Qed.

(** *** The loops *)

Section Proofs.
Context {D : Type} `{!SectorDevice D} `{!SectorDeviceOK D}.
Implicit Types (d : D) (h : FileHeader).

Lemma ByteToSector_ok {S} h (i : nat) (st : S) : hdr_ok h → (i < Z.to_nat (numSectors h))%nat →
  ∃ s, ByteToSector (Z.of_nat i * SectorSize) h st = Ok (s, st) ∧ data_of h !! i = Some s ∧
       0 ≤ s < NumSectors.
Proof.
  intros Hh Hi. destruct (data_of_lookup h i Hh Hi) as (s & Hs & Hs' & Hr). exists s.
  unfold ByteToSector. rewrite Z.quot_mul by done. by rewrite (data_get_ok i h s).
Qed.

Lemma read_sectors_spec n i h d : hdr_ok h → dev_wf d → (i + n ≤ Z.to_nat (numSectors h))%nat →
  ∃ d', read_sectors n (Z.of_nat i) h d =
          Ok (concat (take n (drop i (blocks_of (sectors d) h))), d') ∧
        dev_wf d' ∧ sectors d' = sectors d.
Proof.
  revert i d. induction n as [|n IH]; intros i d Hh Hd Hi; cbn [read_sectors].
  { exists d. rewrite take_0. done. }
  destruct (ByteToSector_ok h i d Hh) as (s & E & Hs & Hr); [lia|].
  unfold_M. rewrite E.
  destruct (ReadSector_ok d s Hd Hr) as (data & d1 & Hdata & -> & Hd1 & Hs1).
  replace (Z.of_nat i + 1) with (Z.of_nat (S i)) by lia.
  destruct (IH (S i) d1 Hh Hd1) as (d2 & -> & Hd2 & Hs2); [lia|].
  exists d2. rewrite Hs2, Hs1. split_and!; try done. do 2 f_equal.
  rewrite (drop_S (blocks_of (sectors d) h) data i); [done|].
  unfold blocks_of. rewrite list_lookup_fmap, Hs. cbn. unfold sector_at. by rewrite Hdata.
Qed.

(** A slice of a slice. *)
Lemma slice_slice (c : list Z) (a k o n len m : nat) : (len ≤ length c)%nat →
  (o + n ≤ k)%nat → (a + o + n ≤ len)%nat → (n = m ∨ (n ≤ m ∧ a + o + n = len))%nat →
  take n (drop o (take k (drop a c))) = take m (drop (a + o) (take len c)).
Proof.
  intros Hlen Ho Ha Hm. apply list_eq. intros i.
  destruct (decide (i < n)%nat) as [Hi|Hi].
  - rewrite !lookup_take_lt, !lookup_drop, !lookup_take_lt, lookup_drop by lia. f_equal. lia.
  - rewrite !lookup_ge_None_2; [done|..]; rewrite ?length_take, ?length_drop, ?length_take; lia.
Qed.

(** What the arithmetic of a request in range comes to: the number of bytes,
    and the sectors they lie in. *)
Lemma request_range h n pos : hdr_ok h → 0 ≤ pos < numBytes h → 0 < n → is_int (pos + n) →
  let n' := Z.min n (numBytes h - pos) in
  (if bool_decide (sint (pos + n) > numBytes h) then numBytes h - pos else n) = n' ∧
  sint (pos + n') = pos + n' ∧
  ∃ f cnt : nat, divRoundDown pos SectorSize = Z.of_nat f ∧ (0 < cnt)%nat ∧
    divRoundDown (pos + n' - 1) SectorSize = Z.of_nat f + Z.of_nat cnt - 1 ∧
    (f + cnt ≤ Z.to_nat (numSectors h))%nat ∧
    128 * Z.of_nat f ≤ pos < 128 * Z.of_nat f + 128 ∧
    128 * (Z.of_nat f + Z.of_nat cnt - 1) < pos + n' ≤ 128 * (Z.of_nat f + Z.of_nat cnt).
Proof.
  intros Hh Hpos Hn Hint n'.
  destruct (divRoundUp_range (numBytes h) (ho_bytes h Hh)) as [H0 H1].
  rewrite <- (ho_sectors h Hh) in *.
  pose proof (hs_bytes h (ho_shape h Hh)) as Hb. rewrite (sint_id (pos + n)) by done. split.
  { unfold n'. case_bool_decide; lia. }
  split. { apply sint_id. unfold is_int in *. lia. }
  unfold divRoundDown, SectorSize in *.
  exists (Z.to_nat (pos / 128)), (Z.to_nat ((pos + n' - 1) / 128 - pos / 128 + 1)).
  rewrite !Z.quot_div_nonneg by lia.
  assert (pos / 128 ≤ (pos + n' - 1) / 128) by (apply Z.div_le_mono; lia).
  assert (0 ≤ pos / 128) by (apply Z.div_pos; lia).
  rewrite !Z2Nat.id by lia. clear H0 Hint Hb. split_and!; lia.
Qed.

Lemma ReadAt_ok junk h n pos d : hdr_ok h → dev_wf d → 0 ≤ pos → is_int (pos + n) →
  ∃ d', ReadAt junk h n pos d =
          Ok (take (Z.to_nat n) (drop (Z.to_nat pos) (file_bytes (sectors d) h)), d') ∧
        dev_wf d' ∧ sectors d' = sectors d.
Proof.
  intros Hh Hd Hpos Hint. pose proof (dev_shape d Hd) as Hss.
  destruct (file_bytes_spec (sectors d) h Hss Hh) as (Hl & Hc & _ & Hnb & Hnb' & _).
  unfold ReadAt, FileLength. destruct (decide (n ≤ 0 ∨ numBytes h ≤ pos)) as [Hz|Hz].
  { replace (_ || _) with true.
    2: { destruct (Z.geb_spec pos (numBytes h)); [by rewrite orb_true_r|].
         by rewrite bool_decide_eq_true_2 by lia. }
    exists d. split_and!; try done. unfold_M. do 2 f_equal. symmetry. destruct Hz.
    - by replace (Z.to_nat n) with 0%nat by lia.
    - by rewrite drop_ge, take_nil by lia. }
  rewrite bool_decide_eq_false_2 by lia. destruct (Z.geb_spec pos (numBytes h)); [lia|]. cbn [orb].
  destruct (request_range h n pos) as (-> & -> & f & cnt & -> & Hcnt & -> & Hfc & Hf & Hlast);
    [done|lia|lia|done|].
  set (n' := Z.min n (numBytes h - pos)) in *.
  unfold new_buf. rewrite bool_decide_eq_true_2 by (unfold SectorSize; lia). unfold_M.
  replace (Z.to_nat (Z.of_nat f + Z.of_nat cnt - 1 + 1 - Z.of_nat f)) with cnt by lia.
  destruct (read_sectors_spec cnt f h d Hh Hd Hfc) as (d' & -> & Hd' & Hs').
  exists d'. split; [|done]. destruct (blocks_of_shape (sectors d) h Hss Hh) as [Hbl Hb].
  apply sector_blocks in Hb.
  rewrite (take_blocks 128) by (by apply Forall_drop). rewrite (drop_blocks 128) by done.
  unfold bcopy_from, SectorSize. rewrite length_take, length_drop, Hc, !bool_decide_eq_true_2 by lia.
  cbn [andb]. unfold_M. do 2 f_equal. unfold file_bytes.
  replace (Z.to_nat pos) with (128 * f + Z.to_nat (pos - Z.of_nat f * 128))%nat by lia.
  apply slice_slice; lia.
Qed.

(** *** Writing *)

Lemma concat_insert_block (k i : nat) (bs : list (list Z)) data :
  Forall (λ b, length b = k) bs → (i < length bs)%nat → length data = k →
  concat (<[i := data]> bs) = list_inserts (k * i) data (concat bs).
Proof.
  intros H. revert i. induction H as [|b bs Hb _ IH]; intros i Hi Hd; [cbn in Hi; lia|].
  destruct i as [|i]; cbn [concat insert list_insert].
  - rewrite Nat.mul_0_r. symmetry. apply list_inserts_0_r. lia.
  - rewrite IH by (cbn in Hi; lia).
    replace (k * S i)%nat with (length b + k * i)%nat by lia. by rewrite list_inserts_app_r.
Qed.

Lemma blocks_of_insert ss h i s data : disk_shape ss → hdr_ok h → data_of h !! i = Some s →
  blocks_of (<[Z.to_nat s := data]> ss) h = <[i := data]> (blocks_of ss h).
Proof.
  intros [Hl _] Hh Hs. unfold blocks_of. apply list_eq. intros j. rewrite list_lookup_fmap.
  pose proof (Forall_lookup_1 _ _ _ _ (ho_range h Hh) Hs) as Hr. cbn in Hr.
  destruct (decide (j = i)) as [->|Hne].
  - rewrite list_lookup_insert_eq by (rewrite length_fmap; by eapply lookup_lt_Some).
    rewrite Hs. cbn. unfold sector_at. by rewrite list_lookup_insert_eq by lia.
  - rewrite list_lookup_insert_ne, list_lookup_fmap by done.
    destruct (data_of h !! j) as [t|] eqn:Ht; [|done]. cbn. f_equal. unfold sector_at.
    rewrite list_lookup_insert_ne; [done|].
    pose proof (Forall_lookup_1 _ _ _ _ (ho_range h Hh) Ht) as Hr'. cbn in Hr'.
    intros E. apply Hne. apply (NoDup_lookup _ _ _ t (ho_nodup h Hh) Ht).
    rewrite Hs. f_equal. lia.
Qed.

(** [ss'] differs from [ss] only in the sectors of [h]. *)
Definition only_file h (ss ss' : list (list Z)) : Prop :=
  ∀ s, 0 ≤ s → s ∉ data_of h → ss' !! Z.to_nat s = ss !! Z.to_nat s.

Lemma write_sectors_spec n i off buf h d : hdr_ok h → dev_wf d →
  (i + n ≤ Z.to_nat (numSectors h))%nat → length buf = (off + 128 * n)%nat → Forall is_byte buf →
  ∃ d', write_sectors n (Z.of_nat i) off buf h d = Ok (tt, d') ∧ dev_wf d' ∧
    concat (blocks_of (sectors d') h) =
      list_inserts (128 * i) (drop off buf) (concat (blocks_of (sectors d) h)) ∧
    only_file h (sectors d) (sectors d').
Proof.
  revert i off d. induction n as [|n IH]; intros i off d Hh Hd Hi Hl Hb; cbn [write_sectors].
  { exists d. rewrite drop_ge by lia. done. }
  destruct (ByteToSector_ok h i d Hh) as (s & E & Hs & Hr); [lia|].
  unfold_M. rewrite E. set (data := take (Z.to_nat SectorSize) (drop off buf)).
  assert (Hdata : is_sector data).
  { unfold data. split; [rewrite length_take, length_drop; change (Z.to_nat SectorSize) with 128%nat; lia|].
    by apply Forall_take, Forall_drop. }
  destruct (WriteSector_ok d s data Hd Hr Hdata) as (d1 & -> & Hd1 & Hs1).
  replace (Z.of_nat i + 1) with (Z.of_nat (S i)) by lia.
  change (Z.to_nat SectorSize) with 128%nat in *.
  destruct (IH (S i) (off + 128)%nat d1 Hh Hd1) as (d2 & -> & Hd2 & Hc2 & Ho2); [lia|lia|done|].
  pose proof (dev_shape d Hd) as Hss. destruct (blocks_of_shape (sectors d) h Hss Hh) as [Hbl Hbs].
  exists d2. split_and!; [done|done|..].
  - rewrite Hc2, Hs1, (blocks_of_insert _ _ i) by done.
    rewrite (concat_insert_block 128) by (try apply sector_blocks; try done; try lia; apply Hdata).
    rewrite <- (take_drop 128 (drop off buf)), list_inserts_app_l, drop_drop. fold data.
    destruct Hdata as [-> _]. change (Z.to_nat SectorSize) with 128%nat. f_equal. lia.
  - intros t Ht Hnt. rewrite Ho2 by done. rewrite Hs1. apply list_lookup_insert_ne.
    intros Heq. apply Hnt. replace t with s by lia. by eapply list_elem_of_lookup_2.
Qed.

Lemma Forall_inserts (P : Z → Prop) i k l : Forall P k → Forall P l → Forall P (list_inserts i k l).
Proof.
  intros Hk Hl. revert i. induction Hk as [|x k Hx _ IH]; intros i; cbn; [done|].
  apply Forall_insert; auto.
Qed.

(** One of the partial sectors read before the copy. *)
Lemma patch_ok junk h (cond : bool) (sec : nat) (off : Z) buf d : hdr_ok h → dev_wf d →
  Forall is_byte buf → (128 * sec ≤ Z.to_nat (numBytes h))%nat →
  0 ≤ off → off + 128 ≤ Z.of_nat (length buf) →
  ∃ buf' d', (if cond then r ← ReadAt junk h SectorSize (Z.of_nat sec * SectorSize); bcopy_to r buf off
              else mret buf) d = Ok (buf', d') ∧ dev_wf d' ∧ sectors d' = sectors d ∧
    length buf' = length buf ∧ Forall is_byte buf' ∧
    ∀ q p : nat, Z.of_nat p = 128 * Z.of_nat sec + (Z.of_nat q - off) →
      (p < Z.to_nat (numBytes h))%nat → (q < length buf)%nat →
      buf' !! q = if cond && bool_decide (off ≤ Z.of_nat q < off + 128)
                  then concat (blocks_of (sectors d) h) !! p else buf !! q.
Proof.
  intros Hh Hd Hbuf Hsec Hoff Hl. destruct cond; [|by exists buf, d].
  pose proof (dev_shape d Hd) as Hss.
  destruct (file_bytes_spec (sectors d) h Hss Hh) as (Hlf & Hc & Hby & Hnb & Hnb' & Hmax).
  destruct (ReadAt_ok junk h SectorSize (Z.of_nat sec * SectorSize) d Hh Hd) as (d' & E & Hd' & Hs').
  { unfold SectorSize; lia. } { unfold is_int, int_min, int_max, SectorSize. lia. }
  unfold_M. rewrite E. set (r := take _ (drop _ (file_bytes _ h))).
  assert (Hr : length r = Nat.min 128 (Z.to_nat (numBytes h) - 128 * sec)).
  { unfold r. rewrite length_take, length_drop, Hlf. unfold SectorSize. lia. }
  unfold bcopy_to. rewrite !bool_decide_eq_true_2 by lia. cbn [andb]. unfold_M.
  exists (list_inserts (Z.to_nat off) r buf), d'.
  rewrite length_inserts. split_and!; try done.
  - apply Forall_inserts; [|done]. unfold r, file_bytes.
    by apply Forall_take, Forall_drop, Forall_take.
  - intros q p Hp Hpn Hq. case_bool_decide as Hin; cbn [andb].
    + rewrite list_lookup_inserts by lia. unfold r.
      rewrite lookup_take_lt, lookup_drop by (unfold SectorSize; lia). unfold file_bytes.
      rewrite lookup_take_lt by (unfold SectorSize; lia). f_equal. unfold SectorSize. lia.
    + apply not_and_l in Hin as [Hin|Hin].
      * apply list_lookup_inserts_lt. lia.
      * apply list_lookup_inserts_ge. lia.
Qed.

(** The buffer that replaces the sectors of the request agrees with the file
    around the bytes of the request: the file changes only there. *)
Lemma write_back_bytes (c buf data : list Z) (f cnt pos nb : nat) :
  (nb ≤ length c)%nat → length buf = (128 * cnt)%nat → (128 * (f + cnt) ≤ length c)%nat →
  (128 * f ≤ pos)%nat → (pos + length data ≤ 128 * (f + cnt))%nat → (pos + length data ≤ nb)%nat →
  (∀ q : nat, (q < 128 * cnt)%nat → (128 * f + q < nb)%nat →
     (128 * f + q < pos ∨ pos + length data ≤ 128 * f + q)%nat → buf !! q = c !! (128 * f + q)%nat) →
  take nb (list_inserts (128 * f) (list_inserts (pos - 128 * f) data buf) c) =
  list_inserts pos data (take nb c).
Proof.
  intros Hnb Hbuf Hc Hf Hp1 Hp2 Hag. apply list_eq. intros p.
  destruct (decide (p < nb)%nat) as [Hp|Hp].
  2: { rewrite !lookup_ge_None_2; [done|..]; rewrite ?length_inserts, ?length_take, ?length_inserts; lia. }
  rewrite lookup_take_lt by done.
  assert (Hb : length (list_inserts (pos - 128 * f) data buf) = (128 * cnt)%nat)
    by by rewrite length_inserts.
  destruct (decide (128 * f ≤ p < 128 * (f + cnt))%nat) as [Hin|Hout].
  - rewrite list_lookup_inserts by lia.
    destruct (decide (pos ≤ p < pos + length data)%nat) as [Hd|Hd].
    + rewrite !list_lookup_inserts by (rewrite ?length_take; lia). f_equal. lia.
    + assert (Hq : (p < pos ∨ pos + length data ≤ p)%nat) by lia.
      transitivity (c !! p).
      * destruct Hq; [rewrite list_lookup_inserts_lt by lia|rewrite list_lookup_inserts_ge by lia];
          rewrite Hag by lia; f_equal; lia.
      * destruct Hq; [rewrite list_lookup_inserts_lt by lia|rewrite list_lookup_inserts_ge by lia];
          by rewrite lookup_take_lt.
  - transitivity (c !! p).
    + assert (Hq : (p < 128 * f ∨ 128 * f + 128 * cnt ≤ p)%nat) by lia.
      destruct Hq; [by rewrite list_lookup_inserts_lt by lia|by rewrite list_lookup_inserts_ge by lia].
    + assert (Hq : (p < pos ∨ pos + length data ≤ p)%nat) by lia.
      destruct Hq; [rewrite list_lookup_inserts_lt by lia|rewrite list_lookup_inserts_ge by lia];
        by rewrite lookup_take_lt.
Qed.

(** The two reads before the copy leave in the buffer every byte of the file
    in the request's sectors that the request does not replace. *)
Lemma assemble_ok junk h (f cnt : nat) (pos n : Z) buf d : hdr_ok h → dev_wf d →
  Forall is_byte buf → length buf = (128 * cnt)%nat → (0 < cnt)%nat → pos + n ≤ numBytes h → 0 < n →
  128 * Z.of_nat f ≤ pos < 128 * Z.of_nat f + 128 →
  128 * (Z.of_nat f + Z.of_nat cnt - 1) < pos + n ≤ 128 * (Z.of_nat f + Z.of_nat cnt) →
  let firstAligned := bool_decide (pos = Z.of_nat f * SectorSize) in
  let last := Z.of_nat (f + cnt - 1) in
  let lastAligned := bool_decide (pos + n = (last + 1) * SectorSize) in
  ∃ buf1 d1 buf2 d2,
    (if negb firstAligned then
       r ← ReadAt junk h SectorSize (Z.of_nat f * SectorSize); bcopy_to r buf 0
     else mret buf) d = Ok (buf1, d1) ∧
    (if negb lastAligned && (bool_decide (Z.of_nat f ≠ last) || firstAligned) then
       r ← ReadAt junk h SectorSize (last * SectorSize);
       bcopy_to r buf1 ((last - Z.of_nat f) * SectorSize)
     else mret buf1) d1 = Ok (buf2, d2) ∧
    dev_wf d2 ∧ sectors d2 = sectors d ∧ length buf2 = length buf ∧ Forall is_byte buf2 ∧
    ∀ q : nat, (q < 128 * cnt)%nat → (128 * f + q < Z.to_nat (numBytes h))%nat →
      128 * Z.of_nat f + Z.of_nat q < pos ∨ pos + n ≤ 128 * Z.of_nat f + Z.of_nat q →
      buf2 !! q = concat (blocks_of (sectors d) h) !! (128 * f + q)%nat.
Proof.
  intros Hh Hd Hbufb Hbuf Hcnt Hnb Hn Hf Hlast fA last lA.
  destruct (patch_ok junk h (negb fA) f 0 buf d Hh Hd Hbufb)
    as (buf1 & d1 & E1 & Hd1 & Hs1 & Hl1 & Hb1 & Hg1); [lia|lia|lia|].
  destruct (patch_ok junk h (negb lA && (bool_decide (Z.of_nat f ≠ last) || fA))
    (f + cnt - 1) ((last - Z.of_nat f) * SectorSize) buf1 d1 Hh Hd1 Hb1)
    as (buf2 & d2 & E2 & Hd2 & Hs2 & Hl2 & Hb2 & Hg2); [lia|unfold last, SectorSize; lia..|].
  exists buf1, d1, buf2, d2. split_and!; try done; [congruence|lia|].
  intros q Hq Hp Hout.
  rewrite (Hg2 q (128 * f + q)%nat) by (unfold last, SectorSize; lia). rewrite Hs1.
  rewrite (Hg1 q (128 * f + q)%nat) by lia. clear Hg1 Hg2 E1 E2.
  unfold fA, lA, last, SectorSize in *.
  destruct (decide (pos = Z.of_nat f * 128)) as [Hfa|Hfa];
    destruct (decide (pos + n = (Z.of_nat (f + cnt - 1) + 1) * 128)) as [Hla|Hla];
    rewrite ?(bool_decide_eq_true_2 (pos = _)), ?(bool_decide_eq_false_2 (pos = _)),
      ?(bool_decide_eq_true_2 (pos + n = _)), ?(bool_decide_eq_false_2 (pos + n = _)) by done;
    cbn [negb andb orb]; repeat case_bool_decide; cbn [andb orb negb]; first [done|lia].
Qed.

Lemma WriteAt_ok junk h from n pos d : hdr_ok h → dev_wf d → (∀ i, is_byte (junk i)) →
  Forall is_byte from → 0 ≤ pos → is_int (pos + n) → n ≤ Z.of_nat (length from) →
  ∃ d', WriteAt junk h from n pos d = Ok (Z.max 0 (Z.min n (numBytes h - pos)), d') ∧ dev_wf d' ∧
    file_bytes (sectors d') h =
      list_inserts (Z.to_nat pos) (take (Z.to_nat (Z.min n (numBytes h - pos))) from)
        (file_bytes (sectors d) h) ∧
    only_file h (sectors d) (sectors d').
Proof.
  intros Hh Hd Hjunk Hfrom Hpos Hint Hn. pose proof (dev_shape d Hd) as Hss.
  destruct (file_bytes_spec (sectors d) h Hss Hh) as (Hl & Hc & _ & Hnb & Hnb' & _).
  unfold WriteAt, FileLength. destruct (decide (n ≤ 0 ∨ numBytes h ≤ pos)) as [Hz|Hz].
  { replace (_ || _) with true.
    2: { destruct (Z.geb_spec pos (numBytes h)); [by rewrite orb_true_r|].
         by rewrite bool_decide_eq_true_2 by lia. }
    exists d. replace (Z.to_nat (Z.min n (numBytes h - pos))) with 0%nat by lia.
    split_and!; try done. unfold_M. do 2 f_equal. lia. }
  rewrite bool_decide_eq_false_2 by lia. destruct (Z.geb_spec pos (numBytes h)); [lia|]. cbn [orb].
  destruct (request_range h n pos) as (-> & -> & f & cnt & -> & Hcnt & -> & Hfc & Hf & Hlast);
    [done|lia|lia|done|].
  set (n' := Z.min n (numBytes h - pos)) in *.
  replace (Z.of_nat f + Z.of_nat cnt - 1) with (Z.of_nat (f + cnt - 1)) by lia.
  rewrite (bind_run _ _ _ _ _ (new_buf_ok junk ((1 + Z.of_nat (f + cnt - 1) - Z.of_nat f) * SectorSize)
    d ltac:(unfold SectorSize; lia))).
  set (buf := junk <$> _).
  assert (Hbuf : length buf = (128 * cnt)%nat)
    by (unfold buf, SectorSize; rewrite length_fmap, length_seqZ; lia).
  assert (Hbufb : Forall is_byte buf) by (apply Forall_fmap, Forall_true; done).
  destruct (assemble_ok junk h f cnt pos n' buf d)
    as (buf1 & d1 & buf2 & d2 & E1 & E2 & Hd2 & Hs2 & Hl2 & Hb2 & Hag); auto; [lia|lia|].
  rewrite (bind_run _ _ _ _ _ E1), (bind_run _ _ _ _ _ E2).
  rewrite (bind_run _ _ _ _ _ (bcopy_from_ok from 0 n' d2 ltac:(lia) ltac:(lia))).
  rewrite drop_0. set (data := take (Z.to_nat n') from).
  assert (Hdata : length data = Z.to_nat n') by (unfold data; rewrite length_take; lia).
  unfold SectorSize in *.
  rewrite (bind_run _ _ _ _ _ (bcopy_to_ok data buf2 (pos - Z.of_nat f * 128) d2 ltac:(lia) ltac:(lia))).
  replace (Z.to_nat (Z.of_nat (f + cnt - 1) + 1 - Z.of_nat f)) with cnt by lia.
  destruct (write_sectors_spec cnt f 0 (list_inserts (Z.to_nat (pos - Z.of_nat f * 128)) data buf2) h d2)
    as (d3 & E3 & Hd3 & Hc3 & Ho3); [done|done|done|rewrite length_inserts; lia| |].
  { apply Forall_inserts; [by apply Forall_take|done]. }
  rewrite (bind_run _ _ _ _ _ E3). exists d3. rewrite Hs2 in *.
  split_and!; [unfold_M; do 2 f_equal; lia|done| |done].
  unfold file_bytes. rewrite Hc3, drop_0.
  replace (Z.to_nat (pos - Z.of_nat f * 128)) with (Z.to_nat pos - 128 * f)%nat by lia.
  apply (write_back_bytes _ _ _ f cnt); rewrite ?Hdata; try lia.
  intros q Hq Hp Hout. apply Hag; lia.
Qed.

(** A file none of whose sectors were written is as it was. *)
Lemma file_bytes_frame h h2 ss ss' : only_file h ss ss' → hdr_ok h2 →
  (∀ s, s ∈ data_of h2 → s ∉ data_of h) → file_bytes ss' h2 = file_bytes ss h2.
Proof.
  intros Ho Hh2 Hdis. unfold file_bytes, blocks_of. do 2 f_equal. apply list_fmap_ext.
  intros i s Hs. unfold sector_at. f_equal.
  pose proof (Forall_lookup_1 _ _ _ _ (ho_range h2 Hh2) Hs) as Hr. cbn in Hr.
  apply Ho; [lia|]. apply Hdis. by eapply list_elem_of_lookup_2.
Qed.

(** C10: an open file is an array of bytes with a position.  [Read] returns the
    bytes from the position on, at most [n] and at most up to the end of the
    file, and changes nothing on the disk; [Write] replaces exactly those
    bytes, whatever the unaligned ends of the request and whatever memory its
    buffer gets, cannot make the file longer, and changes no file that has no
    sector in common; both advance the position by the number of bytes
    transferred. *)
Theorem OpenFile_refines_bytes (junk : Z → Z) (f : OpenFile) (d : D) n :
  hdr_ok (hdr f) → dev_wf d → (∀ i, is_byte (junk i)) → 0 ≤ seekPosition f →
  is_int (seekPosition f + n) →
  let bytes := file_bytes (sectors d) (hdr f) in
  let pos := seekPosition f in
  (∃ d' r, Read junk n f d = Ok ((r, mkOpen (hdr f) (pos + Z.of_nat (length r))), d') ∧
     r = take (Z.to_nat n) (drop (Z.to_nat pos) bytes) ∧ dev_wf d' ∧ sectors d' = sectors d) ∧
  (∀ from, Forall is_byte from → n ≤ Z.of_nat (length from) →
     ∃ d' w, Write junk from n f d = Ok ((w, mkOpen (hdr f) (pos + w)), d') ∧
       w = Z.max 0 (Z.min n (Length f - pos)) ∧ dev_wf d' ∧
       file_bytes (sectors d') (hdr f) = list_inserts (Z.to_nat pos) (take (Z.to_nat w) from) bytes ∧
       ∀ h2, hdr_ok h2 → (∀ s, s ∈ data_of h2 → s ∉ data_of (hdr f)) →
         file_bytes (sectors d') h2 = file_bytes (sectors d) h2).
Proof.
  intros Hh Hd Hj Hpos Hint bytes pos. split.
  - destruct (ReadAt_ok junk (hdr f) n pos d Hh Hd Hpos Hint) as (d' & E & Hd' & Hs').
    eexists d', _. unfold Read. rewrite (bind_run _ _ _ _ _ E). split_and!; done.
  - intros from Hfrom Hn.
    destruct (WriteAt_ok junk (hdr f) from n pos d) as (d' & E & Hd' & Hb' & Ho); try done.
    eexists d', _. unfold Write. rewrite (bind_run _ _ _ _ _ E). split_and!; try done.
    + rewrite Hb'. f_equal. f_equal. lia.
    + intros h2. by apply file_bytes_frame.
Qed.

(** What [WriteAt] stored inside a file, [ReadAt] of the same range returns,
    whatever lies on the disk and in the buffers of either call. *)
Theorem ReadAt_after_WriteAt (junk junk' : Z → Z) h from pos (d : D) :
  hdr_ok h → dev_wf d → (∀ i, is_byte (junk i)) → Forall is_byte from →
  0 ≤ pos → pos + Z.of_nat (length from) ≤ FileLength h →
  let n := Z.of_nat (length from) in
  ∃ d' d'', WriteAt junk h from n pos d = Ok (n, d') ∧ ReadAt junk' h n pos d' = Ok (from, d'').
Proof.
  intros Hh Hd Hj Hfrom Hpos Hle n. unfold FileLength in Hle.
  assert (Hint : is_int (pos + n)).
  { pose proof (hs_bytes h (ho_shape h Hh)). unfold is_int, int_min in *. lia. }
  destruct (WriteAt_ok junk h from n pos d) as (d1 & E1 & Hd1 & Hb & _); try done.
  destruct (ReadAt_ok junk' h n pos d1 Hh Hd1 Hpos Hint) as (d2 & E2 & _ & _).
  exists d1, d2. replace (Z.max 0 (Z.min n (numBytes h - pos))) with n in E1 by lia.
  split; [done|]. rewrite E2. do 2 f_equal. rewrite Hb.
  rewrite Z.min_l, (take_ge from) by lia. unfold n. rewrite Nat2Z.id.
  destruct (file_bytes_spec (sectors d) h (dev_shape d Hd) Hh) as (Hl & _).
  apply list_eq. intros i. destruct (decide (i < length from)%nat).
  - rewrite lookup_take_lt, lookup_drop, list_lookup_inserts by lia. f_equal. lia.
  - rewrite !lookup_ge_None_2; [done|lia|]. rewrite length_take. lia.
Qed.

End Proofs.

Import RamDisk.

(** A file of 300 bytes in the sectors 9, 4 and 7. *)
Definition example_header : FileHeader := mkHdr 300 3 ([9; 4; 7] ++ replicate 27 0).

Lemma example_header_ok : hdr_ok example_header.
Proof.
  split; [|done|done|done|..].
  - split; [done|done|reflexivity|]. apply (bool_decide_unpack (Forall is_int _)).
    vm_compute. exact I.
  - apply (bool_decide_unpack (NoDup _)). vm_compute. exact I.
  - apply (bool_decide_unpack (Forall _ _)). vm_compute. exact I.
Defined.

Lemma OpenFile_refines_bytes_witness :
  let f := mkOpen example_header 250 in
  let d := RamDisk.blank in
  let bytes := file_bytes (sectors d) example_header in
  (∃ d' r, Read (λ _, 1) 100 f d = Ok ((r, mkOpen example_header (250 + Z.of_nat (length r))), d') ∧
     r = take (Z.to_nat 100) (drop (Z.to_nat 250) bytes) ∧ dev_wf d' ∧ sectors d' = sectors d) ∧
  (∀ from, Forall is_byte from → 100 ≤ Z.of_nat (length from) →
     ∃ d' w, Write (λ _, 1) from 100 f d = Ok ((w, mkOpen example_header (250 + w)), d') ∧
       w = Z.max 0 (Z.min 100 (Length f - 250)) ∧ dev_wf d' ∧
       file_bytes (sectors d') example_header =
         list_inserts (Z.to_nat 250) (take (Z.to_nat w) from) bytes ∧
       ∀ h2, hdr_ok h2 → (∀ s, s ∈ data_of h2 → s ∉ data_of example_header) →
         file_bytes (sectors d') h2 = file_bytes (sectors d) h2).
Proof.
  apply (OpenFile_refines_bytes (λ _, 1) (mkOpen example_header 250) RamDisk.blank 100
           example_header_ok RamDisk.blank_wf); cbn; unfold is_byte, is_int, int_min, int_max; lia.
Defined.

Lemma ReadAt_after_WriteAt_witness :
  ∃ d' d'', WriteAt (λ _, 1) example_header [5; 6; 7] 3 127 RamDisk.blank = Ok (3, d') ∧
            ReadAt (λ _, 2) example_header 3 127 d' = Ok ([5; 6; 7], d'').
Proof.
  apply (ReadAt_after_WriteAt (λ _, 1) (λ _, 2) example_header [5; 6; 7] 127 RamDisk.blank
           example_header_ok RamDisk.blank_wf); try (cbn; unfold is_byte; lia).
  repeat constructor; discriminate.
Defined.
