(* ===== verification/Directory.v ===== *)
(** * Directory: the table of file names of filesys/directory.cc

    An entry is the 20 bytes the compiler lays out for a [DirectoryEntry]
    (a [bool], 3 bytes of padding, an [int], 10 characters, 2 bytes of
    padding), since the table is copied to and from the disk as bytes.

    A file name is the list of its characters, without the NUL that ends it.
    Only the first nine count: [file_key]. *)

From S2P Require Import Prelude Bitmap Machine Disk FileHdr OpenFile.

Definition FileNameMaxLen : Z := 9.
Definition sizeof_DirectoryEntry : Z := 20.

(** class [DirectoryEntry], with its padding. *)
Record DirectoryEntry := mkDirEntry {
  inUse : Z; pad0 : list Z; sector : Z; name : list Z; pad1 : list Z
}.

Definition set_inUse (b : Z) (e : DirectoryEntry) : DirectoryEntry :=
  mkDirEntry b (pad0 e) (sector e) (name e) (pad1 e).

Definition entry_bytes (e : DirectoryEntry) : list Z :=
  inUse e :: pad0 e ++ le_bytes 4 (sector e) ++ name e ++ pad1 e.
Definition entry_of (bs : list Z) : DirectoryEntry :=
  mkDirEntry (default 0 (head bs)) (take 3 (drop 1 bs)) (sint (le_value (take 4 (drop 4 bs))))
    (take 10 (drop 8 bs)) (take 2 (drop 18 bs)).

Definition table_bytes (t : list DirectoryEntry) : list Z := concat (entry_bytes <$> t).
Fixpoint entries_of (n : nat) (bs : list Z) : list DirectoryEntry :=
  match n with O => [] | S n => entry_of (take 20 bs) :: entries_of n (drop 20 bs) end.

(** class [Directory]; [tableSize] is the length of the table. *)
Record Directory := mkDirectory { table : list DirectoryEntry }.
Definition tableSize (d : Directory) : Z := Z.of_nat (length (table d)).

(** The constructor: [new DirectoryEntry[size]] holds [junk] except for [inUse]. *)
Definition new_Directory (junk : Z → Z) (size : Z) : Directory :=
  mkDirectory (set_inUse 0 <$>
    entries_of (Z.to_nat size) (junk <$> seqZ 0 (sizeof_DirectoryEntry * size))).

(** [!strncmp(a, b, n)]; both arguments reach a NUL or have [n] characters. *)
Fixpoint strncmp_zero (n : nat) (a b : list Z) : bool :=
  match n, a, b with
  | O, _, _ => true
  | S n, x :: a, y :: b =>
      if x =? y then (if x =? 0 then true else strncmp_zero n a b) else false
  | _, _, _ => false
  end.

(** [strncpy(dst, src, n)]: at most [n] characters, padded with NULs up to [n]. *)
Definition strncpy (dst src : list Z) (n : nat) : list Z :=
  take n (src ++ replicate n 0) ++ drop n dst.

Definition used (e : DirectoryEntry) : bool := negb (inUse e =? 0).

(** [table[i].inUse && !strncmp(table[i].name, name, FileNameMaxLen)] *)
Definition matches (fname : list Z) (e : DirectoryEntry) : bool :=
  used e && strncmp_zero (Z.to_nat FileNameMaxLen) (name e) (fname ++ [0]).

Fixpoint FindIndex_loop (i : Z) (t : list DirectoryEntry) (fname : list Z) : Z :=
  match t with
  | [] => -1
  | e :: t => if matches fname e then i else FindIndex_loop (i + 1) t fname
  end.
Definition FindIndex (d : Directory) (fname : list Z) : Z := FindIndex_loop 0 (table d) fname.

Definition Find (d : Directory) (fname : list Z) : res Z :=
  let i := FindIndex d fname in
  if bool_decide (i ≠ -1) then
    match table d !! Z.to_nat i with Some e => Ok (sector e) | None => Err OutOfBounds end
  else Ok (-1).

(** The entry written by [Add]. *)
Definition fill (fname : list Z) (newSector : Z) (e : DirectoryEntry) : DirectoryEntry :=
  mkDirEntry 1 (pad0 e) newSector (strncpy (name e) fname (Z.to_nat FileNameMaxLen)) (pad1 e).

Fixpoint Add_loop (t : list DirectoryEntry) (fname : list Z) (newSector : Z) :
    bool * list DirectoryEntry :=
  match t with
  | [] => (false, [])
  | e :: t =>
      if negb (used e) then (true, fill fname newSector e :: t)
      else let '(ok, t') := Add_loop t fname newSector in (ok, e :: t')
  end.

Definition Add (d : Directory) (fname : list Z) (newSector : Z) : bool * Directory :=
  if bool_decide (FindIndex d fname ≠ -1) then (false, d)
  else let '(ok, t) := Add_loop (table d) fname newSector in (ok, mkDirectory t).

Definition Remove (d : Directory) (fname : list Z) : bool * Directory :=
  let i := FindIndex d fname in
  if bool_decide (i = -1) then (false, d)
  else (true, mkDirectory (alter (set_inUse 0) (Z.to_nat i) (table d))).

(** [printf("%s\n", p)]: the characters from [p] up to a NUL. *)
Fixpoint cstring (bs : list Z) : option (list Z) :=
  match bs with
  | [] => None
  | b :: bs => if b =? 0 then Some [] else cons b <$> cstring bs
  end.

(** The names printed by [List]; the string is read from [table[i].name] on,
    through whatever follows it in the table. *)
Definition List (d : Directory) : list (option (list Z)) :=
  omap (λ p : nat * DirectoryEntry,
          if used p.2 then Some (cstring (drop (20 * p.1 + 8) (table_bytes (table d)))) else None)
       (imap (λ i e, (i, e)) (table d)).

Section OnDisk.
Context {D : Type} `{!SectorDevice D}.

Definition Directory_FetchFrom (junk : Z → Z) (file : OpenFile) (d : Directory) : M D Directory :=
  r ← ReadAt junk (hdr file) (tableSize d * sizeof_DirectoryEntry) 0;
  mret (mkDirectory (entries_of (length (table d)) (list_inserts 0 r (table_bytes (table d))))).

Definition Directory_WriteBack (junk : Z → Z) (file : OpenFile) (d : Directory) : M D unit :=
  WriteAt junk (hdr file) (table_bytes (table d)) (tableSize d * sizeof_DirectoryEntry) 0
    ≫= λ _, mret tt.

(** [Print]: name, sector and contents of each file. *)
Definition print_entry (e : DirectoryEntry) : M D (list (list Z * Z * list Z)) :=
  if used e then
    h ← FetchFrom (sector e);
    c ← FileHeader_Print h;
    mret [(name e, sector e, c)]
  else mret [].
Fixpoint Directory_Print (t : list DirectoryEntry) : M D (list (list Z * Z * list Z)) :=
  match t with
  | [] => mret []
  | e :: t => x ← print_entry e; rest ← Directory_Print t; mret (x ++ rest)
  end.

(** userprog/bitmap.cc, the two routines on files. *)
Definition BitMap_FetchFrom (junk : Z → Z) (file : OpenFile) (b : BitMap) : M D BitMap :=
  r ← ReadAt junk (hdr file) (numWords b * 4) 0;
  mret (mkBitMap (numBits b) (numWords b)
          (words_of (length (bmap b)) (list_inserts 0 r (words_bytes (bmap b))))).
Definition BitMap_WriteBack (junk : Z → Z) (file : OpenFile) (b : BitMap) : M D unit :=
  WriteAt junk (hdr file) (words_bytes (bmap b)) (numWords b * 4) 0 ≫= λ _, mret tt.

End OnDisk.

(** ** The directory as a map *)

(** The nine characters that count, of a name and of an entry. *)
Definition file_key (fname : list Z) : list Z := take 9 fname.
Fixpoint until_nul (l : list Z) : list Z :=
  match l with [] => [] | x :: l => if x =? 0 then [] else x :: until_nul l end.
Definition entry_key (e : DirectoryEntry) : list Z := until_nul (take 9 (name e)).

Definition entry_pair (e : DirectoryEntry) : option (list Z * Z) :=
  if used e then Some (entry_key e, sector e) else None.
Definition dir_pairs (d : Directory) : list (list Z * Z) := omap entry_pair (table d).
Definition dir_map (d : Directory) : gmap (list Z) Z := list_to_map (dir_pairs d).

(** A file name: its characters, none of them NUL. *)
Definition is_name (fname : list Z) : Prop := Forall (λ c, is_byte c ∧ c ≠ 0) fname.

Record entry_shape (e : DirectoryEntry) : Prop := {
  es_inUse : is_byte (inUse e);
  es_pad0 : length (pad0 e) = 3%nat ∧ Forall is_byte (pad0 e);
  es_sector : is_int (sector e);
  es_name : length (name e) = 10%nat ∧ Forall is_byte (name e);
  es_pad1 : length (pad1 e) = 2%nat ∧ Forall is_byte (pad1 e)
}.

(** No two files of the same name. *)
Record dir_ok (d : Directory) : Prop := {
  do_shape : Forall entry_shape (table d);
  do_unique : NoDup (dir_pairs d).*1
}.

Lemma strncmp_spec n a fname : (n ≤ length a)%nat → Forall (λ c, c ≠ 0) fname →
  strncmp_zero n a (fname ++ [0]) = true ↔ until_nul (take n a) = take n fname.
Proof.
  revert a fname. induction n as [|n IH]; intros a fname Hl Hf; [by rewrite !take_0|].
  destruct a as [|x a]; cbn in Hl; [lia|]. destruct fname as [|y fname]; cbn.
  - destruct (Z.eqb_spec x 0); done.
  - inversion_clear Hf as [|? ? Hy Hf']. destruct (Z.eqb_spec x y) as [->|Hxy].
    + destruct (Z.eqb_spec y 0); [done|]. rewrite IH by (done || lia). split; congruence.
    + destruct (Z.eqb_spec x 0); split; congruence.
Qed.

Lemma is_name_nonzero fname : is_name fname → Forall (λ c, c ≠ 0) fname.
Proof. intros H. eapply Forall_impl; [exact H|]. by intros c [_ ?]. Qed.

(** An entry matches a name when it is in use under that key. *)
Lemma matches_spec fname e : is_name fname → entry_shape e →
  matches fname e = true ↔ entry_pair e = Some (file_key fname, sector e).
Proof.
  intros Hf He. unfold matches, entry_pair, entry_key, file_key. rewrite andb_true_iff.
  change (Z.to_nat FileNameMaxLen) with 9%nat.
  rewrite strncmp_spec by (apply is_name_nonzero in Hf; destruct (es_name e He); auto; lia).
  destruct (used e); [|naive_solver]. split; [by intros [_ ->]|by intros [= ->]].
Qed.

Lemma FindIndex_loop_spec i t fname :
  (FindIndex_loop i t fname = -1 ∧ Forall (λ e, matches fname e = false) t) ∨
  ∃ t1 e t2, t = t1 ++ e :: t2 ∧ matches fname e = true ∧
    FindIndex_loop i t fname = i + Z.of_nat (length t1).
Proof.
  revert i. induction t as [|e t IH]; intros i; cbn [FindIndex_loop]; [by left|].
  destruct (matches fname e) eqn:E.
  - right. exists [], e, t. cbn. split_and!; [done|done|lia].
  - destruct (IH (i + 1)) as [[-> H]|(t1 & e' & t2 & -> & He & ->)].
    + left. split; [done|]. by constructor.
    + right. exists (e :: t1), e', t2. cbn. split_and!; [done|done|lia].
Qed.

(** The lookup: no entry has the key, or one has it, between two others. *)
Lemma FindIndex_cases d fname : dir_ok d → is_name fname →
  (FindIndex d fname = -1 ∧ dir_map d !! file_key fname = None) ∨
  ∃ t1 e t2, table d = t1 ++ e :: t2 ∧ FindIndex d fname = Z.of_nat (length t1) ∧
    used e = true ∧ entry_key e = file_key fname ∧
    dir_map d !! file_key fname = Some (sector e).
Proof.
  intros [Hs Hu] Hf. unfold FindIndex.
  destruct (FindIndex_loop_spec 0 (table d) fname) as [[E H]|(t1 & e & t2 & Ht & He & E)].
  - left. split; [done|]. apply not_elem_of_list_to_map_1. rewrite list_elem_of_fmap.
    intros ([k s] & Hk & Hin). cbn in Hk. subst. unfold dir_pairs in Hin.
    apply list_elem_of_omap in Hin as (e & Hin & Hp). rewrite Forall_forall in Hs, H.
    assert (matches fname e = true) as Hm; [|rewrite (H e Hin) in Hm; done].
    apply matches_spec; auto. unfold entry_pair in *. by destruct (used e); [|done]; inversion Hp.
  - right. assert (Hin : e ∈ table d) by (rewrite Ht; set_solver).
    rewrite Forall_forall in Hs. apply matches_spec in He; auto.
    exists t1, e, t2. rewrite E. split_and!; try done.
    + unfold entry_pair in He. by destruct (used e).
    + unfold entry_pair in He. destruct (used e); by inversion He.
    + apply elem_of_list_to_map_1; [done|]. unfold dir_pairs. apply list_elem_of_omap. eauto.
Qed.

Lemma Find_spec d fname : dir_ok d → is_name fname →
  Find d fname = Ok (default (-1) (dir_map d !! file_key fname)).
Proof.
  intros Hd Hf. unfold Find.
  destruct (FindIndex_cases d fname Hd Hf) as [[-> ->]|(t1 & e & t2 & Ht & -> & _ & _ & ->)]; [done|].
  rewrite bool_decide_eq_true_2 by lia. rewrite Nat2Z.id, Ht, list_lookup_middle; done.
Qed.

Lemma Add_loop_cases t fname s :
  (Add_loop t fname s = (false, t) ∧ Forall (λ e, used e = true) t) ∨
  ∃ t1 e t2, t = t1 ++ e :: t2 ∧ used e = false ∧
    Add_loop t fname s = (true, t1 ++ fill fname s e :: t2).
Proof.
  induction t as [|e t IH]; cbn [Add_loop]; [by left|].
  destruct (used e) eqn:E; cbn [negb].
  - destruct IH as [[-> H]|(t1 & e' & t2 & -> & He & ->)].
    + left. split; [done|]. by constructor.
    + right. by exists (e :: t1), e', t2.
  - right. by exists [], e, t.
Qed.

Lemma take_copy n (fname dst : list Z) : (n ≤ length dst)%nat →
  take n (strncpy dst fname n) = take n (fname ++ replicate n 0).
Proof.
  intros Hn. unfold strncpy. rewrite take_app_le, take_take, Nat.min_id; [done|].
  rewrite length_take, length_app, length_replicate. lia.
Qed.

Lemma until_nul_padded n fname : Forall (λ c, c ≠ 0) fname →
  until_nul (take n (fname ++ replicate n 0)) = take n fname.
Proof.
  intros Hf. revert n. induction Hf as [|c fname Hc _ IH]; intros n.
  { destruct n; [done|]. cbn. done. }
  destruct n as [|n]; [done|]. cbn [app take until_nul].
  destruct (Z.eqb_spec c 0); [done|]. f_equal. rewrite <- IH. f_equal.
  rewrite !take_app. f_equal. rewrite !take_replicate. f_equal. lia.
Qed.

Lemma fill_spec fname s e : is_name fname → is_int s → entry_shape e →
  entry_shape (fill fname s e) ∧ entry_pair (fill fname s e) = Some (file_key fname, s).
Proof.
  intros Hf Hs [_ H0 _ [Hn Hnb] H1]. split.
  - unfold fill. change (Z.to_nat FileNameMaxLen) with 9%nat.
    split; cbn [inUse pad0 sector name pad1]; [done|done|done| |done]. unfold strncpy. split.
    + rewrite length_app, length_take, length_drop, length_app, length_replicate, Hn. lia.
    + apply Forall_app_2; [|by apply Forall_drop]. apply Forall_take, Forall_app_2.
      * eapply Forall_impl; [exact Hf|]. by intros c [? _].
      * by apply Forall_replicate.
  - unfold entry_pair, entry_key, file_key, fill. cbn [used inUse sector name].
    change (Z.to_nat FileNameMaxLen) with 9%nat.
    rewrite take_copy by lia. by rewrite until_nul_padded by by apply is_name_nonzero.
Qed.

(** The pairs of a table in which one entry is replaced. *)
Lemma pairs_middle t1 e t2 :
  omap entry_pair (t1 ++ e :: t2) ≡ₚ option_list (entry_pair e) ++ omap entry_pair (t1 ++ t2).
Proof.
  rewrite !omap_app. cbn. destruct (entry_pair e); cbn; [|done].
  by rewrite Permutation_middle.
Qed.

Lemma Add_spec d fname s : dir_ok d → is_name fname → is_int s →
  let '(ok, d') := Add d fname s in
  ok = bool_decide (dir_map d !! file_key fname = None ∧ ¬ Forall (λ e, used e = true) (table d)) ∧
  (ok = false → d' = d) ∧
  (ok = true → dir_ok d' ∧ length (table d') = length (table d) ∧
     dir_pairs d' ≡ₚ (file_key fname, s) :: dir_pairs d ∧
     dir_map d' = <[file_key fname := s]> (dir_map d)).
Proof.
  intros Hd Hf Hs. unfold Add.
  destruct (FindIndex_cases d fname Hd Hf) as [[-> Hnone]|(t1 & e & t2 & _ & -> & _ & _ & Hsome)].
  2: { rewrite bool_decide_eq_true_2 by lia. rewrite Hsome. by rewrite bool_decide_eq_false_2 by naive_solver. }
  rewrite bool_decide_eq_false_2 by lia.
  destruct (Add_loop_cases (table d) fname s) as [[-> Hall]|(t1 & e & t2 & Ht & He & ->)].
  { rewrite bool_decide_eq_false_2 by naive_solver. by destruct d. }
  destruct Hd as [Hsh Hu]. assert (Hfresh : file_key fname ∉ (dir_pairs d).*1).
  { intros Hin. apply not_elem_of_list_to_map_2 in Hnone. done. }
  destruct (fill_spec fname s e Hf Hs) as [Hfs Hfp].
  { rewrite Ht in Hsh. by apply Forall_app in Hsh as [_ [? _]%Forall_cons]. }
  assert (Hp : dir_pairs (mkDirectory (t1 ++ fill fname s e :: t2)) ≡ₚ (file_key fname, s) :: dir_pairs d).
  { unfold dir_pairs. rewrite Ht. cbn [table]. rewrite !pairs_middle, Hfp. cbn.
    unfold entry_pair at 2. by rewrite He. }
  assert (Hnd : NoDup ((file_key fname, s) :: dir_pairs d).*1) by (cbn; by constructor).
  rewrite bool_decide_eq_true_2.
  2: { split; [done|]. rewrite Ht, Forall_app, Forall_cons. rewrite He. naive_solver. }
  split_and!; try done. intros _. split_and!; try done.
  - split; [|by rewrite Hp]. cbn [table]. rewrite Ht in Hsh.
    apply Forall_app in Hsh as [H1 [_ H2]%Forall_cons]. apply Forall_app_2; [done|]. by constructor.
  - cbn [table]. rewrite Ht, !length_app. done.
  - unfold dir_map. rewrite <- Hp in Hnd. by rewrite (list_to_map_proper _ _ Hnd Hp).
Qed.

Lemma Remove_spec d fname : dir_ok d → is_name fname →
  let '(ok, d') := Remove d fname in
  ok = bool_decide (is_Some (dir_map d !! file_key fname)) ∧ (ok = false → d' = d) ∧
  dir_ok d' ∧ length (table d') = length (table d) ∧
  dir_map d' = delete (file_key fname) (dir_map d) ∧
  ∀ s, dir_map d !! file_key fname = Some s → dir_pairs d ≡ₚ (file_key fname, s) :: dir_pairs d'.
Proof.
  intros Hd Hf. unfold Remove.
  destruct (FindIndex_cases d fname Hd Hf)
    as [[-> Hnone]|(t1 & e & t2 & Ht & -> & He & Hk & Hsome)].
  { rewrite bool_decide_eq_true_2 by done. rewrite Hnone, delete_id by done.
    rewrite bool_decide_eq_false_2 by (intros [? ?]; done). split_and!; try done. }
  rewrite bool_decide_eq_false_2 by lia. rewrite Hsome, bool_decide_eq_true_2 by done.
  rewrite Nat2Z.id, Ht. rewrite alter_app_r_alt, Nat.sub_diag by done. cbn [alter list_alter].
  destruct Hd as [Hsh Hu].
  assert (Hp : dir_pairs d ≡ₚ
    (file_key fname, sector e) :: dir_pairs (mkDirectory (t1 ++ set_inUse 0 e :: t2))).
  { unfold dir_pairs. rewrite Ht. cbn [table]. rewrite !pairs_middle. unfold entry_pair at 1 3.
    rewrite He, Hk. done. }
  pose proof Hu as Hu'. rewrite Hp in Hu'. cbn in Hu'. apply NoDup_cons in Hu' as [Hni Hnd].
  split_and!; try done.
  - split; [|done]. cbn [table]. rewrite Ht in Hsh.
    apply Forall_app in Hsh as [H1 [[] H2]%Forall_cons]. apply Forall_app_2; [done|].
    constructor; [|done]. by split.
  - cbn. by rewrite !length_app.
  - unfold dir_map. rewrite (list_to_map_proper _ _ Hu Hp). cbn.
    rewrite delete_insert_id; [done|]. by apply not_elem_of_list_to_map_1.
  - intros s [= <-]. done.
Qed.

(** ** The table as bytes *)

Lemma entry_bytes_ok e : entry_shape e →
  length (entry_bytes e) = 20%nat ∧ Forall is_byte (entry_bytes e).
Proof.
  intros [Hi [Hp Hpb] _ [Hn Hnb] [Hq Hqb]]. unfold entry_bytes. split.
  - cbn [length]. rewrite !length_app, le_bytes_length, Hp, Hn, Hq. done.
  - constructor; [done|]. repeat apply Forall_app_2; auto using le_bytes_bytes.
Qed.

Lemma entry_of_bytes e : entry_shape e → entry_of (entry_bytes e) = e.
Proof.
  intros [Hi [Hp Hpb] Hs [Hn Hnb] [Hq Hqb]]. destruct e as [u p0 s nm p1]. cbn in *.
  destruct p0 as [|a [|b [|c [|]]]]; try done. unfold entry_of, entry_bytes. cbn [inUse pad0 sector name pad1].
  assert (Hl : le_bytes 4 s = [s `mod` 256; (s / 256) `mod` 256; (s / 256 / 256) `mod` 256;
                               (s / 256 / 256 / 256) `mod` 256]) by done.
  rewrite Hl. cbn [app head default drop take]. f_equal.
  - transitivity (sint (le_value (le_bytes 4 s))); [by rewrite Hl|].
    rewrite le_value_bytes. change (256 ^ Z.of_nat 4) with 4294967296. fold (uint s).
    by rewrite sint_uint, sint_id.
  - apply take_app_length'. done.
  - do 10 (destruct nm as [|? nm]; [done|]). destruct nm; [|done]. cbn.
    apply take_ge. lia.
Qed.

Lemma entry_of_shape bs : length bs = 20%nat → Forall is_byte bs → entry_shape (entry_of bs).
Proof.
  intros Hl Hb. unfold entry_of.
  split; cbn [inUse pad0 sector name pad1];
    try (split; [rewrite length_take, length_drop; lia|by apply Forall_take, Forall_drop]).
  - destruct bs as [|b bs]; [done|]. by inversion Hb.
  - apply sint_range.
Qed.

Lemma table_bytes_ok t : Forall entry_shape t →
  length (table_bytes t) = (20 * length t)%nat ∧ Forall is_byte (table_bytes t).
Proof.
  unfold table_bytes. induction 1 as [|e t He _ [IHl IHb]]; [done|]. cbn [fmap list_fmap concat].
  destruct (entry_bytes_ok e He) as [Hl Hb]. rewrite length_app, IHl, Hl. cbn [length].
  split; [lia|by apply Forall_app_2].
Qed.

Lemma entries_of_bytes t : Forall entry_shape t → entries_of (length t) (table_bytes t) = t.
Proof.
  unfold table_bytes. induction 1 as [|e t He _ IH]; [done|].
  cbn [length entries_of fmap list_fmap concat]. destruct (entry_bytes_ok e He) as [Hl _].
  rewrite take_app_length', drop_app_length' by done. by rewrite IH, entry_of_bytes.
Qed.

Lemma entries_of_shape n bs : length bs = (20 * n)%nat → Forall is_byte bs →
  length (entries_of n bs) = n ∧ Forall entry_shape (entries_of n bs).
Proof.
  revert bs. induction n as [|n IH]; intros bs Hl Hb; cbn [entries_of]; [done|].
  destruct (IH (drop 20 bs)) as [H1 H2]; [rewrite length_drop; lia|by apply Forall_drop|].
  cbn [length]. rewrite H1. split; [done|]. constructor; [|done].
  apply entry_of_shape; [rewrite length_take; lia|by apply Forall_take].
Qed.

Lemma new_Directory_ok junk n : 0 ≤ n → (∀ i, is_byte (junk i)) →
  Forall entry_shape (table (new_Directory junk n)) ∧
  length (table (new_Directory junk n)) = Z.to_nat n ∧ dir_pairs (new_Directory junk n) = [].
Proof.
  intros Hn Hj. unfold new_Directory, dir_pairs. cbn [table].
  destruct (entries_of_shape (Z.to_nat n) (junk <$> seqZ 0 (sizeof_DirectoryEntry * n))) as [Hl Hs].
  { rewrite length_fmap, length_seqZ. unfold sizeof_DirectoryEntry. lia. }
  { by apply Forall_fmap, Forall_true. }
  split_and!.
  - apply Forall_fmap. eapply Forall_impl; [exact Hs|]. intros e []. by split.
  - by rewrite length_fmap.
  - clear. induction (entries_of _ _) as [|e t IH]; [done|]. exact IH.
Qed.

(** ** The directory and the free map, to and from their files *)

Section Stored.
Context {D : Type} `{!SectorDevice D} `{!SectorDeviceOK D}.

Lemma inserts_whole (new old : list Z) : length new = length old → list_inserts 0 new old = new.
Proof. intros H. rewrite <- (app_nil_r new) at 1. by apply list_inserts_0_l. Qed.

(** A file read from its start to its end, and written so. *)
Lemma ReadAt_whole junk h n d : hdr_ok h → dev_wf d → numBytes h = n → n ≤ 100000 →
  ∃ d', ReadAt junk h n 0 d = Ok (file_bytes (sectors d) h, d') ∧ dev_wf d' ∧ sectors d' = sectors d.
Proof.
  intros Hh Hd Hn Hmax. pose proof (ho_bytes h Hh).
  destruct (ReadAt_ok junk h n 0 d Hh Hd) as (d' & E & H'); [done| |].
  { unfold is_int, int_min, int_max. lia. }
  exists d'. rewrite E. split; [|done]. do 2 f_equal. rewrite drop_0. apply take_ge.
  destruct (file_bytes_spec (sectors d) h (dev_shape d Hd) Hh) as [-> _]. lia.
Qed.

Lemma WriteAt_whole junk h bs d : hdr_ok h → dev_wf d → (∀ i, is_byte (junk i)) →
  Forall is_byte bs → numBytes h = Z.of_nat (length bs) → Z.of_nat (length bs) ≤ 100000 →
  ∃ d', (WriteAt junk h bs (Z.of_nat (length bs)) 0 ≫= λ _, mret tt) d = Ok (tt, d') ∧ dev_wf d' ∧
        file_bytes (sectors d') h = bs ∧ only_file h (sectors d) (sectors d').
Proof.
  intros Hh Hd Hj Hb Hn Hmax.
  destruct (WriteAt_ok junk h bs (Z.of_nat (length bs)) 0 d) as (d' & E & Hd' & Hf & Ho); try done.
  { unfold is_int, int_min, int_max. lia. }
  exists d'. rewrite (bind_run _ _ _ _ _ E). split_and!; try done. rewrite Hf.
  rewrite Z.min_l, Nat2Z.id, (take_ge bs) by lia. apply inserts_whole.
  destruct (file_bytes_spec (sectors d) h (dev_shape d Hd) Hh) as [-> _]. lia.
Qed.

(** The table has at most some thousands of entries, far from overflow. *)
Lemma Directory_FetchFrom_ok junk file dir t d : hdr_ok (hdr file) → dev_wf d →
  file_bytes (sectors d) (hdr file) = table_bytes t → Forall entry_shape t →
  Forall entry_shape (table dir) → length (table dir) = length t → (length t ≤ 5000)%nat →
  ∃ d', Directory_FetchFrom junk file dir d = Ok (mkDirectory t, d') ∧ dev_wf d' ∧
        sectors d' = sectors d.
Proof.
  intros Hh Hd Hb Ht Hdir Hl Hmax. destruct (table_bytes_ok t Ht) as [Hlt _].
  destruct (table_bytes_ok _ Hdir) as [Hld _].
  destruct (file_bytes_spec (sectors d) (hdr file) (dev_shape d Hd) Hh) as [Hlf _].
  pose proof (ho_bytes _ Hh). rewrite Hb, Hlt in Hlf.
  destruct (ReadAt_whole junk (hdr file) (tableSize dir * sizeof_DirectoryEntry) d) as (d' & E & Hd' & Hs');
    [done|done|unfold tableSize, sizeof_DirectoryEntry; lia|unfold tableSize, sizeof_DirectoryEntry; lia|].
  exists d'. unfold Directory_FetchFrom. rewrite (bind_run _ _ _ _ _ E). split_and!; try done.
  unfold_M. do 3 f_equal. rewrite Hb, inserts_whole by lia. rewrite Hl. by apply entries_of_bytes.
Qed.

Lemma Directory_WriteBack_ok junk file dir d : hdr_ok (hdr file) → dev_wf d → (∀ i, is_byte (junk i)) →
  Forall entry_shape (table dir) → numBytes (hdr file) = tableSize dir * sizeof_DirectoryEntry →
  ∃ d', Directory_WriteBack junk file dir d = Ok (tt, d') ∧ dev_wf d' ∧
        file_bytes (sectors d') (hdr file) = table_bytes (table dir) ∧
        only_file (hdr file) (sectors d) (sectors d').
Proof.
  intros Hh Hd Hj Ht Hn. destruct (table_bytes_ok _ Ht) as [Hlt Hbt].
  destruct (file_bytes_spec (sectors d) (hdr file) (dev_shape d Hd) Hh) as (_ & _ & _ & Hb & Hb' & H30).
  unfold Directory_WriteBack, tableSize, sizeof_DirectoryEntry in *.
  replace (Z.of_nat (length (table dir)) * 20) with (Z.of_nat (length (table_bytes (table dir)))) by lia.
  apply WriteAt_whole; auto; lia.
Qed.

Lemma BitMap_FetchFrom_ok junk file b b0 d : hdr_ok (hdr file) → dev_wf d →
  bitmap_wf b → bitmap_wf b0 → numBits b0 = numBits b →
  file_bytes (sectors d) (hdr file) = words_bytes (bmap b) →
  ∃ d', BitMap_FetchFrom junk file b0 d = Ok (b, d') ∧ dev_wf d' ∧ sectors d' = sectors d.
Proof.
  intros Hh Hd [Hb0 Hb1 Hb2 Hb3] [_ Hc1 Hc2 _] Hn Hf.
  destruct (file_bytes_spec (sectors d) (hdr file) (dev_shape d Hd) Hh) as (Hlf & _ & _ & Hnb & _ & H30).
  rewrite Hf, words_bytes_length in Hlf.
  assert (Hw : numWords b0 = numWords b) by congruence.
  destruct (ReadAt_whole junk (hdr file) (numWords b0 * 4) d) as (d' & E & Hd' & Hs');
    [done|done|lia|lia|].
  exists d'. unfold BitMap_FetchFrom. rewrite (bind_run _ _ _ _ _ E). split_and!; try done.
  unfold_M. rewrite Hf, inserts_whole by (rewrite !words_bytes_length; lia).
  replace (length (bmap b0)) with (length (bmap b)) by lia.
  pose proof (words_of_bytes (bmap b) []) as Hr. rewrite app_nil_r in Hr. rewrite Hr, Hn, Hw.
  do 2 f_equal. destruct b as [nb nw m]. cbn in *. f_equal.
  rewrite <- (list_fmap_id m) at 2. apply list_fmap_ext. intros i x Hx.
  apply uint_id. by eapply Forall_lookup_1 in Hb3.
Qed.

Lemma BitMap_WriteBack_ok junk file b d : hdr_ok (hdr file) → dev_wf d → (∀ i, is_byte (junk i)) →
  bitmap_wf b → numBytes (hdr file) = numWords b * 4 →
  ∃ d', BitMap_WriteBack junk file b d = Ok (tt, d') ∧ dev_wf d' ∧
        file_bytes (sectors d') (hdr file) = words_bytes (bmap b) ∧
        only_file (hdr file) (sectors d) (sectors d').
Proof.
  intros Hh Hd Hj [Hb0 Hb1 Hb2 Hb3] Hn.
  destruct (file_bytes_spec (sectors d) (hdr file) (dev_shape d Hd) Hh) as (_ & _ & _ & Hb & Hb' & H30).
  unfold BitMap_WriteBack.
  replace (numWords b * 4) with (Z.of_nat (length (words_bytes (bmap b))))
    by (rewrite words_bytes_length; lia).
  apply WriteAt_whole; auto using words_bytes_bytes; rewrite words_bytes_length; lia.
Qed.

End Stored.

(** C27: a directory is a finite map from nine-character names to header
    sectors.  [Find] is its lookup (-1 for none); [Add] is refused, and changes
    nothing, exactly when the name is there or every entry is in use, and
    otherwise inserts the binding; [Remove] answers whether the name was there
    and deletes it.  Names are compared, and stored, by their first nine
    characters only. *)
Theorem Directory_refines_map d fname s : dir_ok d → is_name fname → is_int s →
  let key := file_key fname in
  Find d fname = Ok (default (-1) (dir_map d !! key)) ∧
  (let '(ok, d') := Add d fname s in
   dir_ok d' ∧ tableSize d' = tableSize d ∧
   (ok = true ↔ dir_map d !! key = None ∧ ¬ Forall (λ e, used e = true) (table d)) ∧
   dir_map d' = if ok then <[key := s]> (dir_map d) else dir_map d) ∧
  (let '(ok, d') := Remove d fname in
   dir_ok d' ∧ tableSize d' = tableSize d ∧
   (ok = true ↔ is_Some (dir_map d !! key)) ∧
   dir_map d' = delete key (dir_map d)).
Proof.
  intros Hd Hf Hs key. split; [by apply Find_spec|]. split.
  - pose proof (Add_spec d fname s Hd Hf Hs) as H. destruct (Add d fname s) as [ok d'].
    destruct H as (Hok & Hfalse & Htrue). unfold tableSize. destruct ok.
    + symmetry in Hok. apply bool_decide_eq_true in Hok.
      destruct Htrue as (Hd' & Hl & _ & Hm); [done|]. by rewrite Hl.
    + symmetry in Hok. apply bool_decide_eq_false in Hok. rewrite Hfalse by done.
      split_and!; try done.
  - pose proof (Remove_spec d fname Hd Hf) as H. destruct (Remove d fname) as [ok d'].
    destruct H as (Hok & _ & Hd' & Hl & Hm & _). unfold tableSize. rewrite Hl, Hok, bool_decide_eq_true.
    done.
Qed.

(** A directory of three entries with the file "a" in the second. *)
Definition example_directory : Directory :=
  let e := mkDirEntry 0 [1; 2; 3] 7 (replicate 10 66) [8; 9] in
  mkDirectory [e; fill [97] 5 e; e].

Lemma example_directory_ok : dir_ok example_directory.
Proof.
  split.
  - repeat constructor; discriminate.
  - apply (bool_decide_unpack (NoDup _)). vm_compute. exact I.
Defined.

Lemma Directory_refines_map_witness :
  let key := file_key [97; 98] in
  Find example_directory [97; 98] = Ok (default (-1) (dir_map example_directory !! key)) ∧
  (let '(ok, d') := Add example_directory [97; 98] 11 in
   dir_ok d' ∧ tableSize d' = tableSize example_directory ∧
   (ok = true ↔ dir_map example_directory !! key = None ∧
                ¬ Forall (λ e, used e = true) (table example_directory)) ∧
   dir_map d' = if ok then <[key := 11]> (dir_map example_directory) else dir_map example_directory) ∧
  (let '(ok, d') := Remove example_directory [97; 98] in
   dir_ok d' ∧ tableSize d' = tableSize example_directory ∧
   (ok = true ↔ is_Some (dir_map example_directory !! key)) ∧
   dir_map d' = delete key (dir_map example_directory)).
Proof.
  apply (Directory_refines_map example_directory [97; 98] 11 example_directory_ok).
  - repeat constructor; discriminate.
  - split; discriminate.
Defined.
