(* ===== verification/FileSys.v ===== *)
(** * FileSys: names to files, filesys/filesys.cc

    The free map and the directory are files of their own, with headers in
    sectors 0 and 1.  [fs_ok] is the invariant of the disk: the two system
    files hold the free map and the table, every file in the table has a
    header that describes it, no sector belongs to two owners, and a sector is
    marked in the free map exactly when it has an owner.  [fs_files] is what a
    user sees: a map from names to bytes.

    [junk] is what the memory of the in-memory objects holds before they are
    initialised; the code is the #else part of filesys.h (without
    FILESYS_STUB). *)

From S2P Require Import Prelude Bitmap Interrupt Machine Disk FileHdr OpenFile Directory.

Definition FreeMapSector : Z := 0.
Definition DirectorySector : Z := 1.
Definition FreeMapFileSize : Z := Z.quot NumSectors BitsInByte.
Definition NumDirEntries : Z := 10.
Definition DirectoryFileSize : Z := sizeof_DirectoryEntry * NumDirEntries.

(** class [FileSystem]. *)
Record FileSystem := mkFS { freeMapFile : OpenFile; directoryFile : OpenFile }.

(** A computation that does not touch the disk. *)
Definition lift {S A} (r : res A) : M S A := λ s,
  match r with Ok a => Ok (a, s) | Err f => Err f end.

Section Code.
Context {D : Type} `{!SectorDevice D} (junk : Z → Z).

(** [new FileHeader], [new BitMap(NumSectors)], [new Directory(NumDirEntries)]. *)
Definition new_header : FileHeader := header_of (junk <$> seqZ 0 SectorSize).
Definition new_map {S} : M S BitMap := lift (new_BitMap junk NumSectors).
Definition new_directory : Directory := new_Directory junk NumDirEntries.

Definition FileSystem_new (format : bool) : M D FileSystem :=
  if format then
    freeMap ← new_map;
    '(_, freeMap) ← lift (BitMap_Mark FreeMapSector freeMap);
    '(_, freeMap) ← lift (BitMap_Mark DirectorySector freeMap);
    '(ok, mapHdr, freeMap) ← lift (Allocate FreeMapFileSize new_header freeMap);
    ASSERT ok ≫= λ _,
    '(ok, dirHdr, freeMap) ← lift (Allocate DirectoryFileSize new_header freeMap);
    ASSERT ok ≫= λ _,
    WriteBack FreeMapSector mapHdr ≫= λ _,
    WriteBack DirectorySector dirHdr ≫= λ _,
    freeMapFile ← new_OpenFile FreeMapSector;
    directoryFile ← new_OpenFile DirectorySector;
    BitMap_WriteBack junk freeMapFile freeMap ≫= λ _,
    Directory_WriteBack junk directoryFile new_directory ≫= λ _,
    mret (mkFS freeMapFile directoryFile)
  else
    freeMapFile ← new_OpenFile FreeMapSector;
    directoryFile ← new_OpenFile DirectorySector;
    mret (mkFS freeMapFile directoryFile).

Context (fs : FileSystem).

Definition Create (fname : list Z) (initialSize : Z) : M D bool :=
  directory ← Directory_FetchFrom junk (directoryFile fs) new_directory;
  found ← lift (Find directory fname);
  if bool_decide (found ≠ -1) then mret false
  else
    freeMap ← new_map;
    freeMap ← BitMap_FetchFrom junk (freeMapFile fs) freeMap;
    '(sector, freeMap) ← lift (BitMap_Find freeMap);
    if bool_decide (sector = -1) then mret false
    else
      let '(added, directory) := Add directory fname sector in
      if negb added then mret false
      else
        '(ok, hdr, freeMap) ← lift (Allocate initialSize new_header freeMap);
        if negb ok then mret false
        else
          WriteBack sector hdr ≫= λ _,
          Directory_WriteBack junk (directoryFile fs) directory ≫= λ _,
          BitMap_WriteBack junk (freeMapFile fs) freeMap ≫= λ _,
          mret true.

Definition Open (fname : list Z) : M D (option OpenFile) :=
  directory ← Directory_FetchFrom junk (directoryFile fs) new_directory;
  sector ← lift (Find directory fname);
  if bool_decide (0 ≤ sector) then openFile ← new_OpenFile sector; mret (Some openFile)
  else mret None.

Definition FileSystem_Remove (fname : list Z) : M D bool :=
  directory ← Directory_FetchFrom junk (directoryFile fs) new_directory;
  sector ← lift (Find directory fname);
  if bool_decide (sector = -1) then mret false
  else
    fileHdr ← FetchFrom sector;
    freeMap ← new_map;
    freeMap ← BitMap_FetchFrom junk (freeMapFile fs) freeMap;
    '(_, freeMap) ← lift (Deallocate fileHdr freeMap);
    '(_, freeMap) ← lift (BitMap_Clear sector freeMap);
    let '(_, directory) := Remove directory fname in
    BitMap_WriteBack junk (freeMapFile fs) freeMap ≫= λ _,
    Directory_WriteBack junk (directoryFile fs) directory ≫= λ _,
    mret true.

Definition FileSystem_List : M D (list (option (list Z))) :=
  directory ← Directory_FetchFrom junk (directoryFile fs) new_directory;
  mret (List directory).

(** [Print]: the two system files, the free map, and every file. *)
Definition FileSystem_Print : M D (list Z * list Z * list Z * list (list Z * Z * list Z)) :=
  bitHdr ← FetchFrom FreeMapSector;
  bits ← FileHeader_Print bitHdr;
  dirHdr ← FetchFrom DirectorySector;
  dirs ← FileHeader_Print dirHdr;
  freeMap ← new_map;
  freeMap ← BitMap_FetchFrom junk (freeMapFile fs) freeMap;
  '(marked, _) ← lift (BitMap_Print freeMap);
  directory ← Directory_FetchFrom junk (directoryFile fs) new_directory;
  files ← Directory_Print (table directory);
  mret (bits, dirs, marked, files).

End Code.

(** ** The invariant of the disk *)

(** The header stored in a sector. *)
Definition header_at (ss : list (list Z)) (s : Z) : FileHeader := header_of (sector_at ss s).

(** The sectors of the file whose header is in [s]. *)
Definition file_sectors (ss : list (list Z)) (s : Z) : list Z := s :: data_of (header_at ss s).

(** The sectors of the free map and of the directory. *)
Definition system_sectors (fs : FileSystem) : list Z :=
  FreeMapSector :: DirectorySector ::
    data_of (hdr (freeMapFile fs)) ++ data_of (hdr (directoryFile fs)).

Definition owned (fs : FileSystem) (ss : list (list Z)) (t : list DirectoryEntry) : list Z :=
  system_sectors fs ++ (dir_pairs (mkDirectory t) ≫= λ p, file_sectors ss p.2).

(** The two system files: their headers, where they are, and their lengths. *)
Record system_ok (fs : FileSystem) (ss : list (list Z)) : Prop := {
  so_map : hdr_ok (hdr (freeMapFile fs));
  so_map_len : numBytes (hdr (freeMapFile fs)) = FreeMapFileSize;
  so_map_at : header_at ss FreeMapSector = hdr (freeMapFile fs);
  so_dir : hdr_ok (hdr (directoryFile fs));
  so_dir_len : numBytes (hdr (directoryFile fs)) = DirectoryFileSize;
  so_dir_at : header_at ss DirectorySector = hdr (directoryFile fs)
}.

Record fs_ok (fs : FileSystem) (ss : list (list Z)) (b : BitMap) (t : list DirectoryEntry) : Prop := {
  fo_sys : system_ok fs ss;
  fo_map : file_bytes ss (hdr (freeMapFile fs)) = words_bytes (bmap b);
  fo_map_wf : bitmap_wf b ∧ numBits b = NumSectors;
  fo_dir : file_bytes ss (hdr (directoryFile fs)) = table_bytes t;
  fo_dir_wf : dir_ok (mkDirectory t) ∧ length t = Z.to_nat NumDirEntries;
  fo_files : Forall (λ p, 0 ≤ p.2 < NumSectors ∧ hdr_ok (header_at ss p.2)) (dir_pairs (mkDirectory t));
  fo_nodup : NoDup (owned fs ss t);
  fo_marked : bits_of b = list_to_set (owned fs ss t)
}.

(** What the user sees: the bytes of each file. *)
Definition fs_files (ss : list (list Z)) (t : list DirectoryEntry) : gmap (list Z) (list Z) :=
  (λ s, file_bytes ss (header_at ss s)) <$> dir_map (mkDirectory t).

(** ** Frames *)

(** [ss'] differs from [ss] only in the sectors [X]. *)
Definition changes (X : list Z) (ss ss' : list (list Z)) : Prop :=
  ∀ s, 0 ≤ s → s ∉ X → ss' !! Z.to_nat s = ss !! Z.to_nat s.

Lemma changes_trans X Y ss1 ss2 ss3 :
  changes X ss1 ss2 → changes Y ss2 ss3 → changes (X ++ Y) ss1 ss3.
Proof. intros H1 H2 s Hs Hn. rewrite not_elem_of_app in Hn. destruct Hn. by rewrite H2, H1. Qed.

Lemma changes_write ss n data : 0 ≤ n → changes [n] ss (<[Z.to_nat n := data]> ss).
Proof.
  intros Hn s Hs Hne. apply list_lookup_insert_ne. intros E. apply Hne.
  replace s with n by lia. by apply list_elem_of_singleton.
Qed.

Lemma changes_header X ss ss' s : changes X ss ss' → 0 ≤ s → s ∉ X → header_at ss' s = header_at ss s.
Proof. intros Hc Hs Hn. unfold header_at, sector_at. by rewrite Hc. Qed.

Lemma changes_file X ss ss' h : changes X ss ss' → hdr_ok h → (∀ s, s ∈ data_of h → s ∉ X) →
  file_bytes ss' h = file_bytes ss h.
Proof.
  intros Hc Hh Hd. unfold file_bytes, blocks_of. do 2 f_equal. apply list_fmap_ext.
  intros i s Hs. unfold sector_at. rewrite Hc; [done| |].
  - pose proof (Forall_lookup_1 _ _ _ _ (ho_range h Hh) Hs) as Hr. cbn in Hr. lia.
  - apply Hd. by eapply list_elem_of_lookup_2.
Qed.

Lemma system_ok_frame X fs ss ss' : system_ok fs ss → changes X ss ss' →
  FreeMapSector ∉ X → DirectorySector ∉ X → system_ok fs ss'.
Proof.
  intros [H1 H2 H3 H4 H5 H6] Hc Hm Hd. split; try done.
  - rewrite (changes_header X ss); [exact H3|exact Hc|reflexivity|exact Hm].
  - rewrite (changes_header X ss); [exact H6|exact Hc|discriminate|exact Hd].
Qed.

(** The sectors of files whose headers did not move, and are not in [X]. *)
Lemma owned_frame X ss ss' (l : list (list Z * Z)) : changes X ss ss' →
  Forall (λ p, 0 ≤ p.2 ∧ p.2 ∉ X) l →
  (l ≫= λ p, file_sectors ss' p.2) = (l ≫= λ p, file_sectors ss p.2).
Proof.
  intros Hc. induction 1 as [|p l [Hp Hx] _ IH]; [done|]. rewrite !bind_cons, IH.
  unfold file_sectors. by rewrite (changes_header X ss).
Qed.

(** ** Fetching and storing *)

(** Its loop over 1024 bits is never to be unfolded by the tactics below. *)
#[local] Opaque new_BitMap.

Section Proofs.
Context {D : Type} `{!SectorDevice D} `{!SectorDeviceOK D}.
Context (junk : Z → Z) (junk_byte : ∀ i, is_byte (junk i)).
Implicit Types (d : D) (fs : FileSystem).

Lemma new_map_ok {S} (s : S) : ∃ b, new_map junk s = Ok (b, s) ∧ bitmap_wf b ∧
  numBits b = NumSectors ∧ bits_of b = ∅.
Proof.
  destruct (new_BitMap_spec junk NumSectors) as (b & E & Hb); [done| |].
  { intros i. destruct (junk_byte i). unfold is_uint. lia. }
  exists b. split; [|exact Hb]. unfold new_map. rewrite E. reflexivity.
Qed.

Lemma new_header_shape : hdr_shape (new_header junk).
Proof. apply header_of_shape. Qed.

Lemma fetch_dir fs d b t : dev_wf d → fs_ok fs (sectors d) b t →
  ∃ d', Directory_FetchFrom junk (directoryFile fs) (new_directory junk) d = Ok (mkDirectory t, d') ∧
        dev_wf d' ∧ sectors d' = sectors d.
Proof.
  intros Hd [Hsys _ _ Hdir [Hdok Hl] _ _ _].
  destruct (new_Directory_ok junk NumDirEntries) as (Hs & Hnl & _); [done|done|].
  apply Directory_FetchFrom_ok; [apply Hsys|exact Hd|exact Hdir|apply Hdok|exact Hs| |].
  - rewrite Hl. exact Hnl.
  - rewrite Hl. unfold NumDirEntries. lia.
Qed.

Lemma fetch_map fs d b t b0 : dev_wf d → fs_ok fs (sectors d) b t → bitmap_wf b0 →
  numBits b0 = NumSectors →
  ∃ d', BitMap_FetchFrom junk (freeMapFile fs) b0 d = Ok (b, d') ∧
        dev_wf d' ∧ sectors d' = sectors d.
Proof.
  intros Hd [Hsys Hmap [Hwf Hn] _ _ _ _ _] Hwf0 Hn0.
  apply BitMap_FetchFrom_ok; [apply Hsys|done|done|done|congruence|done].
Qed.

Lemma store_map fs d b : dev_wf d → system_ok fs (sectors d) → bitmap_wf b → numBits b = NumSectors →
  ∃ d', BitMap_WriteBack junk (freeMapFile fs) b d = Ok (tt, d') ∧ dev_wf d' ∧
    file_bytes (sectors d') (hdr (freeMapFile fs)) = words_bytes (bmap b) ∧
    changes (data_of (hdr (freeMapFile fs))) (sectors d) (sectors d').
Proof.
  intros Hd Hsys Hwf Hn. apply BitMap_WriteBack_ok; [apply Hsys|done|done|done|].
  rewrite (so_map_len _ _ Hsys), (wf_words _ Hwf), Hn. done.
Qed.

Lemma store_dir fs d dir : dev_wf d → system_ok fs (sectors d) → dir_ok dir →
  length (table dir) = Z.to_nat NumDirEntries →
  ∃ d', Directory_WriteBack junk (directoryFile fs) dir d = Ok (tt, d') ∧ dev_wf d' ∧
    file_bytes (sectors d') (hdr (directoryFile fs)) = table_bytes (table dir) ∧
    changes (data_of (hdr (directoryFile fs))) (sectors d) (sectors d').
Proof.
  intros Hd Hsys Hdir Hl. apply Directory_WriteBack_ok; [apply Hsys|done|done|apply Hdir|].
  rewrite (so_dir_len _ _ Hsys). unfold tableSize. by rewrite Hl.
Qed.

Lemma WriteBack_ok d s h : dev_wf d → 0 ≤ s < NumSectors → hdr_shape h →
  ∃ d', WriteBack s h d = Ok (tt, d') ∧ dev_wf d' ∧ changes [s] (sectors d) (sectors d') ∧
        header_at (sectors d') s = h.
Proof.
  intros Hd Hs Hh. destruct (WriteSector_ok d s (header_bytes h) Hd Hs) as (d' & E & Hd' & Hs').
  { by apply header_bytes_sector. }
  exists d'. split_and!; try done.
  - rewrite Hs'. apply changes_write. lia.
  - unfold header_at, sector_at. rewrite Hs', list_lookup_insert_eq; [by apply header_of_bytes|].
    destruct (dev_shape d Hd) as [-> _]. lia.
Qed.

Lemma FetchFrom_ok d s : dev_wf d → 0 ≤ s < NumSectors →
  ∃ d', FetchFrom s d = Ok (header_at (sectors d) s, d') ∧ dev_wf d' ∧ sectors d' = sectors d.
Proof.
  intros Hd Hs. destruct (ReadSector_ok d s Hd Hs) as (data & d' & Hdata & E & Hd' & Hs').
  exists d'. unfold FetchFrom. rewrite (bind_run _ _ _ _ _ E). split_and!; try done.
  unfold header_at, sector_at. by rewrite Hdata.
Qed.

Lemma new_OpenFile_ok d s : dev_wf d → 0 ≤ s < NumSectors →
  ∃ d', new_OpenFile s d = Ok (mkOpen (header_at (sectors d) s) 0, d') ∧ dev_wf d' ∧
        sectors d' = sectors d.
Proof.
  intros Hd Hs. destruct (FetchFrom_ok d s Hd Hs) as (d' & E & H'). exists d'.
  unfold new_OpenFile. by rewrite (bind_run _ _ _ _ _ E).
Qed.

(** ** Disjointness *)

Lemma owned_split fs ss t : NoDup (owned fs ss t) →
  let M := data_of (hdr (freeMapFile fs)) in
  let T := data_of (hdr (directoryFile fs)) in
  (FreeMapSector ∉ M ++ T) ∧ (DirectorySector ∉ M ++ T) ∧ (∀ s, s ∈ M → s ∉ T) ∧
  (∀ p s, p ∈ dir_pairs (mkDirectory t) → s ∈ file_sectors ss p.2 → s ∉ system_sectors fs).
Proof.
  intros H M T. unfold owned in H. apply NoDup_app in H as (Hsys & Hdis & _).
  unfold system_sectors in Hsys. apply NoDup_cons in Hsys as [H0 Hsys].
  apply NoDup_cons in Hsys as [H1 Hsys]. apply NoDup_app in Hsys as (_ & Hd & _).
  split_and!; [by apply not_elem_of_cons in H0 as []|done|done|].
  intros p s Hp Hs Hin. apply (Hdis s Hin). apply list_elem_of_bind. eauto.
Qed.

(** Two files have no sector in common. *)
Lemma files_disjoint ss (l : list (list Z * Z)) p q s : NoDup (l ≫= λ p, file_sectors ss p.2) →
  p ∈ l → q ∈ l → s ∈ file_sectors ss p.2 → s ∈ file_sectors ss q.2 → p = q.
Proof.
  intros Hnd Hp Hq Hsp Hsq. induction l as [|x l IH]; [by apply not_elem_of_nil in Hp|].
  rewrite bind_cons in Hnd. apply NoDup_app in Hnd as (_ & Hdis & Hnd).
  apply elem_of_cons in Hp as [->|Hp], Hq as [->|Hq]; auto.
  - exfalso. apply (Hdis s Hsp). apply list_elem_of_bind. eauto.
  - exfalso. apply (Hdis s Hsq). apply list_elem_of_bind. eauto.
Qed.

Lemma owned_marked fs ss b t : fs_ok fs ss b t → ∀ s, s ∈ owned fs ss t ↔ s ∈ bits_of b.
Proof. intros H s. by rewrite (fo_marked _ _ _ _ H), elem_of_list_to_set. Qed.

Lemma marked_system fs ss b t s : fs_ok fs ss b t → s ∈ system_sectors fs → s ∈ bits_of b.
Proof. intros H Hs. rewrite (fo_marked _ _ _ _ H). unfold owned. set_solver. Qed.

Lemma marked_file fs ss b t p s : fs_ok fs ss b t → p ∈ dir_pairs (mkDirectory t) →
  s ∈ file_sectors ss p.2 → s ∈ bits_of b.
Proof.
  intros H Hp Hs. rewrite (fo_marked _ _ _ _ H), elem_of_list_to_set. unfold owned.
  rewrite elem_of_app, list_elem_of_bind. right. eauto.
Qed.

(** The files whose sectors are outside [X] are untouched. *)
Lemma files_frame X fs ss ss' b t : fs_ok fs ss b t → changes X ss ss' →
  (∀ p s, p ∈ dir_pairs (mkDirectory t) → s ∈ file_sectors ss p.2 → s ∉ X) →
  ∀ p, p ∈ dir_pairs (mkDirectory t) →
    header_at ss' p.2 = header_at ss p.2 ∧
    file_bytes ss' (header_at ss' p.2) = file_bytes ss (header_at ss p.2).
Proof.
  intros H Hc Hx p Hp. pose proof (fo_files _ _ _ _ H) as Hf. rewrite Forall_forall in Hf.
  destruct (Hf p Hp) as [Hr Hh].
  assert (Heq : header_at ss' p.2 = header_at ss p.2).
  { apply (changes_header X); [done|lia|]. apply (Hx p); [done|]. apply elem_of_cons. by left. }
  split; [done|]. rewrite Heq. apply (changes_file X); [done|done|].
  intros s Hs. apply (Hx p); [done|]. apply elem_of_cons. by right.
Qed.

Lemma fs_files_frame ss ss' t : NoDup (dir_pairs (mkDirectory t)).*1 →
  (∀ p, p ∈ dir_pairs (mkDirectory t) →
    file_bytes ss' (header_at ss' p.2) = file_bytes ss (header_at ss p.2)) →
  fs_files ss' t = fs_files ss t.
Proof.
  intros Hnd Hp. unfold fs_files. apply map_eq. intros k. rewrite !lookup_fmap.
  destruct (dir_map (mkDirectory t) !! k) as [s|] eqn:E; [|done]. cbn. f_equal.
  apply (Hp (k, s)). by apply elem_of_list_to_map_2 in E.
Qed.

(** ** Create *)

(** A sector the files of the system do not use. *)
Definition outside fs (r : Z) : Prop := r ∉ system_sectors fs.

Lemma outside_spec fs r : outside fs r ↔
  r ≠ FreeMapSector ∧ r ≠ DirectorySector ∧ (r ∉ data_of (hdr (freeMapFile fs))) ∧
  r ∉ data_of (hdr (directoryFile fs)).
Proof.
  unfold outside, system_sectors. rewrite !not_elem_of_cons, not_elem_of_app. naive_solver.
Qed.

(** The sectors changed by [Create] and [Remove]: a header, and the contents
    of the two system files. *)
Definition touched fs (rs : list Z) : list Z :=
  rs ++ data_of (hdr (directoryFile fs)) ++ data_of (hdr (freeMapFile fs)).

Lemma not_touched fs rs s : outside fs s → s ∉ rs → s ∉ touched fs rs.
Proof. rewrite outside_spec. unfold touched. rewrite !not_elem_of_app. naive_solver. Qed.

(** The three writes of a successful [Create]. *)
Lemma Create_writes fs d t r h dir b2 : dev_wf d → system_ok fs (sectors d) →
  NoDup (owned fs (sectors d) t) → 0 ≤ r < NumSectors → outside fs r → hdr_ok h →
  dir_ok dir → length (table dir) = Z.to_nat NumDirEntries → bitmap_wf b2 → numBits b2 = NumSectors →
  ∃ d', (WriteBack r h ≫= λ _, Directory_WriteBack junk (directoryFile fs) dir ≫= λ _,
         BitMap_WriteBack junk (freeMapFile fs) b2 ≫= λ _, mret true) d = Ok (true, d') ∧
    dev_wf d' ∧ system_ok fs (sectors d') ∧ changes (touched fs [r]) (sectors d) (sectors d') ∧
    header_at (sectors d') r = h ∧
    file_bytes (sectors d') (hdr (freeMapFile fs)) = words_bytes (bmap b2) ∧
    file_bytes (sectors d') (hdr (directoryFile fs)) = table_bytes (table dir).
Proof.
  intros Hd Hsys Hnd Hr Hout Hh Hdir Hlen Hwf2 Hn2.
  destruct (owned_split _ _ _ Hnd) as (Hm0 & Hd0 & HMT & _).
  rewrite not_elem_of_app in Hm0, Hd0. apply outside_spec in Hout as (Hr0 & Hr1 & HrM & HrT).
  destruct (WriteBack_ok d r h Hd Hr (ho_shape h Hh)) as (d1 & E1 & Hd1 & Hc1 & Hh1).
  destruct (store_dir fs d1 dir) as (d2 & E2 & Hd2 & Hf2 & Hc2); [done| |done|done|].
  { apply (system_ok_frame [r] fs (sectors d)); try done; rewrite list_elem_of_singleton; naive_solver. }
  pose proof (changes_trans _ _ _ _ _ Hc1 Hc2) as Hc12.
  destruct (store_map fs d2 b2) as (d3 & E3 & Hd3 & Hf3 & Hc3); [done| |done|done|].
  { apply (system_ok_frame _ fs _ _ Hsys Hc12);
      rewrite not_elem_of_app, list_elem_of_singleton; naive_solver. }
  exists d3. rewrite (bind_run _ _ _ _ _ E1), (bind_run _ _ _ _ _ E2), (bind_run _ _ _ _ _ E3).
  pose proof (changes_trans _ _ _ _ _ Hc12 Hc3) as Hc. rewrite <- app_assoc in Hc.
  split_and!; try done.
  - apply (system_ok_frame _ fs _ _ Hsys Hc);
      rewrite !not_elem_of_app, list_elem_of_singleton; naive_solver.
  - rewrite (changes_header _ _ _ r Hc3), (changes_header _ _ _ r Hc2) by (done || lia). done.
  - rewrite <- Hf2. apply (changes_file _ _ _ _ Hc3); [apply Hsys|]. intros s Hs Hs'. by apply (HMT s).
Qed.

(** The invariant after a file with header [h] in sector [r] was added. *)
Lemma fs_ok_add fs ss ss' b t key r h b2 t' : fs_ok fs ss b t →
  system_ok fs ss' → changes (touched fs [r]) ss ss' → header_at ss' r = h →
  file_bytes ss' (hdr (freeMapFile fs)) = words_bytes (bmap b2) →
  file_bytes ss' (hdr (directoryFile fs)) = table_bytes t' →
  0 ≤ r < NumSectors → r ∉ bits_of b → hdr_ok h → Forall (λ s, s ∉ {[r]} ∪ bits_of b) (data_of h) →
  dir_ok (mkDirectory t') → length t' = Z.to_nat NumDirEntries →
  dir_pairs (mkDirectory t') ≡ₚ (key, r) :: dir_pairs (mkDirectory t) →
  bitmap_wf b2 → numBits b2 = NumSectors →
  bits_of b2 = list_to_set (data_of h) ∪ ({[r]} ∪ bits_of b) →
  fs_ok fs ss' b2 t' ∧
  ∀ p, p ∈ dir_pairs (mkDirectory t) → header_at ss' p.2 = header_at ss p.2 ∧
    file_bytes ss' (header_at ss' p.2) = file_bytes ss (header_at ss p.2).
Proof.
  intros Hfs Hsys Hc Hh' Hfm Hfd Hr Hrn Hh Hfree Hdir Hlen Hpairs Hwf2 Hn2 Hb2.
  destruct (owned_split _ _ _ (fo_nodup _ _ _ _ Hfs)) as (_ & _ & _ & Hpsys).
  assert (Hkeep : ∀ p s, p ∈ dir_pairs (mkDirectory t) → s ∈ file_sectors ss p.2 →
                         s ∉ touched fs [r]).
  { intros p s Hp Hs. apply not_touched; [by apply (Hpsys p)|].
    rewrite list_elem_of_singleton. intros ->. apply Hrn. by eapply marked_file. }
  pose proof (files_frame _ _ _ _ _ _ Hfs Hc Hkeep) as Hframe.
  assert (Hown : owned fs ss' t' ≡ₚ r :: data_of h ++ owned fs ss t).
  { unfold owned. rewrite Hpairs, bind_cons. cbn [snd]. unfold file_sectors at 1. rewrite Hh'.
    rewrite (owned_frame _ _ _ (dir_pairs (mkDirectory t)) Hc).
    - rewrite !app_assoc. cbn. solve_Permutation.
    - apply Forall_forall. intros p Hp. pose proof (fo_files _ _ _ _ Hfs) as Hf.
      rewrite Forall_forall in Hf. destruct (Hf p Hp) as [? _]. split; [lia|].
      apply (Hkeep p); [done|]. apply elem_of_cons. by left. }
  rewrite Forall_forall in Hfree. split; [|done]. split; try done.
  - rewrite Hpairs. constructor; [cbn; by rewrite Hh'|]. apply Forall_forall. intros p Hp.
    destruct (Hframe p Hp) as [-> _]. pose proof (fo_files _ _ _ _ Hfs) as Hf.
    rewrite Forall_forall in Hf. by apply Hf.
  - rewrite Hown. apply NoDup_cons. rewrite not_elem_of_app, (owned_marked _ _ _ _ Hfs). split.
    + split; [|done]. intros Hin. apply (Hfree r Hin). rewrite elem_of_union, elem_of_singleton. by left.
    + apply NoDup_app. split_and!; [apply Hh| |apply Hfs]. intros s Hs.
      rewrite (owned_marked _ _ _ _ Hfs). intros Hin. apply (Hfree s Hs).
      rewrite elem_of_union. by right.
  - apply set_eq. intros s. rewrite Hb2, !elem_of_union, elem_of_singleton, !elem_of_list_to_set.
    rewrite Hown, elem_of_cons, elem_of_app, (owned_marked _ _ _ _ Hfs). tauto.
Qed.

Lemma lookup_pair dir k s : dir_ok dir → dir_map dir !! k = Some s → (k, s) ∈ dir_pairs dir.
Proof. intros Hd H. by apply elem_of_list_to_map_2 in H. Qed.

Lemma lookup_file fs ss b t k s : fs_ok fs ss b t → dir_map (mkDirectory t) !! k = Some s →
  0 ≤ s < NumSectors ∧ hdr_ok (header_at ss s).
Proof.
  intros H Hk. pose proof (fo_files _ _ _ _ H) as Hf. rewrite Forall_forall in Hf.
  apply (Hf (k, s)). apply lookup_pair; [apply H|done].
Qed.

Lemma fs_files_lookup ss t k : fs_files ss t !! k =
  (λ s, file_bytes ss (header_at ss s)) <$> dir_map (mkDirectory t) !! k.
Proof. unfold fs_files. by rewrite lookup_fmap. Qed.

(** The directory is read and the name looked up. *)
Lemma lookup_ok fs d b t fname : dev_wf d → fs_ok fs (sectors d) b t → is_name fname →
  ∃ d', dev_wf d' ∧ sectors d' = sectors d ∧ ∀ A (k : Directory → Z → M D A),
    (directory ← Directory_FetchFrom junk (directoryFile fs) (new_directory junk);
     found ← lift (Find directory fname); k directory found) d =
    k (mkDirectory t) (default (-1) (dir_map (mkDirectory t) !! file_key fname)) d'.
Proof.
  intros Hd Hfs Hf. destruct (fetch_dir fs d b t Hd Hfs) as (d' & E & Hd' & Hs').
  exists d'. split; [exact Hd'|]. split; [exact Hs'|]. intros A k. rewrite (bind_run _ _ _ _ _ E).
  unfold mbind, M_bind, lift. rewrite Find_spec; [done|apply Hfs|done].
Qed.

(** The free map is read. *)
Lemma read_map_ok fs d b t : dev_wf d → fs_ok fs (sectors d) b t →
  ∃ d', dev_wf d' ∧ sectors d' = sectors d ∧ ∀ A (k : BitMap → M D A),
    (freeMap ← new_map junk; freeMap ← BitMap_FetchFrom junk (freeMapFile fs) freeMap;
     k freeMap) d = k b d'.
Proof.
  intros Hd Hfs. destruct (new_map_ok d) as (b0 & E0 & Hwf0 & Hn0 & _).
  destruct (fetch_map fs d b t b0 Hd Hfs Hwf0 Hn0) as (d' & E & Hd' & Hs').
  exists d'. split; [exact Hd'|]. split; [exact Hs'|]. intros A k.
  rewrite (bind_run _ _ _ _ _ E0), (bind_run _ _ _ _ _ E). reflexivity.
Qed.

Lemma lift_run {S A B} (a : A) (f : A → M S B) : (lift (Ok a) ≫= f) = f a.
Proof. done. Qed.

(** Whether a new file of the given size fits. *)
Definition fits (b : BitMap) (t : list DirectoryEntry) (size : Z) : Prop :=
  ¬ Forall (λ e, used e = true) t ∧ 1 + divRoundUp size SectorSize ≤ clear_count b.

#[local] Instance fits_dec b t size : Decision (fits b t size).
Proof. unfold fits. apply _. Defined.

Lemma clear_count_add b b2 r h : bitmap_wf b → numBits b2 = numBits b → hdr_ok h → r ∉ bits_of b →
  Forall (λ s, s ∉ {[r]} ∪ bits_of b) (data_of h) →
  bits_of b2 = list_to_set (data_of h) ∪ ({[r]} ∪ bits_of b) →
  clear_count b2 = clear_count b - 1 - numSectors h.
Proof.
  intros Hwf Hn Hh Hr Hfree Hb2. unfold clear_count. rewrite Hn, Hb2.
  rewrite Forall_forall in Hfree. rewrite size_union.
  2: { intros s Hs%elem_of_list_to_set. by apply Hfree. }
  rewrite size_union by (intros s ->%elem_of_singleton; done).
  rewrite size_singleton, size_list_to_set by apply Hh.
  pose proof (numSectors_nonneg h Hh). rewrite (data_of_length h Hh). lia.
Qed.

Lemma clear_count_del b b' l : numBits b' = numBits b → NoDup l → Forall (λ s, s ∈ bits_of b) l →
  bits_of b' = bits_of b ∖ list_to_set l → clear_count b' = clear_count b + Z.of_nat (length l).
Proof.
  intros Hn Hnd Hl Hb. assert (Hsub : list_to_set l ⊆ bits_of b).
  { intros s Hs%elem_of_list_to_set. rewrite Forall_forall in Hl. by apply Hl. }
  pose proof (subseteq_size _ _ Hsub) as Hle. unfold clear_count.
  rewrite Hb, Hn, size_difference by done. rewrite size_list_to_set in Hle |- * by done. lia.
Qed.

(** A successful [Create], from the point where the name is known to be new
    and to fit. *)
Lemma Create_fits fs d b t fname size : dev_wf d → fs_ok fs (sectors d) b t → is_name fname →
  0 ≤ size ≤ MaxFileSize → dir_map (mkDirectory t) !! file_key fname = None → fits b t size →
  ∃ d' b' t' bytes, Create junk fs fname size d = Ok (true, d') ∧ dev_wf d' ∧
    fs_ok fs (sectors d') b' t' ∧ length bytes = Z.to_nat size ∧
    fs_files (sectors d') t' = <[file_key fname := bytes]> (fs_files (sectors d) t) ∧
    clear_count b' = clear_count b - 1 - divRoundUp size SectorSize ∧
    ∀ k s, dir_map (mkDirectory t) !! k = Some s →
      dir_map (mkDirectory t') !! k = Some s ∧ header_at (sectors d') s = header_at (sectors d) s.
Proof.
  intros Hd Hfs Hf Hsz Hnone [Hroom Hclear]. destruct (fo_map_wf _ _ _ _ Hfs) as [Hwf Hnb].
  destruct (divRoundUp_range size) as [Hdr _]; [lia|].
  destruct (lookup_ok fs d b t fname Hd Hfs Hf) as (d1 & Hd1 & Hs1 & E1).
  rewrite <- Hs1 in Hfs. destruct (read_map_ok fs d1 b t Hd1 Hfs) as (d2 & Hd2 & Hs2 & E2).
  rewrite <- Hs2 in Hfs. rewrite <- Hs1, <- Hs2.
  destruct (Find_some b Hwf) as (r & b1 & Ef & Hr & Hrn & Hwf1 & Hn1 & Hb1 & Hc1); [lia|].
  rewrite Hnb in *. pose proof (Add_spec (mkDirectory t) fname r) as Ha.
  destruct (Add (mkDirectory t) fname r) as [added dir] eqn:Eadd.
  destruct Ha as (Hadd & _ & Htrue); [apply Hfs|done| |].
  { unfold is_int, int_min, int_max, NumSectors, SectorsPerTrack, NumTracks in *. lia. }
  rewrite bool_decide_eq_true_2 in Hadd by done. subst added.
  destruct Htrue as (Hdir & Hlen & Hpairs & Hmap); [done|].
  assert (Hlen' : length (table dir) = Z.to_nat NumDirEntries)
    by (rewrite Hlen; apply (fo_dir_wf _ _ _ _ Hfs)).
  destruct (Allocate_ok size (new_header junk) b1)
    as (h & b2 & Eal & Hh & Hnbh & Hwf2 & Hn2 & Hfree & Hb2); [apply new_header_shape|done|done|done|lia|].
  rewrite Hb1 in Hfree, Hb2.
  destruct (Create_writes fs d2 t r h dir b2) as (d3 & E3 & Hd3 & Hsys3 & Hc3 & Hh3 & Hfm & Hfd); try done.
  { apply Hfs. } { apply Hfs. } { intros Hin. apply Hrn. by eapply marked_system. }
  destruct (fs_ok_add fs (sectors d2) (sectors d3) b t (file_key fname) r h b2 (table dir))
    as [Hok Hframe]; try done; [by destruct dir..|].
  exists d3, b2, (table dir), (file_bytes (sectors d3) h). split_and!; try done.
  - unfold Create. rewrite E1, Hnone. cbn [default]. rewrite bool_decide_eq_false_2 by naive_solver.
    rewrite E2, Ef, lift_run. rewrite bool_decide_eq_false_2 by lia.
    rewrite Eadd. cbn [negb]. rewrite Eal, lift_run. cbn [negb]. exact E3.
  - destruct (file_bytes_spec (sectors d3) h (dev_shape d3 Hd3) Hh) as [-> _]. by rewrite Hnbh.
  - unfold fs_files. destruct dir as [t']. cbn [table]. rewrite Hmap, fmap_insert, Hh3. f_equal.
    apply fs_files_frame; [apply Hfs|]. intros p Hp. by apply Hframe.
  - rewrite (clear_count_add b b2 r h) by (done || congruence). by rewrite (ho_sectors h Hh), Hnbh.
  - intros k s Hk. destruct dir as [t']. cbn [table]. rewrite Hmap, lookup_insert_ne by congruence.
    split; [done|]. apply (Hframe (k, s)). apply lookup_pair; [apply Hfs|done].
Qed.

(** A [Create] that is refused, of whatever length, leaves the disk as it was. *)
Lemma Create_refused_any fs d b t fname size : dev_wf d → fs_ok fs (sectors d) b t → is_name fname →
  0 ≤ size → ¬ (dir_map (mkDirectory t) !! file_key fname = None ∧ fits b t size) →
  ∃ d', Create junk fs fname size d = Ok (false, d') ∧ dev_wf d' ∧ sectors d' = sectors d.
Proof.
  intros Hd Hfs Hf Hsz Hno. destruct (fo_map_wf _ _ _ _ Hfs) as [Hwf Hnb].
  destruct (divRoundUp_range size) as [Hdr _]; [lia|].
  destruct (lookup_ok fs d b t fname Hd Hfs Hf) as (d1 & Hd1 & Hs1 & E1).
  unfold Create. rewrite E1. destruct (dir_map (mkDirectory t) !! file_key fname) as [s|] eqn:Ek.
  { exists d1. destruct (lookup_file _ _ _ _ _ _ Hfs Ek) as [Hs _].
    change (default (-1) (Some s)) with s.
    rewrite bool_decide_eq_true_2 by (intros ->; lia). done. }
  cbn [default]. rewrite bool_decide_eq_false_2 by naive_solver.
  rewrite <- Hs1 in *. destruct (read_map_ok fs d1 b t Hd1 Hfs) as (d2 & Hd2 & Hs2 & E2).
  exists d2. rewrite E2. split; [|done].
  destruct (decide (0 < clear_count b)) as [Hc|Hc].
  2: { rewrite Find_none, lift_run by (done || lia). by rewrite bool_decide_eq_true_2. }
  destruct (Find_some b Hwf Hc) as (r & b1 & Ef & Hr & Hrn & Hwf1 & Hn1 & Hb1 & Hc1).
  rewrite Ef, lift_run. rewrite bool_decide_eq_false_2 by lia.
  pose proof (Add_spec (mkDirectory t) fname r) as Ha.
  destruct (Add (mkDirectory t) fname r) as [added dir] eqn:Eadd.
  destruct Ha as (Hadd & _ & _); [apply Hfs|done| |].
  { unfold is_int, int_min, int_max, NumSectors, SectorsPerTrack, NumTracks in *. lia. }
  destruct added; [|done]. cbn [negb]. symmetry in Hadd. apply bool_decide_eq_true in Hadd as [_ Hroom].
  destruct (Allocate_full size (new_header junk) b1 Hwf1) as [h' ->].
  { destruct (decide (1 + divRoundUp size SectorSize ≤ clear_count b)); [|lia].
    exfalso. apply Hno. by split. }
  by rewrite lift_run.
Qed.

Lemma Create_refused fs d b t fname size : dev_wf d → fs_ok fs (sectors d) b t → is_name fname →
  0 ≤ size ≤ MaxFileSize → ¬ (dir_map (mkDirectory t) !! file_key fname = None ∧ fits b t size) →
  ∃ d', Create junk fs fname size d = Ok (false, d') ∧ dev_wf d' ∧ sectors d' = sectors d.
Proof. intros Hd Hfs Hf [H0 _]. by apply Create_refused_any. Qed.

(** A file longer than [MaxFileSize] that the free sectors would hold is not
    refused: [FileHeader::Allocate] writes past its table. *)
Lemma Create_overruns fs d b t fname size : dev_wf d → fs_ok fs (sectors d) b t → is_name fname →
  MaxFileSize < size → dir_map (mkDirectory t) !! file_key fname = None → fits b t size →
  Create junk fs fname size d = Err OutOfBounds.
Proof.
  intros Hd Hfs Hf Hsz Hnone [Hroom Hclear]. destruct (fo_map_wf _ _ _ _ Hfs) as [Hwf Hnb].
  assert (H0 : 0 ≤ size) by (change MaxFileSize with 3840 in Hsz; lia). destruct (divRoundUp_range size H0) as [Hdr _].
  destruct (lookup_ok fs d b t fname Hd Hfs Hf) as (d1 & Hd1 & Hs1 & E1).
  rewrite <- Hs1 in Hfs. destruct (read_map_ok fs d1 b t Hd1 Hfs) as (d2 & Hd2 & Hs2 & E2).
  destruct (Find_some b Hwf) as (r & b1 & Ef & Hr & Hrn & Hwf1 & Hn1 & Hb1 & Hc1); [lia|].
  pose proof (Add_spec (mkDirectory t) fname r) as Ha.
  destruct (Add (mkDirectory t) fname r) as [added dir] eqn:Eadd.
  destruct Ha as (Hadd & _ & _); [apply Hfs|done| |].
  { rewrite Hnb in Hr. unfold is_int, int_min, int_max, NumSectors, SectorsPerTrack, NumTracks in *. lia. }
  rewrite bool_decide_eq_true_2 in Hadd by done. subst added.
  unfold Create. rewrite E1, Hnone. cbn [default]. rewrite bool_decide_eq_false_2 by naive_solver.
  rewrite E2, Ef, lift_run. rewrite bool_decide_eq_false_2 by lia. rewrite Eadd. cbn [negb].
  assert (E : Allocate size (new_header junk) b1 = Err OutOfBounds).
  { apply Allocate_past_table; [apply new_header_shape|done|congruence|done|lia]. }
  unfold lift at 1. unfold_M. by rewrite E.
Qed.

(** ** Remove *)

Lemma Remove_writes {A} (x : A) fs d t dir b2 : dev_wf d → system_ok fs (sectors d) →
  NoDup (owned fs (sectors d) t) → dir_ok dir → length (table dir) = Z.to_nat NumDirEntries →
  bitmap_wf b2 → numBits b2 = NumSectors →
  ∃ d', (BitMap_WriteBack junk (freeMapFile fs) b2 ≫= λ _,
         Directory_WriteBack junk (directoryFile fs) dir ≫= λ _, mret x) d = Ok (x, d') ∧
    dev_wf d' ∧ system_ok fs (sectors d') ∧ changes (touched fs []) (sectors d) (sectors d') ∧
    file_bytes (sectors d') (hdr (freeMapFile fs)) = words_bytes (bmap b2) ∧
    file_bytes (sectors d') (hdr (directoryFile fs)) = table_bytes (table dir).
Proof.
  intros Hd Hsys Hnd Hdir Hlen Hwf2 Hn2.
  destruct (owned_split _ _ _ Hnd) as (Hm0 & Hd0 & HMT & _). rewrite not_elem_of_app in Hm0, Hd0.
  destruct (store_map fs d b2) as (d1 & E1 & Hd1 & Hf1 & Hc1); [done|done|done|done|].
  destruct (store_dir fs d1 dir) as (d2 & E2 & Hd2 & Hf2 & Hc2); [done| |done|done|].
  { apply (system_ok_frame _ fs _ _ Hsys Hc1); naive_solver. }
  pose proof (changes_trans _ _ _ _ _ Hc1 Hc2) as Hc.
  exists d2. rewrite (bind_run _ _ _ _ _ E1), (bind_run _ _ _ _ _ E2). split_and!; try done.
  - apply (system_ok_frame _ fs _ _ Hsys Hc); rewrite not_elem_of_app; naive_solver.
  - intros s Hs Hn. apply Hc; [done|]. unfold touched in Hn.
    rewrite !not_elem_of_app in *. naive_solver.
  - rewrite <- Hf1. apply (changes_file _ _ _ _ Hc2); [apply Hsys|]. intros s. apply HMT.
Qed.

(** The invariant after the file in sector [r] was taken out. *)
Lemma fs_ok_del fs ss ss' b t key r b2 t' : fs_ok fs ss b t →
  system_ok fs ss' → changes (touched fs []) ss ss' →
  file_bytes ss' (hdr (freeMapFile fs)) = words_bytes (bmap b2) →
  file_bytes ss' (hdr (directoryFile fs)) = table_bytes t' →
  dir_ok (mkDirectory t') → length t' = Z.to_nat NumDirEntries →
  dir_pairs (mkDirectory t) ≡ₚ (key, r) :: dir_pairs (mkDirectory t') →
  bitmap_wf b2 → numBits b2 = NumSectors → bits_of b2 = bits_of b ∖ list_to_set (file_sectors ss r) →
  fs_ok fs ss' b2 t' ∧
  ∀ p, p ∈ dir_pairs (mkDirectory t') →
    file_bytes ss' (header_at ss' p.2) = file_bytes ss (header_at ss p.2).
Proof.
  intros Hfs Hsys Hc Hfm Hfd Hdir Hlen Hpairs Hwf2 Hn2 Hb2.
  destruct (owned_split _ _ _ (fo_nodup _ _ _ _ Hfs)) as (_ & _ & _ & Hpsys).
  assert (Hkeep : ∀ p s, p ∈ dir_pairs (mkDirectory t) → s ∈ file_sectors ss p.2 →
                         s ∉ touched fs []).
  { intros p s Hp Hs. apply not_touched; [by apply (Hpsys p)|apply not_elem_of_nil]. }
  pose proof (files_frame _ _ _ _ _ _ Hfs Hc Hkeep) as Hframe.
  pose proof (fo_files _ _ _ _ Hfs) as Hf. rewrite Hpairs, Forall_cons in Hf. destruct Hf as [_ Hf].
  assert (Hsub : ∀ p, p ∈ dir_pairs (mkDirectory t') → p ∈ dir_pairs (mkDirectory t))
    by (intros p Hp; rewrite Hpairs; by apply elem_of_cons; right).
  assert (Hown : owned fs ss t ≡ₚ file_sectors ss r ++ owned fs ss' t').
  { unfold owned. rewrite Hpairs, bind_cons. cbn [snd].
    rewrite (owned_frame _ _ _ (dir_pairs (mkDirectory t')) Hc); [solve_Permutation|].
    rewrite Forall_forall in Hf |- *. intros p Hp. destruct (Hf p Hp). split; [lia|].
    apply (Hkeep p); [by apply Hsub|]. apply elem_of_cons. by left. }
  pose proof (fo_nodup _ _ _ _ Hfs) as Hnd. rewrite Hown in Hnd.
  apply NoDup_app in Hnd as (_ & Hdis & Hnd).
  split; [|intros p Hp; by apply Hframe, Hsub]. split; try done.
  - rewrite Forall_forall in Hf |- *. intros p Hp. destruct (Hframe p (Hsub p Hp)) as [-> _]. by apply Hf.
  - apply set_eq. intros s. rewrite Hb2, elem_of_difference, <- (owned_marked _ _ _ _ Hfs).
    rewrite !elem_of_list_to_set, Hown, elem_of_app. specialize (Hdis s). tauto.
Qed.

Lemma Remove_found fs d b t fname r : dev_wf d → fs_ok fs (sectors d) b t → is_name fname →
  dir_map (mkDirectory t) !! file_key fname = Some r →
  ∃ d' b' t', FileSystem_Remove junk fs fname d = Ok (true, d') ∧ dev_wf d' ∧
    fs_ok fs (sectors d') b' t' ∧
    fs_files (sectors d') t' = delete (file_key fname) (fs_files (sectors d) t) ∧
    bits_of b' = bits_of b ∖ list_to_set (file_sectors (sectors d) r).
Proof.
  intros Hd Hfs Hf Hk. destruct (lookup_file _ _ _ _ _ _ Hfs Hk) as [Hr Hh].
  destruct (fo_map_wf _ _ _ _ Hfs) as [Hwf Hnb].
  destruct (lookup_ok fs d b t fname Hd Hfs Hf) as (d1 & Hd1 & Hs1 & E1).
  rewrite <- Hs1 in *. destruct (FetchFrom_ok d1 r Hd1 Hr) as (d2 & E2 & Hd2 & Hs2).
  rewrite <- Hs2 in *. destruct (read_map_ok fs d2 b t Hd2 Hfs) as (d3 & Hd3 & Hs3 & E3).
  rewrite <- Hs3 in *.
  assert (Hpr : (file_key fname, r) ∈ dir_pairs (mkDirectory t)) by (apply lookup_pair; [apply Hfs|done]).
  destruct (Deallocate_ok (header_at (sectors d3) r) b Hh Hwf Hnb) as (b1 & Ed & Hwf1 & Hn1 & Hb1).
  { apply Forall_forall. intros s Hs. apply (marked_file _ _ _ _ _ s Hfs Hpr). apply elem_of_cons. by right. }
  destruct (Clear_set b1 r Hwf1) as (b2 & Ec & Hwf2 & Hn2 & Hb2); [lia|].
  pose proof (Remove_spec (mkDirectory t) fname) as Hrm.
  destruct (Remove (mkDirectory t) fname) as [ok [t']] eqn:Erm.
  destruct Hrm as (_ & _ & Hdir & Hlen & Hmap & Hpairs); [apply Hfs|done|].
  specialize (Hpairs r Hk). cbn [table] in *.
  assert (Hlen' : length t' = Z.to_nat NumDirEntries)
    by (rewrite Hlen; apply (fo_dir_wf _ _ _ _ Hfs)).
  destruct (Remove_writes true fs d3 t (mkDirectory t') b2) as (d4 & E4 & Hd4 & Hsys4 & Hc4 & Hfm & Hfd); try done.
  { apply Hfs. } { apply Hfs. } { congruence. }
  assert (Hb : bits_of b2 = bits_of b ∖ list_to_set (file_sectors (sectors d3) r)).
  { rewrite Hb2, Hb1. unfold file_sectors. cbn. apply set_eq. intros s.
    rewrite !elem_of_difference, elem_of_union, elem_of_singleton. tauto. }
  destruct (fs_ok_del fs (sectors d3) (sectors d4) b t (file_key fname) r b2 t')
    as [Hok Hframe]; try done; [congruence|].
  exists d4, b2, t'. split_and!; try done.
  - unfold FileSystem_Remove. rewrite E1, Hk. change (default (-1) (Some r)) with r.
    rewrite bool_decide_eq_false_2 by lia. rewrite (bind_run _ _ _ _ _ E2), E3.
    rewrite Ed, lift_run, Ec, lift_run, Erm. exact E4.
  - unfold fs_files at 2. rewrite <- fmap_delete, <- Hmap.
    change ((λ s, file_bytes (sectors d3) (header_at (sectors d3) s)) <$> dir_map (mkDirectory t'))
      with (fs_files (sectors d3) t').
    apply fs_files_frame; [apply Hdir|done].
Qed.

Lemma Remove_absent fs d b t fname : dev_wf d → fs_ok fs (sectors d) b t → is_name fname →
  dir_map (mkDirectory t) !! file_key fname = None →
  ∃ d', FileSystem_Remove junk fs fname d = Ok (false, d') ∧ dev_wf d' ∧ sectors d' = sectors d.
Proof.
  intros Hd Hfs Hf Hk. destruct (lookup_ok fs d b t fname Hd Hfs Hf) as (d1 & Hd1 & Hs1 & E1).
  exists d1. unfold FileSystem_Remove. rewrite E1, Hk. done.
Qed.

(** ** Open *)

Lemma Open_ok fs d b t fname : dev_wf d → fs_ok fs (sectors d) b t → is_name fname →
  ∃ d', dev_wf d' ∧ sectors d' = sectors d ∧
    Open junk fs fname d =
      Ok ((λ s, mkOpen (header_at (sectors d) s) 0) <$> dir_map (mkDirectory t) !! file_key fname, d').
Proof.
  intros Hd Hfs Hf. destruct (lookup_ok fs d b t fname Hd Hfs Hf) as (d1 & Hd1 & Hs1 & E1).
  unfold Open. rewrite E1. destruct (dir_map (mkDirectory t) !! file_key fname) as [s|] eqn:Ek.
  - destruct (lookup_file _ _ _ _ _ _ Hfs Ek) as [Hs _].
    destruct (new_OpenFile_ok d1 s Hd1 Hs) as (d2 & E2 & Hd2 & Hs2).
    exists d2. split; [done|]. split; [congruence|]. change (default (-1) (Some s)) with s.
    rewrite bool_decide_eq_true_2 by lia. rewrite (bind_run _ _ _ _ _ E2). by rewrite Hs1.
  - exists d1. done.
Qed.

(** ** Format *)

Lemma FileSystem_reopen fs d b t : dev_wf d → fs_ok fs (sectors d) b t →
  ∃ d', FileSystem_new junk false d =
          Ok (mkFS (mkOpen (hdr (freeMapFile fs)) 0) (mkOpen (hdr (directoryFile fs)) 0), d') ∧
        dev_wf d' ∧ sectors d' = sectors d.
Proof.
  intros Hd Hfs. destruct (fo_sys _ _ _ _ Hfs) as [_ _ H0 _ _ H1].
  destruct (new_OpenFile_ok d FreeMapSector Hd) as (d1 & E1 & Hd1 & Hs1); [done|].
  destruct (new_OpenFile_ok d1 DirectorySector Hd1) as (d2 & E2 & Hd2 & Hs2); [done|].
  exists d2. split; [|split; [done|congruence]].
  rewrite H0 in E1. rewrite Hs1, H1 in E2.
  unfold FileSystem_new. by rewrite (bind_run _ _ _ _ _ E1), (bind_run _ _ _ _ _ E2).
Qed.

(** The free map of a new disk: the two headers, then the contents of the two
    files. *)
Lemma format_map b0 : bitmap_wf b0 → numBits b0 = NumSectors → bits_of b0 = ∅ →
  ∃ b1 b2 h1 b3 h2 b4,
  BitMap_Mark FreeMapSector b0 = Ok (tt, b1) ∧ BitMap_Mark DirectorySector b1 = Ok (tt, b2) ∧
  Allocate FreeMapFileSize (new_header junk) b2 = Ok ((true, h1), b3) ∧
  Allocate DirectoryFileSize (new_header junk) b3 = Ok ((true, h2), b4) ∧
  hdr_ok h1 ∧ numBytes h1 = FreeMapFileSize ∧ hdr_ok h2 ∧ numBytes h2 = DirectoryFileSize ∧
  bitmap_wf b4 ∧ numBits b4 = NumSectors ∧
  let l := FreeMapSector :: DirectorySector :: data_of h1 ++ data_of h2 in
  NoDup l ∧ bits_of b4 = list_to_set l.
Proof.
  intros Hwf0 Hn0 Hb0.
  destruct (Mark_set b0 FreeMapSector Hwf0) as (b1 & E1 & Hwf1 & Hn1 & Hb1);
    [rewrite Hn0; split; [discriminate|reflexivity]|].
  destruct (Mark_set b1 DirectorySector Hwf1) as (b2 & E2 & Hwf2 & Hn2 & Hb2);
    [rewrite Hn1, Hn0; split; [discriminate|reflexivity]|].
  rewrite Hb1, Hb0 in Hb2. rewrite Hn1, Hn0 in Hn2.
  assert (Hc2 : clear_count b2 = 1022) by (unfold clear_count; rewrite Hn2, Hb2; reflexivity).
  destruct (Allocate_ok FreeMapFileSize (new_header junk) b2)
    as (h1 & b3 & E3 & Hh1 & Hl1 & Hwf3 & Hn3 & Hf1 & Hb3);
    [apply new_header_shape|done|done|done|rewrite Hc2; done|].
  assert (Hc3 : 1000 ≤ clear_count b3).
  { unfold clear_count in *. rewrite Hn3, Hb3. rewrite Hn2 in Hc2.
    rewrite size_union, size_list_to_set by (apply Hh1 || (intros s Hs%elem_of_list_to_set;
      rewrite Forall_forall in Hf1; by apply Hf1)).
    rewrite (data_of_length h1 Hh1), (ho_sectors h1 Hh1), Hl1.
    change (Z.to_nat (divRoundUp FreeMapFileSize SectorSize)) with 1%nat. lia. }
  destruct (Allocate_ok DirectoryFileSize (new_header junk) b3)
    as (h2 & b4 & E4 & Hh2 & Hl2 & Hwf4 & Hn4 & Hf2 & Hb4);
    [apply new_header_shape|done|done|done| |].
  { change (divRoundUp DirectoryFileSize SectorSize) with 2. lia. }
  exists b1, b2, h1, b3, h2, b4. split_and!; try done. cbn zeta.
  rewrite Hb2 in Hb3, Hf1. rewrite Hb3 in Hb4, Hf2. rewrite Forall_forall in Hf1, Hf2.
  assert (Hin : ∀ s, s ∈ bits_of b4 ↔
    s ∈ FreeMapSector :: DirectorySector :: data_of h1 ++ data_of h2).
  { intros s. rewrite Hb4, !elem_of_union, !elem_of_list_to_set, !elem_of_singleton.
    rewrite !elem_of_cons, elem_of_app. set_solver. }
  split; [|apply set_eq; intros s; by rewrite Hin, elem_of_list_to_set].
  assert (Hno : ∀ s, s = FreeMapSector ∨ s = DirectorySector → s ∉ data_of h1 ++ data_of h2).
  { intros s Hs [H|H]%elem_of_app; [apply (Hf1 s H)|apply (Hf2 s H)];
      rewrite ?elem_of_union, !elem_of_singleton; naive_solver. }
  apply NoDup_cons. split; [rewrite not_elem_of_cons; split; [done|apply Hno; by left]|].
  apply NoDup_cons. split; [apply Hno; by right|].
  apply NoDup_app. split_and!; [apply Hh1| |apply Hh2].
  intros s H1 H2. apply (Hf2 s H2). rewrite elem_of_union, elem_of_list_to_set. by left.
Qed.

Lemma FileSystem_format d : dev_wf d →
  ∃ fs d' b t, FileSystem_new junk true d = Ok (fs, d') ∧ dev_wf d' ∧
    fs_ok fs (sectors d') b t ∧ fs_files (sectors d') t = ∅.
Proof.
  intros Hd. unfold FileSystem_new. destruct (new_map_ok d) as (b0 & E0 & Hwf0 & Hn0 & Hb0).
  revert E0. generalize (new_map (S := D) junk). intros nm E0.
  destruct (format_map b0 Hwf0 Hn0 Hb0)
    as (b1 & b2 & h1 & b3 & h2 & b4 & E1 & E2 & E3 & E4 & Hh1 & Hl1 & Hh2 & Hl2 & Hwf & Hn & Hnd & Hb).
  destruct (WriteBack_ok d FreeMapSector h1 Hd) as (d1 & W1 & Hd1 & Hc1 & Ha1); [done|apply Hh1|].
  destruct (WriteBack_ok d1 DirectorySector h2 Hd1) as (d2 & W2 & Hd2 & Hc2 & Ha2); [done|apply Hh2|].
  assert (Ha0 : header_at (sectors d2) FreeMapSector = h1).
  { rewrite (changes_header _ _ _ _ Hc2); [done|done|]. rewrite list_elem_of_singleton. done. }
  destruct (new_OpenFile_ok d2 FreeMapSector Hd2) as (d3 & F1 & Hd3 & Hs3); [done|].
  destruct (new_OpenFile_ok d3 DirectorySector Hd3) as (d4 & F2 & Hd4 & Hs4); [done|].
  rewrite Ha0 in F1. rewrite Hs3, Ha2 in F2.
  set (fs := mkFS (mkOpen h1 0) (mkOpen h2 0)).
  destruct (new_Directory_ok junk NumDirEntries) as (Hs & Hnl & Hnp); [done|done|].
  fold (new_directory junk) in *. set (dir := new_directory junk) in *.
  assert (Hdir : dir_ok dir) by (split; [done|]; rewrite Hnp; apply NoDup_nil_2).
  assert (Hown : ∀ ss, owned fs ss (table dir) = system_sectors fs).
  { intros ss. unfold owned. replace (mkDirectory (table dir)) with dir by by destruct dir.
    rewrite Hnp. cbn. by rewrite app_nil_r. }
  destruct (Remove_writes fs fs d4 (table dir) dir b4) as (d5 & E5 & Hd5 & Hsys5 & _ & Hfm & Hfd); try done.
  { rewrite Hs4, Hs3. by split. } { by rewrite Hown. }
  exists fs, d5, b4, (table dir). split_and!; try done.
  - rewrite (bind_run _ _ _ _ _ E0), E1, lift_run, E2, lift_run, E3, lift_run.
    unfold ASSERT. rewrite (bind_run (mret tt) _ d tt d eq_refl), E4, lift_run.
    rewrite (bind_run (mret tt) _ d tt d eq_refl), (bind_run _ _ _ _ _ W1), (bind_run _ _ _ _ _ W2).
    rewrite (bind_run _ _ _ _ _ F1), (bind_run _ _ _ _ _ F2). exact E5.
  - split; try done; try (by rewrite Hown).
Qed.

(** ** Writing through an open file *)

Lemma files_nodup fs ss b t : fs_ok fs ss b t →
  NoDup (dir_pairs (mkDirectory t) ≫= λ p, file_sectors ss p.2).
Proof. intros H. pose proof (fo_nodup _ _ _ _ H) as Hn. by apply NoDup_app in Hn as (_ & _ & Hn). Qed.

(** No header lies among the data of a file. *)
Lemma headers_apart fs ss b t q p : fs_ok fs ss b t →
  q ∈ dir_pairs (mkDirectory t) → p ∈ dir_pairs (mkDirectory t) → p.2 ∉ data_of (header_at ss q.2).
Proof.
  intros Hfs Hq Hp Hx. pose proof (files_nodup _ _ _ _ Hfs) as Hnd.
  assert (p = q) as ->.
  { apply (files_disjoint ss (dir_pairs (mkDirectory t)) p q p.2 Hnd Hp Hq);
      apply elem_of_cons; [by left|by right]. }
  apply list_elem_of_split in Hq as (l1 & l2 & E). rewrite E, bind_app, bind_cons in Hnd.
  apply NoDup_app in Hnd as (_ & _ & Hnd). apply NoDup_app in Hnd as (Hnd & _).
  unfold file_sectors in Hnd. by apply NoDup_cons in Hnd as [? _].
Qed.

(** A write to a file that exists changes that file's bytes and nothing else. *)
Lemma fs_ok_write fs ss ss' b t k r : fs_ok fs ss b t → dir_map (mkDirectory t) !! k = Some r →
  changes (data_of (header_at ss r)) ss ss' →
  fs_ok fs ss' b t ∧ header_at ss' r = header_at ss r ∧
  fs_files ss' t = <[k := file_bytes ss' (header_at ss r)]> (fs_files ss t).
Proof.
  intros Hfs Hk Hc. set (X := data_of (header_at ss r)) in *.
  assert (Hpr : (k, r) ∈ dir_pairs (mkDirectory t)) by (apply lookup_pair; [apply Hfs|done]).
  destruct (owned_split _ _ _ (fo_nodup _ _ _ _ Hfs)) as (_ & _ & _ & Hpsys).
  assert (Hsys : ∀ s, s ∈ system_sectors fs → s ∉ X).
  { intros s Hs Hx. apply (Hpsys (k, r) s Hpr); [|done]. apply elem_of_cons. by right. }
  pose proof (files_nodup _ _ _ _ Hfs) as Hnd.
  assert (Hhead : ∀ p, p ∈ dir_pairs (mkDirectory t) → p.2 ∉ X)
    by (intros p Hp; by apply (headers_apart fs ss b t (k, r) p)).
  pose proof (fo_files _ _ _ _ Hfs) as Hf. rewrite Forall_forall in Hf.
  assert (Hheq : ∀ p, p ∈ dir_pairs (mkDirectory t) → header_at ss' p.2 = header_at ss p.2).
  { intros p Hp. destruct (Hf p Hp). apply (changes_header X); [done|lia|by apply Hhead]. }
  assert (Hown : owned fs ss' t = owned fs ss t).
  { unfold owned. f_equal. apply (owned_frame X); [done|]. apply Forall_forall. intros p Hp.
    destruct (Hf p Hp). split; [lia|by apply Hhead]. }
  pose proof (Hheq _ Hpr) as Hr. cbn [snd] in Hr. split_and!; [|done|].
  - destruct Hfs as [Hs Hm Hmw Hd Hdw _ Hn Hmk]. split; try done.
    + apply (system_ok_frame X fs ss); [done|done|..]; apply Hsys; [left|right; left].
    + rewrite <- Hm. apply (changes_file X); [done|apply Hs|]. intros s Hin. apply Hsys.
      do 2 right. apply elem_of_app. by left.
    + rewrite <- Hd. apply (changes_file X); [done|apply Hs|]. intros s Hin. apply Hsys.
      do 2 right. apply elem_of_app. by right.
    + apply Forall_forall. intros p Hp. rewrite Hheq by done. by apply Hf.
    + by rewrite Hown.
    + by rewrite Hown.
  - apply map_eq. intros k'. rewrite fs_files_lookup. destruct (decide (k' = k)) as [->|Hne].
    + rewrite lookup_insert_eq, Hk. cbn. by rewrite Hr.
    + rewrite lookup_insert_ne, fs_files_lookup by done.
      destruct (dir_map (mkDirectory t) !! k') as [s|] eqn:Ek; [|done]. cbn. f_equal.
      assert (Hp : (k', s) ∈ dir_pairs (mkDirectory t)) by (apply lookup_pair; [apply Hfs|done]).
      pose proof (Hheq _ Hp) as Hs. cbn [snd] in Hs. rewrite Hs. apply (changes_file X); [done| |].
      { by destruct (Hf _ Hp). }
      intros x Hx HxX. assert (E : (k', s) = (k, r)); [|by inversion E].
      apply (files_disjoint ss (dir_pairs (mkDirectory t)) _ _ x Hnd Hp Hpr);
        apply elem_of_cons; by right.
Qed.

(** ** A user of the file system *)

(** The calls of a user: a file is opened by name for each transfer. *)
Inductive fs_call :=
  | CCreate (fname : list Z) (size : Z)
  | CRemove (fname : list Z)
  | CRead (fname : list Z) (n position : Z)
  | CWrite (fname : list Z) (from : list Z) (position : Z).

Inductive fs_result := RBool (b : bool) | RBytes (r : option (list Z)) | RCount (r : option Z).

Definition run_call fs (c : fs_call) : M D fs_result :=
  match c with
  | CCreate fname size => ok ← Create junk fs fname size; mret (RBool ok)
  | CRemove fname => ok ← FileSystem_Remove junk fs fname; mret (RBool ok)
  | CRead fname n position =>
      f ← Open junk fs fname;
      match f with
      | Some f => r ← ReadAt junk (hdr f) n position; mret (RBytes (Some r))
      | None => mret (RBytes None)
      end
  | CWrite fname from position =>
      f ← Open junk fs fname;
      match f with
      | Some f => r ← WriteAt junk (hdr f) from (Z.of_nat (length from)) position; mret (RCount (Some r))
      | None => mret (RCount None)
      end
  end.

Fixpoint run_calls fs (cs : list fs_call) : M D (list fs_result) :=
  match cs with
  | [] => mret []
  | c :: cs => r ← run_call fs c; rs ← run_calls fs cs; mret (r :: rs)
  end.

(** Arguments a caller may pass: a name is a C string, a size fits in the
    header's table, positions are not negative and do not overflow. *)
Definition call_ok (c : fs_call) : Prop :=
  match c with
  | CCreate fname size => is_name fname ∧ 0 ≤ size ≤ MaxFileSize
  | CRemove fname => is_name fname
  | CRead fname n position => is_name fname ∧ 0 ≤ position ∧ is_int (position + n)
  | CWrite fname from position =>
      is_name fname ∧ Forall is_byte from ∧ 0 ≤ position ∧ is_int (position + Z.of_nat (length from))
  end.

(** The specification: a map from names to bytes.  A creation may be refused;
    when it is not, the name was new and the file holds arbitrary bytes. *)
Inductive fs_spec (files : gmap (list Z) (list Z)) : fs_call → fs_result → gmap (list Z) (list Z) → Prop :=
  | spec_create fname size bytes :
      files !! file_key fname = None → length bytes = Z.to_nat size →
      fs_spec files (CCreate fname size) (RBool true) (<[file_key fname := bytes]> files)
  | spec_refuse fname size : fs_spec files (CCreate fname size) (RBool false) files
  | spec_remove fname :
      fs_spec files (CRemove fname) (RBool (bool_decide (is_Some (files !! file_key fname))))
        (delete (file_key fname) files)
  | spec_read fname n position :
      fs_spec files (CRead fname n position)
        (RBytes (take (Z.to_nat n) ∘ drop (Z.to_nat position) <$> files !! file_key fname)) files
  | spec_write fname from position bytes :
      files !! file_key fname = Some bytes →
      let w := Z.max 0 (Z.min (Z.of_nat (length from)) (Z.of_nat (length bytes) - position)) in
      fs_spec files (CWrite fname from position) (RCount (Some w))
        (<[file_key fname := list_inserts (Z.to_nat position) (take (Z.to_nat w) from) bytes]> files)
  | spec_write_none fname from position :
      files !! file_key fname = None →
      fs_spec files (CWrite fname from position) (RCount None) files.

Inductive fs_trace : gmap (list Z) (list Z) → list fs_call → list fs_result →
    gmap (list Z) (list Z) → Prop :=
  | trace_nil files : fs_trace files [] [] files
  | trace_cons files c r files1 cs rs files2 :
      fs_spec files c r files1 → fs_trace files1 cs rs files2 →
      fs_trace files (c :: cs) (r :: rs) files2.

(** The disk holds a file system whose files are [files]. *)
Definition fs_holds fs d files : Prop :=
  dev_wf d ∧ ∃ b t, fs_ok fs (sectors d) b t ∧ fs_files (sectors d) t = files.

Lemma fs_holds_same fs d d' files : fs_holds fs d files → dev_wf d' → sectors d' = sectors d →
  fs_holds fs d' files.
Proof. intros (_ & b & t & Hfs & Hf) Hd' Hs. split; [done|]. exists b, t. by rewrite Hs. Qed.

Lemma lookup_files_none ss t k :
  dir_map (mkDirectory t) !! k = None ↔ fs_files ss t !! k = None.
Proof. rewrite fs_files_lookup, fmap_None. done. Qed.

Lemma create_simulates fs d files fname size : fs_holds fs d files → call_ok (CCreate fname size) →
  ∃ r d' files', run_call fs (CCreate fname size) d = Ok (r, d') ∧ fs_holds fs d' files' ∧
    fs_spec files (CCreate fname size) r files'.
Proof.
  intros Hh [Hf Hs]. pose proof Hh as (Hd & b & t & Hfs & Hfiles). cbn [run_call].
  destruct (decide (dir_map (mkDirectory t) !! file_key fname = None ∧ fits b t size)) as [[Hn Hfit]|Hno].
  - destruct (Create_fits fs d b t fname size Hd Hfs Hf Hs Hn Hfit)
      as (d' & b' & t' & bytes & E & Hd' & Hfs' & Hl & Hfiles' & _).
    exists (RBool true), d', (<[file_key fname := bytes]> files). rewrite (bind_run _ _ _ _ _ E).
    split_and!; [done| |].
    + split; [done|]. exists b', t'. by rewrite <- Hfiles.
    + constructor; [|done]. subst files. by apply lookup_files_none.
  - destruct (Create_refused fs d b t fname size Hd Hfs Hf Hs Hno) as (d' & E & Hd' & Hs').
    exists (RBool false), d', files. rewrite (bind_run _ _ _ _ _ E).
    split_and!; [done|by eapply fs_holds_same|constructor].
Qed.

Lemma remove_simulates fs d files fname : fs_holds fs d files → is_name fname →
  ∃ r d' files', run_call fs (CRemove fname) d = Ok (r, d') ∧ fs_holds fs d' files' ∧
    fs_spec files (CRemove fname) r files'.
Proof.
  intros Hh Hf. pose proof Hh as (Hd & b & t & Hfs & <-). cbn [run_call].
  destruct (dir_map (mkDirectory t) !! file_key fname) as [s|] eqn:Ek.
  - destruct (Remove_found fs d b t fname s Hd Hfs Hf Ek)
      as (d' & b' & t' & E & Hd' & Hfs' & Hfiles' & _).
    exists (RBool true), d', (delete (file_key fname) (fs_files (sectors d) t)).
    rewrite (bind_run _ _ _ _ _ E). split_and!; [done| |].
    + split; [done|]. by exists b', t'.
    + replace true with
        (bool_decide (is_Some (fs_files (sectors d) t !! file_key fname))); [constructor|].
      apply bool_decide_eq_true_2. rewrite fs_files_lookup, Ek. by eexists.
  - destruct (Remove_absent fs d b t fname Hd Hfs Hf Ek) as (d' & E & Hd' & Hs').
    exists (RBool false), d', (fs_files (sectors d) t). rewrite (bind_run _ _ _ _ _ E).
    split_and!; [done|by eapply fs_holds_same|].
    apply (lookup_files_none (sectors d)) in Ek.
    pose proof (spec_remove (fs_files (sectors d) t) fname) as Hspec.
    rewrite delete_id, bool_decide_eq_false_2 in Hspec; [done|rewrite Ek; by intros [? ?]|done].
Qed.

Lemma read_simulates fs d files fname n position : fs_holds fs d files →
  call_ok (CRead fname n position) →
  ∃ r d' files', run_call fs (CRead fname n position) d = Ok (r, d') ∧ fs_holds fs d' files' ∧
    fs_spec files (CRead fname n position) r files'.
Proof.
  intros Hh (Hf & Hp & Hi). pose proof Hh as (Hd & b & t & Hfs & <-). cbn [run_call].
  pose proof (spec_read (fs_files (sectors d) t) fname n position) as Hspec.
  rewrite fs_files_lookup in Hspec.
  destruct (Open_ok fs d b t fname Hd Hfs Hf) as (d1 & Hd1 & Hs1 & E1).
  rewrite (bind_run _ _ _ _ _ E1).
  destruct (dir_map (mkDirectory t) !! file_key fname) as [s|] eqn:Ek; cbn in Hspec |- *.
  - destruct (lookup_file _ _ _ _ _ _ Hfs Ek) as [_ Hok].
    destruct (ReadAt_ok junk (header_at (sectors d) s) n position d1 Hok Hd1 Hp Hi)
      as (d2 & E2 & Hd2 & Hs2).
    eexists _, d2, _. rewrite (bind_run _ _ _ _ _ E2), Hs1. split_and!; [done| |exact Hspec].
    eapply fs_holds_same; [done|done|congruence].
  - eexists _, d1, _. split_and!; [done|by eapply fs_holds_same|exact Hspec].
Qed.

Lemma write_simulates fs d files fname from position : fs_holds fs d files →
  call_ok (CWrite fname from position) →
  ∃ r d' files', run_call fs (CWrite fname from position) d = Ok (r, d') ∧ fs_holds fs d' files' ∧
    fs_spec files (CWrite fname from position) r files'.
Proof.
  intros Hh (Hf & Hb & Hp & Hi). pose proof Hh as (Hd & b & t & Hfs & <-). cbn [run_call].
  destruct (Open_ok fs d b t fname Hd Hfs Hf) as (d1 & Hd1 & Hs1 & E1).
  rewrite (bind_run _ _ _ _ _ E1).
  destruct (dir_map (mkDirectory t) !! file_key fname) as [s|] eqn:Ek; cbn.
  2: { eexists _, d1, _. split_and!; [done|by eapply fs_holds_same|].
       constructor. by apply lookup_files_none. }
  destruct (lookup_file _ _ _ _ _ _ Hfs Ek) as [_ Hok]. set (h := header_at (sectors d) s) in *.
  destruct (WriteAt_ok junk h from (Z.of_nat (length from)) position d1)
    as (d2 & E2 & Hd2 & Hf2 & Ho2); try done.
  rewrite Hs1 in Hf2, Ho2.
  destruct (fs_ok_write fs (sectors d) (sectors d2) b t (file_key fname) s Hfs Ek Ho2)
    as (Hfs2 & _ & Hfiles2).
  assert (Hlk : fs_files (sectors d) t !! file_key fname = Some (file_bytes (sectors d) h))
    by (rewrite fs_files_lookup, Ek; done).
  pose proof (spec_write (fs_files (sectors d) t) fname from position _ Hlk) as Hspec.
  destruct (file_bytes_spec (sectors d) h (dev_shape d Hd) Hok) as (Hlen & _ & _ & Hnb & _).
  rewrite Hlen, Z2Nat.id in Hspec by lia. cbn zeta in Hspec.
  eexists _, d2, _. rewrite (bind_run _ _ _ _ _ E2). split_and!; [done| |exact Hspec].
  split; [done|]. exists b, t. split; [done|]. rewrite Hfiles2. fold h. rewrite Hf2. do 3 f_equal. lia.
Qed.

Lemma call_simulates fs d files c : fs_holds fs d files → call_ok c →
  ∃ r d' files', run_call fs c d = Ok (r, d') ∧ fs_holds fs d' files' ∧ fs_spec files c r files'.
Proof.
  destruct c; intros Hh Hc.
  - by apply create_simulates.
  - by apply remove_simulates.
  - by apply read_simulates.
  - by apply write_simulates.
Qed.

Lemma calls_simulate fs cs d files : fs_holds fs d files → Forall call_ok cs →
  ∃ rs d' files', run_calls fs cs d = Ok (rs, d') ∧ fs_holds fs d' files' ∧
    fs_trace files cs rs files'.
Proof.
  intros Hh Hcs. revert d files Hh. induction Hcs as [|c cs Hc _ IH]; intros d files Hh; cbn [run_calls].
  { exists [], d, files. split_and!; [done|done|constructor]. }
  destruct (call_simulates fs d files c Hh Hc) as (r & d1 & files1 & E1 & Hh1 & Hs1).
  destruct (IH d1 files1 Hh1) as (rs & d2 & files2 & E2 & Hh2 & Ht).
  exists (r :: rs), d2, files2.
  rewrite (bind_run _ _ _ _ _ E1), (bind_run _ _ _ _ _ E2). split_and!; [done|done|by econstructor].
Qed.

(** The files are found again when the disk is opened without formatting. *)
Lemma reopen_holds fs d files : fs_holds fs d files →
  ∃ fs' d', FileSystem_new junk false d = Ok (fs', d') ∧ fs_holds fs' d' files.
Proof.
  intros (Hd & b & t & Hfs & Hf). destruct (FileSystem_reopen fs d b t Hd Hfs) as (d' & E & Hd' & Hs').
  eexists _, d'. split; [exact E|]. clear E. split; [exact Hd'|]. exists b, t.
  rewrite Hs'. split; [|exact Hf]. destruct Hfs as [[]]. by split.
Qed.

(** C1: on any disk, formatting succeeds, and from there every sequence of
    creations, removals, reads and writes by name runs to its end without a
    fault and answers as a map from (nine-character) names to bytes: reads
    return what was last written, writes replace a slice and never another
    file, removal deletes, creation adds a file of the given length; and the
    files are those found when the disk is opened again without formatting. *)
Theorem FileSystem_refines_map d cs : dev_wf d → Forall call_ok cs →
  ∃ fs d0 rs d1 files, FileSystem_new junk true d = Ok (fs, d0) ∧
    run_calls fs cs d0 = Ok (rs, d1) ∧ fs_trace ∅ cs rs files ∧
    ∃ fs' d2, FileSystem_new junk false d1 = Ok (fs', d2) ∧ fs_holds fs' d2 files.
Proof.
  intros Hd Hcs. destruct (FileSystem_format d Hd) as (fs & d0 & b & t & E0 & Hd0 & Hfs & Hf).
  destruct (calls_simulate fs cs d0 ∅) as (rs & d1 & files & E1 & Hh1 & Ht); [|exact Hcs|].
  { split; [exact Hd0|]. exists b, t. split; [exact Hfs|exact Hf]. }
  exists fs, d0, rs, d1, files. split; [exact E0|]. split; [exact E1|]. split; [exact Ht|].
  exact (reopen_holds fs d1 files Hh1).
Qed.

(** C29: the space of the disk is accounted for exactly.  While the invariant
    holds, a creation succeeds if and only if the name is new, an entry of the
    directory is free and the free map has one sector for the header and
    enough for the data; it then takes exactly those sectors, and otherwise
    leaves every sector as it was; removing a file gives back its header and
    its data and nothing else. *)
Theorem space_is_accounted_for fs d b t fname size : dev_wf d → fs_ok fs (sectors d) b t →
  is_name fname → 0 ≤ size ≤ MaxFileSize →
  (∃ ok d', Create junk fs fname size d = Ok (ok, d') ∧
     ok = bool_decide (fs_files (sectors d) t !! file_key fname = None ∧ fits b t size) ∧
     if ok then ∃ b' t', fs_ok fs (sectors d') b' t' ∧
                  clear_count b' = clear_count b - 1 - divRoundUp size SectorSize
     else sectors d' = sectors d) ∧
  (∀ r, dir_map (mkDirectory t) !! file_key fname = Some r →
     ∃ d' b' t', FileSystem_Remove junk fs fname d = Ok (true, d') ∧ fs_ok fs (sectors d') b' t' ∧
       bits_of b' = bits_of b ∖ list_to_set (file_sectors (sectors d) r) ∧
       clear_count b' = clear_count b + 1 + numSectors (header_at (sectors d) r)).
Proof.
  intros Hd Hfs Hf Hs. split.
  - destruct (decide (dir_map (mkDirectory t) !! file_key fname = None ∧ fits b t size)) as [Hy|Hno].
    + destruct Hy as [Hn Hfit].
      destruct (Create_fits fs d b t fname size Hd Hfs Hf Hs Hn Hfit)
        as (d' & b' & t' & bytes & E & _ & Hfs' & _ & _ & Hc & _).
      exists true, d'. rewrite bool_decide_eq_true_2 by (by rewrite <- lookup_files_none).
      split; [exact E|]. split; [done|]. by exists b', t'.
    + destruct (Create_refused fs d b t fname size Hd Hfs Hf Hs Hno) as (d' & E & _ & Hs').
      exists false, d'. rewrite bool_decide_eq_false_2 by (by rewrite <- lookup_files_none).
      split; [exact E|done].
  - intros r Hr. destruct (Remove_found fs d b t fname r Hd Hfs Hf Hr)
      as (d' & b' & t' & E & _ & Hfs' & _ & Hb').
    exists d', b', t'. split; [exact E|]. split; [exact Hfs'|]. split; [exact Hb'|].
    destruct (lookup_file _ _ _ _ _ _ Hfs Hr) as [_ Hok].
    assert (Hpr : (file_key fname, r) ∈ dir_pairs (mkDirectory t)) by (apply lookup_pair; [apply Hfs|done]).
    destruct (fo_map_wf _ _ _ _ Hfs) as [_ Hn]. destruct (fo_map_wf _ _ _ _ Hfs') as [_ Hn'].
    rewrite (clear_count_del b b' (file_sectors (sectors d) r)); [|congruence| | |done].
    + cbn [length file_sectors]. rewrite (data_of_length _ Hok). pose proof (numSectors_nonneg _ Hok). lia.
    + apply NoDup_cons. split; [|apply Hok].
      by apply (headers_apart fs (sectors d) b t (file_key fname, r) (file_key fname, r)).
    + apply Forall_forall. intros s. by apply (marked_file _ _ _ _ _ s Hfs Hpr).
Qed.

End Proofs.

(** Byte 7 in every cell of uninitialised memory. *)
Lemma seven_byte : ∀ i : Z, is_byte ((λ _, 7) i).
Proof. intros i. unfold is_byte. lia. Qed.

Definition example_calls : list fs_call :=
  [CCreate [97; 98] 300; CWrite [97; 98] [1; 2; 3] 127; CRead [97; 98] 10 126; CRemove [97; 98]].

Lemma example_calls_ok : Forall call_ok example_calls.
Proof. repeat constructor; cbn; discriminate. Qed.

(** On the simulated disk, with its lock, its interrupts and its latencies. *)
Lemma FileSystem_refines_map_witness : ∃ k, SynchDisk.boot Interrupt.new_Statistics = Ok k ∧
  ∃ fs d0 rs d1 files, @FileSystem_new _ SynchDisk.device (λ _, 7) true k = Ok (fs, d0) ∧
    @run_calls _ SynchDisk.device (λ _, 7) fs example_calls d0 = Ok (rs, d1) ∧
    fs_trace ∅ example_calls rs files ∧
    ∃ fs' d2, @FileSystem_new _ SynchDisk.device (λ _, 7) false d1 = Ok (fs', d2) ∧
      @fs_holds _ SynchDisk.device fs' d2 files.
Proof.
  destruct (SynchDisk.boot_at_rest Interrupt.new_Statistics) as (k & E & Hk); [discriminate|].
  exists k. split; [exact E|].
  apply (@FileSystem_refines_map _ SynchDisk.device SynchDisk.device_ok (λ _, 7) seven_byte k
           example_calls Hk example_calls_ok).
Defined.

Lemma space_is_accounted_for_witness : ∃ fs (d : RamDisk.ram) b t,
  @fs_ok fs (@sectors _ RamDisk.device d) b t ∧
  (∃ ok d', @Create _ RamDisk.device (λ _, 7) fs [97] 300 d = Ok (ok, d') ∧
     ok = bool_decide (fs_files (@sectors _ RamDisk.device d) t !! file_key [97] = None ∧ fits b t 300) ∧
     if ok then ∃ b' t', fs_ok fs (@sectors _ RamDisk.device d') b' t' ∧
                  clear_count b' = clear_count b - 1 - divRoundUp 300 SectorSize
     else @sectors _ RamDisk.device d' = @sectors _ RamDisk.device d) ∧
  (∀ r, dir_map (mkDirectory t) !! file_key [97] = Some r →
     ∃ d' b' t', @FileSystem_Remove _ RamDisk.device (λ _, 7) fs [97] d = Ok (true, d') ∧
       fs_ok fs (@sectors _ RamDisk.device d') b' t' ∧
       bits_of b' = bits_of b ∖ list_to_set (file_sectors (@sectors _ RamDisk.device d) r) ∧
       clear_count b' = clear_count b + 1 + numSectors (header_at (@sectors _ RamDisk.device d) r)).
Proof.
  destruct (@FileSystem_format _ RamDisk.device RamDisk.device_ok (λ _, 7) seven_byte
              RamDisk.blank RamDisk.blank_wf) as (fs & d & b & t & _ & Hd & Hfs & _).
  exists fs, d, b, t. split; [exact Hfs|].
  apply (@space_is_accounted_for _ RamDisk.device RamDisk.device_ok (λ _, 7) seven_byte fs d b t [97] 300
           Hd Hfs).
  - repeat constructor; discriminate.
  - split; discriminate.
Defined.
