(* ===== verification/AddrSpace.v ===== *)
(** * AddrSpace: loading a program, userprog/addrspace.cc

    An address space is a page table over frames taken from the map of free
    frames ([myBitmap]); the constructor zeroes the frames and copies the code
    and the initialised data of a NOFF file into them, a page at a time.

    The code only calls [ReadAt] of the file it is given: the class [ExeFile]
    is that call, with the law [ExeFileOK].  Two files keep it: the UNIX file
    of the FILESYS_STUB build ([StubFile], filesys/openfile.h) and a file of
    the Nachos file system ([NachosFile], from [OpenFile]). *)

From S2P Require Import Prelude Bitmap Scheduler Machine Disk FileHdr OpenFile.

(** ** The executable *)

Class ExeFile (D : Type) := {
  exe_ReadAt : Z → Z → M D (list Z);
  exe_holds : D → list Z → Prop
}.

Class ExeFileOK (D : Type) `{!ExeFile D} := {
  exe_ReadAt_ok d c n pos : exe_holds d c → 0 ≤ pos → is_int (pos + n) →
    ∃ d', exe_ReadAt n pos d = Ok (take (Z.to_nat n) (drop (Z.to_nat pos) c), d') ∧ exe_holds d' c;
  exe_bytes d c : exe_holds d c → Forall is_byte c
}.

Module StubFile.

(** [OpenFile::ReadAt] of the stub: [Lseek], which aborts on a negative offset,
    then [ReadPartial]; the state is the contents of the UNIX file. *)
Definition Stub_ReadAt (n position : Z) : M (list Z) (list Z) :=
  ASSERT (bool_decide (0 ≤ position)) ≫= λ _,
  gets (λ c, take (Z.to_nat n) (drop (Z.to_nat position) c)).

#[export] Instance file : ExeFile (list Z) := {|
  exe_ReadAt := Stub_ReadAt;
  exe_holds d c := d = c ∧ Forall is_byte c
|}.

#[export] Instance file_ok : ExeFileOK (list Z).
Proof.
  split.
  - intros d c n pos [-> Hb] Hpos _. exists c. split; [|done]. cbn. unfold Stub_ReadAt.
    rewrite bool_decide_eq_true_2 by done. done.
  - by intros d c [_ ?].
Qed.

End StubFile.

Module NachosFile.
Section File.
Context {D : Type} `{!SectorDevice D} `{!SectorDeviceOK D} (junk : Z → Z) (h : FileHeader).

Definition file : ExeFile D := {|
  exe_ReadAt n position := ReadAt junk h n position;
  exe_holds d c := dev_wf d ∧ hdr_ok h ∧ file_bytes (sectors d) h = c
|}.

Lemma file_ok : @ExeFileOK D file.
Proof.
  split.
  - intros d c n pos (Hd & Hh & Hc) Hpos Hint.
    destruct (ReadAt_ok junk h n pos d Hh Hd Hpos Hint) as (d' & E & Hd' & Hs').
    exists d'. subst c. split; [exact E|]. cbn. by rewrite Hs'.
  - intros d c (Hd & Hh & <-). unfold file_bytes. apply Forall_take.
    by destruct (file_bytes_spec (sectors d) h (dev_shape d Hd) Hh) as (_ & _ & ? & _).
Qed.

End File.
End NachosFile.

(** ** The object file format, bin/noff.h *)

Definition NOFFMAGIC : Z := 12246957.

Record Segment := mkSegment { virtualAddr : Z; inFileAddr : Z; segsize : Z }.
Record NoffHeader := mkNoff {
  noffMagic : Z; code : Segment; initData : Segment; uninitData : Segment
}.

(** The ten words of the header in memory. *)
Definition noff_of (bs : list Z) : NoffHeader :=
  let w (i : nat) := default 0 ((sint <$> words_of 10 bs) !! i) in
  mkNoff (w 0%nat) (mkSegment (w 1%nat) (w 2%nat) (w 3%nat))
    (mkSegment (w 4%nat) (w 5%nat) (w 6%nat)) (mkSegment (w 7%nat) (w 8%nat) (w 9%nat)).

Definition SwapHeader (n : NoffHeader) : NoffHeader :=
  let swap s := mkSegment (WordToHost (virtualAddr s)) (WordToHost (inFileAddr s)) (WordToHost (segsize s)) in
  mkNoff (WordToHost (noffMagic n)) (swap (code n)) (swap (initData n)) (swap (uninitData n)).

(** ** Address spaces *)

Definition UserStackSize : Z := 1024.

(** class [AddrSpace]. *)
Record AddrSpace := mkSpace { pageTable : list TranslationEntry; numPages : Z }.

(** The globals [machine] and [myBitmap], and the file being loaded. *)
Record umem (D : Type) := mkUmem { mach : Machine; frames : BitMap; exe : D }.
Arguments mkUmem {D} _ _ _.
Arguments mach {D} _.
Arguments frames {D} _.
Arguments exe {D} _.

Section Code.
Context {D : Type}.

Definition on_frames {A} (m : M BitMap A) : M (umem D) A := λ s,
  match m (frames s) with
  | Ok (a, b) => Ok (a, mkUmem (mach s) b (exe s))
  | Err f => Err f
  end.
Definition on_exe {A} (m : M D A) : M (umem D) A := λ s,
  match m (exe s) with
  | Ok (a, d) => Ok (a, mkUmem (mach s) (frames s) d)
  | Err f => Err f
  end.

(** Bytes stored through [&(machine->mainMemory[addr])]. *)
Definition poke (addr : Z) (bs : list Z) : M (umem D) unit := λ s,
  let mem := mainMemory (mach s) in
  if bool_decide (0 ≤ addr) && bool_decide (addr + Z.of_nat (length bs) ≤ Z.of_nat (length mem))
  then Ok (tt, mkUmem (set_memory (list_inserts (Z.to_nat addr) bs mem) (mach s)) (frames s) (exe s))
  else Err OutOfBounds.

(** [pageTable[j].physicalPage * PageSize]. *)
Definition frame_addr (pt : list TranslationEntry) (j : Z) : M (umem D) Z :=
  match (if j <? 0 then None else pt !! Z.to_nat j) with
  | Some e => mret (physicalPage e * PageSize)
  | None => fail OutOfBounds
  end.

(** The loop that fills the page table, for the pages [i], [i+1], ... *)
Fixpoint alloc_loop (n : nat) (i : Z) : M (umem D) (list TranslationEntry) :=
  match n with
  | O => mret []
  | S n =>
      p ← on_frames BitMap_Find;
      rest ← alloc_loop n (i + 1);
      mret (mkEntry i p true false false false :: rest)
  end.

Definition zero_loop (pt : list TranslationEntry) (n : nat) : M (umem D) unit :=
  for_loop n 0 (λ i, a ← frame_addr pt i; poke a (replicate (Z.to_nat PageSize) 0)).

Context `{!ExeFile D}.

(** [executable->ReadAt(&(machine->mainMemory[...]), PageSize, fileAddr + i)]. *)
Definition load_page (pt : list TranslationEntry) (fileAddr i j : Z) : M (umem D) unit :=
  a ← frame_addr pt j;
  r ← on_exe (exe_ReadAt PageSize (sint (fileAddr + i)));
  poke a r.

(** [for ( ; i < limit; i = i+PageSize) { load page j; j++; }]; [i], [limit]
    unsigned.  Returns [i]. *)
Fixpoint load_loop (fuel : nat) (pt : list TranslationEntry) (fileAddr limit i j : Z) : M (umem D) Z :=
  match fuel with
  | O => fail OutOfFuel
  | S fuel =>
      if i <? limit then
        load_page pt fileAddr i j ≫= λ _,
        load_loop fuel pt fileAddr limit (uint (i + PageSize)) (uint (j + 1))
      else mret i
  end.

(** A round for each page below [limit], and the last test. *)
Definition load_fuel (limit : Z) : nat := S (Z.to_nat (limit / PageSize + 1)).

Definition new_AddrSpace (junk : list Z) : M (umem D) AddrSpace :=
  r ← on_exe (exe_ReadAt 40 0);
  let noffH := noff_of (list_inserts 0 r junk) in
  let noffH := if bool_decide (noffMagic noffH ≠ NOFFMAGIC) &&
                  bool_decide (WordToHost (noffMagic noffH) = NOFFMAGIC)
               then SwapHeader noffH else noffH in
  ASSERT (bool_decide (noffMagic noffH = NOFFMAGIC)) ≫= λ _,
  let csize := segsize (code noffH) in
  let size := uint (csize + segsize (initData noffH) + segsize (uninitData noffH) + UserStackSize) in
  let numPages := uint (divRoundUp (sint size) PageSize) in
  ASSERT (bool_decide (numPages ≤ NumPhysPages)) ≫= λ _,
  clear ← on_frames BitMap_NumClear;
  ASSERT (bool_decide (numPages ≤ uint clear)) ≫= λ _,
  pt ← alloc_loop (Z.to_nat numPages) 0;
  zero_loop pt (Z.to_nat numPages) ≫= λ _,
  let base := inFileAddr (code noffH) in
  (* [i <= code.size] is [i < code.size + 1] *)
  i ← (if bool_decide (0 < csize) then
         load_loop (load_fuel (uint csize + 1)) pt base (uint csize + 1) 0
           (uint (divRoundUp (virtualAddr (code noffH)) PageSize))
       else mret 0);
  (if bool_decide (0 < segsize (initData noffH)) then
     let limit := uint (csize + segsize (initData noffH)) in
     load_loop (load_fuel limit) pt base limit i
       (uint (divRoundUp (virtualAddr (initData noffH)) PageSize)) ≫= λ _, mret tt
   else mret tt) ≫= λ _,
  mret (mkSpace pt numPages).

(** [CleanMyBitmap] and the destructor. *)
Definition CleanMyBitmap (sp : AddrSpace) : M (umem D) unit :=
  for_loop (Z.to_nat (numPages sp)) 0 (λ i,
    match pageTable sp !! Z.to_nat i with
    | Some e => on_frames (BitMap_Clear (physicalPage e))
    | None => fail OutOfBounds
    end).
Definition delete_AddrSpace (sp : AddrSpace) : M (umem D) unit := CleanMyBitmap sp.

End Code.

(** [InitRegisters] and [RestoreState] act on the machine. *)
Definition InitRegisters (sp : AddrSpace) : M Machine unit :=
  for_loop (Z.to_nat NumTotalRegs) 0 (λ i, WriteRegister i 0) ≫= λ _,
  WriteRegister PCReg 0 ≫= λ _,
  WriteRegister NextPCReg 4 ≫= λ _,
  WriteRegister StackReg (sint (numPages sp * PageSize - 16)).

Definition RestoreState (sp : AddrSpace) : M Machine unit :=
  modify (λ k, mkMachine (mainMemory k) (m_registers k) (tlb k) (Some (pageTable sp)) (numPages sp)).

(** ** Frames and their contents *)

(** A page table that maps the pages [i], [i+1], ... to the frames [ps]. *)
Fixpoint table_for (i : Z) (ps : list Z) : list TranslationEntry :=
  match ps with [] => [] | p :: ps => mkEntry i p true false false false :: table_for (i + 1) ps end.

Lemma table_for_lookup i ps k : table_for i ps !! k =
  (λ p, mkEntry (i + Z.of_nat k) p true false false false) <$> ps !! k.
Proof.
  revert i k. induction ps as [|p ps IH]; intros i [|k]; cbn; try done.
  - by rewrite Z.add_0_r.
  - rewrite IH. destruct (ps !! k); cbn; [|done]. do 2 f_equal. lia.
Qed.

Lemma table_for_length i ps : length (table_for i ps) = length ps.
Proof. revert i. induction ps as [|p ps IH]; intros i; cbn; [done|]. by rewrite IH. Qed.

(** In [mem] the byte [o] of the frame of page [k] is [img k o], and outside
    the frames [ps] it agrees with [mem0]. *)
Record image (ps mem0 mem : list Z) (img : nat → nat → Z) : Prop := {
  im_len : length mem = length mem0;
  im_in k p o : ps !! k = Some p → (o < 128)%nat → mem !! (Z.to_nat p * 128 + o)%nat = Some (img k o);
  im_out a : (∀ k p, ps !! k = Some p → ¬ (Z.to_nat p * 128 ≤ a < Z.to_nat p * 128 + 128)%nat) →
    mem !! a = mem0 !! a
}.

Lemma image_ext ps mem0 mem img img' : image ps mem0 mem img →
  (∀ k o, (k < length ps)%nat → (o < 128)%nat → img k o = img' k o) → image ps mem0 mem img'.
Proof.
  intros [Hl Hi Ho] He. split; try done. intros k p o Hk Hlt. rewrite (Hi k p o Hk Hlt).
  rewrite He; [done|by eapply lookup_lt_Some|done].
Qed.

Lemma image_initial ps mem : Forall (λ p, 0 ≤ p < NumPhysPages) ps →
  length mem = Z.to_nat MemorySize →
  image ps mem mem (λ k o, default 0 (p ← ps !! k; mem !! (Z.to_nat p * 128 + o)%nat)).
Proof.
  intros Hp Hl. split; try done. intros k p o Hk Ho. rewrite Hk. cbn.
  eapply Forall_lookup_1 in Hp; [|exact Hk]. cbn in Hp.
  unfold NumPhysPages, MemorySize, PageSize, SectorSize in *.
  destruct (lookup_lt_is_Some_2 mem (Z.to_nat p * 128 + o)) as [x Hx].
  { rewrite Hl. unfold NumPhysPages. lia. }
  by rewrite Hx.
Qed.

(** A store into one frame. *)
Lemma image_store ps mem0 mem img j p r : image ps mem0 mem img → NoDup ps →
  Forall (λ p, 0 ≤ p < NumPhysPages) ps → length mem0 = Z.to_nat MemorySize →
  ps !! j = Some p → (length r ≤ 128)%nat →
  image ps mem0 (list_inserts (Z.to_nat p * 128) r mem)
    (λ k o, if decide (k = j) then default (img k o) (r !! o) else img k o).
Proof.
  intros [Hl Hi Ho] Hnd Hps Hm Hj Hr. split.
  - by rewrite length_inserts.
  - intros k q o Hk Hlt. pose proof (Hi k q o Hk Hlt) as Hq.
    destruct (decide (k = j)) as [->|Hne].
    + rewrite Hj in Hk. injection Hk as <-. destruct (r !! o) as [x|] eqn:Ex; cbn.
      * rewrite list_lookup_inserts; [|by apply lookup_lt_Some in Ex; lia|].
        -- rewrite <- Ex. f_equal. lia.
        -- by apply lookup_lt_Some in Hq.
      * apply lookup_ge_None in Ex. rewrite list_lookup_inserts_ge by lia. done.
    + assert (q ≠ p) by (intros ->; apply Hne; by eapply NoDup_lookup).
      rewrite Forall_lookup in Hps. pose proof (Hps k q Hk). pose proof (Hps j p Hj). cbn in *.
      assert (Hc : (Z.to_nat q < Z.to_nat p ∨ Z.to_nat p < Z.to_nat q)%nat) by lia.
      destruct Hc; [rewrite list_lookup_inserts_lt by lia|rewrite list_lookup_inserts_ge by lia]; done.
  - intros a Ha. rewrite <- (Ho a Ha). specialize (Ha j p Hj).
    assert (Hc : (a < Z.to_nat p * 128 ∨ Z.to_nat p * 128 + 128 ≤ a)%nat) by lia.
    destruct Hc; [by rewrite list_lookup_inserts_lt by lia|by rewrite list_lookup_inserts_ge by lia].
Qed.

(** The state in which programs are loaded. *)
Record umem_ok {D} (s : umem D) : Prop := {
  uo_mem : length (mainMemory (mach s)) = Z.to_nat MemorySize;
  uo_wf : bitmap_wf (frames s);
  uo_frames : numBits (frames s) = NumPhysPages
}.

Definition with_mem {D} (mem : list Z) (s : umem D) : umem D :=
  mkUmem (set_memory mem (mach s)) (frames s) (exe s).

Section Loading.
Context {D : Type}.
Implicit Types (s : umem D).

Lemma poke_ok ps mem0 img s j p r : image ps mem0 (mainMemory (mach s)) img →
  Forall (λ p, 0 ≤ p < NumPhysPages) ps → length mem0 = Z.to_nat MemorySize →
  ps !! j = Some p → (length r ≤ 128)%nat →
  poke (p * PageSize) r s =
    Ok (tt, with_mem (list_inserts (Z.to_nat p * 128) r (mainMemory (mach s))) s).
Proof.
  intros [Hl _ _] Hps Hm Hj Hr. eapply Forall_lookup_1 in Hps; [|exact Hj]. cbn in Hps.
  unfold poke, PageSize, SectorSize. rewrite !bool_decide_eq_true_2; [|rewrite Hl, Hm|lia].
  - unfold with_mem. cbn [andb]. by replace (Z.to_nat (p * 128)) with (Z.to_nat p * 128)%nat by lia.
  - unfold MemorySize, NumPhysPages, PageSize, SectorSize in *. lia.
Qed.

Lemma frame_addr_ok ps j p s : ps !! j = Some p →
  frame_addr (table_for 0 ps) (Z.of_nat j) s = Ok (p * PageSize, s).
Proof.
  intros Hj. unfold frame_addr. destruct (Z.ltb_spec (Z.of_nat j) 0); [lia|].
  by rewrite Nat2Z.id, table_for_lookup, Hj.
Qed.

Lemma alloc_loop_ok n i s : bitmap_wf (frames s) → Z.of_nat n ≤ clear_count (frames s) →
  ∃ ps b, alloc_loop n i s = Ok (table_for i ps, mkUmem (mach s) b (exe s)) ∧ length ps = n ∧
    NoDup ps ∧ Forall (λ p, 0 ≤ p < numBits (frames s)) ps ∧
    Forall (λ p, p ∉ bits_of (frames s)) ps ∧
    bitmap_wf b ∧ numBits b = numBits (frames s) ∧ bits_of b = list_to_set ps ∪ bits_of (frames s).
Proof.
  revert i s. induction n as [|n IH]; intros i s Hwf Hc; cbn [alloc_loop].
  { exists [], (frames s). destruct s. split_and!; auto using NoDup_nil_2. set_solver. }
  destruct (Find_some (frames s) Hwf) as (p & b1 & E & Hp & Hpn & Hwf1 & Hn1 & Hb1 & Hc1); [lia|].
  assert (E' : on_frames BitMap_Find s = Ok (p, mkUmem (mach s) b1 (exe s)))
    by (unfold on_frames; by rewrite E).
  rewrite (bind_run _ _ _ _ _ E').
  destruct (IH (i + 1) (mkUmem (mach s) b1 (exe s)))
    as (ps & b & E2 & Hl & Hnd & Hr & Hf & Hwf' & Hn' & Hb'); [done|cbn; lia|].
  rewrite (bind_run _ _ _ _ _ E2). cbn [frames mach exe] in *. rewrite Hn1 in *. rewrite Hb1 in *.
  exists (p :: ps), b. split_and!; try done; [cbn; lia|..].
  - constructor; [|done]. intros Hin. rewrite Forall_forall in Hf. apply (Hf p Hin). set_solver.
  - by constructor.
  - constructor; [done|]. eapply Forall_impl; [exact Hf|]. cbn. set_solver.
  - rewrite Hb'. cbn. set_solver.
Qed.

Lemma zero_loop_ok ps s : NoDup ps → Forall (λ p, 0 ≤ p < NumPhysPages) ps →
  length (mainMemory (mach s)) = Z.to_nat MemorySize →
  ∃ mem, zero_loop (table_for 0 ps) (length ps) s = Ok (tt, with_mem mem s) ∧
         image ps (mainMemory (mach s)) mem (λ _ _, 0).
Proof.
  intros Hnd Hps Hm. unfold zero_loop.
  destruct (for_loop_inv (λ i s', ∃ mem img, s' = with_mem mem s ∧
      image ps (mainMemory (mach s)) mem img ∧
      ∀ k o, Z.of_nat k < i → (o < 128)%nat → img k o = 0) (length ps) 0
    (λ i, a ← frame_addr (table_for 0 ps) i; poke a (replicate (Z.to_nat PageSize) 0)) s)
    as (s' & E & mem & img & -> & Himg & Hz).
  - eexists (mainMemory (mach s)), _. split_and!; [|by apply image_initial|lia].
    by destruct s as [[]].
  - intros i s1 Hi (mem & img & -> & Himg & Hz).
    destruct (lookup_lt_is_Some_2 ps (Z.to_nat i)) as [p Hp]; [lia|].
    pose proof (frame_addr_ok ps (Z.to_nat i) p (with_mem mem s) Hp) as Ea.
    rewrite Z2Nat.id in Ea by lia. rewrite (bind_run _ _ _ _ _ Ea).
    rewrite (poke_ok ps (mainMemory (mach s)) img _ (Z.to_nat i)) by done.
    eexists. split; [reflexivity|].
    exists (list_inserts (Z.to_nat p * 128) (replicate (Z.to_nat PageSize) 0) mem). eexists.
    split_and!; [done|by apply (image_store ps _ mem img (Z.to_nat i) p)|].
    intros k o Hk Ho. cbn beta.
    destruct (decide (k = Z.to_nat i)) as [->|]; [|apply Hz; lia].
    rewrite lookup_replicate_2; [done|]. exact Ho.
  - exists mem. split; [exact E|]. eapply image_ext; [exact Himg|]. intros k o Hk Ho. apply Hz; lia.
Qed.

End Loading.

Section Programs.
Context {D : Type} `{!ExeFile D} `{!ExeFileOK D}.
Implicit Types (s : umem D).

(** The state while the pages of [ps] are being filled from the file [c]. *)
Record filling (c ps mem0 : list Z) (s0 s : umem D) (img : nat → nat → Z) : Prop := {
  fl_exe : exe_holds (exe s) c;
  fl_frames : frames s = frames s0;
  fl_mach : mach s = set_memory (mainMemory (mach s)) (mach s0);
  fl_image : image ps mem0 (mainMemory (mach s)) img
}.

(** The page [j] once loaded from offset [off] of the file. *)
Definition loaded (c : list Z) (off : Z) (j : nat) (img : nat → nat → Z) : nat → nat → Z :=
  λ k o, if decide (k = j) then default (img k o) (c !! (Z.to_nat off + o)%nat) else img k o.

Lemma load_page_ok c ps mem0 s0 s img base i j : filling c ps mem0 s0 s img → NoDup ps →
  Forall (λ p, 0 ≤ p < NumPhysPages) ps → length mem0 = Z.to_nat MemorySize →
  (j < length ps)%nat → 0 ≤ base + i → is_int (base + i + PageSize) →
  ∃ s', load_page (table_for 0 ps) base i (Z.of_nat j) s = Ok (tt, s') ∧
        filling c ps mem0 s0 s' (loaded c (base + i) j img).
Proof.
  intros [He Hf Hm Hi] Hnd Hps Hl Hj Hbi Hint.
  destruct (lookup_lt_is_Some_2 ps j Hj) as [p Hp]. unfold load_page.
  rewrite (bind_run _ _ _ _ _ (frame_addr_ok ps j p s Hp)).
  rewrite (sint_id (base + i)) by (unfold is_int, PageSize, SectorSize, int_min in *; lia).
  destruct (exe_ReadAt_ok (exe s) c PageSize (base + i) He Hbi Hint) as (d' & Er & He').
  set (r := take (Z.to_nat PageSize) (drop (Z.to_nat (base + i)) c)) in *.
  assert (E : on_exe (exe_ReadAt PageSize (base + i)) s = Ok (r, mkUmem (mach s) (frames s) d'))
    by (unfold on_exe; by rewrite Er).
  rewrite (bind_run _ _ _ _ _ E).
  assert (Hr : (length r ≤ 128)%nat) by (unfold r; rewrite length_take; change (Z.to_nat PageSize) with 128%nat; lia).
  rewrite (poke_ok ps mem0 img (mkUmem (mach s) (frames s) d') j p r); [|done..].
  eexists. split; [reflexivity|]. split; try done.
  - cbn. rewrite Hm. done.
  - eapply image_ext; [by apply (image_store ps mem0 _ img j p r)|].
    intros k o Hk Ho. unfold loaded. destruct (decide (k = j)); [|done]. f_equal. unfold r.
    rewrite lookup_take_lt by (change (Z.to_nat PageSize) with 128%nat; lia). by rewrite lookup_drop.
Qed.

(** The pages [j] to [j + n - 1] loaded from offset [off] on. *)
Fixpoint loaded_pages (c : list Z) (off : Z) (j n : nat) (img : nat → nat → Z) : nat → nat → Z :=
  match n with
  | O => img
  | S n => loaded_pages c (off + PageSize) (S j) n (loaded c off j img)
  end.

Lemma loaded_pages_spec c off j n img k o : 0 ≤ off →
  loaded_pages c off j n img k o =
  if decide (j ≤ k < j + n)%nat
  then default (img k o) (c !! (Z.to_nat off + 128 * (k - j) + o)%nat) else img k o.
Proof.
  revert off j img. induction n as [|n IH]; intros off j img Hoff; cbn [loaded_pages].
  { case_decide; [lia|done]. }
  rewrite IH by (unfold PageSize, SectorSize; lia). unfold loaded.
  change PageSize with 128.
  destruct (decide (k = j)) as [->|Hne].
  - destruct (decide (S j ≤ j < S j + n)%nat); [lia|].
    destruct (decide (j ≤ j < j + S n)%nat); [|lia]. do 2 f_equal. lia.
  - destruct (decide (S j ≤ k < S j + n)%nat), (decide (j ≤ k < j + S n)%nat); try lia; try done.
    do 2 f_equal. lia.
Qed.

(** [n] rounds of the loop. *)
Lemma load_loop_ok n fuel c ps mem0 s0 s img base limit i j : filling c ps mem0 s0 s img → NoDup ps →
  Forall (λ p, 0 ≤ p < NumPhysPages) ps → length mem0 = Z.to_nat MemorySize →
  (j + n ≤ length ps)%nat → (n < fuel)%nat → 0 ≤ base → 0 ≤ i → limit ≤ 100000 → base ≤ 1000000000 →
  limit ≤ i + 128 * Z.of_nat n → (n = 0%nat ∨ i + 128 * (Z.of_nat n - 1) < limit) →
  i ≤ 200000 → (j + n ≤ 1000)%nat →
  ∃ s', load_loop fuel (table_for 0 ps) base limit i (Z.of_nat j) s = Ok (i + 128 * Z.of_nat n, s') ∧
        filling c ps mem0 s0 s' (loaded_pages c (base + i) j n img).
Proof.
  revert fuel s img i j. induction n as [|n IH];
    intros fuel s img i j Hs Hnd Hps Hl Hj Hfuel Hb Hi Hlim Hb9 Hn Hn' Hi9 Hj9;
    (destruct fuel as [|fuel]; [lia|]); cbn [load_loop].
  { destruct (Z.ltb_spec i limit); [lia|]. exists s. split; [|done]. unfold_M. do 2 f_equal. lia. }
  destruct (Z.ltb_spec i limit); [|lia].
  destruct (load_page_ok c ps mem0 s0 s img base i j) as (s1 & E1 & H1); try done; [lia|lia| |].
  { unfold is_int, int_min, int_max, PageSize, SectorSize. lia. }
  rewrite (bind_run _ _ _ _ _ E1).
  rewrite !uint_id by (unfold is_uint, PageSize, SectorSize; lia).
  replace (Z.of_nat j + 1) with (Z.of_nat (S j)) by lia. change PageSize with 128.
  destruct (IH fuel s1 (loaded c (base + i) j img) (i + 128) (S j)) as (s2 & E2 & H2); try done; try lia.
  exists s2. rewrite E2. split; [do 2 f_equal; lia|].
  cbn [loaded_pages]. by replace (base + i + PageSize) with (base + (i + 128)) by (change PageSize with 128; lia).
Qed.

(** *** Programs *)

(** A NOFF file as the linker lays it out: code from address 0, initialised
    data right behind it, in memory and in the file, and nothing after it. *)
Record program_ok (n : NoffHeader) (c : list Z) : Prop := {
  po_header : noff_of (take 40 c) = n;
  po_magic : noffMagic n = NOFFMAGIC;
  po_code : 0 < segsize (code n) ∧ virtualAddr (code n) = 0;
  po_init : 0 ≤ segsize (initData n) ∧ virtualAddr (initData n) = segsize (code n);
  po_uninit : 0 ≤ segsize (uninitData n);
  po_base : 40 ≤ inFileAddr (code n) ≤ 1000000000;
  po_end : Z.of_nat (length c) = inFileAddr (code n) + segsize (code n) + segsize (initData n);
  po_fit : segsize (code n) + segsize (initData n) + segsize (uninitData n) + UserStackSize ≤ MemorySize
}.

Definition program_pages (n : NoffHeader) : Z :=
  divRoundUp (segsize (code n) + segsize (initData n) + segsize (uninitData n) + UserStackSize) PageSize.

(** The rounds of the two loops, and the page the second one starts at. *)
Definition code_rounds (n : NoffHeader) : nat := Z.to_nat (segsize (code n) / 128 + 1).
Definition data_rounds (n : NoffHeader) : nat :=
  Z.to_nat ((segsize (code n) + segsize (initData n) - 128 * Z.of_nat (code_rounds n) + 127) / 128).
Definition data_page (n : NoffHeader) : nat := Z.to_nat (divRoundUp (segsize (code n)) PageSize).

(** What the two loops leave in the frames. *)
Definition program_image (n : NoffHeader) (c : list Z) : nat → nat → Z :=
  let base := inFileAddr (code n) in
  loaded_pages c (base + 128 * Z.of_nat (code_rounds n)) (data_page n) (data_rounds n)
    (loaded_pages c (base + 0) 0 (code_rounds n) (λ _ _, 0)).

Lemma program_arith n c : program_ok n c →
  let N := program_pages n in
  0 < N ≤ NumPhysPages ∧
  segsize (code n) + segsize (initData n) + segsize (uninitData n) + 1024 ≤ 128 * N ∧
  (code_rounds n ≤ Z.to_nat N)%nat ∧ (data_page n + data_rounds n ≤ Z.to_nat N)%nat ∧
  (data_page n = code_rounds n ∨ S (data_page n) = code_rounds n)%nat ∧
  (data_page n = code_rounds n ↔ segsize (code n) `mod` 128 ≠ 0).
Proof.
  intros [_ _ [Hc _] [Hi _] Hu _ _ Hfit].
  unfold program_pages, data_page, data_rounds, code_rounds, divRoundUp, NumPhysPages, MemorySize,
    UserStackSize, PageSize, SectorSize in *. change PageSize with 128 in *. change SectorSize with 128 in *.
  rewrite !Z.quot_div_nonneg, !Z.rem_mod_nonneg by lia.
  repeat case_bool_decide; unfold NumPhysPages in *; split_and!; try lia.
Qed.

Lemma filling_start c ps s b mem : exe_holds (exe s) c → image ps (mainMemory (mach s)) mem (λ _ _, 0) →
  filling c ps (mainMemory (mach s)) (mkUmem (mach s) b (exe s))
    (with_mem mem (mkUmem (mach s) b (exe s))) (λ _ _, 0).
Proof. intros He Hi. by split. Qed.

(** The two copying loops of the constructor. *)
Lemma copy_loops_ok n c ps mem0 s0 s : program_ok n c → filling c ps mem0 s0 s (λ _ _, 0) →
  NoDup ps → Forall (λ p, 0 ≤ p < NumPhysPages) ps → length mem0 = Z.to_nat MemorySize →
  length ps = Z.to_nat (program_pages n) →
  let csize := segsize (code n) in
  let base := inFileAddr (code n) in
  let limit := uint (csize + segsize (initData n)) in
  ∃ i s1 s', load_loop (load_fuel (uint csize + 1)) (table_for 0 ps) base (uint csize + 1) 0
      (uint (divRoundUp (virtualAddr (code n)) PageSize)) s = Ok (i, s1) ∧
    (if bool_decide (0 < segsize (initData n)) then
       load_loop (load_fuel limit) (table_for 0 ps) base limit i
         (uint (divRoundUp (virtualAddr (initData n)) PageSize)) ≫= λ _, mret tt
     else mret tt) s1 = Ok (tt, s') ∧
    filling c ps mem0 s0 s' (program_image n c).
Proof.
  intros Hp Hs Hnd Hps Hl Hlen csize base limit. subst csize base limit.
  pose proof (program_arith n c Hp) as (HN & HN' & Hcr & Hdr & Hdp & Hal).
  destruct Hp as [_ _ [Hc Hcv] [Hi Hiv] Hu Hb He Hfit].
  assert (HM : MemorySize = 16384) by done. unfold UserStackSize, NumPhysPages in *.
  rewrite Hcv, Hiv, (uint_id (segsize (code n))),
    (uint_id (segsize (code n) + segsize (initData n))) by (unfold is_uint; lia).
  change (uint (divRoundUp 0 PageSize)) with 0.
  destruct (load_loop_ok (code_rounds n) (load_fuel (segsize (code n) + 1)) c ps mem0 s0 s (λ _ _, 0) (inFileAddr (code n)) (segsize (code n) + 1) 0 0)
    as (s1 & E1 & H1); try done; try lia.
  { unfold load_fuel, code_rounds. change PageSize with 128. lia. }
  { unfold code_rounds. lia. } { right. unfold code_rounds. lia. }
  exists (0 + 128 * Z.of_nat (code_rounds n)), s1. change (Z.of_nat 0) with 0 in E1. rewrite E1.
  unfold program_image. case_bool_decide as Hpos.
  2: { exists s1. split_and!; try done.
       replace (data_rounds n) with 0%nat by (unfold data_rounds, code_rounds; lia). done. }
  assert (Hdpz : divRoundUp (segsize (code n)) PageSize = Z.of_nat (data_page n)).
  { unfold data_page. rewrite Z2Nat.id; [done|].
    pose proof (divRoundUp_range (segsize (code n))). change PageSize with SectorSize. lia. }
  rewrite Hdpz, uint_id by (unfold is_uint; lia).
  destruct (load_loop_ok (data_rounds n) (load_fuel (segsize (code n) + segsize (initData n))) c ps mem0 s0 s1
    (loaded_pages c (inFileAddr (code n) + 0) 0 (code_rounds n) (λ _ _, 0)) (inFileAddr (code n)) (segsize (code n) + segsize (initData n))
    (0 + 128 * Z.of_nat (code_rounds n)) (data_page n)) as (s2 & E2 & H2); try done; try lia.
  { unfold load_fuel, data_rounds, code_rounds. change PageSize with 128. lia. }
  { unfold data_rounds, code_rounds. lia. }
  { unfold data_rounds, code_rounds. lia. }
  exists s2. rewrite (bind_run _ _ _ _ _ E2). split_and!; try done.
Qed.

(** The constructor, from a state with enough free frames. *)
Lemma new_AddrSpace_ok junk n c s : umem_ok s → exe_holds (exe s) c → program_ok n c →
  length junk = 40%nat → program_pages n ≤ clear_count (frames s) →
  ∃ ps s', new_AddrSpace junk s = Ok (mkSpace (table_for 0 ps) (program_pages n), s') ∧
    length ps = Z.to_nat (program_pages n) ∧ NoDup ps ∧
    Forall (λ p, 0 ≤ p < NumPhysPages ∧ p ∉ bits_of (frames s)) ps ∧
    umem_ok s' ∧ bits_of (frames s') = list_to_set ps ∪ bits_of (frames s) ∧
    mach s' = set_memory (mainMemory (mach s')) (mach s) ∧
    image ps (mainMemory (mach s)) (mainMemory (mach s')) (program_image n c).
Proof.
  intros [Hm Hwf Hnb] He Hp Hj Hc. pose proof (program_arith n c Hp) as (HN & HN' & _ & _ & _ & _).
  assert (HM : MemorySize = 16384) by done. assert (HP : NumPhysPages = 128) by done.
  destruct (exe_ReadAt_ok (exe s) c 40 0 He) as (d1 & Er & He1); [lia|unfold is_int, int_min, int_max; lia|].
  assert (E1 : on_exe (exe_ReadAt 40 0) s = Ok (take 40 c, mkUmem (mach s) (frames s) d1))
    by (unfold on_exe; rewrite Er, drop_0; done).
  unfold new_AddrSpace. rewrite (bind_run _ _ _ _ _ E1).
  assert (Hlen : length (take 40 c) = 40%nat).
  { destruct Hp as [_ _ [? _] [? _] _ Hb Hend _]. rewrite length_take. lia. }
  assert (Hins : list_inserts 0 (take 40 c) junk = take 40 c).
  { rewrite <- (app_nil_r (take 40 c)) at 1. apply list_inserts_0_l. congruence. }
  rewrite Hins, (po_header n c Hp). rewrite (bool_decide_eq_false_2 (noffMagic n ≠ NOFFMAGIC))
    by (pose proof (po_magic n c Hp); naive_solver).
  cbn [andb]. cbv beta zeta. rewrite (bool_decide_eq_true_2 (noffMagic n = NOFFMAGIC)) by apply Hp.
  rewrite (bind_run _ _ _ _ _ (ASSERT_true _ eq_refl _)).
  assert (Hsz : uint (divRoundUp (sint (uint (segsize (code n) + segsize (initData n) +
    segsize (uninitData n) + UserStackSize))) PageSize) = program_pages n).
  { destruct Hp as [_ _ [? _] [? _] ? _ _ Hfit]. rewrite sint_uint, sint_id.
    - apply uint_id. unfold is_uint. fold (program_pages n). lia.
    - unfold is_int, int_min, int_max, UserStackSize in *. lia. }
  rewrite Hsz. rewrite (bool_decide_eq_true_2 (program_pages n ≤ NumPhysPages)) by lia.
  rewrite (bind_run _ _ _ _ _ (ASSERT_true _ eq_refl _)).
  assert (E2 : on_frames BitMap_NumClear (mkUmem (mach s) (frames s) d1) =
    Ok (clear_count (frames s), mkUmem (mach s) (frames s) d1))
    by (unfold on_frames; cbn [frames]; rewrite NumClear_spec by done; done).
  rewrite (bind_run _ _ _ _ _ E2).
  assert (Hcc : uint (clear_count (frames s)) = clear_count (frames s)).
  { apply uint_id. unfold is_uint, clear_count in *. lia. }
  rewrite Hcc, (bool_decide_eq_true_2 (program_pages n ≤ clear_count (frames s))) by lia.
  rewrite (bind_run _ _ _ _ _ (ASSERT_true _ eq_refl _)).
  destruct (alloc_loop_ok (Z.to_nat (program_pages n)) 0 (mkUmem (mach s) (frames s) d1))
    as (ps & b & E3 & Hlps & Hnd & Hr & Hf & Hwfb & Hnbb & Hb); [done|cbn; lia|].
  rewrite (bind_run _ _ _ _ _ E3). cbn [frames mach exe] in *. rewrite Hnb in *.
  destruct (zero_loop_ok ps (mkUmem (mach s) b d1) Hnd Hr Hm) as (mem & E4 & Himg).
  rewrite Hlps in E4. rewrite (bind_run _ _ _ _ _ E4).
  destruct (copy_loops_ok n c ps (mainMemory (mach s)) (mkUmem (mach s) b d1)
    (with_mem mem (mkUmem (mach s) b d1))) as (i & s1 & s2 & E5 & E6 & [He2 Hf2 Hm2 Hi2]); try done.
  rewrite (bool_decide_eq_true_2 (0 < segsize (code n))) by apply Hp.
  rewrite (bind_run _ _ _ _ _ E5), (bind_run _ _ _ _ _ E6).
  exists ps, s2. cbn [frames mach] in *. split_and!; try done.
  - apply Forall_and. by split.
  - split; [by rewrite (im_len _ _ _ _ Hi2)|by rewrite Hf2|by rewrite Hf2, Hnbb].
  - by rewrite Hf2.
Qed.

(** *** What a user program reads of its address space *)

(** The machine apart from its page table, as the constructor of [Machine]
    makes it and every access keeps it. *)
Record machine_ready (k : Machine) : Prop := {
  mr_bytes : Forall is_byte (mainMemory k);
  mr_regs : length (m_registers k) = Z.to_nat NumTotalRegs;
  mr_tlb : tlb k = None
}.

(** The byte [v] of the program's segments in the file, 0 past their end. *)
Definition program_byte (n : NoffHeader) (c : list Z) (v : Z) : Z :=
  default 0 (c !! (Z.to_nat (inFileAddr (code n)) + Z.to_nat v)%nat).

Lemma default_byte (c : list Z) k x : Forall is_byte c → is_byte x → is_byte (default x (c !! k)).
Proof.
  intros Hc Hx. destruct (c !! k) as [y|] eqn:E; [|done]. by eapply Forall_lookup_1 in Hc.
Qed.

Lemma loaded_pages_bytes c off j n img k o : Forall is_byte c → (∀ k o, is_byte (img k o)) →
  is_byte (loaded_pages c off j n img k o).
Proof.
  intros Hc. revert off j img. induction n as [|n IH]; intros off j img Hi; cbn; [done|].
  apply IH. intros k' o'. unfold loaded. case_decide; [by apply default_byte|done].
Qed.

Lemma program_image_bytes n c k o : Forall is_byte c → is_byte (program_image n c k o).
Proof.
  intros Hc. assert (is_byte 0) by done. by repeat (apply loaded_pages_bytes; [done|]; intros).
Qed.

Lemma image_bytes ps mem0 mem img : image ps mem0 mem img → (∀ k o, is_byte (img k o)) →
  Forall (λ p, 0 ≤ p < NumPhysPages) ps → Forall is_byte mem0 → Forall is_byte mem.
Proof.
  intros [Hl Hi Ho] Hb Hps H0. apply Forall_lookup. intros a x Hx.
  destruct (decide (Z.of_nat a / 128 ∈ ps)) as [Hin|Hn].
  - apply list_elem_of_lookup in Hin as [k Hk].
    specialize (Hi k _ (Z.to_nat (Z.of_nat a `mod` 128)) Hk ltac:(lia)).
    replace (Z.to_nat (Z.of_nat a / 128) * 128 + Z.to_nat (Z.of_nat a `mod` 128))%nat with a in Hi by lia.
    rewrite Hx in Hi. injection Hi as ->. apply Hb.
  - rewrite Ho in Hx; [by eapply Forall_lookup_1 in H0|]. intros k p Hk Hr. apply Hn.
    apply list_elem_of_lookup. exists k. rewrite Hk. f_equal.
    eapply Forall_lookup_1 in Hps; [|exact Hk]. cbn in Hps. lia.
Qed.

Lemma table_translation ps p v : 0 ≤ v < 4294967296 → ps !! Z.to_nat (v / 128) = Some p →
  0 ≤ p < NumPhysPages →
  translation (table_for 0 ps) v 1 false =
    inr (Z.to_nat (v / 128), mkEntry (v / 128) p true false false false, p * 128 + v `mod` 128).
Proof.
  intros Hv Hp Hr. unfold translation, misaligned. cbn [bool_decide andb orb].
  rewrite (uint_id v) by done. change PageSize with 128.
  rewrite (bool_decide_eq_false_2 (1 = 4)), (bool_decide_eq_false_2 (1 = 2)) by done. cbn [andb orb].
  rewrite table_for_lookup, Hp. cbn [fmap option_fmap option_map valid negb readOnly physicalPage].
  rewrite (uint_id p) by (unfold is_uint, NumPhysPages in *; lia).
  rewrite (bool_decide_eq_false_2 (NumPhysPages ≤ p)) by lia. cbn. do 4 f_equal. lia.
Qed.

(** Loading, and what is read afterwards. *)
Lemma new_AddrSpace_reads h junk n c s : umem_ok s → machine_ready (mach s) → exe_holds (exe s) c →
  program_ok n c → length junk = 40%nat → program_pages n ≤ clear_count (frames s) →
  ∃ sp s' k, new_AddrSpace junk s = Ok (sp, s') ∧ numPages sp = program_pages n ∧
    umem_ok s' ∧ machine_ready (mach s') ∧ clear_count (frames s') = clear_count (frames s) - program_pages n ∧
    (∀ a, Z.of_nat a / 128 ∈ bits_of (frames s) → mainMemory (mach s') !! a = mainMemory (mach s) !! a) ∧
    RestoreState sp (mach s') = Ok (tt, k) ∧ machine_wf k ∧
    ∀ v, 0 ≤ v < 128 * program_pages n →
      ∃ k', ReadMem h v 1 k =
        Ok (Some (extend 1 (program_image n c (Z.to_nat (v / 128)) (Z.to_nat (v `mod` 128)))), k').
Proof.
  intros Hok [Hby Hre Htl] He Hp Hj Hc.
  destruct (new_AddrSpace_ok junk n c s Hok He Hp Hj Hc)
    as (ps & s' & E & Hl & Hnd & Hps & Hok' & Hb & Hm & Himg).
  destruct (program_arith n c Hp) as (HN & _).
  assert (Hps' : Forall (λ p, 0 ≤ p < NumPhysPages) ps) by (eapply Forall_impl; [exact Hps|]; by intros ? []).
  assert (Hby' : Forall is_byte (mainMemory (mach s'))).
  { eapply image_bytes; [exact Himg| |done..]. intros. apply program_image_bytes. by eapply exe_bytes. }
  assert (Hdis : list_to_set ps ## bits_of (frames s)).
  { apply elem_of_disjoint. intros p Hp1 Hp2. apply elem_of_list_to_set in Hp1.
    rewrite Forall_forall in Hps. by apply (Hps p Hp1). }
  assert (Hwfk : machine_wf (mkMachine (mainMemory (mach s')) (m_registers (mach s')) (tlb (mach s'))
    (Some (table_for 0 ps)) (program_pages n))).
  { split; [apply Hok'|done|by rewrite Hm|by rewrite Hm; cbn; rewrite Htl|].
    intros pt [= <-]. cbn. rewrite table_for_length, Hl. lia. }
  eexists _, s', _. split_and!; [exact E|done|done| | | |reflexivity|exact Hwfk|].
  - split; [done|by rewrite Hm|by rewrite Hm].
  - unfold clear_count. rewrite (uo_frames s' Hok'), (uo_frames s Hok), Hb.
    rewrite size_union, size_list_to_set, Hl by (exact Hnd || apply Hdis). lia.
  - intros a Ha. apply (im_out _ _ _ _ Himg). intros k p Hk Hr.
    eapply Forall_lookup_1 in Hps as [Hpr Hpn]; [|exact Hk]. apply Hpn.
    replace p with (Z.of_nat a / 128) by lia. done.
  - intros v Hv. cbn [pageTable numPages].
    destruct (lookup_lt_is_Some_2 ps (Z.to_nat (v / 128))) as [p Hpp]; [lia|].
    pose proof (Forall_lookup_1 _ _ _ _ Hps' Hpp) as Hpr. cbn in Hpr.
    unfold NumPhysPages in HN.
    pose proof (table_translation ps p v ltac:(lia) Hpp Hpr) as Ht.
    set (k := mkMachine _ _ _ _ _).
    destruct (ReadMem_ok h k (table_for 0 ps) v 1 _ _ _ Hwfk eq_refl ltac:(by left) Ht) as (x & Hx & Er).
    eexists. rewrite Er. do 3 f_equal. subst k. cbn [mainMemory] in Hx.
    change (Z.to_nat 1) with 1%nat in Hx. cbn [load_bytes] in Hx.
    replace (Z.to_nat (p * 128 + v `mod` 128)) with (Z.to_nat p * 128 + Z.to_nat (v `mod` 128))%nat in Hx by lia.
    rewrite (im_in _ _ _ _ Himg _ _ _ Hpp) in Hx by lia. injection Hx as <-. f_equal. lia.
Qed.

(** The loops copy the file page by page; when the code fills its last page
    exactly, the first of them reads one page more than the code has and the
    second starts at the page the first ended with, one page further on in the
    file. *)
Lemma program_image_exact n c v : program_ok n c → 0 ≤ v →
  segsize (code n) `mod` 128 ≠ 0 ∨ segsize (initData n) ≤ 128 →
  program_image n c (Z.to_nat (v / 128)) (Z.to_nat (v `mod` 128)) = program_byte n c v.
Proof.
  intros Hp Hv Hcase. pose proof (program_arith n c Hp) as (_ & _ & _ & _ & Hdp & Hal).
  destruct Hp as [_ _ [Hc _] [Hi _] _ Hb Hend _].
  assert (Hd : data_page n = code_rounds n ∨ data_rounds n = 0%nat).
  { destruct Hcase as [H|H]; [left; by apply Hal|].
    destruct Hdp as [->|Hs]; [by left|right]. unfold data_rounds, code_rounds in *. lia. }
  assert (Hr : segsize (code n) + segsize (initData n) ≤
    128 * Z.of_nat (code_rounds n) + 128 * Z.of_nat (data_rounds n)).
  { unfold data_rounds, code_rounds. lia. }
  unfold program_image, program_byte. rewrite !loaded_pages_spec by lia.
  set (x := c !! (Z.to_nat (inFileAddr (code n)) + Z.to_nat v)%nat).
  assert (Hx : ∀ k, k = (Z.to_nat (inFileAddr (code n)) + Z.to_nat v)%nat → c !! k = x) by (by intros ? ->).
  clear Hal Hdp Hcase. repeat case_decide.
  - lia.
  - by rewrite Hx by lia.
  - by rewrite Hx by lia.
  - unfold x. rewrite lookup_ge_None_2; [done|]. lia.
Qed.

Lemma program_image_shifted n c v : program_ok n c → segsize (code n) `mod` 128 = 0 →
  segsize (code n) ≤ v < segsize (code n) + segsize (initData n) - 128 →
  program_image n c (Z.to_nat (v / 128)) (Z.to_nat (v `mod` 128)) = program_byte n c (v + 128).
Proof.
  intros Hp Hm Hv. pose proof (program_arith n c Hp) as (_ & _ & _ & _ & Hdp & Hal).
  destruct Hp as [_ _ [Hc _] [Hi _] _ Hb Hend _].
  assert (Hd : S (data_page n) = code_rounds n) by (destruct Hdp as [Hd|Hd]; [by apply Hal in Hd|done]).
  unfold program_image, program_byte. rewrite loaded_pages_spec by lia.
  rewrite decide_True by (unfold data_rounds, code_rounds in *; lia).
  destruct (lookup_lt_is_Some_2 c (Z.to_nat (inFileAddr (code n)) + Z.to_nat (v + 128))) as [x Hx]; [lia|].
  rewrite Hx. replace (_ + _ + _)%nat with (Z.to_nat (inFileAddr (code n)) + Z.to_nat (v + 128))%nat.
  - by rewrite Hx.
  - unfold code_rounds in *. lia.
Qed.

End Programs.

(** ** The spaces alive at one time *)

Section Live.
Context {D : Type} `{!ExeFile D}.
Implicit Types (s : umem D) (l : list AddrSpace).

(** The frames of an address space. *)
Definition space_frames (sp : AddrSpace) : list Z := physicalPage <$> pageTable sp.

(** The kernel makes a space for a file it has opened, deletes one of those it
    has, and in between runs user programs: these change memory, and the use
    and dirty bits of the tables, but neither the map of frames nor the frames
    an entry maps. *)
Inductive space_step : umem D * list AddrSpace → umem D * list AddrSpace → Prop :=
  | step_new junk sp s s' l : new_AddrSpace junk s = Ok (sp, s') → space_step (s, l) (s', sp :: l)
  | step_delete sp s s' l1 l2 : delete_AddrSpace sp s = Ok (tt, s') →
      space_step (s, l1 ++ sp :: l2) (s', l1 ++ l2)
  | step_run s s' l l' : frames s' = frames s →
      Forall2 (λ sp sp', space_frames sp' = space_frames sp ∧ numPages sp' = numPages sp) l l' →
      space_step (s, l) (s', l').

Definition all_frames l : list Z := concat (space_frames <$> l).

Record live_ok (x : umem D * list AddrSpace) : Prop := {
  lo_wf : bitmap_wf (frames x.1);
  lo_bits : numBits (frames x.1) = NumPhysPages;
  lo_nodup : NoDup (all_frames x.2);
  lo_used : bits_of (frames x.1) = list_to_set (all_frames x.2);
  lo_size : Forall (λ sp, numPages sp = Z.of_nat (length (pageTable sp))) x.2
}.

(** Computations that leave the map of frames as it is. *)
Definition keeps_frames {A} (m : M (umem D) A) : Prop :=
  ∀ s a s', m s = Ok (a, s') → frames s' = frames s.

Lemma keeps_ret {A} (a : A) : keeps_frames (mret a).
Proof. intros s b s' H. by binds H. Qed.
Lemma keeps_bind {A B} (m : M (umem D) A) (f : A → M (umem D) B) :
  keeps_frames m → (∀ a, keeps_frames (f a)) → keeps_frames (m ≫= f).
Proof. intros Hm Hf s b s' (a & s1 & E & H)%bind_Ok. rewrite (Hf a s1 b s' H). by eapply Hm. Qed.
Lemma keeps_on_exe {A} (m : M D A) : keeps_frames (on_exe m).
Proof. intros s a s' H. unfold on_exe in H. case_match; [|done]. case_match; simplify_eq. done. Qed.
Lemma keeps_poke a bs : keeps_frames (poke (D := D) a bs).
Proof. intros s b s' H. unfold poke in H. case_match; simplify_eq. done. Qed.
Lemma keeps_frame_addr pt j : keeps_frames (frame_addr (D := D) pt j).
Proof. intros s b s' H. unfold frame_addr in H. repeat case_match; by binds H. Qed.
Lemma keeps_for n lo (body : Z → M (umem D) unit) :
  (∀ i, keeps_frames (body i)) → keeps_frames (for_loop n lo body).
Proof.
  intros Hb. revert lo. induction n as [|n IH]; intros lo; cbn; [apply keeps_ret|].
  apply keeps_bind; auto.
Qed.
Lemma keeps_load_loop fuel pt fileAddr limit i j :
  keeps_frames (load_loop (D := D) fuel pt fileAddr limit i j).
Proof.
  revert i j. induction fuel as [|fuel IH]; intros i j; cbn; [by intros ???|].
  case_match; [|apply keeps_ret]. apply keeps_bind; [|auto]. unfold load_page.
  auto using keeps_bind, keeps_frame_addr, keeps_on_exe, keeps_poke.
Qed.
Lemma keeps_zero_loop pt n : keeps_frames (zero_loop (D := D) pt n).
Proof. apply keeps_for. intros i. auto using keeps_bind, keeps_frame_addr, keeps_poke. Qed.

Hint Resolve keeps_ret keeps_load_loop keeps_zero_loop : nachos.

Lemma table_for_frames i ps : physicalPage <$> table_for i ps = ps.
Proof. revert i. induction ps as [|p ps IH]; intros i; cbn; [done|]. by rewrite IH. Qed.

(** Whatever the file: a constructor that returns has taken free frames. *)
Lemma new_AddrSpace_frames junk sp s s' : bitmap_wf (frames s) → numBits (frames s) = NumPhysPages →
  new_AddrSpace junk s = Ok (sp, s') →
  ∃ ps, space_frames sp = ps ∧ numPages sp = Z.of_nat (length (pageTable sp)) ∧ NoDup ps ∧
    Forall (λ p, p ∉ bits_of (frames s)) ps ∧
    bitmap_wf (frames s') ∧ numBits (frames s') = NumPhysPages ∧
    bits_of (frames s') = list_to_set ps ∪ bits_of (frames s).
Proof.
  intros Hwf Hn H. unfold new_AddrSpace in H. apply bind_Ok in H as (r & s1 & E1 & H). cbv zeta in H.
  pose proof (keeps_on_exe _ _ _ _ E1) as F1. set (h := if _ && _ then _ else _) in H. clearbody h.
  apply bind_Ok in H as ([] & s2 & (_ & -> & _)%ASSERT_Ok & H).
  set (np := uint (divRoundUp _ _)) in H.
  apply bind_Ok in H as ([] & s2 & (_ & -> & _)%ASSERT_Ok & H).
  apply bind_Ok in H as (cl & s2 & E2 & H). unfold on_frames in E2.
  rewrite NumClear_spec in E2 by (by rewrite F1). injection E2 as <- <-.
  apply bind_Ok in H as ([] & s2 & (Hc & -> & _)%ASSERT_Ok & H).
  apply bool_decide_eq_true_1 in Hc. rewrite F1 in Hc.
  apply bind_Ok in H as (pt & s3 & E3 & H).
  apply bind_Ok in H as ([] & s4 & F4%keeps_zero_loop & H).
  apply bind_Ok in H as (i & s5 & E5 & H).
  apply bind_Ok in H as ([] & s6 & E6 & H). binds H.
  assert (F5 : frames s5 = frames s4).
  { destruct (bool_decide (0 < segsize (code h))); [by apply keeps_load_loop in E5|by binds E5]. }
  assert (F6 : frames s6 = frames s5).
  { destruct (bool_decide (0 < segsize (initData h))); [|by binds E6]. revert E6. apply keeps_bind; auto with nachos. }
  pose proof (bits_of_size (frames s)) as Hbs.
  assert (Hcc : uint (clear_count (frames s)) = clear_count (frames s)).
  { apply uint_id. unfold is_uint, clear_count, NumPhysPages in *. lia. }
  assert (Hnp : 0 ≤ np) by apply uint_range.
  destruct (alloc_loop_ok (Z.to_nat np) 0 (mkUmem (mach s1) (frames s1) (exe s1)))
    as (ps & b & E & Hl & Hnd & _ & Hf & Hwfb & Hnb & Hb); [by cbn; rewrite F1|cbn; rewrite F1|].
  { unfold clear_count in *. lia. }
  cbn [frames] in *. rewrite E in E3. injection E3 as <- <-. cbn [frames] in *. rewrite F1 in *.
  exists ps. unfold space_frames. cbn. rewrite table_for_frames, table_for_length, F6, F5, F4, Hl.
  split_and!; try done; [lia|congruence].
Qed.

(** The destructor gives the frames back, whatever else is marked. *)
Lemma delete_AddrSpace_ok sp s rest : bitmap_wf (frames s) →
  numPages sp = Z.of_nat (length (pageTable sp)) → NoDup (space_frames sp) →
  bits_of (frames s) = list_to_set (space_frames sp) ∪ rest → list_to_set (space_frames sp) ## rest →
  ∃ s', delete_AddrSpace sp s = Ok (tt, s') ∧ bitmap_wf (frames s') ∧
        numBits (frames s') = numBits (frames s) ∧ bits_of (frames s') = rest.
Proof.
  intros Hwf Hn Hnd Hb Hdis. unfold delete_AddrSpace, CleanMyBitmap. rewrite Hn, Nat2Z.id.
  set (ps := space_frames sp) in *.
  match goal with |- context [for_loop _ _ ?body] => set (f := body) end.
  destruct (for_loop_inv (λ i s1, bitmap_wf (frames s1) ∧ numBits (frames s1) = numBits (frames s) ∧
      bits_of (frames s1) = list_to_set (drop (Z.to_nat i) ps) ∪ rest) (length (pageTable sp)) 0 f s)
    as (s' & E & Hwf' & Hn' & Hb').
  - by rewrite drop_0.
  - intros i s1 Hi (Hwf1 & Hn1 & Hb1). unfold f.
    destruct (lookup_lt_is_Some_2 (pageTable sp) (Z.to_nat i)) as [e He]; [lia|]. rewrite He.
    assert (Hp : ps !! Z.to_nat i = Some (physicalPage e)) by (unfold ps, space_frames; by rewrite list_lookup_fmap, He).
    rewrite (drop_S ps _ _ Hp) in Hb1. cbn in Hb1.
    assert (Hin : 0 ≤ physicalPage e < numBits (frames s1)).
    { assert (Hm : physicalPage e ∈ bits_of (frames s1)) by (rewrite Hb1; set_solver).
      by apply elem_of_bits in Hm as [? _]. }
    destruct (Clear_set (frames s1) (physicalPage e) Hwf1 Hin) as (b & Ec & Hwfb & Hnb & Hbb).
    eexists. split; [unfold on_frames; rewrite Ec; reflexivity|]. cbn [frames].
    split_and!; [done|congruence|]. rewrite Hbb, Hb1. replace (Z.to_nat (i + 1)) with (S (Z.to_nat i)) by lia.
    assert (Hfresh : physicalPage e ∉ drop (S (Z.to_nat i)) ps).
    { rewrite <- (take_drop (Z.to_nat i) ps), (drop_S ps _ _ Hp) in Hnd.
      apply NoDup_app in Hnd as (_ & _ & Hnd). by apply NoDup_cons in Hnd as [? _]. }
    assert (Hr : physicalPage e ∉ rest).
    { intros Hr. apply (Hdis (physicalPage e)); [|done]. apply elem_of_list_to_set.
      by eapply list_elem_of_lookup_2. }
    set_solver.
  - exists s'. split_and!; try done. rewrite Hb', drop_ge; [set_solver|].
    unfold ps, space_frames. rewrite length_fmap. lia.
Qed.

Lemma all_frames_cons sp l : all_frames (sp :: l) = space_frames sp ++ all_frames l.
Proof. done. Qed.

Lemma all_frames_middle l1 sp l2 :
  all_frames (l1 ++ sp :: l2) ≡ₚ space_frames sp ++ all_frames (l1 ++ l2).
Proof.
  unfold all_frames. rewrite !fmap_app, !concat_app, fmap_cons. cbn.
  by rewrite Permutation_app_swap_app.
Qed.

Lemma all_frames_length l : Forall (λ sp, numPages sp = Z.of_nat (length (pageTable sp))) l →
  Z.of_nat (length (all_frames l)) = foldr Z.add 0 (numPages <$> l).
Proof.
  induction 1 as [|sp l Hsp _ IH]; [done|]. rewrite all_frames_cons, length_app. cbn.
  rewrite <- IH, Hsp. unfold space_frames. rewrite length_fmap. lia.
Qed.

Lemma live_split s l1 sp l2 : live_ok (s, l1 ++ sp :: l2) →
  NoDup (space_frames sp) ∧ NoDup (all_frames (l1 ++ l2)) ∧
  bits_of (frames s) = list_to_set (space_frames sp) ∪ list_to_set (all_frames (l1 ++ l2)) ∧
  (list_to_set (space_frames sp) : gset Z) ## list_to_set (all_frames (l1 ++ l2)) ∧
  numPages sp = Z.of_nat (length (pageTable sp)) ∧
  Forall (λ sp, numPages sp = Z.of_nat (length (pageTable sp))) (l1 ++ l2).
Proof.
  intros [Hwf Hn Hnd Hu Hsz]. cbn [fst snd] in *. rewrite all_frames_middle in Hnd.
  apply NoDup_app in Hnd as (H1 & H2 & H3). apply Forall_app in Hsz as [Ha [Hs Hb]%Forall_cons].
  split_and!; try done.
  - rewrite Hu, <- list_to_set_app_L. apply list_to_set_perm_L, all_frames_middle.
  - apply elem_of_disjoint. intros p Hp1 Hp2. rewrite elem_of_list_to_set in Hp1, Hp2. by apply (H2 p).
  - by apply Forall_app.
Qed.

Lemma space_step_ok x y : space_step x y → live_ok x → live_ok y.
Proof.
  intros Hstep. destruct Hstep as [junk sp s s' l E|sp s s' l1 l2 E|s s' l l' Hf Hl].
  - intros [Hwf Hn Hnd Hu Hsz]. cbn [fst snd] in *.
    destruct (new_AddrSpace_frames junk sp s s' Hwf Hn E) as (ps & Hps & Hnp & Hnd' & Hf & Hwf' & Hn' & Hb).
    split; cbn [fst snd]; try done; try rewrite all_frames_cons, Hps.
    + apply NoDup_app. split_and!; try done. intros p Hp Hin. rewrite Forall_forall in Hf.
      apply (Hf p Hp). rewrite Hu. by apply elem_of_list_to_set.
    + by rewrite Hb, Hu, list_to_set_app_L.
    + by constructor.
  - intros Hok. destruct (live_split s l1 sp l2 Hok) as (H1 & H2 & H3 & H4 & H5 & H6).
    destruct Hok as [Hwf Hn _ _ _]. cbn [fst snd] in *.
    destruct (delete_AddrSpace_ok sp s _ Hwf H5 H1 H3 H4) as (s2 & E' & Hwf' & Hn' & Hb').
    rewrite E in E'. injection E' as <-. split; cbn [fst snd]; try done. congruence.
  - intros [Hwf Hn Hnd Hu Hsz]. cbn [fst snd] in *.
    assert (Ha : all_frames l' = all_frames l).
    { unfold all_frames. f_equal. apply list_eq_Forall2, Forall2_fmap.
      eapply Forall2_flip, Forall2_impl; [exact Hl|]. by intros ?? [-> _]. }
    split; cbn [fst snd]; rewrite ?Ha, ?Hf; try done.
    clear -Hl Hsz. induction Hl as [|sp sp' l l' [Hfr Hnp] _ IH]; [done|].
    apply Forall_cons in Hsz as [Hs Hsz]. constructor; [|auto]. rewrite Hnp, Hs.
    apply (f_equal length) in Hfr. unfold space_frames in Hfr. rewrite !length_fmap in Hfr. lia.
Qed.

Lemma concat_disjoint (qs : list (list Z)) i j q1 q2 x : NoDup (concat qs) →
  qs !! i = Some q1 → qs !! j = Some q2 → i ≠ j → x ∈ q1 → x ∈ q2 → False.
Proof.
  revert i j. induction qs as [|q qs IH]; intros i j Hnd Hi Hj Hij H1 H2; [done|].
  cbn in Hnd. apply NoDup_app in Hnd as (_ & Hd & Hnd).
  destruct i as [|i], j as [|j]; cbn in Hi, Hj; simplify_eq.
  - apply (Hd x H1), elem_of_concat_lookup. eauto.
  - apply (Hd x H2), elem_of_concat_lookup. eauto.
  - eapply (IH i j); eauto.
Qed.

Lemma live_reachable x y : rtc space_step x y → live_ok x → live_ok y.
Proof. induction 1; eauto using space_step_ok. Qed.

Lemma live_initial s : bitmap_wf (frames s) → numBits (frames s) = NumPhysPages →
  bits_of (frames s) = ∅ → live_ok (s, []).
Proof. intros. split; cbn; try done. apply NoDup_nil_2. Qed.

End Live.

(** ** Theorems *)

(** C8: a NOFF program that fits in the free frames is loaded, from any file that
    keeps the contract of [ReadAt]: the constructor returns, takes exactly the
    pages it needs from the free ones, changes no byte of a frame in use, and
    once the space is restored every byte a user program reads of it is the
    byte of the program in the file, or 0 past the end of its segments -
    provided the code does not end exactly at a page boundary with more than a
    page of initialised data behind it. *)
Theorem AddrSpace_loads_program {D} `{!ExeFile D} `{!ExeFileOK D} h junk n c (s : umem D) :
  umem_ok s → machine_ready (mach s) → exe_holds (exe s) c → program_ok n c → length junk = 40%nat →
  program_pages n ≤ clear_count (frames s) →
  segsize (code n) `mod` 128 ≠ 0 ∨ segsize (initData n) ≤ 128 →
  ∃ sp s' k, new_AddrSpace junk s = Ok (sp, s') ∧ numPages sp = program_pages n ∧ umem_ok s' ∧
    clear_count (frames s') = clear_count (frames s) - program_pages n ∧
    (∀ a, Z.of_nat a / 128 ∈ bits_of (frames s) → mainMemory (mach s') !! a = mainMemory (mach s) !! a) ∧
    RestoreState sp (mach s') = Ok (tt, k) ∧ machine_wf k ∧
    ∀ v, 0 ≤ v < 128 * program_pages n →
      ∃ k', ReadMem h v 1 k = Ok (Some (extend 1 (program_byte n c v)), k').
Proof.
  intros Hok Hr He Hp Hj Hc Hcase.
  destruct (new_AddrSpace_reads h junk n c s Hok Hr He Hp Hj Hc)
    as (sp & s' & k & E & Hn & Hok' & _ & Hcc & Hmem & Ek & Hwf & Hread).
  exists sp, s', k. split_and!; try done. intros v Hv. destruct (Hread v Hv) as (k' & Er).
  exists k'. rewrite Er. do 4 f_equal. apply program_image_exact; [done|lia|done].
Qed.

(** The case left out is a fault of the loader: when the code segment is a
    whole number of pages and the initialised data longer than a page, the
    data are loaded one page off, so that the program reads at the address of
    a datum the byte 128 further on in its file. *)
Theorem AddrSpace_shifts_data {D} `{!ExeFile D} `{!ExeFileOK D} h junk n c (s : umem D) :
  umem_ok s → machine_ready (mach s) → exe_holds (exe s) c → program_ok n c → length junk = 40%nat →
  program_pages n ≤ clear_count (frames s) →
  segsize (code n) `mod` 128 = 0 →
  ∃ sp s' k, new_AddrSpace junk s = Ok (sp, s') ∧ RestoreState sp (mach s') = Ok (tt, k) ∧
    ∀ v, segsize (code n) ≤ v < segsize (code n) + segsize (initData n) - 128 →
      ∃ k', ReadMem h v 1 k = Ok (Some (extend 1 (program_byte n c (v + 128))), k').
Proof.
  intros Hok Hr He Hp Hj Hc Hm.
  destruct (new_AddrSpace_reads h junk n c s Hok Hr He Hp Hj Hc)
    as (sp & s' & k & E & _ & _ & _ & _ & _ & Ek & _ & Hread).
  exists sp, s', k. split_and!; try done. intros v Hv.
  destruct (program_arith n c Hp) as (_ & HN & _). pose proof (po_code n c Hp). pose proof (po_uninit n c Hp).
  destruct (Hread v) as (k' & Er); [lia|]. exists k'. rewrite Er. do 4 f_equal.
  by apply program_image_shifted.
Qed.

(** C12: over any sequence of spaces made, deleted and run in, whatever files they
    are made from, no two live spaces have a frame in common, the frames that
    are not free are exactly those of live spaces, so that none is lost, and
    the destructor of each of them returns. *)
Theorem live_spaces_isolated {D} `{!ExeFile D} (s0 s : umem D) (l : list AddrSpace) :
  bitmap_wf (frames s0) → numBits (frames s0) = NumPhysPages → bits_of (frames s0) = ∅ →
  rtc space_step (s0, []) (s, l) →
  (∀ i j sp1 sp2 e1 e2, l !! i = Some sp1 → l !! j = Some sp2 → i ≠ j →
     e1 ∈ pageTable sp1 → e2 ∈ pageTable sp2 → uint (physicalPage e1) ≠ uint (physicalPage e2)) ∧
  BitMap_NumClear (frames s) = Ok (NumPhysPages - foldr Z.add 0 (numPages <$> l), frames s) ∧
  ∀ sp, sp ∈ l → ∃ s', delete_AddrSpace sp s = Ok (tt, s').
Proof.
  intros Hwf0 Hn0 Hb0 Hrun. pose proof (live_reachable _ _ Hrun (live_initial s0 Hwf0 Hn0 Hb0)) as Hok.
  pose proof Hok as [Hwf Hn Hnd Hu Hsz]. cbn [fst snd] in *. split_and!.
  - intros i j sp1 sp2 e1 e2 H1 H2 Hij He1 He2 Heq.
    assert (Hr : ∀ sp e, sp ∈ l → e ∈ pageTable sp → uint (physicalPage e) = physicalPage e).
    { intros sp e Hsp He. assert (Hm : physicalPage e ∈ bits_of (frames s)).
      { rewrite Hu. apply elem_of_list_to_set, elem_of_concat_lookup.
        apply list_elem_of_lookup in Hsp as [k Hk]. exists k, (space_frames sp).
        rewrite list_lookup_fmap, Hk. split; [done|]. by apply list_elem_of_fmap_2. }
      apply elem_of_bits in Hm as [Hm _]. apply uint_id. unfold is_uint, NumPhysPages in *. lia. }
    rewrite (Hr sp1), (Hr sp2) in Heq by (done || by eapply list_elem_of_lookup_2).
    eapply (concat_disjoint (space_frames <$> l) i j _ _ (physicalPage e1)); [done| | |done| |].
    1, 2: by rewrite list_lookup_fmap, ?H1, ?H2. all: [> |rewrite Heq]; by apply list_elem_of_fmap_2.
  - rewrite NumClear_spec by done. do 2 f_equal. rewrite <- all_frames_length by done.
    rewrite Hu, size_list_to_set, Hn by done. done.
  - intros sp Hsp. apply list_elem_of_split in Hsp as (l1 & l2 & ->).
    destruct (live_split s l1 sp l2 Hok) as (H1 & H2 & H3 & H4 & H5 & H6).
    destruct (delete_AddrSpace_ok sp s _ Hwf H5 H1 H3 H4) as (s' & E & _). by exists s'.
Qed.

(** ** Two programs *)

(** An idle machine with every frame free, and a program whose segments hold
    the bytes 0, 1, 2, ... *)
Definition empty_frames : BitMap := mkBitMap 128 4 (replicate 4 0).

Definition example_noff (csize isize : Z) : NoffHeader :=
  mkNoff NOFFMAGIC (mkSegment 0 40 csize) (mkSegment csize (40 + csize) isize) (mkSegment 0 0 16).
Definition example_file (csize isize : Z) : list Z :=
  words_bytes [NOFFMAGIC; 0; 40; csize; csize; 40 + csize; isize; 0; 0; 16] ++
  ((λ v, v `mod` 256) <$> seqZ 0 (csize + isize)).
Definition example_umem (csize isize : Z) : umem (list Z) :=
  mkUmem (new_Machine 0) empty_frames (example_file csize isize).

Lemma empty_frames_wf : bitmap_wf empty_frames.
Proof. split; try done. apply Forall_replicate. unfold is_uint. lia. Defined.

Lemma example_umem_ok csize isize : umem_ok (example_umem csize isize).
Proof. split; [done|apply empty_frames_wf|done]. Defined.

Lemma example_machine_ready csize isize : machine_ready (mach (example_umem csize isize)).
Proof. split; [|done|done]. apply Forall_replicate. unfold is_byte. lia. Defined.

Lemma example_file_bytes : Forall is_byte (example_file 200 60) ∧ Forall is_byte (example_file 256 300).
Proof. unfold is_byte. split; apply (bool_decide_unpack _); vm_compute; exact I. Defined.

Lemma example_program_ok : program_ok (example_noff 200 60) (example_file 200 60) ∧
  program_ok (example_noff 256 300) (example_file 256 300).
Proof. split; split; vm_compute; repeat split; discriminate. Defined.

Lemma example_holds : @exe_holds _ StubFile.file (exe (example_umem 200 60)) (example_file 200 60) ∧
  @exe_holds _ StubFile.file (exe (example_umem 256 300)) (example_file 256 300).
Proof.
  split; [exact (conj eq_refl (proj1 example_file_bytes))|exact (conj eq_refl (proj2 example_file_bytes))].
Defined.

Lemma example_fits : program_pages (example_noff 200 60) ≤ clear_count (frames (example_umem 200 60)) ∧
  program_pages (example_noff 256 300) ≤ clear_count (frames (example_umem 256 300)).
Proof. split; vm_compute; discriminate. Defined.

Lemma example_reads : (0 ≤ 210 < 128 * program_pages (example_noff 200 60)) ∧
  segsize (code (example_noff 200 60)) `mod` 128 ≠ 0.
Proof. vm_compute. repeat split; discriminate. Defined.

(** Code that ends inside a page. *)
Lemma AddrSpace_loads_program_witness :
  ∃ sp s' k, @new_AddrSpace _ StubFile.file (replicate 40 7) (example_umem 200 60) = Ok (sp, s') ∧
    numPages sp = program_pages (example_noff 200 60) ∧ RestoreState sp (mach s') = Ok (tt, k) ∧
    ∃ k', ReadMem no_handler 210 1 k =
      Ok (Some (extend 1 (program_byte (example_noff 200 60) (example_file 200 60) 210)), k').
Proof.
  destruct (@AddrSpace_loads_program _ StubFile.file StubFile.file_ok no_handler (replicate 40 7)
    (example_noff 200 60) (example_file 200 60) (example_umem 200 60)
    (example_umem_ok 200 60) (example_machine_ready 200 60)
    (proj1 example_holds) (proj1 example_program_ok) eq_refl
    (proj1 example_fits) (or_introl (proj2 example_reads)))
    as (sp & s' & k & E & Hn & _ & _ & _ & Ek & _ & Hr).
  exists sp, s', k. split; [exact E|]. split; [exact Hn|]. split; [exact Ek|].
  exact (Hr 210 (proj1 example_reads)).
Defined.

(** Two pages of code and 300 bytes of data: the datum at 266 reads as the
    byte of 394. *)
Lemma AddrSpace_shifts_data_witness :
  ∃ sp s' k, @new_AddrSpace _ StubFile.file (replicate 40 7) (example_umem 256 300) = Ok (sp, s') ∧
    RestoreState sp (mach s') = Ok (tt, k) ∧
    ∃ k', ReadMem no_handler 266 1 k =
      Ok (Some (extend 1 (program_byte (example_noff 256 300) (example_file 256 300) (266 + 128))), k').
Proof.
  destruct (@AddrSpace_shifts_data _ StubFile.file StubFile.file_ok no_handler (replicate 40 7)
    (example_noff 256 300) (example_file 256 300) (example_umem 256 300)
    (example_umem_ok 256 300) (example_machine_ready 256 300)
    (proj2 example_holds) (proj2 example_program_ok) eq_refl
    (proj2 example_fits) eq_refl) as (sp & s' & k & E & Ek & Hr).
  exists sp, s', k. split; [exact E|]. split; [exact Ek|].
  apply (Hr 266). split; [discriminate|reflexivity].
Defined.

(** Two spaces made one after the other. *)
Definition two_spaces_from (s : umem (list Z)) : option (umem (list Z) * list AddrSpace) :=
  match @new_AddrSpace _ StubFile.file (replicate 40 7) s with
  | Ok (sp1, s1) =>
      match @new_AddrSpace _ StubFile.file (replicate 40 7) s1 with
      | Ok (sp2, s2) => Some (s2, [sp2; sp1])
      | Err _ => None
      end
  | Err _ => None
  end.
Definition two_spaces := two_spaces_from (example_umem 200 60).

Lemma two_spaces_made : two_spaces ≠ None.
Proof. vm_compute. discriminate. Defined.

Lemma two_spaces_run s l : two_spaces = Some (s, l) →
  rtc (@space_step _ StubFile.file) (example_umem 200 60, []) (s, l).
Proof.
  unfold two_spaces, two_spaces_from. generalize (example_umem 200 60). intros s0 H.
  destruct (@new_AddrSpace _ StubFile.file (replicate 40 7) s0) as [[sp1 s1]|f] eqn:E1; [|discriminate].
  destruct (@new_AddrSpace _ StubFile.file (replicate 40 7) s1) as [[sp2 s2]|f] eqn:E2; [|discriminate].
  injection H as <- <-.
  eapply rtc_l; [exact (step_new _ _ _ _ _ E1)|]. apply rtc_once. exact (step_new _ _ _ _ _ E2).
Qed.

Lemma live_spaces_isolated_witness : ∃ s l, two_spaces = Some (s, l) ∧
  (∀ i j sp1 sp2 e1 e2, l !! i = Some sp1 → l !! j = Some sp2 → i ≠ j →
     e1 ∈ pageTable sp1 → e2 ∈ pageTable sp2 → uint (physicalPage e1) ≠ uint (physicalPage e2)) ∧
  BitMap_NumClear (frames s) = Ok (NumPhysPages - foldr Z.add 0 (numPages <$> l), frames s) ∧
  ∀ sp, sp ∈ l → ∃ s', delete_AddrSpace sp s = Ok (tt, s').
Proof.
  pose proof two_spaces_made as Hne. pose proof two_spaces_run as Hrun.
  destruct two_spaces as [[s l]|]; [|exact (False_ind _ (Hne eq_refl))].
  exists s, l. split; [exact eq_refl|].
  apply (@live_spaces_isolated _ StubFile.file (example_umem 200 60) s l empty_frames_wf eq_refl).
  - vm_compute. reflexivity.
  - exact (Hrun s l eq_refl).
Defined.
