(* ===== verification/Polled.v ===== *)
(** * Polled: drivers of a device that polls for input

    The console and the network (machine/console.cc, network.cc) work alike: a
    handler runs every hundred ticks, fetches what has arrived and announces
    it on a semaphore; a transfer out is followed a hundred ticks later by an
    interrupt that announces its completion on another.  This file has what
    their drivers share: blocking calls of a thread on such a device return,
    whatever the phase of the polling, and keep what polling keeps. *)

From S2P Require Import Prelude LinkedList Interrupt OneThread.

(** The semaphores and locks of a world are separate cells. *)
Class CellsOK (W N L : Type) `{!Sems W N, !Locks W N L, !EqDecision N, !EqDecision L} := {
  sem_of_set (m n : N) x (w : W) : sem_of m (set_sem n x w) = if decide (m = n) then x else sem_of m w;
  sem_of_held (n : N) (l : L) b (w : W) : sem_of n (set_held l b w) = sem_of n w;
  sem_of_ready (n : N) b (w : W) : sem_of n (set_ready b w) = sem_of n w;
  held_set (m l : L) b (w : W) : held m (set_held l b w) = if decide (m = l) then b else held m w;
  held_sem (l : L) (n : N) x (w : W) : held l (set_sem n x w) = held l w;
  held_ready (l : L) b (w : W) : held l (set_ready b w) = held l w;
  ready_set b (w : W) : ready (set_ready b w) = b;
  ready_sem (n : N) x (w : W) : ready (set_sem n x w) = ready w;
  ready_held (l : L) b (w : W) : ready (set_held l b w) = ready w
}.

(** The device: what its two handlers do to the world, and the semaphores
    [arrival] and [completion] they announce on.  [poll_ok]: the poll finds
    nothing that stops it. *)
Class Polled (W H N L : Type) `{!Platform W H, !Sems W N, !Locks W N L} := {
  poll_handler : H; poll_type : IntType;
  done_handler : H; done_type : IntType;
  arrival : N; completion : N;
  poll_ok : W → Prop;
  poll_world : W → W;
  done_world : W → W;
  poll_run l p h y m st (w : W) : poll_ok w → ∃ st',
    call_handler poll_handler (mkK (mkInterrupt l p h y m) st w) =
      Ok (tt, mkK (mkInterrupt l (sorted_insert (totalTicks st + 100)
                (mkPending poll_handler (totalTicks st + 100) poll_type) p) h y m) st' (poll_world w)) ∧
    totalTicks st' = totalTicks st;
  done_run l p h y m st (w : W) : ∃ st',
    call_handler done_handler (mkK (mkInterrupt l p h y m) st w) =
      Ok (tt, mkK (mkInterrupt l p h y m) st' (done_world w)) ∧
    totalTicks st' = totalTicks st;
  no_user (k : kstate W H) : machine_DelayedLoad k = Ok (tt, k);
  poll_no_timer : poll_type ≠ TimerInt;
  done_no_timer : done_type ≠ TimerInt;
  arrival_completion : arrival ≠ completion;
  poll_sem (n : N) w : n ≠ arrival → sem_of n (poll_world w) = sem_of n w;
  poll_held (l : L) w : held l (poll_world w) = held l w;
  poll_ready w : waits (sem_of arrival w) = false → ready (poll_world w) = ready w;
  done_sem (n : N) w : n ≠ completion → sem_of n (done_world w) = sem_of n w;
  done_completion w : sem_of completion (done_world w) = mkSem (value (sem_of completion w) + 1) false;
  done_held (l : L) w : held l (done_world w) = held l w;
  done_ready w : waits (sem_of completion w) = true → ready (done_world w) = true
}.

Section Driver.
Context {W H N L : Type} `{!EqDecision N, !EqDecision L}.
Context `{!Platform W H, !Sems W N, !Locks W N L, !CellsOK W N L, !Polled W H N L}.
Abbreviation K := (kstate W H).
Implicit Types (w : W) (R J : W → Prop) (v : N → lsem) (h : L → bool).

Definition poll_at (t : Z) : Z * PendingInterrupt H := (t, mkPending poll_handler t poll_type).
Definition done_at (t : Z) : Z * PendingInterrupt H := (t, mkPending done_handler t done_type).

(** The machine with interrupts off, in the middle of a tick or idle. *)
Definition off p y m st w : K := mkK (mkInterrupt IntOff p false y m) st w.

(** ** Interrupts *)

Lemma fire_poll p y m st w t : poll_ok w → ∃ st',
  fire (poll_at t).2 m (off p y m st w) =
    Ok (tt, off (sorted_insert (totalTicks st + 100) (poll_at (totalTicks st + 100)).2 p) y m st' (poll_world w)) ∧
  totalTicks st' = totalTicks st.
Proof.
  intros Hok. unfold fire, set_inHandler, setStatus, on_intr. unfold_M. rewrite no_user.
  cbn [poll_at snd pi_handler intr stats world off level pending inHandler yieldOnReturn status].
  destruct (poll_run IntOff p true y SystemMode st w Hok) as (st' & E & Ht).
  rewrite E. exists st'. by split.
Qed.

Lemma fire_done p y m st w t : ∃ st',
  fire (done_at t).2 m (off p y m st w) = Ok (tt, off p y m st' (done_world w)) ∧
  totalTicks st' = totalTicks st.
Proof.
  unfold fire, set_inHandler, setStatus, on_intr. unfold_M. rewrite no_user.
  cbn [done_at snd pi_handler intr stats world off level pending inHandler yieldOnReturn status].
  destruct (done_run IntOff p true y SystemMode st w) as (st' & E & Ht).
  rewrite E. exists st'. by split.
Qed.

(** The head of the list is not due yet. *)
Lemma CheckIfDue_waits p ps y m st w : totalTicks st < p.1 →
  CheckIfDue false (off (p :: ps) y m st w) = Ok (false, off (sorted_insert p.1 p.2 ps) y m st w).
Proof.
  intros Ht. destruct p as [t p]. unfold CheckIfDue, set_pending, on_intr. unfold_M. cbn -[sorted_insert] in *.
  destruct (Z.ltb_spec (totalTicks st) t); [|lia]. done.
Qed.

(** The head is due, or the idle machine advances to it, and its handler runs. *)
Lemma CheckIfDue_fires (adv : bool) t q ps y m st w (f : list (Z * PendingInterrupt H) → Z → list _) w' :
  (if adv then totalTicks st < t else t ≤ totalTicks st) → pi_type q ≠ TimerInt →
  (∀ st1, ∃ st', fire q m (off ps y m st1 w) = Ok (tt, off (f ps (totalTicks st1)) y m st' w') ∧
                 totalTicks st' = totalTicks st1) →
  ∃ st', CheckIfDue adv (off ((t, q) :: ps) y m st w) = Ok (true, off (f ps (totalTicks st')) y m st' w') ∧
    totalTicks st' = if adv then t else totalTicks st.
Proof.
  intros Hw Hq Hf. unfold CheckIfDue, set_pending, on_intr, on_stats. unfold_M.
  cbn -[sorted_insert fire tick_idle_to]. rewrite (bool_decide_eq_false_2 (pi_type q = TimerInt)) by done.
  rewrite andb_false_r. rewrite (bool_decide_eq_true_2 (IntOff = IntOff)) by done. cbn -[fire tick_idle_to].
  destruct adv.
  - destruct (Z.ltb_spec (totalTicks st) t); [|lia]. cbn [andb intr stats world].
    destruct (Hf (tick_idle_to t st)) as (st' & E & Ht). unfold off in E. rewrite E. exists st'.
    assert (Hn : totalTicks (tick_idle_to t st) = t) by (by destruct st). rewrite Hn in *. by rewrite Ht.
  - cbn [andb]. destruct (Z.ltb_spec (totalTicks st) t); [lia|]. cbn [intr stats world].
    destruct (Hf st) as (st' & E & Ht). unfold off in E. rewrite E. exists st'. by rewrite Ht.
Qed.

Lemma CheckIfDue_poll (adv : bool) t ps y m st w : poll_ok w →
  (if adv then totalTicks st < t else t ≤ totalTicks st) →
  ∃ st', CheckIfDue adv (off (poll_at t :: ps) y m st w) =
    Ok (true, off (sorted_insert (totalTicks st' + 100) (poll_at (totalTicks st' + 100)).2 ps) y m st' (poll_world w)) ∧
    totalTicks st' = if adv then t else totalTicks st.
Proof.
  intros Hok Hw. apply (CheckIfDue_fires adv t _ ps y m st w
    (λ ps n, sorted_insert (n + 100) (poll_at (n + 100)).2 ps)); [done|apply poll_no_timer|].
  intros st1. by apply (fire_poll ps y m st1 w t).
Qed.

Lemma CheckIfDue_done (adv : bool) t ps y m st w :
  (if adv then totalTicks st < t else t ≤ totalTicks st) →
  ∃ st', CheckIfDue adv (off (done_at t :: ps) y m st w) = Ok (true, off ps y m st' (done_world w)) ∧
    totalTicks st' = if adv then t else totalTicks st.
Proof.
  intros Hw. apply (CheckIfDue_fires adv t _ ps y m st w (λ ps _, ps)); [done|apply done_no_timer|].
  intros st1. apply (fire_done ps y m st1 w t).
Qed.

Lemma due_loop_waits p ps m st w : totalTicks st < p.1 → sorted_insert p.1 p.2 ps = p :: ps →
  due_loop (off (p :: ps) false m st w) = Ok (tt, off (p :: ps) false m st w).
Proof.
  intros Ht Hs. unfold due_loop. unfold_M. cbn [pending intr off length CheckIfDue_loop].
  rewrite (bind_run _ _ _ _ _ (CheckIfDue_waits p ps false m st w Ht)). by rewrite Hs.
Qed.

(** A tick with only the poll pending: at most one poll. *)
Lemma OneTick_poll st t w : poll_ok w → totalTicks st < t ≤ totalTicks st + 100 →
  ∃ st' t' w', OneTick (mk IntOn [poll_at t] false st w) = Ok (tt, mk IntOn [poll_at t'] false st' w') ∧
    totalTicks st' < t' ≤ totalTicks st' + 100 ∧ (w' = w ∨ w' = poll_world w).
Proof.
  intros Hok Hw. set (st1 := tick_system 10 st). assert (Ht1 : totalTicks st1 = totalTicks st + 10) by (by destruct st).
  assert (Hloop : ∃ st' t' w', due_loop (off [poll_at t] false SystemMode st1 w) =
      Ok (tt, off [poll_at t'] false SystemMode st' w') ∧
      totalTicks st' < t' ≤ totalTicks st' + 100 ∧ (w' = w ∨ w' = poll_world w)).
  { destruct (decide (totalTicks st1 < t)).
    - exists st1, t, w. split; [by apply due_loop_waits|]. split; [lia|by left].
    - unfold due_loop. unfold_M. cbn [pending intr off length]. cbn [CheckIfDue_loop].
      destruct (CheckIfDue_poll false t [] false SystemMode st1 w) as (st2 & E2 & Ht2); [done|lia|].
      rewrite (bind_run _ _ _ _ _ E2). cbn [sorted_insert].
      rewrite (bind_run _ _ _ _ _ (CheckIfDue_waits (poll_at (totalTicks st2 + 100)) [] false SystemMode st2
        (poll_world w) ltac:(cbn; lia))).
      exists st2, (totalTicks st2 + 100), (poll_world w). split; [reflexivity|]. split; [lia|by right]. }
  destruct Hloop as (st' & t' & w' & E & Hb & Hw').
  exists st', t', w'. split; [|done]. unfold OneTick, on_stats, ChangeLevel, set_level, on_intr. unfold_M.
  cbn [mk intr stats world status level pending inHandler yieldOnReturn].
  rewrite (bool_decide_eq_true_2 (SystemMode = SystemMode)) by done. fold SystemTick in *.
  change (tick_system SystemTick st) with st1. fold (off [poll_at t] false SystemMode st1 w).
  rewrite E. reflexivity.
Qed.

(** ** What is known of the world between two steps *)

Definition upd {A} `{EqDecision A} {B} (v : A → B) (n : A) (x : B) : A → B :=
  λ m, if decide (m = n) then x else v m.

(** The semaphores but [arrival] are [v], the locks held are [h], the thread is
    ready or not, and the device and [arrival] satisfy [J]. *)
Record at_ v h (r : bool) J w : Prop := {
  at_sem : ∀ n, n ≠ arrival → sem_of n w = v n;
  at_held : ∀ l, held l w = h l;
  at_ready : ready w = r;
  at_dev : J w
}.

(** [J] does not depend on the other cells, and a poll keeps it. *)
Record framed J : Prop := {
  fr_sem n x w : n ≠ arrival → J w → J (set_sem n x w);
  fr_held l b w : J w → J (set_held l b w);
  fr_ready b w : J w → J (set_ready b w);
  fr_ok w : J w → poll_ok w;
  fr_poll w : J w → J (poll_world w);
  fr_wait w : J w → waits (sem_of arrival w) = false
}.

Lemma at_poll v h r J w : framed J → at_ v h r J w → at_ v h r J (poll_world w).
Proof.
  intros HJ [H1 H2 H3 H4]. split.
  - intros n Hn. rewrite poll_sem by done. by apply H1.
  - intros l. rewrite poll_held. apply H2.
  - rewrite poll_ready by (by apply (fr_wait J)). done.
  - by apply (fr_poll J).
Qed.

Lemma at_ext v v' h h' r J w : (∀ n, v n = v' n) → (∀ l, h l = h' l) →
  at_ v h r J w → at_ v' h' r J w.
Proof.
  intros Hv Hh [H1 H2 H3 H4]. split; try done.
  - intros n Hn. rewrite <- Hv. by apply H1.
  - intros l. rewrite <- Hh. apply H2.
Qed.

Lemma at_set_sem v h r J w n x : framed J → n ≠ arrival → at_ v h r J w →
  at_ (upd v n x) h r J (set_sem n x w).
Proof.
  intros HJ Hn [H1 H2 H3 H4]. split.
  - intros m Hm. rewrite sem_of_set. unfold upd. destruct (decide (m = n)); [done|by apply H1].
  - intros l. rewrite held_sem. apply H2.
  - by rewrite ready_sem.
  - by apply (fr_sem J).
Qed.

Lemma at_set_held v h r J w l b : framed J → at_ v h r J w → at_ v (upd h l b) r J (set_held l b w).
Proof.
  intros HJ [H1 H2 H3 H4]. split.
  - intros m Hm. rewrite sem_of_held. by apply H1.
  - intros m. rewrite held_set. unfold upd. destruct (decide (m = l)); [done|apply H2].
  - by rewrite ready_held.
  - by apply (fr_held J).
Qed.

Lemma at_set_ready v h r r' J w : framed J → at_ v h r J w → at_ v h r' J (set_ready r' w).
Proof.
  intros HJ [H1 H2 H3 H4]. split.
  - intros m Hm. rewrite sem_of_ready. by apply H1.
  - intros m. by rewrite held_ready.
  - by rewrite ready_set.
  - by apply (fr_ready J).
Qed.

(** The machine between two calls: interrupts on, the next poll pending. *)
Definition on R (k : K) : Prop :=
  ∃ st t w, k = mk IntOn [poll_at t] false st w ∧
    totalTicks st < t ≤ totalTicks st + 100 ∧ R w.

Lemma on_mono R R' k : (∀ w, R w → R' w) → on R k → on R' k.
Proof. intros HR (st & t & w & -> & Hb & Hw). exists st, t, w. eauto. Qed.

(** ** Calls that do not block *)

(** Interrupts on again: a tick. *)
Lemma SetLevel_tick v h r J st t w : framed J → at_ v h r J w →
  totalTicks st < t ≤ totalTicks st + 100 →
  ∃ k', SetLevel IntOn (mk IntOff [poll_at t] false st w) = Ok (IntOff, k') ∧ on (at_ v h r J) k'.
Proof.
  intros HJ Hw Hb. assert (Hok : poll_ok w) by (apply (fr_ok J HJ), Hw).
  destruct (OneTick_poll st t w Hok Hb) as (st' & t' & w' & E & Hb' & Hw').
  exists (mk IntOn [poll_at t'] false st' w'). rewrite SetLevel_enable, E. split; [done|].
  exists st', t', w'. split; [done|]. split; [done|].
  destruct Hw' as [-> | ->]; [done|by apply at_poll].
Qed.

(** [P] of a semaphore that is free, and [V] of one without waiters. *)
Lemma P_loop_free fuel n p st w x : sem_of n w = mkSem (x + 1) false → 0 ≤ x →
  P_loop (S fuel) n (off p false SystemMode st w) =
    Ok (tt, off p false SystemMode st (set_sem n (mkSem x false) w)).
Proof.
  intros Hs Hx. cbn [P_loop]. unfold on_world. unfold_M. cbn [off world]. rewrite Hs. cbn [value waits].
  destruct (Z.eqb_spec (x + 1) 0); [lia|]. by replace (x + 1 - 1) with x by lia.
Qed.

Lemma P_ok v h J n x k : on (at_ v h false J) k → framed J → n ≠ arrival →
  v n = mkSem (x + 1) false → 0 ≤ x →
  ∃ k', P n k = Ok (tt, k') ∧ on (at_ (upd v n (mkSem x false)) h false J) k'.
Proof.
  intros (st & t & w & -> & Hb & Hw) HJ Hn Hv Hx. unfold P.
  rewrite (bind_run _ _ _ _ _ (SetLevel_disable [poll_at t] false st w)).
  assert (Hs : sem_of n w = mkSem (x + 1) false) by (by rewrite (at_sem _ _ _ _ _ Hw n Hn)).
  rewrite (bind_run _ _ _ _ _ (P_loop_free 1 n [poll_at t] st w x Hs Hx)).
  destruct (SetLevel_tick _ _ _ _ st t _ HJ (at_set_sem _ _ _ _ _ n (mkSem x false) HJ Hn Hw) Hb) as (k' & E' & Hk').
  unfold off. fold (mk IntOff [poll_at t] false st (set_sem n (mkSem x false) w)).
  rewrite (bind_run _ _ _ _ _ E'). by exists k'.
Qed.

Lemma V_ok v h J n x k : on (at_ v h false J) k → framed J → n ≠ arrival → v n = mkSem x false →
  ∃ k', V n k = Ok (tt, k') ∧ on (at_ (upd v n (mkSem (x + 1) false)) h false J) k'.
Proof.
  intros (st & t & w & -> & Hb & Hw) HJ Hn Hv. unfold V.
  rewrite (bind_run _ _ _ _ _ (SetLevel_disable [poll_at t] false st w)).
  assert (E : V_off n (mk IntOff [poll_at t] false st w) =
    Ok (tt, mk IntOff [poll_at t] false st (set_sem n (mkSem (x + 1) false) w))).
  { unfold V_off, on_world. unfold_M. cbn [mk world]. by rewrite (at_sem _ _ _ _ _ Hw n Hn), Hv. }
  rewrite (bind_run _ _ _ _ _ E).
  destruct (SetLevel_tick _ _ _ _ st t _ HJ (at_set_sem _ _ _ _ _ n (mkSem (x + 1) false) HJ Hn Hw) Hb)
    as (k' & E' & Hk').
  rewrite (bind_run _ _ _ _ _ E'). by exists k'.
Qed.

(** The locks: free, and held by the thread. *)
Lemma Acquire_ok v h J l k : framed J → on (at_ v h false J) k → h l = false →
  lock_semInvP l ≠ arrival → lock_sem l ≠ arrival → lock_sem l ≠ lock_semInvP l →
  v (lock_semInvP l) = mkSem 1 false → v (lock_sem l) = mkSem 1 false →
  ∃ k', Acquire l k = Ok (tt, k') ∧ on (at_ (upd v (lock_sem l) (mkSem 0 false)) (upd h l true) false J) k'.
Proof.
  intros HJ Hk Hh Hi Hs Hne Hvi Hvs.
  assert (Hheld : held l (world k) = false)
    by (destruct Hk as (st & t & w & -> & _ & Hw); cbn; by rewrite (at_held _ _ _ _ _ Hw)).
  unfold Acquire. unfold mbind at 1, M_bind at 1, gets. rewrite Hheld.
  destruct (P_ok _ _ _ (lock_semInvP l) 0 _ Hk HJ Hi) as (k1 & E1 & H1); [done..|].
  rewrite (bind_run _ _ _ _ _ E1).
  destruct (V_ok _ _ _ (lock_semInvP l) 0 _ H1 HJ Hi) as (k2 & E2 & H2); [by unfold upd; rewrite decide_True|].
  rewrite (bind_run _ _ _ _ _ E2).
  destruct (P_ok _ _ _ (lock_sem l) 0 _ H2 HJ Hs) as (k3 & E3 & st & t & w & -> & Hb & Hw);
    [by unfold upd; rewrite !decide_False|done|].
  rewrite (bind_run _ _ _ _ _ E3). eexists. split; [reflexivity|].
  exists st, t, (set_held l true w). split; [done|]. split; [done|].
  eapply at_ext; [|reflexivity|by apply at_set_held].
  intros n. unfold upd. destruct (decide (n = lock_sem l)); [done|].
  destruct (decide (n = lock_semInvP l)) as [->|]; [by rewrite Hvi|done].
Qed.

Lemma Release_ok v h J l x k : framed J → on (at_ v h false J) k → h l = true →
  lock_sem l ≠ arrival → v (lock_sem l) = mkSem x false →
  ∃ k', Release l k = Ok (tt, k') ∧ on (at_ (upd v (lock_sem l) (mkSem (x + 1) false)) (upd h l false) false J) k'.
Proof.
  intros HJ (st & t & w & -> & Hb & Hw) Hh Hs Hv.
  unfold Release, gets, on_world. unfold_M. cbn [mk world]. rewrite (at_held _ _ _ _ _ Hw), Hh.
  cbn [mk intr stats world]. fold (mk IntOn [poll_at t] false st (set_held l false w)).
  apply V_ok; try done. exists st, t, (set_held l false w). split; [done|]. split; [done|]. by apply at_set_held.
Qed.

(** ** Calls that block *)

Lemma Idle_run p st w p1 st1 w1 p2 st2 w2 :
  CheckIfDue true (off p false IdleMode st w) = Ok (true, off p1 false IdleMode st1 w1) →
  due_loop (off p1 false IdleMode st1 w1) = Ok (tt, off p2 false IdleMode st2 w2) →
  Idle (off p false SystemMode st w) = Ok (tt, off p2 false SystemMode st2 w2).
Proof.
  intros E1 E2. unfold Idle, setStatus, set_yieldOnReturn, on_intr. unfold_M.
  cbn [off intr stats world level pending inHandler yieldOnReturn status]. unfold off in *.
  rewrite E1, E2. reflexivity.
Qed.

Lemma Sleep_loop_ready fuel p st w : ready w = true →
  Sleep_loop (S fuel) (off p false SystemMode st w) = Ok (tt, off p false SystemMode st (set_ready false w)).
Proof. intros Hr. cbn [Sleep_loop]. unfold on_world. unfold_M. cbn [off world]. by rewrite Hr. Qed.

Lemma Sleep_loop_idle fuel p st w k : ready w = false → Idle (off p false SystemMode st w) = Ok (tt, k) →
  Sleep_loop (S fuel) (off p false SystemMode st w) = Sleep_loop fuel k.
Proof.
  intros Hr E. cbn [Sleep_loop]. unfold_M. cbn [off world]. rewrite Hr. cbv beta iota.
  unfold off in *. by rewrite E.
Qed.

Lemma P_loop_blocks fuel n p st w b k : sem_of n w = mkSem 0 b →
  Sleep_loop (S (length p)) (off p false SystemMode st (set_sem n (mkSem 0 true) w)) = Ok (tt, k) →
  P_loop (S fuel) n (off p false SystemMode st w) = P_loop fuel n k.
Proof.
  intros Hs E. assert (Es : Sleep (off p false SystemMode st (set_sem n (mkSem 0 true) w)) = Ok (tt, k)).
  { unfold Sleep. unfold_M. cbn [intr off level pending]. rewrite bool_decide_eq_true_2 by done. exact E. }
  cbn [P_loop]. unfold mbind, M_bind, gets. cbn [off world]. rewrite Hs. cbn [value Z.eqb].
  unfold on_world, modify. cbn [off intr stats world]. unfold off in *. by rewrite Es.
Qed.

(** Something has arrived and is announced, or the next poll will announce it;
    once the announcement is taken the device satisfies [J']. *)
Definition announced J' w : Prop :=
  (sem_of arrival w = mkSem 1 false ∧ J' (set_sem arrival (mkSem 0 false) w)) ∨
  (sem_of arrival w = mkSem 0 false ∧
   let w1 := poll_world (set_sem arrival (mkSem 0 true) w) in
   poll_ok (set_sem arrival (mkSem 0 true) w) ∧ ready w1 = true ∧ sem_of arrival w1 = mkSem 1 false ∧
   J' (set_sem arrival (mkSem 0 false) (set_ready false w1))).

(** The processor idles until the poll that announces it. *)
Lemma P_arrival v h J J' k : on (at_ v h false J) k → framed J' → (∀ w, J w → announced J' w) →
  ∃ k', P arrival k = Ok (tt, k') ∧ on (at_ v h false J') k'.
Proof.
  intros (st & t & w & -> & Hb & [H1 H2 H3 H4]) HJ' HA. unfold P.
  rewrite (bind_run _ _ _ _ _ (SetLevel_disable [poll_at t] false st w)).
  assert (Hwait : ∃ st' t' w', P_loop 2 arrival (off [poll_at t] false SystemMode st w) =
    Ok (tt, off [poll_at t'] false SystemMode st' w') ∧
    totalTicks st' < t' ≤ totalTicks st' + 100 ∧ at_ v h false J' w').
  { destruct (HA w H4) as [[Hx HJ]|(Hx & Hok & Hr & Hx1 & HJ)].
    - exists st, t. eexists. split; [by apply (P_loop_free _ _ _ _ _ 0)|]. split; [lia|]. split.
      + intros n Hn. rewrite sem_of_set, decide_False by done. by apply H1.
      + intros l. by rewrite held_sem.
      + by rewrite ready_sem.
      + done.
    - set (w0 := set_sem arrival (mkSem 0 true) w) in *.
      destruct (CheckIfDue_poll true t [] false IdleMode st w0) as (st1 & E1 & Ht1); [done|lia|].
      cbn [sorted_insert] in E1.
      pose proof (due_loop_waits (poll_at (totalTicks st1 + 100)) [] IdleMode st1 (poll_world w0)
        ltac:(cbn; lia) eq_refl) as E2.
      pose proof (Idle_run _ _ _ _ _ _ _ _ _ E1 E2) as EI.
      assert (Hr0 : ready w0 = false) by (unfold w0; by rewrite ready_sem).
      pose proof (Sleep_loop_idle 1 _ _ w0 _ Hr0 EI) as ES.
      rewrite (Sleep_loop_ready 0) in ES by done.
      exists st1, (totalTicks st1 + 100). eexists. split; [|split; [lia|]].
      + rewrite (P_loop_blocks 1 arrival _ st w false _ Hx ES). apply (P_loop_free _ _ _ _ _ 0); [|done].
        by rewrite sem_of_ready.
      + split.
        * intros n Hn. rewrite sem_of_set, decide_False, sem_of_ready, poll_sem by done.
          unfold w0. rewrite sem_of_set, decide_False by done. by apply H1.
        * intros l. rewrite held_sem, held_ready, poll_held. unfold w0. by rewrite held_sem.
        * by rewrite ready_sem, ready_set.
        * done. }
  destruct Hwait as (st' & t' & w' & E & Hb' & Hw'). rewrite (bind_run _ _ _ _ _ E).
  destruct (SetLevel_tick _ _ _ _ st' t' w' HJ' Hw' Hb') as (k' & E' & Hk').
  unfold off. fold (mk IntOff [poll_at t'] false st' w'). rewrite (bind_run _ _ _ _ _ E'). by exists k'.
Qed.

(** A transfer out: its completion is due after the poll. *)
Lemma Schedule_done st t w : totalTicks st < t ≤ totalTicks st + 100 →
  Schedule done_handler 100 done_type (mk IntOn [poll_at t] false st w) =
    Ok (tt, mk IntOn [poll_at t; done_at (totalTicks st + 100)] false st w).
Proof.
  intros Hb. unfold Schedule, set_pending, on_intr. unfold_M. change (0 <? 100) with true.
  cbn [mk intr stats world pending level inHandler yieldOnReturn status sorted_insert poll_at].
  destruct (Z.ltb_spec (totalTicks st + 100) t); [lia|]. reflexivity.
Qed.

Lemma at_done v h r J J' w : v completion = mkSem 0 true → (∀ w, J w → J' (done_world w)) → at_ v h r J w →
  at_ (upd v completion (mkSem 1 false)) h true J' (done_world w).
Proof.
  intros Hv HJ [H1 H2 H3 H4]. pose proof arrival_completion as Hne. split.
  - intros n Hn. unfold upd. destruct (decide (n = completion)) as [->|].
    + rewrite done_completion, H1 by done. by rewrite Hv.
    + rewrite done_sem by done. by apply H1.
  - intros l. by rewrite done_held.
  - apply done_ready. rewrite H1 by done. by rewrite Hv.
  - by apply HJ.
Qed.

(** Two rounds of idling at most: the poll, which may be due together with the
    completion, and the completion. *)
Lemma due_loop_done t st w t' : t ≤ totalTicks st < t' → ∃ st',
  due_loop (off [done_at t; poll_at t'] false IdleMode st w) =
    Ok (tt, off [poll_at t'] false IdleMode st' (done_world w)) ∧ totalTicks st' = totalTicks st.
Proof.
  intros Hb. destruct (CheckIfDue_done false t [poll_at t'] false IdleMode st w) as (st2 & E2 & Ht2); [lia|].
  exists st2. split; [|done]. unfold due_loop. unfold_M. cbn [pending intr off length]. cbn [CheckIfDue_loop].
  rewrite (bind_run _ _ _ _ _ E2). cbn [CheckIfDue_loop].
  rewrite (bind_run _ _ _ _ _ (CheckIfDue_waits (poll_at t') [] false IdleMode st2 (done_world w) ltac:(cbn; lia))).
  done.
Qed.

Lemma sleep_done v h J J' st t w : framed J → framed J' → (∀ w, J w → J' (done_world w)) →
  v completion = mkSem 0 true → at_ v h false J w → totalTicks st < t ≤ totalTicks st + 100 →
  ∃ st' t' w', Sleep_loop 3 (off [poll_at t; done_at (totalTicks st + 100)] false SystemMode st w) =
      Ok (tt, off [poll_at t'] false SystemMode st' w') ∧
    totalTicks st' < t' ≤ totalTicks st' + 100 ∧
    at_ (upd v completion (mkSem 1 false)) h false J' w'.
Proof.
  intros HJ HJ' HD Hv Hw Hb. set (D := totalTicks st + 100).
  destruct (CheckIfDue_poll true t [done_at D] false IdleMode st w) as (st1 & E1 & Ht1);
    [apply (fr_ok J HJ), Hw|lia|].
  assert (Hins : sorted_insert (totalTicks st1 + 100) (poll_at (totalTicks st1 + 100)).2 [done_at D] =
    [done_at D; poll_at (totalTicks st1 + 100)]).
  { cbn. destruct (Z.ltb_spec (totalTicks st1 + 100) D); [lia|done]. }
  rewrite Hins in E1. pose proof (at_poll _ _ _ _ _ HJ Hw) as Hw1. set (w1 := poll_world w) in *.
  pose proof (at_done _ _ _ _ J' _ Hv HD Hw1) as Hw2. set (w2 := done_world w1) in *.
  pose proof (at_set_ready _ _ _ false _ _ HJ' Hw2) as Hend.
  set (t1 := totalTicks st1 + 100) in *.
  destruct (decide (t = D)) as [->|Hne].
  - destruct (due_loop_done D st1 w1 t1) as (st2 & E2 & Ht2); [lia|].
    pose proof (Idle_run _ _ _ _ _ _ _ _ _ E1 E2) as EI.
    exists st2, t1, (set_ready false w2). split_and!; [|lia..|exact Hend].
    rewrite (Sleep_loop_idle 2 _ _ w _ (at_ready _ _ _ _ _ Hw) EI).
    apply Sleep_loop_ready, (at_ready _ _ _ _ _ Hw2).
  - assert (EL : due_loop (off [done_at D; poll_at t1] false IdleMode st1 w1) =
      Ok (tt, off [done_at D; poll_at t1] false IdleMode st1 w1)).
    { apply due_loop_waits; [cbn; lia|]. cbn. destruct (Z.ltb_spec D t1); [done|lia]. }
    pose proof (Idle_run _ _ _ _ _ _ _ _ _ E1 EL) as EI.
    destruct (CheckIfDue_done true D [poll_at t1] false IdleMode st1 w1) as (st2 & E2 & Ht2); [lia|].
    pose proof (due_loop_waits (poll_at t1) [] IdleMode st2 w2 ltac:(cbn; lia) eq_refl) as E3.
    pose proof (Idle_run _ _ _ _ _ _ _ _ _ E2 E3) as EI2.
    exists st2, t1, (set_ready false w2). split_and!; [|lia..|exact Hend].
    rewrite (Sleep_loop_idle 2 _ _ w _ (at_ready _ _ _ _ _ Hw) EI).
    rewrite (Sleep_loop_idle 1 _ _ w1 _ (at_ready _ _ _ _ _ Hw1) EI2).
    apply Sleep_loop_ready, (at_ready _ _ _ _ _ Hw2).
Qed.

Lemma P_completion v h J J' st t w : framed J → framed J' → (∀ w, J w → J' (done_world w)) →
  v completion = mkSem 0 false → at_ v h false J w → totalTicks st < t ≤ totalTicks st + 100 →
  ∃ k', P completion (mk IntOn [poll_at t; done_at (totalTicks st + 100)] false st w) = Ok (tt, k') ∧
        on (at_ v h false J') k'.
Proof.
  intros HJ HJ' HD Hv Hw Hb. pose proof (not_eq_sym arrival_completion) as Hne.
  unfold P. rewrite (bind_run _ _ _ _ _ (SetLevel_disable _ false st w)).
  assert (Hs : sem_of completion w = mkSem 0 false) by (by rewrite (at_sem _ _ _ _ _ Hw)).
  destruct (sleep_done (upd v completion (mkSem 0 true)) _ _ J' st t (set_sem completion (mkSem 0 true) w) HJ HJ' HD
    ltac:(unfold upd; by rewrite decide_True)
    (at_set_sem _ _ _ _ _ completion (mkSem 0 true) HJ Hne Hw) Hb) as (st' & t' & w' & ES & Hb' & Hw').
  assert (E : P_loop 2 completion (off [poll_at t; done_at (totalTicks st + 100)] false SystemMode st w) =
    Ok (tt, off [poll_at t'] false SystemMode st' (set_sem completion (mkSem 0 false) w'))).
  { rewrite (P_loop_blocks 1 completion _ st w false _ Hs ES). apply (P_loop_free _ _ _ _ _ 0); [|done].
    rewrite (at_sem _ _ _ _ _ Hw') by done. unfold upd. by rewrite decide_True. }
  rewrite (bind_run _ _ _ _ _ E).
  pose proof (at_set_sem _ _ _ _ _ completion (mkSem 0 false) HJ' Hne Hw') as Hw2.
  destruct (SetLevel_tick _ _ _ _ st' t' _ HJ' Hw2 Hb') as (k' & E' & Hk').
  unfold off. fold (mk IntOff [poll_at t'] false st' (set_sem completion (mkSem 0 false) w')).
  rewrite (bind_run _ _ _ _ _ E'). exists k'. split; [done|].
  eapply on_mono; [|exact Hk']. intros w3 Hw3. eapply at_ext; [|done|exact Hw3].
  intros n. unfold upd. destruct (decide (n = completion)) as [->|]; done.
Qed.

End Driver.
