(* ===== verification/Console.v ===== *)
(** * Console: the terminal and its synchronous interface

    machine/console.cc and userprog/SynchConsole.cc.  The device polls the
    keyboard every hundred ticks and buffers one character; a character
    written is shown at once and its completion is signalled a hundred ticks
    later.  [SynchConsole] turns this into calls that return when the transfer
    is over.  What the system calls rely on is the class [Terminal] with the
    laws [TerminalOK]; this file shows that [SynchConsole] keeps them. *)

From S2P Require Import Prelude LinkedList Interrupt OneThread Polled Machine.

(** What the kernel needs of a terminal: [readConsole()] and
    [writeConsole(c)].  [term_holds t input output]: the characters still to
    be typed and those shown so far. *)
Class Terminal (T : Type) := {
  readConsole : M T Z;
  writeConsole : Z → M T unit;
  term_holds : T → list Z → list Z → Prop
}.

Class TerminalOK (T : Type) `{!Terminal T} := {
  readConsole_ok t c input output : term_holds t (c :: input) output →
    ∃ t', readConsole t = Ok (c, t') ∧ term_holds t' input output;
  writeConsole_ok t c input output : term_holds t input output → is_byte c →
    ∃ t', writeConsole c t = Ok (tt, t') ∧ term_holds t' input (output ++ [c])
}.

Module SynchConsole.

(** ** The device *)

(** [EOF] in a [char], which is signed: the byte 255. *)
Definition EOF : Z := 255.

(** class [Console]; characters are bytes. *)
Record Console := mkConsole { putBusy : bool; incoming : Z }.

(** The semaphores of a [SynchConsole] and of its two locks, and the two
    interrupt handlers of the device. *)
Inductive sem_name := cread | cwrite | wLock_sem | wLock_inv | rLock_sem | rLock_inv.
Inductive lock_name := wLock | rLock.
Inductive handler_t := ConsoleReadPoll | ConsoleWriteDone.

#[export] Instance sem_name_eq_dec : EqDecision sem_name.
Proof. solve_decision. Defined.
#[export] Instance lock_name_eq_dec : EqDecision lock_name.
Proof. solve_decision. Defined.

(** The device with the UNIX files behind it: what has been typed and not yet
    read, and what has been shown; the semaphores, by name; the locks the
    thread holds; and whether the thread is on the ready list. *)
Record world_t := mkWorld {
  consola : Console; typed : list Z; shown : list Z;
  w_sems : sem_name → lsem; w_held : lock_name → bool; w_ready : bool
}.
Abbreviation K := (kstate world_t handler_t).

#[export] Instance sems : Sems world_t sem_name := {|
  sem_of n w := w_sems w n;
  set_sem n x w := mkWorld (consola w) (typed w) (shown w)
    (λ m, if decide (m = n) then x else w_sems w m) (w_held w) (w_ready w);
  ready := w_ready;
  set_ready b w := mkWorld (consola w) (typed w) (shown w) (w_sems w) (w_held w) b
|}.

#[export] Instance locks : Locks world_t sem_name lock_name := {|
  lock_sem l := match l with wLock => wLock_sem | rLock => rLock_sem end;
  lock_semInvP l := match l with wLock => wLock_inv | rLock => rLock_inv end;
  held l w := w_held w l;
  set_held l b w := mkWorld (consola w) (typed w) (shown w) (w_sems w)
    (λ m, if decide (m = l) then b else w_held w m) (w_ready w)
|}.

Definition set_console (c : Console) (w : world_t) : world_t :=
  mkWorld c (typed w) (shown w) (w_sems w) (w_held w) (w_ready w).
Definition set_typed (l : list Z) (w : world_t) : world_t :=
  mkWorld (consola w) l (shown w) (w_sems w) (w_held w) (w_ready w).
Definition set_shown (l : list Z) (w : world_t) : world_t :=
  mkWorld (consola w) (typed w) l (w_sems w) (w_held w) (w_ready w).

Definition count_typed (s : Statistics) : Statistics :=
  let '(mkStats t i y u a b c d e f g) := s in mkStats t i y u a b (c + 1) d e f g.
Definition count_shown (s : Statistics) : Statistics :=
  let '(mkStats t i y u a b c d e f g) := s in mkStats t i y u a b c (d + 1) e f g.

(** [PollFile(readFileNo)]: whether a character can be read at once. *)
Definition PollFile (keyboard : list Z) : bool := bool_decide (keyboard ≠ []).

(** [RequestRead] and [RequestWrite], called through the handlers. *)
Definition RequestRead : M K unit := V_off cread.
Definition RequestWrite : M K unit := V_off cwrite.

Definition CheckCharAvail : M K unit :=
  Schedule ConsoleReadPoll ConsoleTime ConsoleReadInt ≫= λ _,
  w ← gets world;
  if bool_decide (incoming (consola w) ≠ EOF) || negb (PollFile (typed w)) then mret tt
  else
    match typed w with
    | [] => ASSERT false
    | c :: rest =>
        on_world (set_typed rest) ≫= λ _,
        on_world (set_console (mkConsole (putBusy (consola w)) c)) ≫= λ _,
        on_stats count_typed ≫= λ _,
        RequestRead
    end.

Definition WriteDone : M K unit :=
  on_world (λ w, set_console (mkConsole false (incoming (consola w))) w) ≫= λ _,
  on_stats count_shown ≫= λ _,
  RequestWrite.

#[export] Instance platform : Platform world_t handler_t := {|
  call_handler h := match h with ConsoleReadPoll => CheckCharAvail | ConsoleWriteDone => WriteDone end;
  machine_DelayedLoad := mret tt;
  currentThread_Yield := mret tt
|}.

Definition GetChar : M K Z :=
  w ← gets world;
  let ch := incoming (consola w) in
  on_world (set_console (mkConsole (putBusy (consola w)) EOF)) ≫= λ _,
  mret ch.

Definition PutChar (ch : Z) : M K unit :=
  w ← gets world;
  ASSERT (negb (putBusy (consola w))) ≫= λ _,
  on_world (set_shown (shown w ++ [ch])) ≫= λ _,
  on_world (set_console (mkConsole true (incoming (consola w)))) ≫= λ _,
  Schedule ConsoleWriteDone ConsoleTime ConsoleWriteInt.

(** ** SynchConsole *)

(** The constructor [Console(...)], on a keyboard with [keys] typed so far. *)
Definition new_Console (keys : list Z) : M K unit :=
  on_world (set_typed keys) ≫= λ _,
  on_world (set_shown []) ≫= λ _,
  on_world (set_console (mkConsole false EOF)) ≫= λ _,
  Schedule ConsoleReadPoll ConsoleTime ConsoleReadInt.

(** The constructor [SynchConsole(...)], on a machine with no other device. *)
Definition new_SynchConsole (keys : list Z) (st : Statistics) : res K :=
  let w := mkWorld (mkConsole false EOF) [] []
             (λ n, mkSem (match n with cread | cwrite => 0 | _ => 1 end) false) (λ _, false) false in
  r ← new_Console keys (mk IntOn [] false st w);
  mret r.2.

Definition SynchConsole_write (c : Z) : M K unit :=
  Acquire wLock ≫= λ _,
  PutChar c ≫= λ _,
  P cwrite ≫= λ _,
  Release wLock.

Definition SynchConsole_read : M K Z :=
  Acquire rLock ≫= λ _,
  P cread ≫= λ _,
  cc ← GetChar;
  Release rLock ≫= λ _,
  mret cc.

(** ** The device at work *)

(** What a poll does to the world, and what the completion of a write does. *)
Definition poll_console (w : world_t) : world_t :=
  match typed w with
  | c :: rest =>
      if bool_decide (incoming (consola w) = EOF) then
        let w1 := set_console (mkConsole (putBusy (consola w)) c) (set_typed rest w) in
        let w2 := if waits (sem_of cread w) then set_ready true w1 else w1 in
        set_sem cread (mkSem (value (sem_of cread w) + 1) false) w2
      else w
  | [] => w
  end.

Definition done_console (w : world_t) : world_t :=
  let w1 := set_console (mkConsole false (incoming (consola w))) w in
  let w2 := if waits (sem_of cwrite w) then set_ready true w1 else w1 in
  set_sem cwrite (mkSem (value (sem_of cwrite w) + 1) false) w2.

Lemma CheckCharAvail_run l p h y m st w :
  ∃ st', CheckCharAvail (mkK (mkInterrupt l p h y m) st w) =
    Ok (tt, mkK (mkInterrupt l (sorted_insert (totalTicks st + 100)
                  (mkPending ConsoleReadPoll (totalTicks st + 100) ConsoleReadInt) p) h y m)
              st' (poll_console w)) ∧ totalTicks st' = totalTicks st.
Proof.
  unfold CheckCharAvail, Schedule, RequestRead, V_off, on_world, set_pending, on_intr, on_stats, poll_console, PollFile.
  unfold_M. cbn -[sorted_insert]. change (0 <? ConsoleTime) with true. cbn -[sorted_insert].
  destruct w as [[b inc] ty sh ss hs r]. cbn -[sorted_insert].
  destruct ty as [|c rest]; cbn -[sorted_insert]; [|].
  { rewrite orb_true_r. eexists. split; reflexivity. }
  destruct (decide (inc = EOF)) as [->|Hne].
  - rewrite bool_decide_eq_false_2, bool_decide_eq_true_2 by naive_solver. cbn -[sorted_insert].
    destruct (waits (ss cread)); eexists; (split; [reflexivity|by destruct st]).
  - rewrite (bool_decide_eq_true_2 (inc ≠ EOF)), (bool_decide_eq_false_2 (inc = EOF)) by done.
    eexists. split; reflexivity.
Qed.

Lemma WriteDone_run l p h y m st w :
  ∃ st', WriteDone (mkK (mkInterrupt l p h y m) st w) =
    Ok (tt, mkK (mkInterrupt l p h y m) st' (done_console w)) ∧ totalTicks st' = totalTicks st.
Proof.
  unfold WriteDone, RequestWrite, V_off, on_stats, on_world, done_console. unfold_M.
  cbn [intr stats world sem_of sems set_console w_sems].
  destruct (waits (w_sems w cwrite)); eexists; (split; [reflexivity|by destruct st]).
Qed.

(** The cells of the world are separate. *)
#[export] Instance cells_ok : CellsOK world_t sem_name lock_name.
Proof. by split. Qed.

Lemma poll_cases w : poll_console w = w ∨
  ∃ c rest, typed w = c :: rest ∧ incoming (consola w) = EOF ∧
    poll_console w = set_sem cread (mkSem (value (sem_of cread w) + 1) false)
      (set_ready (ready w || waits (sem_of cread w))
        (set_console (mkConsole (putBusy (consola w)) c) (set_typed rest w))).
Proof.
  unfold poll_console. destruct (typed w) as [|c rest] eqn:Et; [by left|].
  destruct (bool_decide (incoming (consola w) = EOF)) eqn:Eb; [|by left].
  apply bool_decide_eq_true in Eb. right. exists c, rest. split_and!; [done..|].
  destruct w as [co ty sh ss hs r]. cbn in *. destruct (waits (ss cread)); by destruct r.
Qed.

#[export] Instance polled : Polled world_t handler_t sem_name lock_name.
Proof.
  refine {| poll_handler := ConsoleReadPoll; poll_type := ConsoleReadInt;
            done_handler := ConsoleWriteDone; done_type := ConsoleWriteInt;
            arrival := cread; completion := cwrite; poll_ok := λ _, True;
            poll_world := poll_console; done_world := done_console |}; try done.
  - intros l p h y m st w _. apply CheckCharAvail_run.
  - apply WriteDone_run.
  - intros n w Hn. destruct (poll_cases w) as [-> |(c & rest & _ & _ & ->)]; [done|].
    by rewrite sem_of_set, decide_False.
  - intros l w. by destruct (poll_cases w) as [-> |(c & rest & _ & _ & ->)].
  - intros w Hw. destruct (poll_cases w) as [-> |(c & rest & _ & _ & ->)]; [done|].
    rewrite Hw. cbn. by rewrite orb_false_r.
  - intros n w Hn. unfold done_console. rewrite sem_of_set, decide_False by done.
    by destruct (waits (sem_of cwrite w)).
  - intros l w. unfold done_console. by destruct (waits (sem_of cwrite w)).
  - intros w Hw. unfold done_console. by rewrite Hw.
Defined.

(** A character is being shown or not ([b]), [o] has been shown, and the
    buffer, the keyboard and [cread] are in the relation [I]. *)
Definition dev (b : bool) (o : list Z) (I : Z → list Z → lsem → Prop) (w : world_t) : Prop :=
  putBusy (consola w) = b ∧ shown w = o ∧ I (incoming (consola w)) (typed w) (sem_of cread w).

(** The input [i] is still to come: in the keyboard, or its first character in
    the buffer and announced. *)
Definition coming (i : list Z) (a : Z) (t : list Z) (x : lsem) : Prop :=
  Forall (λ c, c ≠ EOF) i ∧
  ((a = EOF ∧ x = mkSem 0 false ∧ t = i) ∨ (a ≠ EOF ∧ x = mkSem 1 false ∧ i = a :: t)).

(** The character [c] is in the buffer, and its announcement was taken. *)
Definition taken (c : Z) (i : list Z) (a : Z) (t : list Z) (x : lsem) : Prop :=
  a = c ∧ c ≠ EOF ∧ x = mkSem 0 false ∧ t = i ∧ Forall (λ c, c ≠ EOF) i.

(** Relations that a poll keeps. *)
Lemma dev_framed b o I :
  (∀ c t x, I EOF (c :: t) x → I c t (mkSem (value x + 1) false)) →
  (∀ a t x, I a t x → waits x = false) → framed (dev b o I).
Proof.
  intros Hp Hw. split; try done.
  - intros n x w Hn (? & ? & HI). cbn in Hn. split_and!; try done.
    rewrite sem_of_set, decide_False by congruence. done.
  - intros w (Hb & Ho & HI). cbn [poll_world polled]. destruct (poll_cases w) as [-> |(c & rest & Ht & Ha & ->)]; [done|].
    split_and!; try done. rewrite Ht, Ha in HI. cbn. by apply Hp.
  - intros w (_ & _ & HI). by eapply Hw.
Qed.

Lemma coming_framed b o i : framed (dev b o (coming i)).
Proof.
  apply dev_framed.
  - intros c t x [Hf [(_ & -> & <-)|(Hc & _)]]; [|done]. split; [done|]. right.
    apply Forall_cons in Hf as [? _]. done.
  - intros a t x [_ [(_ & -> & _)|(_ & -> & _)]]; done.
Qed.

Lemma taken_framed b o c i : framed (dev b o (taken c i)).
Proof. apply dev_framed; [by intros c' t x (-> & ? & _)|by intros a t x (_ & _ & -> & _)]. Qed.

(** The next character is announced, or the next poll announces it. *)
Lemma coming_announced b o c i w : dev b o (coming (c :: i)) w → announced (dev b o (taken c i)) w.
Proof.
  intros (Hb & Ho & Hf & HI). apply Forall_cons in Hf as [Hc Hi].
  destruct HI as [(Ha & Hx & Ht)|(Ha & Hx & Hci)]; [right|left].
  - split; [done|]. cbn zeta.
    assert (E : poll_world (set_sem cread (mkSem 0 true) w) = set_sem cread (mkSem 1 false)
      (set_ready true (set_console (mkConsole (putBusy (consola w)) c) (set_typed i (set_sem cread (mkSem 0 true) w))))).
    { cbn [poll_world polled]. unfold poll_console. cbn [typed set_sem sems consola]. rewrite Ht, Ha.
      by rewrite bool_decide_eq_true_2. }
    cbn [arrival polled]. rewrite E. by split_and!.
  - injection Hci as -> ->. split; [done|]. by split_and!.
Qed.

(** ** The calls *)

Definition free_sems : sem_name → lsem := λ n, mkSem (match n with cread | cwrite => 0 | _ => 1 end) false.

(** Between calls: the locks are free, nothing is being shown, [i] is still to
    come from the keyboard and [o] has been shown. *)
Definition at_rest (k : K) (i o : list Z) : Prop :=
  on (at_ free_sems (λ _, false) false (dev false o (coming i))) k.

(** After [Release] the locks are as before [Acquire]. *)
Lemma released l b o i k :
  on (at_ (upd free_sems (lock_sem l) (mkSem 0 false)) (upd (λ _, false) l true) false (dev b o (coming i))) k →
  ∃ k', Release l k = Ok (tt, k') ∧ on (at_ free_sems (λ _, false) false (dev b o (coming i))) k'.
Proof.
  intros Hk. destruct (Release_ok _ _ _ l 0 k (coming_framed _ _ _) Hk) as (k' & E & Hk');
    [by unfold upd; rewrite decide_True|by destruct l|by unfold upd; rewrite decide_True|].
  exists k'. split; [done|]. eapply on_mono; [|exact Hk']. intros w Hw. eapply at_ext; [| |exact Hw].
  - intros n. by destruct l, n.
  - intros m. by destruct l, m.
Qed.

Lemma acquired l k i o : at_rest k i o →
  ∃ k', Acquire l k = Ok (tt, k') ∧
    on (at_ (upd free_sems (lock_sem l) (mkSem 0 false)) (upd (λ _, false) l true) false (dev false o (coming i))) k'.
Proof. intros Hk. apply Acquire_ok; try done; try apply coming_framed; by destruct l. Qed.

Lemma SynchConsole_write_ok k i o c : at_rest k i o →
  ∃ k', SynchConsole_write c k = Ok (tt, k') ∧ at_rest k' i (o ++ [c]).
Proof.
  intros Hk. unfold SynchConsole_write.
  destruct (acquired wLock k i o Hk) as (k1 & E1 & st & t & w & -> & Hb & Hw).
  rewrite (bind_run _ _ _ _ _ E1). destruct Hw as [H1 H2 H3 (H4 & H5 & H6)].
  set (w' := set_console (mkConsole true (incoming (consola w))) (set_shown (shown w ++ [c]) w)).
  assert (E2 : PutChar c (mk IntOn [poll_at t] false st w) =
    Ok (tt, mk IntOn [poll_at t; done_at (totalTicks st + 100)] false st w')).
  { rewrite <- (Schedule_done st t w' Hb). unfold PutChar, on_world. unfold_M. cbn [mk world]. by rewrite H4. }
  rewrite (bind_run _ _ _ _ _ E2).
  destruct (P_completion (upd free_sems wLock_sem (mkSem 0 false)) (upd (λ _, false) wLock true)
    (dev true (o ++ [c]) (coming i)) (dev false (o ++ [c]) (coming i)) st t w')
    as (k3 & E3 & Hk3); [apply coming_framed..| |done| |done|].
  - intros w0 (_ & ? & ?). cbn [done_world polled]. unfold done_console. by destruct (waits (sem_of cwrite w0)).
  - split; try done. split_and!; [done| |done]. cbn. by rewrite H5.
  - rewrite (bind_run _ _ _ _ _ E3). by apply (released wLock).
Qed.

Lemma SynchConsole_read_ok k c i o : at_rest k (c :: i) o → ∃ k', SynchConsole_read k = Ok (c, k') ∧ at_rest k' i o.
Proof.
  intros Hk. unfold SynchConsole_read.
  destruct (acquired rLock k (c :: i) o Hk) as (k1 & E1 & Hk1). rewrite (bind_run _ _ _ _ _ E1).
  destruct (P_arrival _ _ _ (dev false o (taken c i)) k1 Hk1) as (k2 & E2 & st & t & w & -> & Hb & Hw);
    [apply taken_framed|apply coming_announced|].
  cbn [arrival polled] in E2. rewrite (bind_run _ _ _ _ _ E2).
  destruct Hw as [H1 H2 H3 (H4 & H5 & Hc & Hne & Hx & Ht & Hi)].
  set (w' := set_console (mkConsole (putBusy (consola w)) EOF) w).
  assert (E3 : GetChar (mk IntOn [poll_at t] false st w) = Ok (c, mk IntOn [poll_at t] false st w'))
    by (unfold GetChar, on_world; unfold_M; cbn [mk world]; by rewrite Hc).
  rewrite (bind_run _ _ _ _ _ E3).
  destruct (released rLock false o i (mk IntOn [poll_at t] false st w')) as (k4 & E4 & Hk4).
  { exists st, t, w'. split; [done|]. split; [done|]. split; try done. split_and!; try done. split; [done|]. by left. }
  rewrite (bind_run _ _ _ _ _ E4). by exists k4.
Qed.

Lemma new_SynchConsole_ok keys st : Forall (λ c, c ≠ EOF) keys →
  ∃ k, new_SynchConsole keys st = Ok k ∧ at_rest k keys [].
Proof.
  intros Hk. eexists. split; [reflexivity|].
  eexists st, (totalTicks st + 100), _. split; [reflexivity|]. split; [lia|].
  split; try done. split_and!; try done. split; [done|]. by left.
Qed.

#[export] Instance terminal : Terminal K := {|
  readConsole := SynchConsole_read;
  writeConsole := SynchConsole_write;
  term_holds := at_rest
|}.

#[export] Instance terminal_ok : TerminalOK K.
Proof.
  split.
  - intros k c i o Hk. by apply SynchConsole_read_ok.
  - intros k c i o Hk _. by apply SynchConsole_write_ok.
Qed.

End SynchConsole.

(** C17: a new [SynchConsole] is ready for the characters typed at its keyboard,
    and from there [readConsole] returns the next of them, waiting for the
    poll that finds it, and [writeConsole] returns when its character has been
    shown; both return whatever the phase of the polling and leave the
    characters that are still to be read, those shown, the locks and the
    semaphores as they should be.  (A character 255 is out: the device cannot
    tell it from [EOF].) *)
Theorem SynchConsole_serves_terminal :
  (∀ keys st, Forall (λ c, c ≠ SynchConsole.EOF) keys →
     ∃ k, SynchConsole.new_SynchConsole keys st = Ok k ∧ SynchConsole.at_rest k keys []) ∧
  (∀ k c i o, SynchConsole.at_rest k (c :: i) o →
     ∃ k', SynchConsole.SynchConsole_read k = Ok (c, k') ∧ SynchConsole.at_rest k' i o) ∧
  (∀ k c i o, SynchConsole.at_rest k i o →
     ∃ k', SynchConsole.SynchConsole_write c k = Ok (tt, k') ∧ SynchConsole.at_rest k' i (o ++ [c])).
Proof.
  split_and!.
  - intros keys st. apply SynchConsole.new_SynchConsole_ok.
  - intros k c i o. apply SynchConsole.SynchConsole_read_ok.
  - intros k c i o. apply SynchConsole.SynchConsole_write_ok.
Qed.
