(* ===== verification/Syscall.v ===== *)
(** * Syscall: the system calls on files, userprog/exception.cc and user.cc

    A user program traps into [ExceptionHandler] with a code and arguments in
    registers; strings and buffers are copied byte by byte through the page
    table of the program.  The file system is that of [FileSys]; the terminal
    is any that keeps the laws of the class [Terminal], as the one of [Console]
    does.  The four calls on processes are a parameter. *)

From S2P Require Import Prelude Bitmap Scheduler Machine Console Disk FileHdr OpenFile Directory FileSys.

(** ** User memory, userprog/user.cc *)

(** An exception raised while the kernel copies: the last branch of
    [ExceptionHandler], which prints a message and stops at [ASSERT(false)]. *)
Definition unexpected (which : ExceptionType) : M Machine unit := ASSERT false.

(** [machine->ReadMem(addr, 1, &value)]: [value] keeps its value when the call
    returns [false]. *)
Definition read_char (addr value : Z) : M Machine Z :=
  r ← ReadMem unexpected (sint addr) 1; mret (default value r).

(** [outStr[i] = c] for an array of [cap] characters. *)
Definition in_array (cap i : Z) : M Machine unit :=
  if bool_decide (0 ≤ i < cap) then mret tt else fail OutOfBounds.

(** The character [(char) value], as a byte. *)
Definition char_of (value : Z) : Z := value `mod` 256.

(** The loop of [readStrFromUsr]; the result is the string before its NUL.  A
    round stores in [outStr[i]], so that the array bounds the rounds. *)
Fixpoint readStr_loop (fuel : nat) (cap usrAddr i value : Z) : M Machine (list Z) :=
  match fuel with
  | O => fail OutOfFuel
  | S fuel =>
      if bool_decide (char_of value ≠ 0) then
        in_array cap i ≫= λ _,
        value' ← read_char (usrAddr + (i + 1)) value;
        rest ← readStr_loop fuel cap usrAddr (i + 1) value';
        mret (char_of value :: rest)
      else in_array cap i ≫= λ _, mret []
  end.

Definition readStrFromUsr (cap usrAddr : Z) : M Machine (list Z) :=
  value ← read_char usrAddr 1;
  readStr_loop (S (S (Z.to_nat cap))) cap usrAddr 0 value.

Fixpoint readBuff_loop (n : nat) (usrAddr i value : Z) : M Machine (list Z) :=
  match n with
  | O => mret []
  | S n =>
      value ← read_char (usrAddr + i) value;
      rest ← readBuff_loop n usrAddr (i + 1) value;
      mret (char_of value :: rest)
  end.

Definition readBuffFromUsr (usrAddr byteCount : Z) : M Machine (list Z) :=
  readBuff_loop (Z.to_nat byteCount) usrAddr 0 1.

(** [(int) buff[i]]: a [char] is signed. *)
Definition int_of_char (c : Z) : Z := if bool_decide (c < 128) then c else c - 256.

(** [machine->WriteMem(usrAddr + i, 1, (int) buff[i])], for the characters
    [buff] that are written. *)
Fixpoint writeBuff_loop (buff : list Z) (usrAddr i : Z) : M Machine unit :=
  match buff with
  | [] => mret tt
  | c :: buff =>
      WriteMem unexpected (sint (usrAddr + i)) 1 (int_of_char c) ≫= λ _,
      writeBuff_loop buff usrAddr (i + 1)
  end.

Definition writeBuffToUsr (buff : list Z) (usrAddr byteCount : Z) : M Machine unit :=
  if bool_decide (byteCount ≤ Z.of_nat (length buff))
  then writeBuff_loop (take (Z.to_nat byteCount) buff) usrAddr 0
  else fail OutOfBounds.

(** [str] up to its NUL. *)
Definition writeStrToUsr (str : list Z) (usrAddr : Z) : M Machine unit :=
  if bool_decide (0 ∈ str) then writeBuff_loop (until_nul str) usrAddr 0 else fail OutOfBounds.

(** The loops of [readStrFromUsrSpecial]: separators are skipped, then the
    string runs up to the next one; both return the next address.  The first
    loop reads on as long as it finds separators: after as many rounds as main
    memory has bytes it has left the program's memory, and a read fails. *)
Fixpoint skip_loop (fuel : nat) (divide nextAddr value : Z) : M Machine (Z * Z) :=
  match fuel with
  | O => fail OutOfFuel
  | S fuel =>
      if bool_decide (char_of value = divide) then
        value ← read_char nextAddr value; skip_loop fuel divide (sint (nextAddr + 1)) value
      else mret (nextAddr, value)
  end.

Fixpoint special_loop (fuel : nat) (cap divide nextAddr i value : Z) : M Machine (Z * list Z) :=
  match fuel with
  | O => fail OutOfFuel
  | S fuel =>
      if bool_decide (char_of value ≠ 0) && bool_decide (char_of value ≠ divide) then
        in_array cap i ≫= λ _,
        value' ← read_char nextAddr value;
        '(next, rest) ← special_loop fuel cap divide (sint (nextAddr + 1)) (i + 1) value';
        mret (next, char_of value :: rest)
      else in_array cap i ≫= λ _, mret (nextAddr, [])
  end.

Definition readStrFromUsrSpecial (cap usrAddr divide : Z) : M Machine (Z * list Z) :=
  value ← read_char usrAddr 1;
  '(nextAddr, value) ← skip_loop (S (S (Z.to_nat MemorySize))) divide (sint (usrAddr + 1)) value;
  special_loop (S (S (Z.to_nat cap))) cap divide nextAddr 0 value.

(** ** The kernel seen by the system calls *)

Definition MAX_OPEN_FILES : Z := 100.
Definition ConsoleInput : Z := 0.
Definition ConsoleOutput : Z := 1.
Definition SC_Create : Z := 4.
Definition SC_Open : Z := 5.
Definition SC_Read : Z := 6.
Definition SC_Write : Z := 7.
Definition SC_Close : Z := 8.

(** The machine, the disk, the terminal, and [currentThread->descriptores]. *)
Record sys (D T : Type) := mkSys {
  s_mach : Machine; s_disk : D; s_term : T; descriptores : list (option OpenFile)
}.
Arguments mkSys {D T} _ _ _ _.
Arguments s_mach {D T} _.
Arguments s_disk {D T} _.
Arguments s_term {D T} _.
Arguments descriptores {D T} _.

(** [increaseProgramCounter]. *)
Definition increaseProgramCounter : M Machine unit :=
  pc ← ReadRegister PCReg;
  WriteRegister PrevPCReg pc ≫= λ _,
  pc ← ReadRegister NextPCReg;
  WriteRegister PCReg pc ≫= λ _,
  WriteRegister NextPCReg (sint (pc + 4)).

Section Handler.
Context {D T : Type} `{!SectorDevice D} `{!Terminal T}.
Context (junk : Z → Z) (fs : FileSystem).
Implicit Types (s : sys D T).

Definition on_mach {A} (m : M Machine A) : M (sys D T) A := λ s,
  match m (s_mach s) with
  | Ok (a, k) => Ok (a, mkSys k (s_disk s) (s_term s) (descriptores s))
  | Err f => Err f
  end.
Definition on_disk {A} (m : M D A) : M (sys D T) A := λ s,
  match m (s_disk s) with
  | Ok (a, d) => Ok (a, mkSys (s_mach s) d (s_term s) (descriptores s))
  | Err f => Err f
  end.
Definition on_term {A} (m : M T A) : M (sys D T) A := λ s,
  match m (s_term s) with
  | Ok (a, t) => Ok (a, mkSys (s_mach s) (s_disk s) t (descriptores s))
  | Err f => Err f
  end.

(** [currentThread->descriptores[id]], read and written. *)
Definition desc_get (id : Z) : M (sys D T) (option OpenFile) := λ s,
  match (if id <? 0 then None else descriptores s !! Z.to_nat id) with
  | Some f => Ok (f, s)
  | None => Err OutOfBounds
  end.
Definition desc_set (id : Z) (f : option OpenFile) : M (sys D T) unit :=
  desc_get id ≫= λ _,
  modify (λ s, mkSys (s_mach s) (s_disk s) (s_term s) (<[Z.to_nat id := f]> (descriptores s))).

(** [while (currentThread->descriptores[i]) i++;]: the array bounds the
    rounds. *)
Fixpoint AssignId_loop (fuel : nat) (i : Z) : M (sys D T) Z :=
  match fuel with
  | O => fail OutOfFuel
  | S fuel =>
      f ← desc_get i;
      match f with Some _ => AssignId_loop fuel (i + 1) | None => mret i end
  end.

Definition AssignId (file : OpenFile) : M (sys D T) Z :=
  s ← get;
  i ← AssignId_loop (S (length (descriptores s))) 3;
  desc_set i (Some file) ≫= λ _, mret i.

Definition do_Create : M (sys D T) unit :=
  addr_name ← on_mach (ReadRegister 4);
  name ← on_mach (readStrFromUsr 64 addr_name);
  on_disk (Create junk fs name 1024) ≫= λ _,
  on_mach (WriteRegister 2 0).

(** The loop that reads the terminal up to the end of the line. *)
Fixpoint console_read (n : nat) : M (sys D T) (list Z) :=
  match n with
  | O => mret []
  | S n =>
      c ← on_term readConsole;
      if bool_decide (c = 10) then mret []
      else rest ← console_read n; mret (c :: rest)
  end.

(** The descriptor behind [id]: two assertions and an array access. *)
Definition open_file (id : Z) : M (sys D T) OpenFile :=
  ASSERT (bool_decide (3 ≤ id) && bool_decide (id ≤ MAX_OPEN_FILES)) ≫= λ _,
  f ← desc_get id;
  match f with Some f => mret f | None => ASSERT false ≫= λ _, fail AssertFailed end.

Definition do_Read : M (sys D T) unit :=
  addr_buff ← on_mach (ReadRegister 4);
  lon ← on_mach (ReadRegister 5);
  id ← on_mach (ReadRegister 6);
  bytes ← (if bool_decide (id = ConsoleInput) then
             line ← console_read (Z.to_nat lon);
             on_mach (writeBuffToUsr line addr_buff (Z.of_nat (length line))) ≫= λ _,
             mret (Z.of_nat (length line))
           else
             f ← open_file id;
             '(buffer, f') ← on_disk (Read junk lon f);
             desc_set id (Some f') ≫= λ _,
             mret (Z.of_nat (length buffer)));
  on_mach (WriteRegister 2 bytes).

Fixpoint console_write (buffer : list Z) : M (sys D T) unit :=
  match buffer with
  | [] => mret tt
  | c :: buffer => on_term (writeConsole c) ≫= λ _, console_write buffer
  end.

Definition do_Write : M (sys D T) unit :=
  addr_buff ← on_mach (ReadRegister 4);
  lon ← on_mach (ReadRegister 5);
  id ← on_mach (ReadRegister 6);
  buffer ← on_mach (readBuffFromUsr addr_buff lon);
  bytes ← (if bool_decide (id = ConsoleOutput) then
             console_write buffer ≫= λ _, mret (Z.of_nat (length buffer))
           else
             f ← open_file id;
             '(w, f') ← on_disk (Write junk buffer lon f);
             desc_set id (Some f') ≫= λ _,
             mret w);
  on_mach (WriteRegister 2 bytes).

(** [id] is not initialised when the file is not found: it holds [undef]. *)
Definition do_Open (undef : Z) : M (sys D T) unit :=
  addr_name ← on_mach (ReadRegister 4);
  name ← on_mach (readStrFromUsr 64 addr_name);
  file ← on_disk (Open junk fs name);
  id ← (match file with Some f => AssignId f | None => mret undef end);
  on_mach (WriteRegister 2 id).

(** [file->~OpenFile()] frees the header in memory. *)
Definition do_Close : M (sys D T) unit :=
  id ← on_mach (ReadRegister 4);
  file ← desc_get id;
  (match file with Some _ => desc_set id None | None => mret tt end) ≫= λ _,
  on_mach (WriteRegister 2 0).

(** [ExceptionHandler]; [process_call] stands for the cases [SC_Halt],
    [SC_Exit], [SC_Exec] and [SC_Join].  A code without a case does nothing. *)
Definition ExceptionHandler (process_call : Z → M (sys D T) unit) (undef : Z)
    (which : ExceptionType) : M (sys D T) unit :=
  type ← on_mach (ReadRegister 2);
  (match which with
   | SyscallException =>
       if bool_decide (type = SC_Create) then do_Create
       else if bool_decide (type = SC_Read) then do_Read
       else if bool_decide (type = SC_Write) then do_Write
       else if bool_decide (type = SC_Open) then do_Open undef
       else if bool_decide (type = SC_Close) then do_Close
       else if bool_decide (0 ≤ type < SC_Create) then process_call type
       else mret tt
   | _ => ASSERT false
   end) ≫= λ _,
  on_mach increaseProgramCounter.

End Handler.

(** ** The memory of a user program *)

(** The program whose page table is current has the frames [ps], all of them
    valid and writable, no two equal. *)
Record user_ok (ps : list Z) (k : Machine) : Prop := {
  uk_wf : machine_wf k;
  uk_table : ∃ pt, m_pageTable k = Some pt ∧
    Forall2 (λ p e, valid e = true ∧ readOnly e = false ∧ physicalPage e = p) ps pt;
  uk_nodup : NoDup ps;
  uk_range : Forall (λ p, 0 ≤ p < NumPhysPages) ps
}.

Definition space_size (ps : list Z) : Z := 128 * Z.of_nat (length ps).

(** Where the byte [v] of the program is, and the program's memory as it sees
    it. *)
Definition user_addr (ps : list Z) (v : Z) : nat :=
  (Z.to_nat (default 0%Z (ps !! Z.to_nat (v / 128))) * 128 + Z.to_nat (v `mod` 128))%nat.
Definition user_byte (ps mem : list Z) (v : Z) : Z := default 0 (mem !! user_addr ps v).
Definition user_memory (ps : list Z) (k : Machine) : list Z :=
  user_byte ps (mainMemory k) <$> seqZ 0 (space_size ps).

(** [k'] differs from [k] in the program's memory, now [um], and in use and
    dirty bits only. *)
Record user_step (ps : list Z) (k k' : Machine) (um : list Z) : Prop := {
  st_ok : user_ok ps k';
  st_regs : m_registers k' = m_registers k;
  st_mem : user_memory ps k' = um;
  st_other : ∀ a, Z.of_nat a / 128 ∉ ps → mainMemory k' !! a = mainMemory k !! a
}.

Lemma user_memory_length ps k : length (user_memory ps k) = Z.to_nat (space_size ps).
Proof. unfold user_memory. by rewrite length_fmap, length_seqZ. Qed.

Lemma user_memory_lookup ps k v : 0 ≤ v < space_size ps →
  user_memory ps k !! Z.to_nat v = Some (user_byte ps (mainMemory k) v).
Proof.
  intros Hv. unfold user_memory. rewrite list_lookup_fmap, lookup_seqZ_lt by lia. cbn. do 2 f_equal. lia.
Qed.

Lemma user_frame ps v : Forall (λ p, 0 ≤ p < NumPhysPages) ps → 0 ≤ v < space_size ps →
  ∃ p, ps !! Z.to_nat (v / 128) = Some p ∧ 0 ≤ p < NumPhysPages ∧
       user_addr ps v = Z.to_nat (p * 128 + v `mod` 128).
Proof.
  intros Hps Hv. unfold space_size in Hv.
  destruct (lookup_lt_is_Some_2 ps (Z.to_nat (v / 128))) as [p Hp]; [lia|].
  exists p. pose proof (Forall_lookup_1 _ _ _ _ Hps Hp) as Hr. cbn in Hr. split; [done|]. split; [done|].
  unfold user_addr. rewrite Hp. cbn. lia.
Qed.

Lemma user_addr_range ps v : Forall (λ p, 0 ≤ p < NumPhysPages) ps → 0 ≤ v < space_size ps →
  (user_addr ps v < Z.to_nat MemorySize)%nat ∧ Z.of_nat (user_addr ps v) / 128 ∈ ps.
Proof.
  intros Hps Hv. destruct (user_frame ps v Hps Hv) as (p & Hp & Hr & ->).
  split; [unfold MemorySize, NumPhysPages, PageSize, SectorSize in *; lia|].
  replace (Z.of_nat _ / 128) with p by lia. by eapply list_elem_of_lookup_2.
Qed.

Lemma user_addr_inj ps v w : Forall (λ p, 0 ≤ p < NumPhysPages) ps → NoDup ps →
  0 ≤ v < space_size ps → 0 ≤ w < space_size ps → user_addr ps v = user_addr ps w → v = w.
Proof.
  intros Hps Hnd Hv Hw E. destruct (user_frame ps v Hps Hv) as (p & Hp & Hr & Ep).
  destruct (user_frame ps w Hps Hw) as (q & Hq & Hr' & Eq).
  assert (p = q) as -> by lia. pose proof (NoDup_lookup ps _ _ q Hnd Hp Hq). lia.
Qed.

Lemma user_byte_ok ps k v : user_ok ps k → 0 ≤ v < space_size ps →
  mainMemory k !! user_addr ps v = Some (user_byte ps (mainMemory k) v) ∧
  is_byte (user_byte ps (mainMemory k) v).
Proof.
  intros Hk Hv. destruct (user_addr_range ps v (uk_range _ _ Hk) Hv) as [Hlt _].
  rewrite <- (wf_memory k (uk_wf _ _ Hk)) in Hlt. unfold user_byte.
  destruct (lookup_lt_is_Some_2 (mainMemory k) _ Hlt) as [x Hx]. rewrite Hx. split; [done|].
  exact (Forall_lookup_1 _ _ _ _ (wf_bytes k (uk_wf _ _ Hk)) Hx).
Qed.

Lemma user_memory_bytes ps k : user_ok ps k → Forall is_byte (user_memory ps k).
Proof.
  intros Hk. apply Forall_fmap, Forall_forall. intros v Hv%elem_of_seqZ.
  apply (user_byte_ok ps k v Hk). lia.
Qed.

Lemma space_size_bound ps k : user_ok ps k → space_size ps ≤ MemorySize.
Proof.
  intros [_ _ Hnd Hr]. unfold space_size, MemorySize, PageSize, SectorSize.
  enough (length ps ≤ Z.to_nat NumPhysPages)%nat by (unfold NumPhysPages in *; lia).
  rewrite <- (length_seqZ 0 NumPhysPages). apply submseteq_length, NoDup_submseteq; [done|].
  intros x Hx. rewrite Forall_forall in Hr. specialize (Hr x Hx). apply elem_of_seqZ. cbn in Hr. lia.
Qed.

(** The page table translates every byte of the program. *)
Lemma user_translation ps k v writing : user_ok ps k → 0 ≤ v < space_size ps →
  ∃ pt e, m_pageTable k = Some pt ∧ pt !! Z.to_nat (v / 128) = Some e ∧
    valid e = true ∧ readOnly e = false ∧ ps !! Z.to_nat (v / 128) = Some (physicalPage e) ∧
    translation pt v 1 writing = inr (Z.to_nat (v / 128), e, Z.of_nat (user_addr ps v)).
Proof.
  intros Hk Hv. destruct (uk_table _ _ Hk) as (pt & Hpt & Hall).
  destruct (user_frame ps v (uk_range _ _ Hk) Hv) as (p & Hp & Hr & Ea).
  destruct (Forall2_lookup_l _ _ _ _ _ Hall Hp) as (e & He & Hval & Hro & <-).
  exists pt, e. split_and!; try done. unfold translation, misaligned.
  rewrite (bool_decide_eq_false_2 (1 = 4)), (bool_decide_eq_false_2 (1 = 2)) by done. cbn [andb orb].
  pose proof (space_size_bound ps k Hk) as Hle.
  unfold MemorySize, NumPhysPages, PageSize, SectorSize in *.
  rewrite (uint_id v) by (unfold is_uint; lia). change PageSize with 128.
  rewrite He, Hval, Hro. cbn [negb andb]. rewrite uint_id by (unfold is_uint; lia).
  rewrite bool_decide_eq_false_2 by (unfold NumPhysPages; lia). rewrite Ea. do 2 f_equal. lia.
Qed.

(** Setting use and dirty bits keeps the table. *)
Lemma user_ok_access ps k k' pt i e writing : user_ok ps k → machine_wf k' → m_pageTable k = Some pt →
  pt !! i = Some e → valid e = true → readOnly e = false → ps !! i = Some (physicalPage e) →
  m_pageTable k' = Some (<[i := entry_access writing e]> pt) → user_ok ps k'.
Proof.
  intros [_ (pt0 & Hpt0 & Hall) Hnd Hr] Hwf' Hpt Hi Hval Hro Hp Hpt'. split; try done.
  eexists. split; [exact Hpt'|]. rewrite Hpt in Hpt0. injection Hpt0 as <-.
  rewrite <- (list_insert_id ps i _ Hp). by apply Forall2_insert.
Qed.

Lemma user_read h ps k v : user_ok ps k → 0 ≤ v < space_size ps →
  ∃ k', ReadMem h v 1 k = Ok (Some (extend 1 (user_byte ps (mainMemory k) v)), k') ∧
        user_step ps k k' (user_memory ps k).
Proof.
  intros Hk Hv. destruct (user_translation ps k v false Hk Hv) as (pt & e & Hpt & Hi & Hval & Hro & Hp & Ht).
  destruct (ReadMem_ok h k pt v 1 _ _ _ (uk_wf _ _ Hk) Hpt (or_introl eq_refl) Ht) as (x & Hx & E).
  change (Z.to_nat 1) with 1%nat in Hx. cbn [load_bytes] in Hx. rewrite Nat2Z.id in Hx.
  destruct (user_byte_ok ps k v Hk Hv) as [Hb _]. rewrite Hb in Hx. injection Hx as <-.
  eexists. split; [rewrite E; do 3 f_equal; f_equal; lia|]. split; try done.
  eapply (user_ok_access ps k); [done| |done..]. destruct (uk_wf _ _ Hk) as [H1 H2 H3 H4 H5].
  split; try done; cbn; [by rewrite H4, Hpt|]. intros pt' [= <-]. rewrite length_insert. auto.
Qed.

Lemma user_write h ps k v x : user_ok ps k → 0 ≤ v < space_size ps →
  ∃ k', WriteMem h v 1 x k = Ok (true, k') ∧
        user_step ps k k' (<[Z.to_nat v := x `mod` 256]> (user_memory ps k)).
Proof.
  intros Hk Hv. destruct (user_translation ps k v true Hk Hv) as (pt & e & Hpt & Hi & Hval & Hro & Hp & Ht).
  pose proof (Translate_eq k pt v 1 true (uk_wf _ _ Hk) Hpt (or_introl eq_refl)) as Et. rewrite Ht in Et.
  destruct (user_addr_range ps v (uk_range _ _ Hk) Hv) as [Hlt Hin].
  set (k1 := set_pt (<[Z.to_nat (v / 128) := entry_access true e]> pt) k) in *.
  set (mem' := <[user_addr ps v := x `mod` 256]> (mainMemory k)).
  assert (E : WriteMem h v 1 x k = Ok (true, set_memory mem' k1)).
  { unfold WriteMem. rewrite (bind_run _ _ _ _ _ Et). cbv beta iota zeta.
    rewrite bool_decide_eq_true_2 by done. unfold mbind, M_bind.
    rewrite store_memory_run by (first [lia | cbn [mainMemory set_pt k1]; rewrite (wf_memory _ (uk_wf _ _ Hk)); lia]).
    unfold_M. cbn [store_bytes]. rewrite Nat2Z.id. pose proof (land_pow2 x 8 ltac:(lia)) as Hl.
    change (2 ^ 8 - 1) with 255 in Hl. change (2 ^ 8) with 256 in Hl. rewrite Hl.
    rewrite Z.mod_mod by lia. done. }
  exists (set_memory mem' k1). split; [exact E|].
  split; [|done| |].
  - eapply (user_ok_access ps k); [done| |done..].
    replace mem' with (store_bytes 1 (user_addr ps v) (x `mod` 256) (mainMemory k))
      by (cbn [store_bytes]; by rewrite Z.mod_mod by lia).
    eapply machine_wf_write; [apply Hk|done|done].
  - apply list_eq_same_length with (n := Z.to_nat (space_size ps));
      [by rewrite length_insert, user_memory_length|by rewrite user_memory_length|].
    intros i y z Hi'. rewrite <- (Nat2Z.id i).
    rewrite user_memory_lookup by lia. cbn [mainMemory set_memory]. unfold user_byte at 1, mem'.
    destruct (decide (Z.of_nat i = v)) as [<-|Hne].
    + rewrite !list_lookup_insert_eq by (rewrite ?user_memory_length, ?(wf_memory _ (uk_wf _ _ Hk)); lia).
      cbn. congruence.
    + rewrite list_lookup_insert_ne by (intros Ea; apply Hne; symmetry;
        by apply (user_addr_inj ps _ _ (uk_range _ _ Hk) (uk_nodup _ _ Hk)); [lia..|]).
      rewrite list_lookup_insert_ne by lia. rewrite user_memory_lookup by lia.
      unfold user_byte. congruence.
  - intros a Ha. cbn. unfold mem'. apply list_lookup_insert_ne. by intros <-.
Qed.

(** *** The copying loops *)

Lemma user_step_refl ps k : user_ok ps k → user_step ps k k (user_memory ps k).
Proof. by split. Qed.

Lemma user_step_trans ps k k1 k2 um1 um2 :
  user_step ps k k1 um1 → user_step ps k1 k2 um2 → user_step ps k k2 um2.
Proof. intros [? R1 ? O1] [? R2 ? O2]. split; [done|congruence|done|]. intros a Ha. by rewrite O2, O1. Qed.

Lemma char_extend b : is_byte b → char_of (extend 1 b) = b.
Proof. unfold is_byte, char_of, extend. intros Hb. rewrite bool_decide_eq_true_2 by done. lia. Qed.

(** A character read: the byte of the program's memory, and the memory stays
    as it is. *)
Lemma read_char_ok ps k a value c : user_ok ps k → 0 ≤ a → user_memory ps k !! Z.to_nat a = Some c →
  ∃ r k', read_char a value k = Ok (r, k') ∧ char_of r = c ∧ is_byte c ∧
          user_step ps k k' (user_memory ps k).
Proof.
  intros Hk Ha Hc. assert (Hv : 0 ≤ a < space_size ps).
  { apply lookup_lt_Some in Hc. rewrite user_memory_length in Hc. lia. }
  rewrite user_memory_lookup in Hc by done. injection Hc as <-.
  destruct (user_byte_ok ps k a Hk Hv) as [_ Hb].
  destruct (user_read unexpected ps k a Hk Hv) as (k' & E & Hs).
  pose proof (space_size_bound ps k Hk). unfold MemorySize, NumPhysPages, PageSize, SectorSize in *.
  eexists _, k'. unfold read_char. rewrite (sint_id a) by (unfold is_int, int_min, int_max; lia).
  rewrite (bind_run _ _ _ _ _ E). split_and!; [reflexivity|by apply char_extend|done|done].
Qed.

Lemma readBuff_loop_ok ps n k a i value : user_ok ps k → 0 ≤ a + i → 0 ≤ i →
  a + i + Z.of_nat n ≤ space_size ps →
  ∃ k', readBuff_loop n a i value k = Ok (take n (drop (Z.to_nat (a + i)) (user_memory ps k)), k') ∧
        user_step ps k k' (user_memory ps k).
Proof.
  revert k i value. induction n as [|n IH]; intros k i value Hk Ha Hi Hn; cbn [readBuff_loop].
  { exists k. rewrite take_0. split; [done|by apply user_step_refl]. }
  destruct (lookup_lt_is_Some_2 (user_memory ps k) (Z.to_nat (a + i))) as [c Hc];
    [rewrite user_memory_length; lia|].
  destruct (read_char_ok ps k (a + i) value c Hk Ha Hc) as (r & k1 & E1 & Hr & _ & S1).
  rewrite (bind_run _ _ _ _ _ E1).
  destruct (IH k1 (i + 1) r (st_ok _ _ _ _ S1)) as (k2 & E2 & S2); [lia..|].
  rewrite (bind_run _ _ _ _ _ E2). exists k2. rewrite (st_mem _ _ _ _ S1) in E2, S2 |- *. split.
  - rewrite Hr, (drop_S _ c _ Hc). cbn. unfold_M. do 3 f_equal.
    by replace (Z.to_nat (a + (i + 1))) with (S (Z.to_nat (a + i))) by lia.
  - by eapply user_step_trans.
Qed.

Lemma readBuffFromUsr_ok ps k a n : user_ok ps k → 0 ≤ a → 0 ≤ n → a + n ≤ space_size ps →
  ∃ k', readBuffFromUsr a n k = Ok (take (Z.to_nat n) (drop (Z.to_nat a) (user_memory ps k)), k') ∧
        user_step ps k k' (user_memory ps k).
Proof.
  intros Hk Ha Hn Hf. unfold readBuffFromUsr.
  destruct (readBuff_loop_ok ps (Z.to_nat n) k a 0 1 Hk) as (k' & E & S); [lia..|].
  exists k'. by rewrite E, Z.add_0_r.
Qed.

Lemma writeBuff_loop_ok ps buff k a i : user_ok ps k → Forall is_byte buff → 0 ≤ a → 0 ≤ i →
  a + i + Z.of_nat (length buff) ≤ space_size ps →
  ∃ k', writeBuff_loop buff a i k = Ok (tt, k') ∧
        user_step ps k k' (list_inserts (Z.to_nat (a + i)) buff (user_memory ps k)).
Proof.
  intros Hk Hb. revert k i Hk. induction Hb as [|c buff Hc _ IH]; intros k i Hk Ha Hi Hn; cbn [writeBuff_loop].
  { exists k. split; [done|by apply user_step_refl]. }
  cbn [length] in Hn. pose proof (space_size_bound ps k Hk).
  unfold MemorySize, NumPhysPages, PageSize, SectorSize in *.
  rewrite (sint_id (a + i)) by (unfold is_int, int_min, int_max; lia).
  destruct (user_write unexpected ps k (a + i) (int_of_char c) Hk) as (k1 & E1 & S1); [lia|].
  rewrite (bind_run _ _ _ _ _ E1).
  destruct (IH k1 (i + 1) (st_ok _ _ _ _ S1)) as (k2 & E2 & S2); [lia..|].
  exists k2. split; [exact E2|]. rewrite (st_mem _ _ _ _ S1) in S2.
  eapply user_step_trans; [exact S1|].
  replace (int_of_char c `mod` 256) with c in S2
    by (unfold int_of_char, is_byte in *; case_bool_decide; lia).
  replace (Z.to_nat (a + (i + 1))) with (S (Z.to_nat (a + i))) in S2 by lia.
  cbn [list_inserts]. rewrite list_insert_inserts_lt by lia. done.
Qed.

Lemma writeBuffToUsr_ok ps k a buff : user_ok ps k → Forall is_byte buff → 0 ≤ a →
  a + Z.of_nat (length buff) ≤ space_size ps →
  ∃ k', writeBuffToUsr buff a (Z.of_nat (length buff)) k = Ok (tt, k') ∧
        user_step ps k k' (list_inserts (Z.to_nat a) buff (user_memory ps k)).
Proof.
  intros Hk Hb Ha Hn. unfold writeBuffToUsr. rewrite bool_decide_eq_true_2 by lia.
  rewrite Nat2Z.id, take_ge by lia.
  destruct (writeBuff_loop_ok ps buff k a 0 Hk Hb) as (k' & E & S); [lia..|].
  exists k'. by rewrite Z.add_0_r in S.
Qed.

(** The C string [name] lies at [a] in [um]. *)
Definition string_at (um : list Z) (a : Z) (name : list Z) : Prop :=
  0 ≤ a ∧ is_name name ∧ take (S (length name)) (drop (Z.to_nat a) um) = name ++ [0].

Lemma string_at_head um a name : string_at um a name → um !! Z.to_nat a = Some (default 0 (head name)).
Proof.
  intros (Ha & _ & Ht). rewrite <- (Nat.add_0_r (Z.to_nat a)), <- lookup_drop.
  rewrite <- (lookup_take_lt _ (S (length name))) by lia. rewrite Ht. by destruct name.
Qed.

Lemma string_at_tail um a c name : string_at um a (c :: name) → is_byte c ∧ c ≠ 0 ∧ string_at um (a + 1) name.
Proof.
  intros (Ha & Hn & Ht). apply Forall_cons in Hn as [[Hc Hc0] Hn]. split_and!; try apply Hc; [done|].
  split; [lia|]. split; [done|]. pose proof (string_at_head um a (c :: name)) as Hh.
  cbn [length head default] in *. rewrite (drop_S um c (Z.to_nat a)) in Ht.
  - replace (Z.to_nat (a + 1)) with (S (Z.to_nat a)) by lia. cbn [take app] in Ht. by injection Ht.
  - apply Hh. split; [done|]. split; [|done]. by constructor.
Qed.

Lemma in_array_ok cap i k : 0 ≤ i < cap → in_array cap i k = Ok (tt, k).
Proof. intros H. unfold in_array. by rewrite bool_decide_eq_true_2. Qed.

Lemma readStr_loop_ok ps rest k fuel cap a i value : user_ok ps k →
  string_at (user_memory ps k) (a + i) rest → char_of value = default 0 (head rest) →
  0 ≤ i → i + Z.of_nat (length rest) < cap → (length rest < fuel)%nat →
  ∃ k', readStr_loop fuel cap a i value k = Ok (rest, k') ∧ user_step ps k k' (user_memory ps k).
Proof.
  revert k fuel i value. induction rest as [|c rest IH];
    intros k fuel i value Hk Hs Hv Hi Hcap Hfuel; (destruct fuel as [|fuel]; [lia|]);
    cbn [readStr_loop length head default] in *; rewrite Hv.
  { exists k. rewrite bool_decide_eq_false_2 by naive_solver.
    rewrite (bind_run _ _ _ _ _ (in_array_ok cap i k ltac:(lia))).
    split; [done|by apply user_step_refl]. }
  destruct (string_at_tail _ _ _ _ Hs) as (Hc & Hc0 & Hs').
  rewrite bool_decide_eq_true_2 by done.
  rewrite (bind_run _ _ _ _ _ (in_array_ok cap i k ltac:(lia))).
  replace (a + i + 1) with (a + (i + 1)) in Hs' by lia.
  destruct (read_char_ok ps k (a + (i + 1)) value _ Hk (proj1 Hs') (string_at_head _ _ _ Hs'))
    as (r & k1 & E1 & Hr & _ & S1).
  rewrite (bind_run _ _ _ _ _ E1). rewrite <- (st_mem _ _ _ _ S1) in Hs'.
  destruct (IH k1 fuel (i + 1) r (st_ok _ _ _ _ S1) Hs' Hr) as (k2 & E2 & S2); [lia..|].
  rewrite (bind_run _ _ _ _ _ E2). exists k2. split; [done|].
  rewrite (st_mem _ _ _ _ S1) in S2. by eapply user_step_trans.
Qed.

Lemma readStrFromUsr_ok ps k cap a name : user_ok ps k → string_at (user_memory ps k) a name →
  Z.of_nat (length name) < cap →
  ∃ k', readStrFromUsr cap a k = Ok (name, k') ∧ user_step ps k k' (user_memory ps k).
Proof.
  intros Hk Hs Hcap. unfold readStrFromUsr.
  destruct (read_char_ok ps k a 1 _ Hk (proj1 Hs) (string_at_head _ _ _ Hs)) as (r & k1 & E1 & Hr & _ & S1).
  rewrite (bind_run _ _ _ _ _ E1). rewrite <- (st_mem _ _ _ _ S1) in Hs.
  destruct (readStr_loop_ok ps name k1 (S (S (Z.to_nat cap))) cap a 0 r (st_ok _ _ _ _ S1))
    as (k2 & E2 & S2); [by rewrite Z.add_0_r|done|lia|lia|lia|].
  exists k2. split; [done|]. rewrite (st_mem _ _ _ _ S1) in S2. by eapply user_step_trans.
Qed.

(** A longer string overruns the array. *)
Lemma readStr_loop_overrun ps rest k fuel cap a i value : user_ok ps k →
  string_at (user_memory ps k) (a + i) rest → char_of value = default 0 (head rest) →
  0 ≤ i ≤ cap → cap ≤ i + Z.of_nat (length rest) → (Z.to_nat (cap - i) < fuel)%nat →
  readStr_loop fuel cap a i value k = Err OutOfBounds.
Proof.
  revert k fuel i value. induction rest as [|c rest IH];
    intros k fuel i value Hk Hs Hv Hi Hcap Hfuel; (destruct fuel as [|fuel]; [lia|]);
    cbn [readStr_loop length head default] in *; rewrite Hv.
  { rewrite bool_decide_eq_false_2 by naive_solver. unfold in_array.
    rewrite bool_decide_eq_false_2 by lia. done. }
  destruct (string_at_tail _ _ _ _ Hs) as (Hc & Hc0 & Hs').
  rewrite bool_decide_eq_true_2 by done.
  destruct (decide (i = cap)) as [->|Hne].
  { unfold in_array. rewrite bool_decide_eq_false_2 by lia. done. }
  rewrite (bind_run _ _ _ _ _ (in_array_ok cap i k ltac:(lia))).
  replace (a + i + 1) with (a + (i + 1)) in Hs' by lia.
  destruct (read_char_ok ps k (a + (i + 1)) value _ Hk (proj1 Hs') (string_at_head _ _ _ Hs'))
    as (r & k1 & E1 & Hr & _ & S1).
  rewrite (bind_run _ _ _ _ _ E1). rewrite <- (st_mem _ _ _ _ S1) in Hs'.
  unfold mbind, M_bind. by rewrite (IH k1 fuel (i + 1) r (st_ok _ _ _ _ S1) Hs' Hr) by lia.
Qed.

Lemma readStrFromUsr_overrun ps k cap a name : user_ok ps k → string_at (user_memory ps k) a name →
  0 ≤ cap ≤ Z.of_nat (length name) → readStrFromUsr cap a k = Err OutOfBounds.
Proof.
  intros Hk Hs Hcap. unfold readStrFromUsr.
  destruct (read_char_ok ps k a 1 _ Hk (proj1 Hs) (string_at_head _ _ _ Hs)) as (r & k1 & E1 & Hr & _ & S1).
  rewrite (bind_run _ _ _ _ _ E1). rewrite <- (st_mem _ _ _ _ S1) in Hs.
  apply (readStr_loop_overrun ps name); [apply S1|by rewrite Z.add_0_r|done|lia|lia|lia].
Qed.

(** ** What the system calls promise *)

(** What a user program can observe: the files by name, its descriptors (the
    name of the open file and the position in it), its memory, and what it can
    read from and has shown on the terminal. *)
Record uview := mkView {
  v_files : gmap (list Z) (list Z); v_fds : list (option (list Z * Z)); v_mem : list Z;
  v_in : list Z; v_out : list Z
}.

(** The characters up to the end of the line, at most [n], and the input that
    is left behind them. *)
Fixpoint take_line (n : nat) (input : list Z) : option (list Z * list Z) :=
  match n with
  | O => Some ([], input)
  | S n =>
      match input with
      | [] => None
      | c :: input =>
          if bool_decide (c = 10) then Some ([], input)
          else '(line, rest) ← take_line n input; Some (c :: line, rest)
      end
  end.

(** The least free descriptor from 3 on. *)
Definition first_free (fds : list (option (list Z * Z))) (id : Z) : Prop :=
  3 ≤ id ∧ fds !! Z.to_nat id = Some None ∧
  ∀ j, 3 ≤ j < id → ∃ x, fds !! Z.to_nat j = Some (Some x).

(** [sc_spec type a1 a2 a3 u r u']: the call [type] with the arguments [a1],
    [a2], [a3] may return [r] and turn [u] into [u'].  It is the effect of exception.cc,
    which for [Read] is not that of userprog/syscall.h: a [Read] from a file moves
    the position and counts the bytes but leaves the program's memory as it was,
    and a [Read] of the terminal takes the newline out of the input and neither
    stores it in the buffer nor counts it, so that an empty line gives 0. *)
Inductive sc_spec : Z → Z → Z → Z → uview → Z → uview → Prop :=
  | sc_create a1 a2 a3 u name ok files' :
      string_at (v_mem u) a1 name → fs_spec (v_files u) (CCreate name 1024) (RBool ok) files' →
      sc_spec SC_Create a1 a2 a3 u 0 (mkView files' (v_fds u) (v_mem u) (v_in u) (v_out u))
  | sc_open a1 a2 a3 u name bytes id :
      string_at (v_mem u) a1 name → v_files u !! file_key name = Some bytes → first_free (v_fds u) id →
      sc_spec SC_Open a1 a2 a3 u id
        (mkView (v_files u) (<[Z.to_nat id := Some (file_key name, 0)]> (v_fds u)) (v_mem u) (v_in u) (v_out u))
  | sc_open_none a1 a2 a3 u name r :
      string_at (v_mem u) a1 name → v_files u !! file_key name = None → sc_spec SC_Open a1 a2 a3 u r u
  | sc_read a1 a2 a3 u key pos bytes :
      3 ≤ a3 → v_fds u !! Z.to_nat a3 = Some (Some (key, pos)) → v_files u !! key = Some bytes →
      let got := Z.max 0 (Z.min a2 (Z.of_nat (length bytes) - pos)) in
      sc_spec SC_Read a1 a2 a3 u got
        (mkView (v_files u) (<[Z.to_nat a3 := Some (key, pos + got)]> (v_fds u)) (v_mem u) (v_in u) (v_out u))
  | sc_read_console a1 a2 u line rest :
      take_line (Z.to_nat a2) (v_in u) = Some (line, rest) →
      sc_spec SC_Read a1 a2 ConsoleInput u (Z.of_nat (length line))
        (mkView (v_files u) (v_fds u) (list_inserts (Z.to_nat a1) line (v_mem u)) rest (v_out u))
  | sc_write a1 a2 a3 u key pos bytes :
      3 ≤ a3 → v_fds u !! Z.to_nat a3 = Some (Some (key, pos)) → v_files u !! key = Some bytes →
      let w := Z.max 0 (Z.min a2 (Z.of_nat (length bytes) - pos)) in
      let from := take (Z.to_nat w) (drop (Z.to_nat a1) (v_mem u)) in
      sc_spec SC_Write a1 a2 a3 u w
        (mkView (<[key := list_inserts (Z.to_nat pos) from bytes]> (v_files u))
           (<[Z.to_nat a3 := Some (key, pos + w)]> (v_fds u)) (v_mem u) (v_in u) (v_out u))
  | sc_write_console a1 a2 u :
      sc_spec SC_Write a1 a2 ConsoleOutput u a2
        (mkView (v_files u) (v_fds u) (v_mem u) (v_in u)
           (v_out u ++ take (Z.to_nat a2) (drop (Z.to_nat a1) (v_mem u))))
  | sc_close a1 a2 a3 u :
      sc_spec SC_Close a1 a2 a3 u 0
        (mkView (v_files u) (<[Z.to_nat a1 := None]> (v_fds u)) (v_mem u) (v_in u) (v_out u)).

(** The arguments the handler can serve in [u]: strings that fit in its array,
    buffers inside the program's memory, descriptors that are open, a free
    descriptor for [Open], and enough input for a [Read] of the terminal. *)
Inductive sc_ready : Z → Z → Z → Z → uview → Prop :=
  | ready_create a1 a2 a3 u name :
      string_at (v_mem u) a1 name → Z.of_nat (length name) < 64 → sc_ready SC_Create a1 a2 a3 u
  | ready_open a1 a2 a3 u name id :
      string_at (v_mem u) a1 name → Z.of_nat (length name) < 64 → first_free (v_fds u) id →
      sc_ready SC_Open a1 a2 a3 u
  | ready_read a1 a2 a3 u key pos :
      3 ≤ a3 → v_fds u !! Z.to_nat a3 = Some (Some (key, pos)) → is_int (pos + a2) →
      sc_ready SC_Read a1 a2 a3 u
  | ready_read_console a1 a2 u line rest :
      take_line (Z.to_nat a2) (v_in u) = Some (line, rest) → Forall is_byte line →
      0 ≤ a1 → a1 + Z.of_nat (length line) ≤ Z.of_nat (length (v_mem u)) →
      sc_ready SC_Read a1 a2 ConsoleInput u
  | ready_write a1 a2 a3 u key pos :
      3 ≤ a3 → v_fds u !! Z.to_nat a3 = Some (Some (key, pos)) → is_int (pos + a2) →
      0 ≤ a1 → 0 ≤ a2 → a1 + a2 ≤ Z.of_nat (length (v_mem u)) → sc_ready SC_Write a1 a2 a3 u
  | ready_write_console a1 a2 u :
      0 ≤ a1 → 0 ≤ a2 → a1 + a2 ≤ Z.of_nat (length (v_mem u)) → sc_ready SC_Write a1 a2 ConsoleOutput u
  | ready_close a1 a2 a3 u : 0 ≤ a1 < MAX_OPEN_FILES → sc_ready SC_Close a1 a2 a3 u.

(** The registers after the call: [r] in register 2 and the program counters
    moved on. *)
Definition next_pc (regs : list Z) : list Z :=
  let npc := default 0 (regs !! Z.to_nat NextPCReg) in
  <[Z.to_nat NextPCReg := sint (npc + 4)]>
    (<[Z.to_nat PCReg := npc]>
      (<[Z.to_nat PrevPCReg := default 0 (regs !! Z.to_nat PCReg)]> regs)).

Section Refinement.
Context {D T : Type} `{!SectorDevice D} `{!SectorDeviceOK D} `{!Terminal T} `{!TerminalOK T}.
Context (junk : Z → Z) (junk_byte : ∀ i, is_byte (junk i)) (fs : FileSystem).
Implicit Types (s : sys D T) (u : uview).

(** A descriptor of the kernel and the one the program knows. *)
Definition fd_rel (ss : list (list Z)) (t : list DirectoryEntry) (f : option OpenFile)
    (x : option (list Z * Z)) : Prop :=
  match f, x with
  | None, None => True
  | Some f, Some (key, pos) =>
      seekPosition f = pos ∧ 0 ≤ pos ∧
      ∃ r, dir_map (mkDirectory t) !! key = Some r ∧ hdr f = header_at ss r
  | _, _ => False
  end.

Record sys_rel (ps : list Z) s u : Prop := {
  sr_user : user_ok ps (s_mach s);
  sr_mem : user_memory ps (s_mach s) = v_mem u;
  sr_term : term_holds (s_term s) (v_in u) (v_out u);
  sr_disk : dev_wf (s_disk s);
  sr_fs : ∃ b t, fs_ok fs (sectors (s_disk s)) b t ∧ fs_files (sectors (s_disk s)) t = v_files u ∧
    Forall2 (fd_rel (sectors (s_disk s)) t) (descriptores s) (v_fds u);
  sr_count : length (descriptores s) = Z.to_nat MAX_OPEN_FILES
}.

Definition with_mach k s := mkSys k (s_disk s) (s_term s) (descriptores s).
Definition with_fds l s := mkSys (s_mach s) (s_disk s) (s_term s) l.

Lemma on_mach_run {A} (m : M Machine A) s a k : m (s_mach s) = Ok (a, k) →
  on_mach m s = Ok (a, with_mach k s).
Proof. intros E. unfold on_mach. by rewrite E. Qed.

(** *** Registers *)

Lemma user_ok_regs ps k r : user_ok ps k → length r = length (m_registers k) →
  user_ok ps (set_regs r k) ∧ user_memory ps (set_regs r k) = user_memory ps k.
Proof.
  intros [[H1 H2 H3 H4 H5] Ht Hn Hr] Hl. split; [|done]. split; try done.
  split; try done. cbn. congruence.
Qed.

Lemma ReadRegister_run k num v : m_registers k !! Z.to_nat num = Some v → 0 ≤ num < NumTotalRegs →
  ReadRegister num k = Ok (v, k).
Proof.
  intros Hv Hn. unfold ReadRegister, reg_get. unfold_M. rewrite bool_decide_eq_true_2 by lia.
  rewrite bool_decide_eq_true_2 by lia. by rewrite Hv.
Qed.

Lemma WriteRegister_run k num v : length (m_registers k) = Z.to_nat NumTotalRegs → 0 ≤ num < NumTotalRegs →
  WriteRegister num v k = Ok (tt, set_regs (<[Z.to_nat num := v]> (m_registers k)) k).
Proof.
  intros Hl Hn. unfold WriteRegister, reg_set. unfold_M. rewrite bool_decide_eq_true_2 by lia.
  by rewrite Hl, bool_decide_eq_true_2 by lia.
Qed.

Lemma increaseProgramCounter_run k : length (m_registers k) = Z.to_nat NumTotalRegs →
  increaseProgramCounter k = Ok (tt, set_regs (next_pc (m_registers k)) k).
Proof.
  intros Hl. assert (H40 : NumTotalRegs = 40) by done.
  destruct (lookup_lt_is_Some_2 (m_registers k) (Z.to_nat PCReg)) as [pc Hpc];
    [rewrite Hl; unfold PCReg, NumTotalRegs; lia|].
  destruct (lookup_lt_is_Some_2 (m_registers k) (Z.to_nat NextPCReg)) as [npc Hnpc];
    [rewrite Hl; unfold NextPCReg, NumTotalRegs; lia|].
  unfold increaseProgramCounter, next_pc. rewrite Hpc, Hnpc. cbn [default].
  rewrite (bind_run _ _ _ _ _ (ReadRegister_run k PCReg pc Hpc ltac:(done))).
  rewrite (bind_run _ _ _ _ _ (WriteRegister_run k PrevPCReg pc Hl ltac:(done))).
  set (k1 := set_regs _ k).
  assert (Hl1 : length (m_registers k1) = Z.to_nat NumTotalRegs) by (cbn; by rewrite length_insert).
  assert (Hn1 : m_registers k1 !! Z.to_nat NextPCReg = Some npc)
    by (cbn [k1 set_regs m_registers]; by rewrite list_lookup_insert_ne by done).
  rewrite (bind_run _ _ _ _ _ (ReadRegister_run k1 NextPCReg npc Hn1 ltac:(done))).
  rewrite (bind_run _ _ _ _ _ (WriteRegister_run k1 PCReg npc Hl1 ltac:(done))).
  rewrite WriteRegister_run by (done || by cbn; rewrite !length_insert). done.
Qed.

Lemma rel_regs ps s u : sys_rel ps s u → length (m_registers (s_mach s)) = Z.to_nat NumTotalRegs.
Proof. intros H. apply (wf_regs _ (uk_wf _ _ (sr_user _ _ _ H))). Qed.

(** An access to user memory. *)
Lemma rel_step ps s u k um : sys_rel ps s u → user_step ps (s_mach s) k um →
  sys_rel ps (with_mach k s) (mkView (v_files u) (v_fds u) um (v_in u) (v_out u)).
Proof. intros [Hu Hm Ht Hd Hf Hc] [H1 H2 H3 H4]. by split. Qed.

Lemma rel_same ps s u k : sys_rel ps s u → user_step ps (s_mach s) k (user_memory ps (s_mach s)) →
  sys_rel ps (with_mach k s) u.
Proof. intros H Hs. pose proof (rel_step ps s u k _ H Hs) as H'. rewrite (sr_mem _ _ _ H) in H'. by destruct u. Qed.

Lemma rel_set_regs ps s u r : sys_rel ps s u → length r = length (m_registers (s_mach s)) →
  sys_rel ps (with_mach (set_regs r (s_mach s)) s) u.
Proof.
  intros [Hu Hm Ht Hd Hf Hc] Hl. destruct (user_ok_regs ps (s_mach s) r Hu Hl) as [Hu' Hm'].
  split; done.
Qed.

(** The end of every call. *)
Lemma finish ps s u r : sys_rel ps s u →
  ∃ s', on_mach (WriteRegister 2 r) s = Ok (tt, s') ∧ sys_rel ps s' u ∧
        m_registers (s_mach s') = <[2%nat := r]> (m_registers (s_mach s)).
Proof.
  intros H. eexists. split; [apply on_mach_run, WriteRegister_run; [by eapply rel_regs|done]|].
  split; [|done]. apply rel_set_regs; [done|]. by rewrite length_insert.
Qed.

Definition reg s (i : nat) (v : Z) : Prop := m_registers (s_mach s) !! i = Some v.

Lemma get_reg s (i : nat) v : reg s i v → (i < 40)%nat → on_mach (ReadRegister (Z.of_nat i)) s = Ok (v, s).
Proof.
  intros Hv Hi. rewrite (on_mach_run _ s v (s_mach s)); [by destruct s|]. apply ReadRegister_run.
  - by rewrite Nat2Z.id.
  - unfold NumTotalRegs, NumGPRegs in *. lia.
Qed.

(** A name copied from the program. *)
Lemma get_name ps s u a name : sys_rel ps s u → string_at (v_mem u) a name → Z.of_nat (length name) < 64 →
  ∃ k, on_mach (readStrFromUsr 64 a) s = Ok (name, with_mach k s) ∧ sys_rel ps (with_mach k s) u ∧
       m_registers k = m_registers (s_mach s).
Proof.
  intros H Hs Hl. rewrite <- (sr_mem _ _ _ H) in Hs.
  destruct (readStrFromUsr_ok ps (s_mach s) 64 a name (sr_user _ _ _ H) Hs Hl) as (k & E & St).
  exists k. split; [by apply on_mach_run|]. split; [by apply rel_same|apply St].
Qed.

(** *** Create and Open *)

Lemma Create_rel ps s u name : sys_rel ps s u → is_name name →
  ∃ ok s' files', on_disk (Create junk fs name 1024) s = Ok (ok, s') ∧
    fs_spec (v_files u) (CCreate name 1024) (RBool ok) files' ∧
    sys_rel ps s' (mkView files' (v_fds u) (v_mem u) (v_in u) (v_out u)) ∧ s_mach s' = s_mach s.
Proof.
  intros [Hu Hm Ht Hd (b & t & Hfs & Hfiles & Hfd) Hc] Hn.
  assert (Hs : 0 ≤ 1024 ≤ MaxFileSize) by done.
  destruct (decide (dir_map (mkDirectory t) !! file_key name = None ∧ fits b t 1024)) as [[H1 H2]|Hno].
  - destruct (Create_fits junk junk_byte fs (s_disk s) b t name 1024 Hd Hfs Hn Hs H1 H2)
      as (d' & b' & t' & bytes & E & Hd' & Hfs' & Hl & Hfiles' & _ & Hkeep).
    eexists true, _, (<[file_key name := bytes]> (v_files u)). rewrite <- Hfiles in *.
    split; [unfold on_disk; by rewrite E|]. split_and!; [|split; cbn; try done|done].
    + apply spec_create; [by apply lookup_files_none|exact Hl].
    + exists b', t'. split_and!; [done|done|].
      eapply Forall2_impl; [exact Hfd|]. intros [f|] [[key pos]|]; try done.
      intros (Hp & Hp0 & r & Hr & Hh). destruct (Hkeep key r Hr) as [Hr' Hh'].
      split; [exact Hp|]. split; [exact Hp0|]. exists r. split; [exact Hr'|congruence].
  - destruct (Create_refused junk junk_byte fs (s_disk s) b t name 1024 Hd Hfs Hn Hs Hno) as (d' & E & Hd' & Hs').
    eexists false, _, (v_files u). split; [unfold on_disk; by rewrite E|].
    split_and!; [apply spec_refuse|split; cbn; try done|done]. exists b, t. by rewrite Hs'.
Qed.

Lemma do_Create_ok ps s u a1 a2 a3 : sys_rel ps s u → reg s 4 a1 → sc_ready SC_Create a1 a2 a3 u →
  ∃ s' u' r, do_Create junk fs s = Ok (tt, s') ∧ sys_rel ps s' u' ∧ sc_spec SC_Create a1 a2 a3 u r u' ∧
    m_registers (s_mach s') = <[2%nat := r]> (m_registers (s_mach s)).
Proof.
  intros H R4 Hr. inversion Hr as [? ? ? ? name Hs Hl| | | | | |]; subst. unfold do_Create.
  rewrite (bind_run _ _ _ _ _ (get_reg s 4 a1 R4 ltac:(lia))).
  destruct (get_name ps s u a1 name H Hs Hl) as (k & E1 & H1 & Hk).
  rewrite (bind_run _ _ _ _ _ E1).
  destruct (Create_rel ps _ u name H1 (proj1 (proj2 Hs))) as (ok & s2 & files' & E2 & Hsp & H2 & Hm2).
  rewrite (bind_run _ _ _ _ _ E2). destruct (finish ps s2 _ 0 H2) as (s3 & E3 & H3 & R3).
  eexists s3, _, 0. split_and!; [exact E3|exact H3|by econstructor|]. by rewrite R3, Hm2, <- Hk.
Qed.

(** The search for a free descriptor. *)
Lemma AssignId_loop_ok ss t s fds fuel i id : Forall2 (fd_rel ss t) (descriptores s) fds →
  3 ≤ i ≤ id → first_free fds id → (Z.to_nat (id - i) < fuel)%nat →
  AssignId_loop fuel i s = Ok (id, s).
Proof.
  intros Hfd. revert i. induction fuel as [|fuel IH]; intros i Hi Hff Hfuel; [lia|]. cbn [AssignId_loop].
  pose proof Hff as (H3 & Hid & Hlow).
  assert (Hget : ∀ j x, fds !! Z.to_nat j = Some x → 0 ≤ j →
    ∃ f, desc_get j s = Ok (f, s) ∧ fd_rel ss t f x).
  { intros j x Hx Hj. destruct (Forall2_lookup_r _ _ _ _ _ Hfd Hx) as (f & Hf & Hrel).
    exists f. split; [|done]. unfold desc_get. destruct (Z.ltb_spec j 0); [lia|]. by rewrite Hf. }
  destruct (decide (i = id)) as [->|Hne].
  - destruct (Hget id None Hid) as (f & E & Hrel); [lia|]. rewrite (bind_run _ _ _ _ _ E).
    destruct f; [done|]. done.
  - destruct (Hlow i) as [x Hx]; [lia|]. destruct (Hget i _ Hx) as (f & E & Hrel); [lia|].
    rewrite (bind_run _ _ _ _ _ E). destruct f; [|done]. apply IH; [lia|done|lia].
Qed.

(** A descriptor replaced by a related one. *)
Lemma rel_set_fd ps s u id f x : sys_rel ps s u → 0 ≤ id → (Z.to_nat id < length (descriptores s))%nat →
  (∃ b t, fs_ok fs (sectors (s_disk s)) b t ∧ fs_files (sectors (s_disk s)) t = v_files u ∧
     Forall2 (fd_rel (sectors (s_disk s)) t) (descriptores s) (v_fds u) ∧ fd_rel (sectors (s_disk s)) t f x) →
  ∃ s', desc_set id f s = Ok (tt, s') ∧ s_mach s' = s_mach s ∧
    sys_rel ps s' (mkView (v_files u) (<[Z.to_nat id := x]> (v_fds u)) (v_mem u) (v_in u) (v_out u)).
Proof.
  intros [Hu Hm Ht Hd _ Hc] Hid Hlt (b & t & Hfs & Hfiles & Hfd & Hrel).
  destruct (lookup_lt_is_Some_2 _ _ Hlt) as [f0 Hf0].
  exists (with_fds (<[Z.to_nat id := f]> (descriptores s)) s). split_and!; [|done|].
  - unfold desc_set, desc_get. unfold_M. destruct (Z.ltb_spec id 0); [lia|]. by rewrite Hf0.
  - split; cbn; try done; [|by rewrite length_insert].
    exists b, t. split_and!; try done. by apply Forall2_insert.
Qed.

Lemma AssignId_rel ps s u file id key : sys_rel ps s u → first_free (v_fds u) id →
  (∃ b t, fs_ok fs (sectors (s_disk s)) b t ∧ fs_files (sectors (s_disk s)) t = v_files u ∧
     Forall2 (fd_rel (sectors (s_disk s)) t) (descriptores s) (v_fds u) ∧
     fd_rel (sectors (s_disk s)) t (Some file) (Some (key, 0))) →
  ∃ s', AssignId file s = Ok (id, s') ∧ s_mach s' = s_mach s ∧
    sys_rel ps s' (mkView (v_files u) (<[Z.to_nat id := Some (key, 0)]> (v_fds u)) (v_mem u) (v_in u) (v_out u)).
Proof.
  intros H Hff Hrel. pose proof Hff as (H3 & Hid & _). pose proof (sr_fs _ _ _ H) as (b & t & _ & _ & Hfd).
  pose proof (Forall2_length _ _ _ Hfd) as Hl. pose proof (lookup_lt_Some _ _ _ Hid) as Hlt.
  unfold AssignId. rewrite (bind_run get _ s s s eq_refl).
  rewrite (bind_run _ _ _ _ _ (AssignId_loop_ok _ t s (v_fds u) (S (length (descriptores s))) 3 id
    Hfd ltac:(lia) Hff ltac:(lia))).
  destruct (rel_set_fd ps s u id (Some file) (Some (key, 0)) H) as (s' & E & Hm & H'); [lia|lia|done|].
  rewrite (bind_run _ _ _ _ _ E). by exists s'.
Qed.

Definition with_disk (d : D) s := mkSys (s_mach s) d (s_term s) (descriptores s).

Lemma on_disk_run {A} (m : M D A) s a d : m (s_disk s) = Ok (a, d) → on_disk m s = Ok (a, with_disk d s).
Proof. intros E. unfold on_disk. by rewrite E. Qed.

Lemma rel_same_disk ps s u d : sys_rel ps s u → dev_wf d → sectors d = sectors (s_disk s) →
  sys_rel ps (with_disk d s) u.
Proof. intros [Hu Hm Ht Hd Hf Hc] Hd' Hs. split; cbn; try done. by rewrite Hs. Qed.

Lemma do_Open_ok ps undef s u a1 a2 a3 : sys_rel ps s u → reg s 4 a1 → sc_ready SC_Open a1 a2 a3 u →
  ∃ s' u' r, do_Open junk fs undef s = Ok (tt, s') ∧ sys_rel ps s' u' ∧ sc_spec SC_Open a1 a2 a3 u r u' ∧
    m_registers (s_mach s') = <[2%nat := r]> (m_registers (s_mach s)).
Proof.
  intros H R4 Hr. inversion Hr as [|? ? ? ? name id Hs Hl Hff| | | | |]; subst. unfold do_Open.
  rewrite (bind_run _ _ _ _ _ (get_reg s 4 a1 R4 ltac:(lia))).
  destruct (get_name ps s u a1 name H Hs Hl) as (k & E1 & H1 & Hk).
  rewrite (bind_run _ _ _ _ _ E1).
  pose proof (sr_fs _ _ _ H1) as (b & t & Hfs & Hfiles & Hfd).
  destruct (Open_ok junk junk_byte fs _ b t name (sr_disk _ _ _ H1) Hfs (proj1 (proj2 Hs))) as (d & Hd & Hsd & E2).
  rewrite (bind_run _ _ _ _ _ (on_disk_run _ _ _ _ E2)).
  pose proof (rel_same_disk ps _ u d H1 Hd Hsd) as H2.
  pose proof (fs_files_lookup (sectors (s_disk (with_mach k s))) t (file_key name)) as Hlk. rewrite Hfiles in Hlk.
  destruct (dir_map (mkDirectory t) !! file_key name) as [r|] eqn:Ek; cbn [fmap option_fmap option_map] in Hlk |- *.
  - destruct (AssignId_rel ps _ u (mkOpen (header_at (sectors (s_disk (with_mach k s))) r) 0) id (file_key name) H2 Hff)
      as (s3 & E3 & Hm3 & H3).
    { exists b, t. cbn [s_disk with_disk descriptores]. rewrite Hsd. split; [exact Hfs|].
      split; [exact Hfiles|]. split; [exact Hfd|]. split; [reflexivity|]. split; [reflexivity|]. by exists r. }
    rewrite (bind_run _ _ _ _ _ E3). destruct (finish ps s3 _ id H3) as (s4 & E4 & H4 & R4').
    eexists s4, _, id. split_and!; [exact E4|exact H4|by econstructor|]. rewrite R4', Hm3. cbn. by rewrite Hk.
  - rewrite (bind_run (mret undef) _ _ undef _ eq_refl).
    destruct (finish ps _ u undef H2) as (s4 & E4 & H4 & R4').
    eexists s4, u, undef. split_and!; [exact E4|exact H4|by econstructor|]. rewrite R4'. cbn. by rewrite Hk.
Qed.

(** *** Read *)

Definition with_term (x : T) s := mkSys (s_mach s) (s_disk s) x (descriptores s).

Lemma on_term_run {A} (m : M T A) s a x : m (s_term s) = Ok (a, x) → on_term m s = Ok (a, with_term x s).
Proof. intros E. unfold on_term. by rewrite E. Qed.

Lemma console_read_ok ps n s u line rest : sys_rel ps s u → take_line n (v_in u) = Some (line, rest) →
  ∃ s', console_read n s = Ok (line, s') ∧ s_mach s' = s_mach s ∧
        sys_rel ps s' (mkView (v_files u) (v_fds u) (v_mem u) rest (v_out u)).
Proof.
  revert s u line rest. induction n as [|n IH]; intros s u line rest H Hl; cbn [take_line console_read] in *.
  { injection Hl as <- <-. exists s. by destruct u. }
  destruct (v_in u) as [|c input] eqn:Ein; [done|].
  destruct H as [Hu Hm Ht Hd Hf Hc]. rewrite Ein in Ht.
  destruct (readConsole_ok _ _ _ _ Ht) as (x & E & Ht').
  rewrite (bind_run _ _ _ _ _ (on_term_run _ _ _ _ E)).
  set (u1 := mkView (v_files u) (v_fds u) (v_mem u) input (v_out u)).
  assert (H1 : sys_rel ps (with_term x s) u1) by (by split).
  destruct (bool_decide (c = 10)); [injection Hl as <- <-; by exists (with_term x s)|].
  destruct (take_line n input) as [[line' rest']|] eqn:El; [|done]. injection Hl as <- <-.
  destruct (IH (with_term x s) u1 line' rest' H1 El) as (s' & E' & Hm' & H').
  rewrite (bind_run _ _ _ _ _ E'). exists s'. done.
Qed.

(** The descriptor behind an open [id]. *)
Lemma open_file_ok ps s u id key pos : sys_rel ps s u → 3 ≤ id → v_fds u !! Z.to_nat id = Some (Some (key, pos)) →
  ∃ f b t r bytes, open_file id s = Ok (f, s) ∧ fs_ok fs (sectors (s_disk s)) b t ∧
    fs_files (sectors (s_disk s)) t = v_files u ∧
    Forall2 (fd_rel (sectors (s_disk s)) t) (descriptores s) (v_fds u) ∧
    seekPosition f = pos ∧ 0 ≤ pos ∧ dir_map (mkDirectory t) !! key = Some r ∧
    hdr f = header_at (sectors (s_disk s)) r ∧ hdr_ok (hdr f) ∧
    v_files u !! key = Some bytes ∧ file_bytes (sectors (s_disk s)) (hdr f) = bytes ∧
    Z.of_nat (length bytes) = numBytes (hdr f) ∧ (Z.to_nat id < length (descriptores s))%nat.
Proof.
  intros [Hu Hm Ht Hd (b & t & Hfs & Hfiles & Hfd) Hc] Hid Hx.
  destruct (Forall2_lookup_r _ _ _ _ _ Hfd Hx) as (f & Hf & Hrel). destruct f as [f|]; [|done].
  destruct Hrel as (Hpos & Hpos0 & r & Hr & Hh). destruct (lookup_file _ _ _ _ _ _ Hfs Hr) as [_ Hok].
  pose proof (lookup_lt_Some _ _ _ Hf) as Hlt.
  destruct (file_bytes_spec (sectors (s_disk s)) (hdr f) (dev_shape _ Hd)) as (Hlen & _ & _ & Hnb & _);
    [by rewrite Hh|].
  eexists f, b, t, r, _. split_and!; [|done|done|done|done|done|done|done|by rewrite Hh| |reflexivity|lia|done].
  - unfold open_file. rewrite Hc in Hlt. unfold MAX_OPEN_FILES in *.
    rewrite !bool_decide_eq_true_2 by lia. unfold desc_get. unfold_M. cbn [andb].
    destruct (Z.ltb_spec id 0); [lia|]. by rewrite Hf.
  - rewrite <- Hfiles, fs_files_lookup, Hr, Hh. done.
Qed.

Lemma do_Read_file_ok ps s u a1 a2 a3 key pos : sys_rel ps s u → reg s 4 a1 → reg s 5 a2 → reg s 6 a3 →
  3 ≤ a3 → v_fds u !! Z.to_nat a3 = Some (Some (key, pos)) → is_int (pos + a2) →
  ∃ s' u' r, do_Read junk s = Ok (tt, s') ∧ sys_rel ps s' u' ∧ sc_spec SC_Read a1 a2 a3 u r u' ∧
    m_registers (s_mach s') = <[2%nat := r]> (m_registers (s_mach s)).
Proof.
  intros H R4 R5 R6 Ha3 Hx Hi. unfold do_Read.
  rewrite (bind_run _ _ _ _ _ (get_reg s 4 a1 R4 ltac:(lia))).
  rewrite (bind_run _ _ _ _ _ (get_reg s 5 a2 R5 ltac:(lia))).
  rewrite (bind_run _ _ _ _ _ (get_reg s 6 a3 R6 ltac:(lia))).
  rewrite bool_decide_eq_false_2 by (unfold ConsoleInput; lia).
  destruct (open_file_ok ps s u a3 key pos H Ha3 Hx)
    as (f & b & t & r & bytes & Eo & Hfs & Hfiles & Hfd & Hpos & Hpos0 & Hr & Hh & Hok & Hb & Hfb & Hnb & Hlt).
  destruct (ReadAt_ok junk (hdr f) a2 pos (s_disk s) Hok (sr_disk _ _ _ H) Hpos0 Hi) as (d & Er & Hd & Hsd).
  rewrite Hfb in Er. set (got := take (Z.to_nat a2) (drop (Z.to_nat pos) bytes)) in *.
  assert (Hgot : Z.of_nat (length got) = Z.max 0 (Z.min a2 (Z.of_nat (length bytes) - pos))).
  { unfold got. rewrite length_take, length_drop. lia. }
  assert (Er' : Read junk a2 f (s_disk s) = Ok ((got, mkOpen (hdr f) (pos + Z.of_nat (length got))), d)).
  { unfold Read. rewrite Hpos, (bind_run _ _ _ _ _ Er). done. }
  pose proof (rel_same_disk ps s u d H Hd Hsd) as H1.
  destruct (rel_set_fd ps (with_disk d s) u a3 (Some (mkOpen (hdr f) (pos + Z.of_nat (length got))))
    (Some (key, pos + Z.of_nat (length got))) H1) as (s2 & E2 & Hm2 & H2); [lia|done| |].
  { exists b, t. cbn [s_disk with_disk descriptores]. rewrite Hsd. split; [exact Hfs|].
    split; [exact Hfiles|]. split; [exact Hfd|]. split; [reflexivity|]. split; [cbn; lia|]. by exists r. }
  rewrite (bind_run _ _ s (Z.of_nat (length got)) s2).
  2: { rewrite (bind_run _ _ _ _ _ Eo), (bind_run _ _ _ _ _ (on_disk_run _ _ _ _ Er')).
       rewrite (bind_run _ _ _ _ _ E2). done. }
  destruct (finish ps s2 _ (Z.of_nat (length got)) H2) as (s3 & E3 & H3 & R3).
  eexists s3, _, (Z.of_nat (length got)). split_and!; [exact E3|exact H3| |by rewrite R3, Hm2].
  rewrite Hgot. by eapply sc_read.
Qed.

Lemma do_Read_console_ok ps s u a1 a2 line rest : sys_rel ps s u → reg s 4 a1 → reg s 5 a2 →
  reg s 6 ConsoleInput → take_line (Z.to_nat a2) (v_in u) = Some (line, rest) → Forall is_byte line →
  0 ≤ a1 → a1 + Z.of_nat (length line) ≤ Z.of_nat (length (v_mem u)) →
  ∃ s' u' r, do_Read junk s = Ok (tt, s') ∧ sys_rel ps s' u' ∧ sc_spec SC_Read a1 a2 ConsoleInput u r u' ∧
    m_registers (s_mach s') = <[2%nat := r]> (m_registers (s_mach s)).
Proof.
  intros H R4 R5 R6 Hl Hb Ha1 Hfit. unfold do_Read.
  rewrite (bind_run _ _ _ _ _ (get_reg s 4 a1 R4 ltac:(lia))).
  rewrite (bind_run _ _ _ _ _ (get_reg s 5 a2 R5 ltac:(lia))).
  rewrite (bind_run _ _ _ _ _ (get_reg s 6 ConsoleInput R6 ltac:(lia))).
  rewrite bool_decide_eq_true_2 by done.
  destruct (console_read_ok ps _ s u line rest H Hl) as (s1 & E1 & Hm1 & H1).
  rewrite <- (sr_mem _ _ _ H), user_memory_length in Hfit.
  destruct (writeBuffToUsr_ok ps (s_mach s1) a1 line (sr_user _ _ _ H1) Hb Ha1) as (k & E2 & St); [unfold space_size in *; lia|].
  pose proof (rel_step ps s1 _ k _ H1 St) as H2. rewrite (sr_mem _ _ _ H1) in H2.
  cbn [v_files v_fds v_mem v_in v_out] in H2.
  rewrite (bind_run _ _ s (Z.of_nat (length line)) (with_mach k s1)).
  2: { rewrite (bind_run _ _ _ _ _ E1), (bind_run _ _ _ _ _ (on_mach_run _ _ _ _ E2)). done. }
  destruct (finish ps _ _ (Z.of_nat (length line)) H2) as (s3 & E3 & H3 & R3).
  eexists s3, _, (Z.of_nat (length line)). split_and!; [exact E3|exact H3|by apply sc_read_console|].
  rewrite R3. cbn. by rewrite (st_regs _ _ _ _ St), Hm1.
Qed.

(** *** Write and Close *)

Lemma console_write_ok ps buffer s u : sys_rel ps s u → Forall is_byte buffer →
  ∃ s', console_write buffer s = Ok (tt, s') ∧ s_mach s' = s_mach s ∧
        sys_rel ps s' (mkView (v_files u) (v_fds u) (v_mem u) (v_in u) (v_out u ++ buffer)).
Proof.
  intros H Hb. revert s u H. induction Hb as [|c buffer Hc _ IH]; intros s u H; cbn [console_write].
  { exists s. rewrite app_nil_r. by destruct u. }
  destruct H as [Hu Hm Ht Hd Hf Hcn]. destruct (writeConsole_ok _ c _ _ Ht Hc) as (x & E & Ht').
  rewrite (bind_run _ _ _ _ _ (on_term_run _ _ _ _ E)).
  set (u1 := mkView (v_files u) (v_fds u) (v_mem u) (v_in u) (v_out u ++ [c])).
  assert (H1 : sys_rel ps (with_term x s) u1) by (by split).
  destruct (IH (with_term x s) u1 H1) as (s' & E' & Hm' & H'). exists s'. split; [done|]. split; [done|].
  cbn [u1 v_files v_fds v_mem v_in v_out] in H'. by rewrite <- app_assoc in H'.
Qed.

(** A write through a descriptor keeps the other descriptors. *)
Lemma rel_write ps s u d key pos r t b f n bytes : sys_rel ps s u →
  fs_ok fs (sectors (s_disk s)) b t → fs_files (sectors (s_disk s)) t = v_files u →
  Forall2 (fd_rel (sectors (s_disk s)) t) (descriptores s) (v_fds u) →
  dir_map (mkDirectory t) !! key = Some r → hdr f = header_at (sectors (s_disk s)) r →
  dev_wf d → only_file (hdr f) (sectors (s_disk s)) (sectors d) →
  file_bytes (sectors d) (hdr f) = list_inserts (Z.to_nat pos) n bytes →
  ∃ t', sys_rel ps (with_disk d s)
    (mkView (<[key := list_inserts (Z.to_nat pos) n bytes]> (v_files u)) (v_fds u) (v_mem u) (v_in u) (v_out u)) ∧
    fs_ok fs (sectors d) b t' ∧
    fs_files (sectors d) t' = <[key := list_inserts (Z.to_nat pos) n bytes]> (v_files u) ∧
    Forall2 (fd_rel (sectors d) t') (descriptores s) (v_fds u) ∧
    dir_map (mkDirectory t') !! key = Some r ∧ hdr f = header_at (sectors d) r.
Proof.
  intros [Hu Hm Ht _ _ Hc] Hfs Hfiles Hfd Hr Hh Hd Ho Hb. rewrite Hh in Ho, Hb. exists t.
  destruct (fs_ok_write fs (sectors (s_disk s)) (sectors d) b t key r Hfs Hr Ho) as (Hfs' & Hhr & Hfiles').
  rewrite Hb, Hfiles in Hfiles'.
  assert (Hfd' : Forall2 (fd_rel (sectors d) t) (descriptores s) (v_fds u)).
  { eapply Forall2_impl; [exact Hfd|]. intros [g|] [[k p]|] Hg0; [|exact Hg0..].
    destruct Hg0 as (Hp & Hp0 & q & Hq & Hg). split; [exact Hp|]. split; [exact Hp0|]. exists q.
    split; [exact Hq|]. rewrite Hg. symmetry. destruct (lookup_file _ _ _ _ _ _ Hfs Hq) as [Hqr _].
    apply (changes_header _ _ _ _ Ho); [lia|].
    apply (headers_apart fs _ b t (key, r) (k, q) Hfs); apply lookup_pair; (apply Hfs || done). }
  split_and!; [|exact Hfs'|exact Hfiles'|exact Hfd'|exact Hr|congruence].
  split; [exact Hu|exact Hm|exact Ht|exact Hd| |exact Hc].
  exists b, t. split; [exact Hfs'|]. split; [exact Hfiles'|exact Hfd'].
Qed.

Lemma do_Write_file_ok ps s u a1 a2 a3 key pos : sys_rel ps s u → reg s 4 a1 → reg s 5 a2 → reg s 6 a3 →
  3 ≤ a3 → v_fds u !! Z.to_nat a3 = Some (Some (key, pos)) → is_int (pos + a2) →
  0 ≤ a1 → 0 ≤ a2 → a1 + a2 ≤ Z.of_nat (length (v_mem u)) →
  ∃ s' u' r, do_Write junk s = Ok (tt, s') ∧ sys_rel ps s' u' ∧ sc_spec SC_Write a1 a2 a3 u r u' ∧
    m_registers (s_mach s') = <[2%nat := r]> (m_registers (s_mach s)).
Proof.
  intros H R4 R5 R6 Ha3 Hx Hi Ha1 Ha2 Hfit. unfold do_Write.
  rewrite (bind_run _ _ _ _ _ (get_reg s 4 a1 R4 ltac:(lia))).
  rewrite (bind_run _ _ _ _ _ (get_reg s 5 a2 R5 ltac:(lia))).
  rewrite (bind_run _ _ _ _ _ (get_reg s 6 a3 R6 ltac:(lia))).
  rewrite <- (sr_mem _ _ _ H), user_memory_length in Hfit.
  destruct (readBuffFromUsr_ok ps (s_mach s) a1 a2 (sr_user _ _ _ H) Ha1 Ha2) as (k & Eb & St);
    [unfold space_size in *; lia|].
  pose proof (user_memory_bytes ps (s_mach s) (sr_user _ _ _ H)) as Hby. rewrite (sr_mem _ _ _ H) in Eb, Hby.
  pose proof (user_memory_length ps (s_mach s)) as Hml. rewrite (sr_mem _ _ _ H) in Hml.
  set (buf := take (Z.to_nat a2) (drop (Z.to_nat a1) (v_mem u))) in *.
  assert (Hbl : length buf = Z.to_nat a2)
    by (unfold buf; rewrite length_take, length_drop, Hml; unfold space_size in *; lia).
  assert (Hbb : Forall is_byte buf) by (by apply Forall_take, Forall_drop).
  rewrite (bind_run _ _ _ _ _ (on_mach_run _ _ _ _ Eb)).
  pose proof (rel_same ps s u k H St) as H1. set (s1 := with_mach k s) in *.
  rewrite bool_decide_eq_false_2 by (unfold ConsoleOutput; lia).
  destruct (open_file_ok ps s1 u a3 key pos H1 Ha3 Hx)
    as (f & b & t & r & bytes & Eo & Hfs & Hfiles & Hfd & Hpos & Hpos0 & Hr & Hh & Hok & Hb & Hfb & Hnb & Hlt).
  destruct (WriteAt_ok junk (hdr f) buf a2 pos (s_disk s1)) as (d & Ew & Hd & Hf2 & Ho);
    [exact Hok|apply H1|exact junk_byte|exact Hbb|exact Hpos0|exact Hi|lia|].
  rewrite <- Hnb in Ew, Hf2. rewrite Hfb in Hf2.
  set (w := Z.max 0 (Z.min a2 (Z.of_nat (length bytes) - pos))) in *.
  replace (Z.to_nat (Z.min a2 (Z.of_nat (length bytes) - pos))) with (Z.to_nat w) in Hf2 by lia.
  assert (Ew' : Write junk buf a2 f (s_disk s1) = Ok ((w, mkOpen (hdr f) (pos + w)), d)).
  { unfold Write. rewrite Hpos, (bind_run _ _ _ _ _ Ew). done. }
  destruct (rel_write ps s1 u d key pos r t b f (take (Z.to_nat w) buf) bytes)
    as (t' & H2 & Hfs' & Hfiles' & Hfd' & Hr' & Hh'); try done.
  destruct (rel_set_fd ps (with_disk d s1) _ a3 (Some (mkOpen (hdr f) (pos + w))) (Some (key, pos + w)) H2)
    as (s2 & E2 & Hm2 & H3); [lia|done| |].
  { exists b, t'. cbn [s_disk with_disk descriptores v_files v_fds]. split; [exact Hfs'|].
    split; [exact Hfiles'|]. split; [exact Hfd'|]. split; [reflexivity|]. split; [cbn; lia|]. by exists r. }
  cbn [v_files v_fds v_mem v_in v_out] in H3.
  rewrite (bind_run _ _ s1 w s2).
  2: { rewrite (bind_run _ _ _ _ _ Eo), (bind_run _ _ _ _ _ (on_disk_run _ _ _ _ Ew')).
       rewrite (bind_run _ _ _ _ _ E2). done. }
  destruct (finish ps s2 _ w H3) as (s3 & E3 & H4 & R3).
  eexists s3, _, w. split_and!; [exact E3|exact H4| |].
  - replace (take (Z.to_nat w) buf) with (take (Z.to_nat w) (drop (Z.to_nat a1) (v_mem u)))
      by (unfold buf; rewrite take_take; f_equal; lia).
    by apply sc_write.
  - rewrite R3, Hm2. cbn. by rewrite (st_regs _ _ _ _ St).
Qed.

Lemma do_Write_console_ok ps s u a1 a2 : sys_rel ps s u → reg s 4 a1 → reg s 5 a2 →
  reg s 6 ConsoleOutput → 0 ≤ a1 → 0 ≤ a2 → a1 + a2 ≤ Z.of_nat (length (v_mem u)) →
  ∃ s' u' r, do_Write junk s = Ok (tt, s') ∧ sys_rel ps s' u' ∧ sc_spec SC_Write a1 a2 ConsoleOutput u r u' ∧
    m_registers (s_mach s') = <[2%nat := r]> (m_registers (s_mach s)).
Proof.
  intros H R4 R5 R6 Ha1 Ha2 Hfit. unfold do_Write.
  rewrite (bind_run _ _ _ _ _ (get_reg s 4 a1 R4 ltac:(lia))).
  rewrite (bind_run _ _ _ _ _ (get_reg s 5 a2 R5 ltac:(lia))).
  rewrite (bind_run _ _ _ _ _ (get_reg s 6 ConsoleOutput R6 ltac:(lia))).
  rewrite <- (sr_mem _ _ _ H), user_memory_length in Hfit.
  destruct (readBuffFromUsr_ok ps (s_mach s) a1 a2 (sr_user _ _ _ H) Ha1 Ha2) as (k & Eb & St);
    [unfold space_size in *; lia|].
  pose proof (user_memory_bytes ps (s_mach s) (sr_user _ _ _ H)) as Hby. rewrite (sr_mem _ _ _ H) in Eb, Hby.
  pose proof (user_memory_length ps (s_mach s)) as Hml. rewrite (sr_mem _ _ _ H) in Hml.
  set (buf := take (Z.to_nat a2) (drop (Z.to_nat a1) (v_mem u))) in *.
  assert (Hbl : length buf = Z.to_nat a2)
    by (unfold buf; rewrite length_take, length_drop, Hml; unfold space_size in *; lia).
  rewrite (bind_run _ _ _ _ _ (on_mach_run _ _ _ _ Eb)).
  pose proof (rel_same ps s u k H St) as H1. rewrite bool_decide_eq_true_2 by done.
  destruct (console_write_ok ps buf (with_mach k s) u H1) as (s2 & E2 & Hm2 & H2);
    [by apply Forall_take, Forall_drop|].
  rewrite (bind_run _ _ _ a2 s2).
  2: { rewrite (bind_run _ _ _ _ _ E2). unfold_M. do 2 f_equal. lia. }
  destruct (finish ps s2 _ a2 H2) as (s3 & E3 & H3 & R3).
  eexists s3, _, a2. split_and!; [exact E3|exact H3|by apply sc_write_console|].
  rewrite R3, Hm2. cbn. by rewrite (st_regs _ _ _ _ St).
Qed.

Lemma do_Close_ok ps s u a1 a2 a3 : sys_rel ps s u → reg s 4 a1 → 0 ≤ a1 < MAX_OPEN_FILES →
  ∃ s' u' r, do_Close s = Ok (tt, s') ∧ sys_rel ps s' u' ∧ sc_spec SC_Close a1 a2 a3 u r u' ∧
    m_registers (s_mach s') = <[2%nat := r]> (m_registers (s_mach s)).
Proof.
  intros H R4 Ha1. unfold do_Close.
  rewrite (bind_run _ _ _ _ _ (get_reg s 4 a1 R4 ltac:(lia))).
  pose proof (sr_count _ _ _ H) as Hc. unfold MAX_OPEN_FILES in *.
  destruct (lookup_lt_is_Some_2 (descriptores s) (Z.to_nat a1)) as [f Hf]; [lia|].
  assert (Eg : desc_get a1 s = Ok (f, s)).
  { unfold desc_get. destruct (Z.ltb_spec a1 0); [lia|]. by rewrite Hf. }
  rewrite (bind_run _ _ _ _ _ Eg). pose proof (sr_fs _ _ _ H) as (b & t & Hfs & Hfiles & Hfd).
  assert (Hset : ∃ s2, (match f with Some _ => desc_set a1 None | None => mret tt end) s = Ok (tt, s2) ∧
    s_mach s2 = s_mach s ∧
    sys_rel ps s2 (mkView (v_files u) (<[Z.to_nat a1 := None]> (v_fds u)) (v_mem u) (v_in u) (v_out u))).
  { destruct f as [f|].
    - apply (rel_set_fd ps s u a1 None None H); [lia|lia|]. by exists b, t.
    - exists s. split; [done|]. split; [done|].
      destruct (Forall2_lookup_l _ _ _ _ _ Hfd Hf) as (x & Hx & Hrel). destruct x as [[? ?]|]; [done|].
      rewrite list_insert_id by done. by destruct u. }
  destruct Hset as (s2 & E2 & Hm2 & H2). rewrite (bind_run _ _ _ _ _ E2).
  destruct (finish ps s2 _ 0 H2) as (s3 & E3 & H3 & R3).
  eexists s3, _, 0. split_and!; [exact E3|exact H3|by apply sc_close|]. by rewrite R3, Hm2.
Qed.

(** A call that can be served is. *)
Lemma do_call_ok ps undef s u type a1 a2 a3 : sys_rel ps s u → reg s 4 a1 → reg s 5 a2 → reg s 6 a3 →
  sc_ready type a1 a2 a3 u →
  ∃ s' u' r, (if bool_decide (type = SC_Create) then do_Create junk fs
       else if bool_decide (type = SC_Read) then do_Read junk
       else if bool_decide (type = SC_Write) then do_Write junk
       else if bool_decide (type = SC_Open) then do_Open junk fs undef
       else do_Close) s = Ok (tt, s') ∧
    sys_rel ps s' u' ∧ sc_spec type a1 a2 a3 u r u' ∧
    m_registers (s_mach s') = <[2%nat := r]> (m_registers (s_mach s)) ∧ SC_Create ≤ type ≤ SC_Close.
Proof.
  intros H R4 R5 R6 Hr.
  enough (Hx : ∃ s' u' r, (if bool_decide (type = SC_Create) then do_Create junk fs
       else if bool_decide (type = SC_Read) then do_Read junk
       else if bool_decide (type = SC_Write) then do_Write junk
       else if bool_decide (type = SC_Open) then do_Open junk fs undef
       else do_Close) s = Ok (tt, s') ∧
    sys_rel ps s' u' ∧ sc_spec type a1 a2 a3 u r u' ∧
    m_registers (s_mach s') = <[2%nat := r]> (m_registers (s_mach s))).
  { destruct Hx as (s' & u' & r & E & H' & Hsp & Hregs). exists s', u', r.
    split; [exact E|]. split; [exact H'|]. split; [exact Hsp|]. split; [exact Hregs|].
    unfold SC_Create, SC_Close. by inversion Hr. }
  pose proof Hr as Hr'. destruct Hr'.
  - by apply do_Create_ok.
  - by apply do_Open_ok.
  - by eapply do_Read_file_ok.
  - by eapply do_Read_console_ok.
  - by eapply do_Write_file_ok.
  - by apply do_Write_console_ok.
  - by apply do_Close_ok.
Qed.

End Refinement.

(** ** What goes wrong *)

Section Faults.
Context {D T : Type} `{!SectorDevice D} `{!SectorDeviceOK D} `{!Terminal T} `{!TerminalOK T}.
Context (junk : Z → Z) (junk_byte : ∀ i, is_byte (junk i)) (fs : FileSystem).
Implicit Types (s : sys D T) (u : uview).

Lemma name_overrun ps s u a name : sys_rel fs ps s u → string_at (v_mem u) a name →
  64 ≤ Z.of_nat (length name) → on_mach (readStrFromUsr 64 a) s = Err OutOfBounds.
Proof.
  intros H Hs Hl. unfold on_mach. rewrite <- (sr_mem _ _ _ _ H) in Hs.
  by rewrite (readStrFromUsr_overrun ps (s_mach s) 64 a name (sr_user _ _ _ _ H) Hs).
Qed.

Lemma do_Create_overrun ps s u a1 name : sys_rel fs ps s u → reg s 4 a1 → string_at (v_mem u) a1 name →
  64 ≤ Z.of_nat (length name) → do_Create junk fs s = Err OutOfBounds.
Proof.
  intros H R4 Hs Hl. unfold do_Create. rewrite (bind_run _ _ _ _ _ (get_reg s 4 a1 R4 ltac:(lia))).
  apply bind_err. by eapply name_overrun.
Qed.

Lemma do_Open_overrun ps undef s u a1 name : sys_rel fs ps s u → reg s 4 a1 → string_at (v_mem u) a1 name →
  64 ≤ Z.of_nat (length name) → do_Open junk fs undef s = Err OutOfBounds.
Proof.
  intros H R4 Hs Hl. unfold do_Open. rewrite (bind_run _ _ _ _ _ (get_reg s 4 a1 R4 ltac:(lia))).
  apply bind_err. by eapply name_overrun.
Qed.

Lemma open_file_past ps s u : sys_rel fs ps s u → open_file MAX_OPEN_FILES s = Err OutOfBounds.
Proof.
  intros H. unfold open_file, desc_get. unfold_M. cbn [bool_decide].
  change (bool_decide (3 ≤ MAX_OPEN_FILES) && bool_decide (MAX_OPEN_FILES ≤ MAX_OPEN_FILES)) with true.
  cbn [Z.ltb]. change (MAX_OPEN_FILES <? 0) with false. cbn iota.
  rewrite lookup_ge_None_2; [done|]. by rewrite (sr_count _ _ _ _ H).
Qed.

Lemma do_Read_past ps s u a1 a2 : sys_rel fs ps s u → reg s 4 a1 → reg s 5 a2 → reg s 6 MAX_OPEN_FILES →
  do_Read junk s = Err OutOfBounds.
Proof.
  intros H R4 R5 R6. unfold do_Read.
  rewrite (bind_run _ _ _ _ _ (get_reg s 4 a1 R4 ltac:(lia))).
  rewrite (bind_run _ _ _ _ _ (get_reg s 5 a2 R5 ltac:(lia))).
  rewrite (bind_run _ _ _ _ _ (get_reg s 6 MAX_OPEN_FILES R6 ltac:(lia))).
  rewrite bool_decide_eq_false_2 by done. do 2 apply bind_err. by eapply open_file_past.
Qed.

Lemma do_Write_past ps s u a1 a2 : sys_rel fs ps s u → reg s 4 a1 → reg s 5 a2 → reg s 6 MAX_OPEN_FILES →
  0 ≤ a1 → 0 ≤ a2 → a1 + a2 ≤ Z.of_nat (length (v_mem u)) → do_Write junk s = Err OutOfBounds.
Proof.
  intros H R4 R5 R6 Ha1 Ha2 Hfit. unfold do_Write.
  rewrite (bind_run _ _ _ _ _ (get_reg s 4 a1 R4 ltac:(lia))).
  rewrite (bind_run _ _ _ _ _ (get_reg s 5 a2 R5 ltac:(lia))).
  rewrite (bind_run _ _ _ _ _ (get_reg s 6 MAX_OPEN_FILES R6 ltac:(lia))).
  rewrite <- (sr_mem _ _ _ _ H), user_memory_length in Hfit.
  destruct (readBuffFromUsr_ok ps (s_mach s) a1 a2 (sr_user _ _ _ _ H) Ha1 Ha2) as (k & Eb & St);
    [unfold space_size in *; lia|].
  rewrite (bind_run _ _ _ _ _ (on_mach_run _ _ _ _ Eb)).
  rewrite bool_decide_eq_false_2 by done. do 2 apply bind_err.
  eapply (open_file_past ps). by apply (rel_same fs ps s u k).
Qed.

(** The search of [AssignId] with no descriptor free. *)
Lemma AssignId_loop_full s fuel i : length (descriptores s) = Z.to_nat MAX_OPEN_FILES → 0 ≤ i ≤ MAX_OPEN_FILES →
  (∀ j, i ≤ j < MAX_OPEN_FILES → ∃ f, descriptores s !! Z.to_nat j = Some (Some f)) →
  (Z.to_nat (MAX_OPEN_FILES - i) < fuel)%nat → AssignId_loop fuel i s = Err OutOfBounds.
Proof.
  intros Hc. revert i. induction fuel as [|fuel IH]; intros i Hi Hfull Hfuel; [lia|]. cbn [AssignId_loop].
  unfold MAX_OPEN_FILES in *. unfold desc_get at 1. unfold mbind, M_bind. destruct (Z.ltb_spec i 0); [lia|].
  destruct (decide (i = 100)) as [->|Hne].
  - rewrite lookup_ge_None_2; [done|]. by rewrite Hc.
  - destruct (Hfull i) as [f ->]; [lia|]. apply IH; [lia| |lia]. intros j Hj. apply Hfull. lia.
Qed.

Lemma do_Open_full ps undef s u a1 name : sys_rel fs ps s u → reg s 4 a1 → string_at (v_mem u) a1 name →
  Z.of_nat (length name) < 64 → is_Some (v_files u !! file_key name) →
  (∀ j, 3 ≤ j < MAX_OPEN_FILES → ∃ x, v_fds u !! Z.to_nat j = Some (Some x)) →
  do_Open junk fs undef s = Err OutOfBounds.
Proof.
  intros H R4 Hs Hl Hf Hfull. unfold do_Open.
  rewrite (bind_run _ _ _ _ _ (get_reg s 4 a1 R4 ltac:(lia))).
  destruct (get_name fs ps s u a1 name H Hs Hl) as (k & E1 & H1 & _).
  rewrite (bind_run _ _ _ _ _ E1). pose proof (sr_fs _ _ _ _ H1) as (b & t & Hfs & Hfiles & Hfd).
  destruct (Open_ok junk junk_byte fs _ b t name (sr_disk _ _ _ _ H1) Hfs (proj1 (proj2 Hs))) as (d & Hd & Hsd & E2).
  rewrite (bind_run _ _ _ _ _ (on_disk_run _ _ _ _ E2)).
  rewrite <- Hfiles, fs_files_lookup in Hf.
  destruct (dir_map (mkDirectory t) !! file_key name) as [r|]; [|by destruct Hf].
  cbn [fmap option_fmap option_map]. apply bind_err. unfold AssignId.
  rewrite (bind_run get _ _ _ _ eq_refl). apply bind_err.
  pose proof (sr_count _ _ _ _ H1) as Hc. cbn [descriptores with_disk] in *.
  apply AssignId_loop_full; [exact Hc|done| |rewrite Hc; unfold MAX_OPEN_FILES; lia].
  intros j Hj. destruct (Hfull j Hj) as [x Hx].
  destruct (Forall2_lookup_r _ _ _ _ _ Hfd Hx) as (f & Hf' & Hrel). destruct f as [f|]; [|done].
  by exists f.
Qed.

End Faults.

(** ** Theorems *)

Section Theorems.
Context {D T : Type} `{!SectorDevice D} `{!SectorDeviceOK D} `{!Terminal T} `{!TerminalOK T}.
Context (junk : Z → Z) (junk_byte : ∀ i, is_byte (junk i)) (fs : FileSystem).
Implicit Types (s : sys D T) (u : uview).

(** C7: every call on files or the terminal with arguments the handler can serve
    returns to the program, does what the specification says on what the
    program can observe - files by name, descriptors with their positions,
    memory, terminal - keeps the kernel in a state that matches it, and leaves
    the result in register 2 and the program counters past the instruction.
    The specification is that of exception.cc: [Read] from a file counts the bytes
    and moves the position but does not store them in the program's buffer, and
    [Read] of the terminal consumes the newline without storing or counting it. *)
Theorem ExceptionHandler_refines ps process_call undef s u type a1 a2 a3 :
  sys_rel fs ps s u → reg s 2 type → reg s 4 a1 → reg s 5 a2 → reg s 6 a3 →
  sc_ready type a1 a2 a3 u →
  ∃ s' u' r, ExceptionHandler junk fs process_call undef SyscallException s = Ok (tt, s') ∧
    sys_rel fs ps s' u' ∧ sc_spec type a1 a2 a3 u r u' ∧
    m_registers (s_mach s') = next_pc (<[2%nat := r]> (m_registers (s_mach s))).
Proof.
  intros H R2 R4 R5 R6 Hr. unfold ExceptionHandler.
  rewrite (bind_run _ _ _ _ _ (get_reg s 2 type R2 ltac:(lia))).
  destruct (do_call_ok junk junk_byte fs ps undef s u type a1 a2 a3 H R4 R5 R6 Hr)
    as (s1 & u1 & r & E1 & H1 & Hsp & Hregs & Htype).
  assert (Hcl : type ≠ SC_Create → type ≠ SC_Read → type ≠ SC_Write → type ≠ SC_Open → type = SC_Close)
    by (unfold SC_Create, SC_Read, SC_Write, SC_Open, SC_Close in *; lia).
  rewrite (bind_run _ _ s tt s1).
  2: { rewrite <- E1. do 4 (case_bool_decide; [done|]). by rewrite bool_decide_eq_true_2 by auto. }
  set (regs := next_pc (m_registers (s_mach s1))).
  exists (with_mach (set_regs regs (s_mach s1)) s1), u1, r. split_and!; [| |exact Hsp|].
  - apply on_mach_run, increaseProgramCounter_run. by eapply rel_regs.
  - apply rel_set_regs; [exact H1|]. unfold regs, next_pc. by rewrite !length_insert.
  - cbn. unfold regs. by rewrite Hregs.
Qed.

(** C34: what the handler cannot serve: an exception that is not a system call
    stops the machine; a name of 64 characters or more overruns the array of
    [Create] and [Open]; the descriptor 100 passes the check of [Read] and
    [Write] and is read outside the table; and [Open] runs past the table when
    no descriptor is free. *)
Theorem ExceptionHandler_faults ps process_call undef s u type a1 a2 a3 :
  sys_rel fs ps s u → reg s 2 type → reg s 4 a1 → reg s 5 a2 → reg s 6 a3 →
  (∀ which, which ≠ SyscallException →
     ExceptionHandler junk fs process_call undef which s = Err AssertFailed) ∧
  (∀ name, type = SC_Create ∨ type = SC_Open → string_at (v_mem u) a1 name → 64 ≤ Z.of_nat (length name) →
     ExceptionHandler junk fs process_call undef SyscallException s = Err OutOfBounds) ∧
  (type = SC_Read ∨ (type = SC_Write ∧ 0 ≤ a1 ∧ 0 ≤ a2 ∧ a1 + a2 ≤ Z.of_nat (length (v_mem u))) →
     a3 = MAX_OPEN_FILES →
     ExceptionHandler junk fs process_call undef SyscallException s = Err OutOfBounds) ∧
  (∀ name, type = SC_Open → string_at (v_mem u) a1 name → Z.of_nat (length name) < 64 →
     is_Some (v_files u !! file_key name) →
     (∀ j, 3 ≤ j < MAX_OPEN_FILES → ∃ x, v_fds u !! Z.to_nat j = Some (Some x)) →
     ExceptionHandler junk fs process_call undef SyscallException s = Err OutOfBounds).
Proof.
  intros H R2 R4 R5 R6. pose proof (get_reg s 2 type R2 ltac:(lia)) as G2. unfold ExceptionHandler.
  rewrite (bind_run _ _ _ _ _ G2). split_and!.
  - intros which Hw. rewrite (bind_run _ _ _ _ _ G2). by destruct which.
  - intros name Ht Hs Hl. apply bind_err.
    destruct Ht as [-> | ->]; [by eapply do_Create_overrun|by eapply do_Open_overrun].
  - intros Ht ->. apply bind_err.
    destruct Ht as [-> | [-> (? & ? & ?)]]; [by eapply do_Read_past|by eapply do_Write_past].
  - intros name -> Hs Hl Hf Hfull. apply bind_err. by eapply do_Open_full.
Qed.

End Theorems.

(** C33: what the kernel copies into a program's memory it copies back unchanged,
    from any address of the program and across pages; the bytes of the program
    around the buffer, and all of the memory that is not in its frames, stay
    as they were. *)
Theorem user_copy_roundtrip ps k a buff :
  user_ok ps k → Forall is_byte buff → 0 ≤ a → a + Z.of_nat (length buff) ≤ space_size ps →
  ∃ k1 k2, writeBuffToUsr buff a (Z.of_nat (length buff)) k = Ok (tt, k1) ∧
    readBuffFromUsr a (Z.of_nat (length buff)) k1 = Ok (buff, k2) ∧
    user_memory ps k2 = list_inserts (Z.to_nat a) buff (user_memory ps k) ∧
    ∀ i, Z.of_nat i / 128 ∉ ps → mainMemory k2 !! i = mainMemory k !! i.
Proof.
  intros Hk Hb Ha Hn. destruct (writeBuffToUsr_ok ps k a buff Hk Hb Ha Hn) as (k1 & E1 & S1).
  destruct (readBuffFromUsr_ok ps k1 a (Z.of_nat (length buff)) (st_ok _ _ _ _ S1)) as (k2 & E2 & S2); [lia..|].
  rewrite (st_mem _ _ _ _ S1) in E2, S2. exists k1, k2. split_and!; [done| |apply S2|].
  - rewrite E2. do 2 f_equal. apply list_eq. intros i. rewrite Nat2Z.id.
    destruct (decide (i < length buff)%nat) as [Hi|Hi].
    + rewrite lookup_take_lt, lookup_drop by done. rewrite list_lookup_inserts; [f_equal; lia|lia|].
      rewrite user_memory_length. lia.
    + rewrite lookup_take_ge, lookup_ge_None_2 by lia. done.
  - intros i Hi. by rewrite (st_other _ _ _ _ S2), (st_other _ _ _ _ S1).
Qed.

(** ** A program that creates a file *)

(** One page, in frame 5, that holds the name [ab] and then [n] times the
    letter [a] from 8 on; the arguments of a call in the registers. *)
Definition user_page (n : nat) : list Z := [97; 98; 0; 0; 0; 0; 0; 0] ++ replicate n 97 ++ replicate (120 - n) 0.
Definition user_machine (n : nat) (type a1 a2 a3 : Z) : Machine :=
  mkMachine (replicate 640 0 ++ user_page n ++ replicate (Z.to_nat (16384 - 768)) 0)
    ([0; 0; type; 0; a1; a2; a3] ++ replicate 33 0) None
    (Some [mkEntry 0 5 true false false false]) 1.
Definition user_sys (n : nat) (type a1 a2 a3 : Z) (d : RamDisk.ram) (k : SynchConsole.K) :
    sys RamDisk.ram SynchConsole.K :=
  mkSys (user_machine n type a1 a2 a3) d k (replicate 100 None).
Definition user_start (n : nat) : uview :=
  mkView ∅ (replicate 100 None) (user_memory [5] (user_machine n 0 0 0 0)) [] [].

Lemma user_machine_ok n type a1 a2 a3 : (n = 0 ∨ n = 70)%nat → user_ok [5] (user_machine n type a1 a2 a3).
Proof.
  intros Hn. split.
  - split; try done.
    + by destruct Hn as [-> | ->].
    + unfold is_byte. destruct Hn as [-> | ->]; apply (bool_decide_unpack _); vm_compute; exact I.
    + intros pt [= <-]. done.
  - eexists. split; [reflexivity|]. constructor; [done|constructor].
  - apply NoDup_singleton.
  - repeat constructor; cbn; (discriminate || reflexivity).
Qed.

Lemma user_sys_rel n type a1 a2 a3 fs d b t k : (n = 0 ∨ n = 70)%nat → SynchConsole.at_rest k [] [] →
  @dev_wf _ RamDisk.device d → fs_ok fs (@sectors _ RamDisk.device d) b t →
  fs_files (@sectors _ RamDisk.device d) t = ∅ →
  @sys_rel _ _ RamDisk.device SynchConsole.terminal fs [5] (user_sys n type a1 a2 a3 d k) (user_start n).
Proof.
  intros Hn Hk Hd Hfs Hf. split; [by apply user_machine_ok|reflexivity|exact Hk|exact Hd| |reflexivity].
  exists b, t. split; [exact Hfs|]. split; [exact Hf|]. apply Forall2_replicate. exact I.
Qed.

Lemma user_string : string_at (v_mem (user_start 0)) 0 [97; 98].
Proof. split; [done|]. split; [|vm_compute; reflexivity]. repeat constructor; discriminate. Defined.

Lemma ExceptionHandler_refines_witness : ∃ fs (d : RamDisk.ram) k s' u' r,
  @ExceptionHandler _ _ RamDisk.device SynchConsole.terminal (λ _, 7) fs (λ _, fail Halted) 0 SyscallException
    (user_sys 0 SC_Create 0 0 0 d k) = Ok (tt, s') ∧
  sc_spec SC_Create 0 0 0 (user_start 0) r u'.
Proof.
  destruct (@FileSystem_format _ RamDisk.device RamDisk.device_ok (λ _, 7) seven_byte
              RamDisk.blank RamDisk.blank_wf) as (fs & d & b & t & _ & Hd & Hfs & Hf).
  destruct (SynchConsole.new_SynchConsole_ok [] Interrupt.new_Statistics) as (k & _ & Hk); [constructor|].
  destruct (@ExceptionHandler_refines _ _ RamDisk.device RamDisk.device_ok SynchConsole.terminal SynchConsole.terminal_ok
    (λ _, 7) seven_byte fs [5] (λ _, fail Halted) 0 (user_sys 0 SC_Create 0 0 0 d k) (user_start 0) SC_Create 0 0 0
    (user_sys_rel 0 SC_Create 0 0 0 fs d b t k (or_introl eq_refl) Hk Hd Hfs Hf) eq_refl eq_refl eq_refl eq_refl)
    as (s' & u' & r & E & _ & Hsp & _).
  - exact (ready_create 0 0 0 (user_start 0) [97; 98] user_string eq_refl).
  - exists fs, d, k, s', u', r. split; [exact E|exact Hsp].
Defined.

Lemma user_long_string : string_at (v_mem (user_start 70)) 8 (replicate 70 97).
Proof.
  split; [done|]. split; [|vm_compute; reflexivity].
  apply Forall_replicate. split; [unfold is_byte; lia|discriminate].
Qed.

Lemma ExceptionHandler_faults_witness : ∃ fs (d : RamDisk.ram) k,
  @ExceptionHandler _ _ RamDisk.device SynchConsole.terminal (λ _, 7) fs (λ _, fail Halted) 0 SyscallException
    (user_sys 70 SC_Open 8 0 0 d k) = Err OutOfBounds.
Proof.
  destruct (@FileSystem_format _ RamDisk.device RamDisk.device_ok (λ _, 7) seven_byte
              RamDisk.blank RamDisk.blank_wf) as (fs & d & b & t & _ & Hd & Hfs & Hf).
  destruct (SynchConsole.new_SynchConsole_ok [] Interrupt.new_Statistics) as (k & _ & Hk); [constructor|].
  exists fs, d, k.
  destruct (@ExceptionHandler_faults _ _ RamDisk.device RamDisk.device_ok SynchConsole.terminal
    (λ _, 7) seven_byte fs [5] (λ _, fail Halted) 0 (user_sys 70 SC_Open 8 0 0 d k) (user_start 70) SC_Open 8 0 0
    (user_sys_rel 70 SC_Open 8 0 0 fs d b t k (or_intror eq_refl) Hk Hd Hfs Hf) eq_refl eq_refl eq_refl eq_refl)
    as (_ & Hname & _).
  apply (Hname (replicate 70 97)); [right; reflexivity|exact user_long_string|discriminate].
Defined.

(** A line copied to the address 3 of a program. *)
Lemma user_copy_roundtrip_witness : ∃ k1 k2,
  writeBuffToUsr [104; 111; 108; 97] 3 4 (user_machine 0 0 0 0 0) = Ok (tt, k1) ∧
  readBuffFromUsr 3 4 k1 = Ok ([104; 111; 108; 97], k2).
Proof.
  destruct (user_copy_roundtrip [5] (user_machine 0 0 0 0 0) 3 [104; 111; 108; 97]
    (user_machine_ok 0 0 0 0 0 (or_introl eq_refl))) as (k1 & k2 & E1 & E2 & _).
  - repeat constructor; discriminate.
  - discriminate.
  - discriminate.
  - exists k1, k2. split; [exact E1|exact E2].
Defined.
