(* ===== verification/PostOffice.v ===== *)
(** * PostOffice: the network and the delivery of mail

    machine/network.cc, threads/synchlist.h and network/post.cc.  The network
    device polls a UNIX socket for datagrams of 64 bytes and buffers one; the
    post office puts a header in front of each message, and its worker thread
    sorts what arrives into mailboxes, which are synchronized lists.

    As in the other drivers, each operation is run by a thread while no other
    is ready: [Send] by its caller, one round of [PostalDelivery] by the worker,
    [Receive] by a client.  The host is what the device needs of it: a queue of
    datagrams that have arrived ([socket]), the datagrams that went out with
    their addressee ([wire]), the numbers [rand()] returns ([Random]) and the
    contents of fresh memory ([junk]). *)

From S2P Require Import Prelude LinkedList Interrupt OneThread Polled Disk FileHdr.
From Stdlib Require QArith.QArith_base.

Module Post.

(** ** Headers *)

Definition MaxWireSize : Z := 64.
Definition sizeof_header : Z := 12.
Definition MaxPacketSize : Z := MaxWireSize - sizeof_header.
Definition MaxMailSize : Z := MaxPacketSize - sizeof_header.

(** class [PacketHeader] and class [MailHeader]: two [int]s and an [unsigned]. *)
Record PacketHeader := mkPkt { p_to : Z; p_from : Z; p_length : Z }.
Record MailHeader := mkMailHdr { m_to : Z; m_from : Z; m_length : Z }.

(** The headers in memory, as the casts of the code see them. *)
Definition packet_bytes (h : PacketHeader) : list Z := words_bytes [p_to h; p_from h; p_length h].
Definition mail_bytes (h : MailHeader) : list Z := words_bytes [m_to h; m_from h; m_length h].
Definition word (i : nat) (bs : list Z) : Z := le_value (take 4 (drop (4 * i) bs)).
Definition packet_of (bs : list Z) : PacketHeader := mkPkt (sint (word 0 bs)) (sint (word 1 bs)) (word 2 bs).
Definition mail_of (bs : list Z) : MailHeader := mkMailHdr (sint (word 0 bs)) (sint (word 1 bs)) (word 2 bs).

(** class [Mail], with the bytes of [data] that the constructor fills. *)
Record Mail := mkMail { pktHdr : PacketHeader; mailHdr : MailHeader; data : list Z }.

(** ** State *)

(** class [Network]; [chanceToWork] as the rational it stands for. *)
Record Network := mkNet {
  ident : Z; chanceToWork : QArith_base.Q; sendBusy : bool; inHdr : PacketHeader; inbox : list Z
}.

(** class [MailBox], a [SynchList]: the messages, and the queue of its
    condition, whose semaphores are named by the number of the [Wait] that
    created them. *)
Record MailBox := mkBox { messages : list Mail; semList : list nat; waited : nat }.

Inductive sem_name :=
  | messageAvailable | messageSent | sendLock_sem | sendLock_inv
  | box_sem (b : nat) | box_inv (b : nat) | box_wait (b n : nat).
Inductive lock_name := sendLock | box_lock (b : nat).
Inductive handler_t := NetworkReadPoll | NetworkSendDone.

#[export] Instance sem_name_eq_dec : EqDecision sem_name.
Proof. solve_decision. Defined.
#[export] Instance lock_name_eq_dec : EqDecision lock_name.
Proof. solve_decision. Defined.

(** class [PostOffice], its device and the host; [draws] counts the calls of
    [Random]. *)
Record world_t := mkWorld {
  network : Network; socket : list (list Z); wire : list (Z * list Z); draws : nat;
  netAddr : Z; boxes : list MailBox;
  w_sems : sem_name → lsem; w_held : lock_name → bool; w_ready : bool
}.
Abbreviation K := (kstate world_t handler_t).

Definition numBoxes (w : world_t) : Z := Z.of_nat (length (boxes w)).

Definition set_network (n : Network) (w : world_t) : world_t :=
  mkWorld n (socket w) (wire w) (draws w) (netAddr w) (boxes w) (w_sems w) (w_held w) (w_ready w).
Definition set_socket (s : list (list Z)) (w : world_t) : world_t :=
  mkWorld (network w) s (wire w) (draws w) (netAddr w) (boxes w) (w_sems w) (w_held w) (w_ready w).
Definition set_wire (l : list (Z * list Z)) (w : world_t) : world_t :=
  mkWorld (network w) (socket w) l (draws w) (netAddr w) (boxes w) (w_sems w) (w_held w) (w_ready w).
Definition set_draws (n : nat) (w : world_t) : world_t :=
  mkWorld (network w) (socket w) (wire w) n (netAddr w) (boxes w) (w_sems w) (w_held w) (w_ready w).
Definition set_boxes (l : list MailBox) (w : world_t) : world_t :=
  mkWorld (network w) (socket w) (wire w) (draws w) (netAddr w) l (w_sems w) (w_held w) (w_ready w).
Definition set_w_sems (f : sem_name → lsem) (w : world_t) : world_t :=
  mkWorld (network w) (socket w) (wire w) (draws w) (netAddr w) (boxes w) f (w_held w) (w_ready w).

#[export] Instance sems : Sems world_t sem_name := {|
  sem_of n w := w_sems w n;
  set_sem n x w := set_w_sems (λ m, if decide (m = n) then x else w_sems w m) w;
  ready := w_ready;
  set_ready b w := mkWorld (network w) (socket w) (wire w) (draws w) (netAddr w) (boxes w) (w_sems w) (w_held w) b
|}.

#[export] Instance locks : Locks world_t sem_name lock_name := {|
  lock_sem l := match l with sendLock => sendLock_sem | box_lock b => box_sem b end;
  lock_semInvP l := match l with sendLock => sendLock_inv | box_lock b => box_inv b end;
  held l w := w_held w l;
  set_held l b w := mkWorld (network w) (socket w) (wire w) (draws w) (netAddr w) (boxes w) (w_sems w)
    (λ m, if decide (m = l) then b else w_held w m) (w_ready w)
|}.

Definition count_sent (s : Statistics) : Statistics :=
  let '(mkStats t i y u a b c d e f g) := s in mkStats t i y u a b c d e (f + 1) g.
Definition count_recvd (s : Statistics) : Statistics :=
  let '(mkStats t i y u a b c d e f g) := s in mkStats t i y u a b c d e f (g + 1).

(** [bcopy(from, to, n)] out of an array of which [from] is known: the bytes. *)
Definition bcopy (from : list Z) (n : Z) : M K (list Z) :=
  if (0 <=? n) && (n <=? Z.of_nat (length from)) then mret (take (Z.to_nat n) from) else fail OutOfBounds.
(** The bytes [bs] stored over the first bytes of [to]. *)
Definition over (bs to : list Z) : list Z := bs ++ drop (length bs) to.

(** ** Network *)

(** The handlers [IncomingPacket] and [PacketSent] of the post office. *)
Definition IncomingPacket : M K unit := V_off messageAvailable.
Definition PacketSent : M K unit := V_off messageSent.

(** [ReadFromSocket]: at most 64 bytes of a datagram, and fewer abort. *)
Definition CheckPktAvail : M K unit :=
  Schedule NetworkReadPoll NetworkTime NetworkRecvInt ≫= λ _,
  w ← gets world;
  let n := network w in
  if negb (p_length (inHdr n) =? 0) then mret tt
  else
    match socket w with
    | [] => mret tt
    | datagram :: rest =>
        let buffer := take (Z.to_nat MaxWireSize) datagram in
        on_world (set_socket rest) ≫= λ _,
        ASSERT (Z.of_nat (length buffer) =? MaxWireSize) ≫= λ _,
        let hdr := packet_of buffer in
        on_world (set_network (mkNet (ident n) (chanceToWork n) (sendBusy n) hdr (inbox n))) ≫= λ _,
        ASSERT ((p_to hdr =? ident n) && (p_length hdr <=? MaxPacketSize)) ≫= λ _,
        bytes ← bcopy (drop (Z.to_nat sizeof_header) buffer) (p_length hdr);
        on_world (set_network (mkNet (ident n) (chanceToWork n) (sendBusy n) hdr (over bytes (inbox n)))) ≫= λ _,
        on_stats count_recvd ≫= λ _,
        IncomingPacket
    end.

Definition SendDone : M K unit :=
  on_world (λ w, let n := network w in
    set_network (mkNet (ident n) (chanceToWork n) false (inHdr n) (inbox n)) w) ≫= λ _,
  on_stats count_sent ≫= λ _,
  PacketSent.

#[export] Instance platform : Platform world_t handler_t := {|
  call_handler h := match h with NetworkReadPoll => CheckPktAvail | NetworkSendDone => SendDone end;
  machine_DelayedLoad := mret tt;
  currentThread_Yield := mret tt
|}.

(** [Network::Receive]: the header, and [data] with the packet copied into it. *)
Definition Network_Receive (dest : list Z) : M K (PacketHeader * list Z) :=
  w ← gets world;
  let n := network w in
  let hdr := inHdr n in
  on_world (set_network (mkNet (ident n) (chanceToWork n) (sendBusy n)
    (mkPkt (p_to hdr) (p_from hdr) 0) (inbox n))) ≫= λ _,
  if p_length hdr =? 0 then mret (hdr, dest)
  else bytes ← bcopy (inbox n) (p_length hdr); mret (hdr, over bytes dest).

Section Host.
Variable Random : nat → Z.
Variable junk : nat → Z.

(** [new char[n]]. *)
Definition new_chars (n : Z) : list Z := junk <$> seq 0 (Z.to_nat n).

(** [Random() % 100 >= chanceToWork * 100]. *)
Definition lost (chance : QArith_base.Q) (draw : nat) : bool :=
  QArith_base.Qle_bool (QArith_base.Qmult chance (QArith_base.inject_Z 100))
    (QArith_base.inject_Z (Z.rem (Random draw) 100)).

Definition Network_Send (hdr : PacketHeader) (bytes : list Z) : M K unit :=
  w ← gets world;
  let n := network w in
  ASSERT (negb (sendBusy n) && (0 <? p_length hdr) && (p_length hdr <=? MaxPacketSize)
          && (p_from hdr =? ident n)) ≫= λ _,
  Schedule NetworkSendDone NetworkTime NetworkSendInt ≫= λ _,
  on_world (set_draws (S (draws w))) ≫= λ _,
  if lost (chanceToWork n) (draws w) then mret tt
  else
    body ← bcopy bytes (p_length hdr);
    let buffer := over (packet_bytes hdr ++ body) (new_chars MaxWireSize) in
    on_world (set_wire (wire w ++ [(p_to hdr, buffer)])).

(** ** SynchList, as the mailboxes use it *)

(** The box [b] of the array [boxes]. *)
Definition box_at (b : nat) : M K MailBox :=
  w ← gets world;
  match boxes w !! b with Some x => mret x | None => fail OutOfBounds end.
Definition put_box (b : nat) (x : MailBox) : M K unit :=
  on_world (λ w, set_boxes (<[b := x]> (boxes w)) w).

(** [listEmpty->Signal()]. *)
Definition Signal (b : nat) : M K unit :=
  w ← gets world;
  ASSERT (held (box_lock b) w) ≫= λ _,
  x ← box_at b;
  match semList x with
  | [] => mret tt
  | s :: rest => put_box b (mkBox (messages x) rest (waited x)) ≫= λ _, V (box_wait b s)
  end.

(** [listEmpty->Wait()]: the semaphore is created with the value 1. *)
Definition Wait (b : nat) : M K unit :=
  w ← gets world;
  ASSERT (held (box_lock b) w) ≫= λ _,
  x ← box_at b;
  let s := waited x in
  on_world (set_sem (box_wait b s) (mkSem 1 false)) ≫= λ _,
  put_box b (mkBox (messages x) (semList x ++ [s]) (S s)) ≫= λ _,
  Release (box_lock b) ≫= λ _,
  P (box_wait b s) ≫= λ _,
  Acquire (box_lock b).

Definition SynchList_Append (b : nat) (item : Mail) : M K unit :=
  Acquire (box_lock b) ≫= λ _,
  x ← box_at b;
  put_box b (mkBox (messages x ++ [item]) (semList x) (waited x)) ≫= λ _,
  Signal b ≫= λ _,
  Release (box_lock b).

(** [while (list->IsEmpty()) listEmpty->Wait(); item = list->SynchList_Remove();] *)
Fixpoint Remove_loop (fuel : nat) (b : nat) : M K Mail :=
  match fuel with
  | O => fail OutOfFuel
  | S fuel =>
      x ← box_at b;
      match messages x with
      | [] => Wait b ≫= λ _, Remove_loop fuel b
      | item :: rest => put_box b (mkBox rest (semList x) (waited x)) ≫= λ _, mret item
      end
  end.

Definition SynchList_Remove (fuel : nat) (b : nat) : M K Mail :=
  Acquire (box_lock b) ≫= λ _,
  item ← Remove_loop fuel b;
  Release (box_lock b) ≫= λ _,
  mret item.

(** ** Post office *)

(** [Mail::Mail]. *)
Definition new_Mail (p : PacketHeader) (m : MailHeader) (msgData : list Z) : M K Mail :=
  ASSERT (m_length m <=? MaxMailSize) ≫= λ _,
  bytes ← bcopy msgData (m_length m);
  mret (mkMail p m bytes).

(** [MailBox::Put] and [MailBox::Get]. *)
Definition Put (b : nat) (p : PacketHeader) (m : MailHeader) (bytes : list Z) : M K unit :=
  mail ← new_Mail p m bytes; SynchList_Append b mail.
Definition Get (fuel : nat) (b : nat) : M K Mail := SynchList_Remove fuel b.

(** One round of the endless loop of [PostalDelivery], with its buffer. *)
Definition PostalDelivery (buffer : list Z) : M K (list Z) :=
  P messageAvailable ≫= λ _,
  r ← Network_Receive buffer;
  let m := mail_of r.2 in
  w ← gets world;
  ASSERT ((0 <=? m_to m) && (m_to m <? numBoxes w)) ≫= λ _,
  ASSERT (m_length m <=? MaxMailSize) ≫= λ _,
  Put (Z.to_nat (m_to m)) r.1 m (drop (Z.to_nat sizeof_header) r.2) ≫= λ _,
  mret r.2.

Definition Send (p : PacketHeader) (m : MailHeader) (bytes : list Z) : M K unit :=
  w ← gets world;
  ASSERT (m_length m <=? MaxMailSize) ≫= λ _,
  ASSERT ((0 <=? m_to m) && (m_to m <? numBoxes w)) ≫= λ _,
  let p' := mkPkt (p_to p) (netAddr w) (uint (m_length m + sizeof_header)) in
  body ← bcopy bytes (m_length m);
  let buffer := over (mail_bytes m ++ body) (new_chars MaxPacketSize) in
  Acquire sendLock ≫= λ _,
  Network_Send p' buffer ≫= λ _,
  P messageSent ≫= λ _,
  Release sendLock.

Definition Receive (fuel : nat) (box : Z) : M K Mail :=
  w ← gets world;
  ASSERT ((0 <=? box) && (box <? numBoxes w)) ≫= λ _,
  mail ← Get fuel (Z.to_nat box);
  ASSERT (m_length (mailHdr mail) <=? MaxMailSize) ≫= λ _,
  mret mail.

End Host.

(** The constructors of [MailBox] and [SynchList]; the lock is made with the
    other semaphores in [new_PostOffice]. *)
Definition new_MailBox : MailBox := mkBox [] [] 0.

(** The constructor [Network(...)], then [PostOffice(...)] on a machine with no
    other device; the worker thread starts with [PostalDelivery]. *)
Definition new_Network (addr : Z) (reliability : QArith_base.Q) (junkHdr : PacketHeader) (junkBox : list Z) : Network :=
  mkNet addr
    (if negb (QArith_base.Qle_bool (QArith_base.inject_Z 0) reliability) then QArith_base.inject_Z 0
     else if negb (QArith_base.Qle_bool reliability (QArith_base.inject_Z 1)) then QArith_base.inject_Z 1
     else reliability)
    false (mkPkt (p_to junkHdr) (p_from junkHdr) 0) junkBox.

Definition new_PostOffice (addr : Z) (reliability : QArith_base.Q) (nBoxes : nat)
    (junkHdr : PacketHeader) (junkBox : list Z) (queued : list (list Z)) (st : Statistics) : res K :=
  let w := mkWorld (new_Network addr reliability junkHdr junkBox) queued [] 0 addr
             (replicate nBoxes new_MailBox)
             (λ n, mkSem (match n with messageAvailable | messageSent | box_wait _ _ => 0 | _ => 1 end) false)
             (λ _, false) false in
  r ← Schedule NetworkReadPoll NetworkTime NetworkRecvInt (mk IntOn [] false st w);
  mret r.2.

(** ** The wire format *)

Lemma word_bytes i ws rest : (i < length ws)%nat →
  word i (words_bytes ws ++ rest) = uint (ws !!! i).
Proof.
  revert ws. induction i as [|i IH]; intros [|w ws] Hi; cbn in Hi; try lia.
  - unfold word. change (4 * 0)%nat with 0%nat. rewrite drop_0. unfold words_bytes. cbn [fmap list_fmap concat].
    rewrite <- app_assoc, take_app_length' by (by rewrite le_bytes_length). apply le_value_bytes.
  - change (words_bytes (w :: ws)) with (le_bytes 4 w ++ words_bytes ws). unfold word in *.
    replace (4 * S i)%nat with (4 + 4 * i)%nat by lia. rewrite <- drop_drop, <- app_assoc.
    rewrite (drop_app_length' (le_bytes 4 w)) by (by rewrite le_bytes_length). apply IH. lia.
Qed.

Lemma sint_uint_id z : is_int z → sint (uint z) = z.
Proof. unfold is_int, int_min, int_max, sint, uint. lia. Qed.

(** The datagram [d] carries the headers [p] and [m] and the data [bs]. *)
Record carries (d : list Z) (p : PacketHeader) (m : MailHeader) (bs : list Z) : Prop := {
  ca_size : length d = 64%nat;
  ca_packet : packet_of d = p;
  ca_mail : mail_of (drop 12 d) = m;
  ca_data : take (Z.to_nat (m_length m)) (drop 24 d) = bs
}.

Definition pkt_ok (p : PacketHeader) : Prop := is_int (p_to p) ∧ is_int (p_from p) ∧ is_uint (p_length p).
Definition mail_ok (m : MailHeader) : Prop := is_int (m_to m) ∧ is_int (m_from m) ∧ 0 ≤ m_length m ≤ 40.

Lemma packet_of_bytes p rest : pkt_ok p → packet_of (packet_bytes p ++ rest) = p.
Proof.
  intros (H1 & H2 & H3). unfold packet_of, packet_bytes. rewrite !word_bytes by (cbn; lia). cbn.
  rewrite !sint_uint_id by done. destruct p as [a b c]. cbn in *. f_equal. unfold uint, is_uint in *. lia.
Qed.

Lemma mail_of_bytes m rest : mail_ok m → mail_of (mail_bytes m ++ rest) = m.
Proof.
  intros (H1 & H2 & H3). unfold mail_of, mail_bytes. rewrite !word_bytes by (cbn; lia). cbn.
  rewrite !sint_uint_id by done. destruct m as [a b c]. cbn in *. f_equal. unfold uint. lia.
Qed.

Lemma packet_bytes_length p : length (packet_bytes p) = 12%nat.
Proof. unfold packet_bytes. by rewrite words_bytes_length. Qed.
Lemma mail_bytes_length m : length (mail_bytes m) = 12%nat.
Proof. unfold mail_bytes. by rewrite words_bytes_length. Qed.

Lemma over_length bs to : (length bs ≤ length to)%nat → length (over bs to) = length to.
Proof. intros H. unfold over. rewrite length_app, length_drop. lia. Qed.

Lemma packet_carries p m bs rest : pkt_ok p → mail_ok m → length bs = Z.to_nat (m_length m) →
  length (packet_bytes p ++ (mail_bytes m ++ bs) ++ rest) = 64%nat →
  carries (packet_bytes p ++ (mail_bytes m ++ bs) ++ rest) p m bs.
Proof.
  intros Hp Hm Hb Hl. split; [done|by apply packet_of_bytes| |].
  - rewrite drop_app_length' by (by rewrite packet_bytes_length). rewrite <- app_assoc. by apply mail_of_bytes.
  - change 24%nat with (12 + 12)%nat. rewrite <- drop_drop.
    rewrite drop_app_length' by (by rewrite packet_bytes_length). rewrite <- app_assoc.
    rewrite drop_app_length' by (by rewrite mail_bytes_length). by apply take_app_length'.
Qed.

(** ** The device at work *)

(** A datagram that the poll of machine [id] accepts, and what it buffers. *)
Definition legal (id : Z) (d : list Z) : Prop :=
  length d = 64%nat ∧ p_to (packet_of d) = id ∧ 0 < p_length (packet_of d) ≤ 52.
Definition payload (d : list Z) : list Z := take (Z.to_nat (p_length (packet_of d))) (drop 12 d).

Definition buffered (d : list Z) (n : Network) : Network :=
  mkNet (ident n) (chanceToWork n) (sendBusy n) (packet_of d) (over (payload d) (inbox n)).

(** What a poll does to the world, and what the end of a transmission does. *)
Definition poll_network (w : world_t) : world_t :=
  match socket w with
  | d :: rest =>
      if p_length (inHdr (network w)) =? 0 then
        let w1 := set_network (buffered d (network w)) (set_socket rest w) in
        let w2 := if waits (sem_of messageAvailable w) then set_ready true w1 else w1 in
        set_sem messageAvailable (mkSem (value (sem_of messageAvailable w) + 1) false) w2
      else w
  | [] => w
  end.

Definition done_network (w : world_t) : world_t :=
  let n := network w in
  let w1 := set_network (mkNet (ident n) (chanceToWork n) false (inHdr n) (inbox n)) w in
  let w2 := if waits (sem_of messageSent w) then set_ready true w1 else w1 in
  set_sem messageSent (mkSem (value (sem_of messageSent w) + 1) false) w2.

(** The next poll does not stop at an assertion. *)
Definition next_legal (w : world_t) : Prop :=
  p_length (inHdr (network w)) = 0 → ∀ d rest, socket w = d :: rest → legal (ident (network w)) d.

Lemma legal_payload id d : legal id d → length (payload d) = Z.to_nat (p_length (packet_of d)).
Proof. intros (Hl & _ & Hp). unfold payload. rewrite length_take, length_drop. lia. Qed.

Lemma bcopy_ok (from : list Z) n (k : K) : 0 ≤ n ≤ Z.of_nat (length from) →
  bcopy from n k = Ok (take (Z.to_nat n) from, k).
Proof.
  intros [H1 H2]. unfold bcopy. apply Z.leb_le in H1, H2. by rewrite H1, H2.
Qed.

Lemma CheckPktAvail_run l p h y m st w : next_legal w →
  ∃ st', CheckPktAvail (mkK (mkInterrupt l p h y m) st w) =
    Ok (tt, mkK (mkInterrupt l (sorted_insert (totalTicks st + 100)
                  (mkPending NetworkReadPoll (totalTicks st + 100) NetworkRecvInt) p) h y m)
              st' (poll_network w)) ∧ totalTicks st' = totalTicks st.
Proof.
  intros Hok. unfold CheckPktAvail, poll_network.
  set (q := sorted_insert _ _ p). set (k1 := mkK (mkInterrupt l q h y m) st w).
  assert (E1 : Schedule NetworkReadPoll NetworkTime NetworkRecvInt (mkK (mkInterrupt l p h y m) st w) = Ok (tt, k1))
    by reflexivity.
  rewrite (bind_run _ _ _ _ _ E1). unfold mbind at 1, M_bind at 1, gets. cbn [k1 world].
  destruct (Z.eqb_spec (p_length (inHdr (network w))) 0) as [Hz|Hz]; cbn [negb]; [|destruct (socket w); by exists st].
  destruct (socket w) as [|d rest] eqn:Hs; [by exists st|].
  destruct (Hok Hz d rest Hs) as (Hl & Hto & Hlen).
  change (Z.to_nat MaxWireSize) with 64%nat. change (Z.to_nat sizeof_header) with 12%nat.
  rewrite (take_ge d 64) by lia.
  unfold mbind at 1, M_bind at 1, on_world at 1, modify.
  unfold ASSERT at 1. rewrite Hl. change (Z.of_nat 64 =? MaxWireSize) with true. cbn [mret M_ret].
  unfold mbind at 1, M_bind at 1. unfold mbind at 1, M_bind at 1, on_world at 1, modify.
  assert (Ha : (p_to (packet_of d) =? ident (network w)) && (p_length (packet_of d) <=? MaxPacketSize) = true).
  { rewrite Hto, Z.eqb_refl. apply Z.leb_le. unfold MaxPacketSize, MaxWireSize, sizeof_header. lia. }
  rewrite Ha. unfold mbind at 1, M_bind at 1, ASSERT at 1. cbn [mret M_ret].
  unfold mbind at 1, M_bind at 1. rewrite bcopy_ok by (rewrite length_drop; lia). fold (payload d).
  unfold IncomingPacket, V_off, on_world, on_stats. unfold_M. cbn [k1 intr stats world].
  cbn [sem_of sems set_network set_socket w_sems].
  destruct (waits (w_sems w messageAvailable)); eexists; (split; [reflexivity|by destruct st]).
Qed.

Lemma SendDone_run l p h y m st w :
  ∃ st', SendDone (mkK (mkInterrupt l p h y m) st w) =
    Ok (tt, mkK (mkInterrupt l p h y m) st' (done_network w)) ∧ totalTicks st' = totalTicks st.
Proof.
  unfold SendDone, PacketSent, V_off, on_stats, on_world, done_network. unfold_M.
  cbn [intr stats world sem_of sems set_network w_sems].
  destruct (waits (w_sems w messageSent)); eexists; (split; [reflexivity|by destruct st]).
Qed.

#[export] Instance cells_ok : CellsOK world_t sem_name lock_name.
Proof. by split. Qed.

Lemma post_poll_cases w : poll_network w = w ∨
  ∃ d rest, socket w = d :: rest ∧ p_length (inHdr (network w)) = 0 ∧
    poll_network w = set_sem messageAvailable (mkSem (value (sem_of messageAvailable w) + 1) false)
      (set_ready (ready w || waits (sem_of messageAvailable w))
        (set_network (buffered d (network w)) (set_socket rest w))).
Proof.
  unfold poll_network. destruct (socket w) as [|d rest] eqn:Et; [by left|].
  destruct (Z.eqb_spec (p_length (inHdr (network w))) 0) as [Hz|]; [|by left].
  right. exists d, rest. split_and!; [done..|]. unfold ready, sems.
  destruct w as [n so wi dr ad bo ss hs r]. cbn [sem_of w_sems w_ready].
  destruct (waits (ss messageAvailable)); by destruct r.
Qed.

#[export] Instance polled : Polled world_t handler_t sem_name lock_name.
Proof.
  refine {| poll_handler := NetworkReadPoll; poll_type := NetworkRecvInt;
            done_handler := NetworkSendDone; done_type := NetworkSendInt;
            arrival := messageAvailable; completion := messageSent; poll_ok := next_legal;
            poll_world := poll_network; done_world := done_network |}; try done.
  - apply CheckPktAvail_run.
  - apply SendDone_run.
  - intros n w Hn. destruct (post_poll_cases w) as [-> |(d & rest & _ & _ & ->)]; [done|].
    by rewrite sem_of_set, decide_False.
  - intros l w. by destruct (post_poll_cases w) as [-> |(d & rest & _ & _ & ->)].
  - intros w Hw. destruct (post_poll_cases w) as [-> |(d & rest & _ & _ & ->)]; [done|].
    rewrite Hw, orb_false_r. done.
  - intros n w Hn. unfold done_network. rewrite sem_of_set, decide_False by done.
    by destruct (waits (sem_of messageSent w)).
  - intros l w. unfold done_network. by destruct (waits (sem_of messageSent w)).
  - intros w Hw. unfold done_network. by rewrite Hw.
Defined.

(** What the post office is about: its address, the reliability of its device,
    what went out, the numbers drawn, and the mail in each box. *)
Record office := mkOffice {
  o_addr : Z; o_chance : QArith_base.Q; o_wire : list (Z * list Z); o_draws : nat; o_boxes : list (list Mail)
}.
Definition office_of (w : world_t) : office :=
  mkOffice (netAddr w) (chanceToWork (network w)) (wire w) (draws w) (messages <$> boxes w).

(** The office is [f], and the buffer of the device, the socket and
    [messageAvailable] are in the relation [I]. *)
Definition dev (f : office) (I : PacketHeader → list Z → list (list Z) → lsem → Prop) (w : world_t) : Prop :=
  office_of w = f ∧ ident (network w) = o_addr f ∧ sendBusy (network w) = false ∧ length (inbox (network w)) = 52%nat ∧
  I (inHdr (network w)) (inbox (network w)) (socket w) (sem_of messageAvailable w).

(** The datagrams [ds] are still to be taken: in the socket, or the first of
    them buffered and announced. *)
Definition coming (id : Z) (ds : list (list Z)) (h : PacketHeader) (b : list Z) (s : list (list Z)) (x : lsem) : Prop :=
  Forall (legal id) ds ∧
  ((p_length h = 0 ∧ x = mkSem 0 false ∧ s = ds) ∨
   (∃ d, ds = d :: s ∧ h = packet_of d ∧ take (length (payload d)) b = payload d ∧ x = mkSem 1 false)).

(** The datagram [d] is buffered, and its announcement was taken. *)
Definition taken (id : Z) (d : list Z) (ds : list (list Z)) (h : PacketHeader) (b : list Z) (s : list (list Z)) (x : lsem) : Prop :=
  Forall (legal id) (d :: ds) ∧ s = ds ∧ h = packet_of d ∧ take (length (payload d)) b = payload d ∧ x = mkSem 0 false.

Lemma over_take bs to : take (length bs) (over bs to) = bs.
Proof. unfold over. by rewrite take_app_length. Qed.

Lemma buffered_inbox id d n : legal id d → length (inbox n) = 52%nat → length (inbox (buffered d n)) = 52%nat.
Proof.
  intros Hd Hl. cbn. rewrite over_length; [done|]. rewrite (legal_payload id d Hd). destruct Hd as (_ & _ & ?). lia.
Qed.

(** Relations that a poll keeps. *)
Lemma post_dev_framed f I :
  (∀ h b s x, I h b s x → waits x = false) →
  (∀ h b d s x, I h b (d :: s) x → p_length h = 0 → length b = 52%nat →
     legal (o_addr f) d ∧ I (packet_of d) (over (payload d) b) s (mkSem (value x + 1) false)) →
  framed (dev f I).
Proof.
  intros Hw Hp. split; try done.
  - intros n x w Hn (? & ? & ? & ? & HI). cbn in Hn. split_and!; try done.
    rewrite sem_of_set, decide_False by congruence. done.
  - intros w (_ & Hid & _ & Hl & HI) Hz d rest Hs. rewrite Hs in HI. rewrite Hid. by eapply Hp.
  - intros w (Hf & Hid & Hb & Hl & HI). cbn [poll_world polled].
    destruct (post_poll_cases w) as [-> |(d & rest & Hs & Hz & ->)]; [done|].
    rewrite Hs in HI. destruct (Hp _ _ _ _ _ HI Hz Hl) as [Hd HI'].
    split_and!; try done. by apply (buffered_inbox (o_addr f)).
  - intros w (_ & _ & _ & _ & HI). by eapply Hw.
Qed.

Lemma post_coming_framed f ds : framed (dev f (coming (o_addr f) ds)).
Proof.
  apply post_dev_framed.
  - intros h b s x [_ [(_ & -> & _)|(d & _ & _ & _ & ->)]]; done.
  - intros h b d s x [Hf [(_ & -> & <-)|(d' & -> & -> & _)]] Hz Hl.
    + pose proof Hf as Hf'. apply Forall_cons in Hf as [Hd _]. split; [done|]. split; [done|]. right.
      exists d. split_and!; try done. apply over_take.
    + apply Forall_cons in Hf as [(_ & _ & ?) _]. lia.
Qed.

Lemma post_taken_framed f d ds : framed (dev f (taken (o_addr f) d ds)).
Proof.
  apply post_dev_framed.
  - intros h b s x (_ & _ & _ & _ & ->). done.
  - intros h b d' s x (Hf & _ & -> & _) Hz. apply Forall_cons in Hf as [(_ & _ & ?) _]. lia.
Qed.

Lemma post_coming_announced f d ds w : dev f (coming (o_addr f) (d :: ds)) w → announced (dev f (taken (o_addr f) d ds)) w.
Proof.
  intros (Ho & Hid & Hb & Hl & Hf & HI). pose proof Hf as Hf'. apply Forall_cons in Hf as [Hd Hds].
  destruct HI as [(Hz & Hx & Hs)|(d' & Hdd & Hh & Hin & Hx)]; [right|left].
  - split; [done|]. cbn zeta.
    assert (E : poll_world (set_sem messageAvailable (mkSem 0 true) w) = set_sem messageAvailable (mkSem 1 false)
      (set_ready true (set_network (buffered d (network w)) (set_socket ds (set_sem messageAvailable (mkSem 0 true) w))))).
    { cbn [poll_world polled]. unfold poll_network. cbn [socket set_sem sems set_w_sems network]. by rewrite Hs, Hz. }
    cbn [arrival polled]. rewrite E. split.
    { intros _ d' rest Hs'. cbn in Hs'. rewrite Hs in Hs'. injection Hs' as <- <-. cbn. by rewrite Hid. }
    unfold dev, taken. split_and!; try done.
    + by apply (buffered_inbox (o_addr f)).
    + apply over_take.
  - injection Hdd as <- ->. split; [done|]. by split_and!.
Qed.

(** ** Between two steps of a thread *)

(** The semaphores when the thread holds the locks [h]: those of the locks say
    so, and nobody waits. *)
Record sems_ok (v : sem_name → lsem) (h : lock_name → bool) : Prop := {
  so_sent : v messageSent = mkSem 0 false;
  so_lock l : v (lock_sem l) = mkSem (if h l then 0 else 1) false;
  so_inv l : v (lock_semInvP l) = mkSem 1 false;
  so_wait b n : waits (v (box_wait b n)) = false
}.

Definition at_h (h : lock_name → bool) (J : world_t → Prop) (k : K) : Prop :=
  ∃ v, sems_ok v h ∧ on (at_ v h false J) k.

Lemma at_h_ext h h' J k : (∀ l, h l = h' l) → at_h h J k → at_h h' J k.
Proof.
  intros Hh (v & [H1 H2 H3 H4] & Hk). exists v. split.
  - split; try done. intros l. by rewrite <- Hh.
  - eapply on_mono; [|exact Hk]. intros w. by apply at_ext.
Qed.

Lemma lock_sem_inj l l' : lock_sem l = lock_sem l' → l = l'.
Proof. destruct l, l'; cbn; congruence. Qed.

Lemma sems_ok_lock v h l (c : bool) : sems_ok v h →
  sems_ok (upd v (lock_sem l) (mkSem (if c then 0 else 1) false)) (upd h l c).
Proof.
  intros [H1 H2 H3 H4]. split.
  - unfold upd. rewrite decide_False by (by destruct l). done.
  - intros m. unfold upd. destruct (decide (m = l)) as [-> |Hm]; [by rewrite decide_True|].
    rewrite decide_False by (intros Heq; by apply Hm, lock_sem_inj). apply H2.
  - intros m. unfold upd. rewrite decide_False by (by destruct l, m). apply H3.
  - intros b n. unfold upd. rewrite decide_False by (by destruct l). apply H4.
Qed.

Lemma post_acquired l h J k : framed J → at_h h J k → h l = false →
  ∃ k', Acquire l k = Ok (tt, k') ∧ at_h (upd h l true) J k'.
Proof.
  intros HJ (v & Hv & Hk) Hl.
  destruct (Acquire_ok v h J l k HJ Hk Hl) as (k' & E & Hk'); try by destruct l.
  { apply (so_inv _ _ Hv). }
  { by rewrite (so_lock _ _ Hv), Hl. }
  exists k'. split; [done|]. eexists. split; [|exact Hk']. by apply (sems_ok_lock v h l true).
Qed.

Lemma post_released l h J k : framed J → at_h h J k → h l = true →
  ∃ k', Release l k = Ok (tt, k') ∧ at_h (upd h l false) J k'.
Proof.
  intros HJ (v & Hv & Hk) Hl.
  destruct (Release_ok v h J l 0 k HJ Hk Hl) as (k' & E & Hk'); [by destruct l|by rewrite (so_lock _ _ Hv), Hl|].
  exists k'. split; [done|]. eexists. split; [|exact Hk']. by apply (sems_ok_lock v h l false).
Qed.

Lemma relocked l h J k : h l = false → at_h (upd (upd h l true) l false) J k → at_h h J k.
Proof.
  intros Hl. apply at_h_ext. intros m. unfold upd. by destruct (decide (m = l)) as [-> |].
Qed.

(** [V] and [P] of a semaphore of [Wait]. *)
Lemma sems_ok_wait v h b n x : sems_ok v h → sems_ok (upd v (box_wait b n) (mkSem x false)) h.
Proof.
  intros [H1 H2 H3 H4]. split.
  - done.
  - intros l. unfold upd. rewrite decide_False by (by destruct l). apply H2.
  - intros l. unfold upd. rewrite decide_False by (by destruct l). apply H3.
  - intros b' n'. unfold upd. by destruct (decide _).
Qed.

Lemma V_wait b n h J k : framed J → at_h h J k → ∃ k', V (box_wait b n) k = Ok (tt, k') ∧ at_h h J k'.
Proof.
  intros HJ (v & Hv & Hk). destruct (v (box_wait b n)) as [x y] eqn:E.
  pose proof (so_wait _ _ Hv b n) as Hy. rewrite E in Hy. cbn in Hy. subst y.
  destruct (V_ok v h J (box_wait b n) x k Hk HJ) as (k' & E' & Hk'); [done|done|].
  exists k'. split; [done|]. eexists. split; [|exact Hk']. by apply sems_ok_wait.
Qed.

(** A step of the thread on the world, which leaves the semaphores and locks. *)
Lemma step_at_h h J J' f k : at_h h J k → (∀ w, world k = w → J w → J' (f w)) →
  (∀ w, w_sems (f w) = w_sems w) → (∀ w, w_held (f w) = w_held w) → (∀ w, w_ready (f w) = w_ready w) →
  ∃ k', on_world f k = Ok (tt, k') ∧ at_h h J' k'.
Proof.
  intros (v & Hv & st & t & w & -> & Hb & [H1 H2 H3 H4]) HJ Hs Hh Hr.
  eexists. split; [reflexivity|]. exists v. split; [done|]. exists st, t, (f w). split; [done|]. split; [done|].
  split; cbn in *; rewrite ?Hs, ?Hh, ?Hr; auto.
Qed.

Lemma at_h_dev h J k : at_h h J k → J (world k) ∧ (∀ l, w_held (world k) l = h l).
Proof. intros (v & _ & st & t & w & -> & _ & [_ H2 _ H4]). by split. Qed.

(** ** Mailboxes *)

Definition set_o_boxes (l : list (list Mail)) (f : office) : office :=
  mkOffice (o_addr f) (o_chance f) (o_wire f) (o_draws f) l.

Lemma box_lookup f I w b ms : dev f I w → o_boxes f !! b = Some ms →
  ∃ x, boxes w !! b = Some x ∧ messages x = ms.
Proof.
  intros (<- & _) Hb. cbn in Hb. apply list_lookup_fmap_Some in Hb as (x & -> & Hx). by exists x.
Qed.

Lemma box_at_ok b x (k : K) : boxes (world k) !! b = Some x → box_at b k = Ok (x, k).
Proof. intros E. unfold box_at. unfold_M. by rewrite E. Qed.

(** A new content of a box, whatever the queue of its condition becomes. *)
Lemma put_box_ok h f I k b x ms : at_h h (dev f I) k → boxes (world k) !! b = Some x →
  ∃ k', put_box b (mkBox ms (semList x) (waited x)) k = Ok (tt, k') ∧
    at_h h (dev (set_o_boxes (<[b := ms]> (o_boxes f)) f) I) k' ∧
    boxes (world k') = <[b := mkBox ms (semList x) (waited x)]> (boxes (world k)).
Proof.
  intros Hk Hx. unfold put_box.
  destruct (step_at_h h (dev f I) (dev (set_o_boxes (<[b := ms]> (o_boxes f)) f) I)
    (λ w, set_boxes (<[b := mkBox ms (semList x) (waited x)]> (boxes w)) w) k Hk) as (k' & E & Hk'); try done.
  - intros w _ (<- & ? & ? & ? & ?). unfold dev. split_and!; try done.
    unfold office_of, set_o_boxes. cbn. f_equal. by rewrite list_fmap_insert.
  - exists k'. split; [done|]. split; [done|]. unfold on_world, modify in E. by injection E as <-.
Qed.

(** The same content with another queue. *)
Lemma put_queue_ok v h f I k b x q n : on (at_ v h false (dev f I)) k → boxes (world k) !! b = Some x →
  ∃ k', put_box b (mkBox (messages x) q n) k = Ok (tt, k') ∧ on (at_ v h false (dev f I)) k'.
Proof.
  intros (st & t & w & -> & Hb & [H1 H2 H3 (<- & H4)]) Hx. eexists. split; [reflexivity|]. cbn in Hx.
  exists st, t. eexists. split; [reflexivity|]. split; [done|]. split; [done..|]. split; [|done].
  unfold office_of. cbn. f_equal. rewrite list_fmap_insert. apply list_insert_id.
  rewrite list_lookup_fmap, Hx. done.
Qed.

Lemma Signal_ok h f I k b ms : framed (dev f I) → at_h h (dev f I) k → h (box_lock b) = true →
  o_boxes f !! b = Some ms → ∃ k', Signal b k = Ok (tt, k') ∧ at_h h (dev f I) k'.
Proof.
  intros HJ Hk Hh Hb. destruct (at_h_dev _ _ _ Hk) as [Hd Hhe].
  destruct (box_lookup _ _ _ _ _ Hd Hb) as (x & Hx & Hms).
  unfold Signal. unfold mbind at 1, M_bind at 1, gets. cbn [held locks]. rewrite Hhe, Hh.
  unfold mbind at 1, M_bind at 1, ASSERT at 1. cbn [mret M_ret].
  rewrite (bind_run _ _ _ _ _ (box_at_ok b x k Hx)).
  destruct (semList x) as [|s rest]; [by exists k|].
  destruct Hk as (v & Hv & Hk). destruct (put_queue_ok v h f I k b x rest (waited x) Hk Hx) as (k1 & E1 & Hk1).
  rewrite (bind_run _ _ _ _ _ E1). apply V_wait; [done|by exists v].
Qed.

Lemma Append_ok h f I k b ms item : framed (dev f I) →
  framed (dev (set_o_boxes (<[b := ms ++ [item]]> (o_boxes f)) f) I) →
  at_h h (dev f I) k → h (box_lock b) = false → o_boxes f !! b = Some ms →
  ∃ k', SynchList_Append b item k = Ok (tt, k') ∧ at_h h (dev (set_o_boxes (<[b := ms ++ [item]]> (o_boxes f)) f) I) k'.
Proof.
  intros HJ HJ' Hk Hh Hb. unfold SynchList_Append.
  destruct (post_acquired _ _ _ _ HJ Hk Hh) as (k1 & E1 & Hk1). rewrite (bind_run _ _ _ _ _ E1).
  destruct (box_lookup _ _ _ _ _ (proj1 (at_h_dev _ _ _ Hk1)) Hb) as (x & Hx & Hms).
  rewrite (bind_run _ _ _ _ _ (box_at_ok b x k1 Hx)).
  destruct (put_box_ok _ _ _ _ b x (ms ++ [item]) Hk1 Hx) as (k2 & E2 & Hk2 & _).
  rewrite Hms. rewrite (bind_run _ _ _ _ _ E2).
  destruct (Signal_ok _ _ _ k2 b (ms ++ [item]) HJ' Hk2) as (k3 & E3 & Hk3).
  { unfold upd. by rewrite decide_True. }
  { cbn. apply list_lookup_insert_eq. by eapply lookup_lt_Some. }
  rewrite (bind_run _ _ _ _ _ E3).
  destruct (post_released (box_lock b) _ _ _ HJ' Hk3) as (k4 & E4 & Hk4); [unfold upd; by rewrite decide_True|].
  exists k4. split; [done|]. by apply (relocked (box_lock b)).
Qed.

Lemma Remove_ok fuel h f I k b item ms : framed (dev f I) →
  framed (dev (set_o_boxes (<[b := ms]> (o_boxes f)) f) I) →
  at_h h (dev f I) k → h (box_lock b) = false → o_boxes f !! b = Some (item :: ms) →
  ∃ k', SynchList_Remove (S fuel) b k = Ok (item, k') ∧ at_h h (dev (set_o_boxes (<[b := ms]> (o_boxes f)) f) I) k'.
Proof.
  intros HJ HJ' Hk Hh Hb. unfold SynchList_Remove.
  destruct (post_acquired _ _ _ _ HJ Hk Hh) as (k1 & E1 & Hk1). rewrite (bind_run _ _ _ _ _ E1).
  destruct (box_lookup _ _ _ _ _ (proj1 (at_h_dev _ _ _ Hk1)) Hb) as (x & Hx & Hms).
  destruct (put_box_ok _ _ _ _ b x ms Hk1 Hx) as (k2 & E2 & Hk2 & _).
  assert (EL : Remove_loop (S fuel) b k1 = Ok (item, k2)).
  { cbn [Remove_loop]. rewrite (bind_run _ _ _ _ _ (box_at_ok b x k1 Hx)), Hms.
    rewrite (bind_run _ _ _ _ _ E2). done. }
  rewrite (bind_run _ _ _ _ _ EL).
  destruct (post_released (box_lock b) _ _ _ HJ' Hk2) as (k3 & E3 & Hk3); [unfold upd; by rewrite decide_True|].
  rewrite (bind_run _ _ _ _ _ E3). exists k3. split; [done|]. by apply (relocked (box_lock b)).
Qed.

(** ** The operations of the post office *)

Definition no_locks : lock_name → bool := λ _, false.

(** Between calls: no lock is held, nothing is being sent, the office is [f]
    with mail no longer than a box takes, and the datagrams [ds] are to come. *)
Definition rest (k : K) (f : office) (ds : list (list Z)) : Prop :=
  at_h no_locks (dev f (coming (o_addr f) ds)) k ∧
  Forall (Forall (λ x, m_length (mailHdr x) ≤ MaxMailSize)) (o_boxes f).

Lemma numBoxes_ok f I w : dev f I w → numBoxes w = Z.of_nat (length (o_boxes f)).
Proof. intros (<- & _). unfold numBoxes. cbn. by rewrite length_fmap. Qed.

(** The two assertions on a mail header. *)
Lemma small_mail m : m_length m ≤ 40 → (m_length m <=? MaxMailSize) = true.
Proof. intros H. apply Z.leb_le. unfold MaxMailSize, MaxPacketSize, MaxWireSize, sizeof_header. lia. Qed.
Lemma in_range i n : 0 ≤ i < n → (0 <=? i) && (i <? n) = true.
Proof. intros H. apply andb_true_iff. split; [apply Z.leb_le|apply Z.ltb_lt]; lia. Qed.

Lemma new_chars_length junk n : 0 ≤ n → length (new_chars junk n) = Z.to_nat n.
Proof. intros _. unfold new_chars. by rewrite length_fmap, length_seq. Qed.

(** What goes out is added to the wire, and a number has been drawn. *)
Definition sent (o : list (Z * list Z)) (f : office) : office :=
  mkOffice (o_addr f) (o_chance f) (o_wire f ++ o) (S (o_draws f)) (o_boxes f).

Lemma Network_Send_ok Random junk f ds p bytes st t w :
  dev f (coming (o_addr f) ds) w → 0 < p_length p ≤ 52 → p_from p = o_addr f → (52 ≤ length bytes)%nat →
  totalTicks st < t ≤ totalTicks st + 100 →
  ∃ o w', Network_Send Random junk p bytes (mk IntOn [poll_at t] false st w) =
      Ok (tt, mk IntOn [poll_at t; done_at (totalTicks st + 100)] false st w') ∧
    dev (sent o f) (coming (o_addr f) ds) w' ∧
    w_sems w' = w_sems w ∧ w_held w' = w_held w ∧ w_ready w' = w_ready w ∧
    o = if lost Random (o_chance f) (o_draws f) then []
        else [(p_to p, over (packet_bytes p ++ take (Z.to_nat (p_length p)) bytes) (new_chars junk MaxWireSize))].
Proof.
  intros Hd [Hp1 Hp2] Hfrom Hl Hb. unfold Network_Send. unfold mbind at 1, M_bind at 1, gets. cbn [mk world].
  pose proof Hd as (<- & Hid & Hbusy & Hin & HI). rewrite Hbusy, Hid, Hfrom, Z.eqb_refl.
  assert (H1 : (0 <? p_length p) = true) by (apply Z.ltb_lt; lia).
  assert (H2 : (p_length p <=? MaxPacketSize) = true)
    by (apply Z.leb_le; unfold MaxPacketSize, MaxWireSize, sizeof_header; lia).
  rewrite H1, H2. unfold mbind at 1, M_bind at 1, ASSERT at 1. cbn [negb andb mret M_ret].
  pose proof (Schedule_done st t w Hb) as E. cbn [done_handler done_type polled] in E.
  change 100 with NetworkTime in E at 1. rewrite (bind_run _ _ _ _ _ E).
  unfold mbind at 1, M_bind at 1, on_world at 1, modify. cbn [mk intr stats world].
  change (o_chance (office_of w)) with (chanceToWork (network w)). change (o_draws (office_of w)) with (draws w).
  destruct (lost Random (chanceToWork (network w)) (draws w)).
  - exists [], (set_draws (S (draws w)) w). split_and!; try done. unfold dev, sent, office_of. cbn.
    rewrite app_nil_r. by split_and!.
  - rewrite (bind_run _ _ _ _ _ (bcopy_ok bytes (p_length p) _ ltac:(lia))). eexists _, _. split; [reflexivity|].
    by split_and!.
Qed.

(** The buffer of [Send]: the header and the data in front. *)
Lemma send_buffer junk m body : m_length m ≤ 40 → 0 ≤ m_length m → length body = Z.to_nat (m_length m) →
  let buffer := over (mail_bytes m ++ body) (new_chars junk MaxPacketSize) in
  length buffer = 52%nat ∧ take (Z.to_nat (m_length m + 12)) buffer = mail_bytes m ++ body.
Proof.
  intros H1 H0 Hb. cbn zeta. pose proof (mail_bytes_length m) as Hm. split.
  - rewrite over_length; rewrite new_chars_length by done; [done|].
    rewrite length_app, Hm, Hb. unfold MaxPacketSize, MaxWireSize, sizeof_header. lia.
  - unfold over. apply take_app_length'. rewrite length_app, Hm, Hb. lia.
Qed.

Lemma done_dev f I w : dev f I w → dev f I (done_network w).
Proof.
  intros (? & ? & ? & ? & ?). unfold done_network. destruct (waits (sem_of messageSent w)); by split_and!.
Qed.

Lemma Send_ok Random junk k f ds p m bytes : rest k f ds →
  0 ≤ m_length m ≤ 40 → 0 ≤ m_to m < Z.of_nat (length (o_boxes f)) → m_length m ≤ Z.of_nat (length bytes) →
  let p' := mkPkt (p_to p) (o_addr f) (m_length m + 12) in
  ∃ k' o, Send Random junk p m bytes k = Ok (tt, k') ∧ rest k' (sent o f) ds ∧
    if lost Random (o_chance f) (o_draws f) then o = []
    else ∃ tail, o = [(p_to p, packet_bytes p' ++ (mail_bytes m ++ take (Z.to_nat (m_length m)) bytes) ++ tail)] ∧
           length (packet_bytes p' ++ (mail_bytes m ++ take (Z.to_nat (m_length m)) bytes) ++ tail) = 64%nat.
Proof.
  intros [Hk Hms] Hlen Hto Hby p'. destruct (at_h_dev _ _ _ Hk) as [Hd _].
  unfold Send. unfold mbind at 1, M_bind at 1, gets. rewrite (numBoxes_ok _ _ _ Hd).
  assert (Haddr : netAddr (world k) = o_addr f) by (by destruct Hd as (<- & _)). rewrite Haddr.
  rewrite (bind_run _ _ _ _ _ (ASSERT_true _ (small_mail m (proj2 Hlen)) k)).
  rewrite (bind_run _ _ _ _ _ (ASSERT_true _ (in_range _ _ Hto) k)).
  rewrite (bind_run _ _ _ _ _ (bcopy_ok bytes (m_length m) k ltac:(lia))).
  assert (Hu : uint (m_length m + sizeof_header) = m_length m + 12) by (unfold uint, sizeof_header; lia).
  rewrite Hu. fold p'. set (body := take (Z.to_nat (m_length m)) bytes).
  assert (Hbody : length body = Z.to_nat (m_length m)) by (unfold body; rewrite length_take; lia).
  destruct (send_buffer junk m body (proj2 Hlen) (proj1 Hlen) Hbody) as [Hbuf Htake].
  set (buffer := over (mail_bytes m ++ body) (new_chars junk MaxPacketSize)) in *.
  destruct (post_acquired sendLock _ _ _ (post_coming_framed f ds) Hk eq_refl)
    as (k1 & E1 & v & Hv & st & t & w & -> & Hb & [Ha1 Ha2 Ha3 Ha4]).
  rewrite (bind_run _ _ _ _ _ E1).
  destruct (Network_Send_ok Random junk f ds p' buffer st t w) as (o & w' & E2 & Hd' & Hs & Hh & Hr & Ho);
    [done|cbn; lia|done|lia|done|].
  rewrite (bind_run _ _ _ _ _ E2).
  destruct (P_completion v (upd no_locks sendLock true) _ (dev (sent o f) (coming (o_addr f) ds)) st t w'
    (post_coming_framed (sent o f) ds) (post_coming_framed (sent o f) ds)) as (k3 & E3 & Hk3);
    [intros w0; apply done_dev|apply (so_sent _ _ Hv)| |done|].
  { split; cbn in *; rewrite ?Hs, ?Hh, ?Hr; auto. }
  cbn [completion polled] in E3. rewrite (bind_run _ _ _ _ _ E3).
  destruct (post_released sendLock (upd no_locks sendLock true) _ k3 (post_coming_framed (sent o f) ds)) as (k4 & E4 & Hk4);
    [by exists v|done|].
  exists k4, o. split; [done|]. split.
  { split; [|done]. by apply (relocked sendLock). }
  destruct (lost Random (o_chance f) (o_draws f)); [done|]. eexists. split.
  - rewrite Ho. cbn [p_length p']. rewrite Htake. unfold over. by rewrite <- (app_assoc (packet_bytes p')).
  - rewrite app_assoc. change (length (over (packet_bytes p' ++ mail_bytes m ++ body) (new_chars junk MaxWireSize)) = 64%nat).
    rewrite over_length; rewrite new_chars_length by done; [done|].
    rewrite !length_app, packet_bytes_length, mail_bytes_length, Hbody.
    unfold MaxWireSize. lia.
Qed.

Lemma word_take i l : (i < 3)%nat → word i (take 12 l) = word i l.
Proof. intros Hi. unfold word. by rewrite skipn_firstn_comm, take_take, Nat.min_l by lia. Qed.

Lemma mail_of_take l : mail_of (take 12 l) = mail_of l.
Proof. unfold mail_of. by rewrite !word_take by lia. Qed.

(** The worker's buffer after a packet: its header and data. *)
Lemma received_mail d p m bs buffer : carries d p m bs → p_length p ≤ 52 → 0 ≤ m_length m →
  m_length m + 12 ≤ p_length p → mail_of (over (payload d) buffer) = m ∧
  take (Z.to_nat (m_length m)) (drop 12 (over (payload d) buffer)) = bs.
Proof.
  intros [Hs <- Hm Hd] Hp52 H0 Hlen. unfold over, payload. set (n := Z.to_nat (p_length (packet_of d))).
  assert (Hn : (12 + Z.to_nat (m_length m) ≤ n)%nat) by lia.
  assert (Hl : length (take n (drop 12 d)) = n) by (rewrite length_take, length_drop; lia). split.
  - rewrite <- mail_of_take, take_app_le, take_take, Nat.min_l by lia. by rewrite mail_of_take.
  - rewrite drop_app_le by lia. rewrite skipn_firstn_comm, take_app_le by (rewrite length_take, !length_drop; lia).
    rewrite take_take, Nat.min_l by lia. by rewrite drop_drop.
Qed.

Lemma Network_Receive_ok h f d ds buffer k : at_h h (dev f (taken (o_addr f) d ds)) k →
  ∃ k', Network_Receive buffer k = Ok ((packet_of d, over (payload d) buffer), k') ∧
    at_h h (dev f (coming (o_addr f) ds)) k'.
Proof.
  intros Hk. destruct (at_h_dev _ _ _ Hk) as [(Hf & Hid & Hbusy & Hl & HF & Hs & Hh & Hin & Hx) _].
  apply Forall_cons in HF as [Hleg HF]. pose proof (legal_payload _ _ Hleg) as Hpl.
  destruct Hleg as (Hsz & Hto & Hlen).
  unfold Network_Receive. unfold mbind at 1, M_bind at 1, gets. rewrite Hh.
  set (n := network (world k)) in *.
  destruct (step_at_h h _ (dev f (coming (o_addr f) ds)) (set_network (mkNet (ident n) (chanceToWork n) (sendBusy n)
    (mkPkt (p_to (packet_of d)) (p_from (packet_of d)) 0) (inbox n))) k Hk) as (k' & E & Hk'); try done.
  { intros w <- _. unfold dev. split_and!; try done. split; [done|]. by left. }
  rewrite (bind_run _ _ _ _ _ E). exists k'.
  destruct (Z.eqb_spec (p_length (packet_of d)) 0); [lia|].
  rewrite (bind_run _ _ _ _ _ (bcopy_ok (inbox n) (p_length (packet_of d)) k' ltac:(lia))).
  rewrite <- Hpl. rewrite Hin. done.
Qed.

Definition deliver (b : nat) (x : Mail) (f : office) : office :=
  match o_boxes f !! b with Some ms => set_o_boxes (<[b := ms ++ [x]]> (o_boxes f)) f | None => f end.

(** The worker up to its checks: the packet is in its buffer. *)
Lemma PostalDelivery_reads k f d ds p m bs buffer :
  at_h no_locks (dev f (coming (o_addr f) (d :: ds))) k → carries d p m bs →
  0 ≤ m_length m → m_length m + 12 ≤ p_length p → length buffer = 52%nat →
  ∃ k2 buffer', at_h no_locks (dev f (coming (o_addr f) ds)) k2 ∧ length buffer' = 52%nat ∧
    take (Z.to_nat (m_length m)) (drop 12 buffer') = bs ∧
    PostalDelivery buffer k =
      (ASSERT ((0 <=? m_to m) && (m_to m <? Z.of_nat (length (o_boxes f)))) ≫= λ _,
       ASSERT (m_length m <=? MaxMailSize) ≫= λ _,
       Put (Z.to_nat (m_to m)) p m (drop 12 buffer') ≫= λ _, mret buffer') k2.
Proof.
  intros (v & Hv & Hk) Hc Hlen Hpl Hbuf. unfold PostalDelivery.
  destruct (P_arrival v no_locks _ (dev f (taken (o_addr f) d ds)) k Hk) as (k1 & E1 & Hk1);
    [apply post_taken_framed|apply post_coming_announced|].
  cbn [arrival polled] in E1. rewrite (bind_run _ _ _ _ _ E1).
  assert (Hk1' : at_h no_locks (dev f (taken (o_addr f) d ds)) k1) by (by exists v).
  assert (Hleg : legal (o_addr f) d).
  { destruct (at_h_dev _ _ _ Hk1') as [(_ & _ & _ & _ & HF & _) _]. by apply Forall_cons in HF as [? _]. }
  pose proof (ca_packet _ _ _ _ Hc) as Hp. pose proof (legal_payload _ _ Hleg) as Hpay. destruct Hleg as (_ & _ & Hp52).
  destruct (Network_Receive_ok _ _ _ _ buffer _ Hk1') as (k2 & E2 & Hk2). rewrite (bind_run _ _ _ _ _ E2). cbn [fst snd].
  destruct (received_mail d p m bs buffer Hc) as [Hm Hbs]; [rewrite <- Hp; lia|lia|lia|]. rewrite Hm, Hp.
  exists k2, (over (payload d) buffer). split; [done|]. split; [rewrite over_length; lia|]. split; [done|].
  unfold mbind at 1, M_bind at 1, gets. by rewrite (numBoxes_ok _ _ _ (proj1 (at_h_dev _ _ _ Hk2))).
Qed.

Lemma PostalDelivery_ok k f d ds p m bs buffer : rest k f (d :: ds) → carries d p m bs →
  0 ≤ m_length m ≤ 40 → m_length m + 12 ≤ p_length p → 0 ≤ m_to m < Z.of_nat (length (o_boxes f)) →
  length buffer = 52%nat →
  ∃ k' buffer', PostalDelivery buffer k = Ok (buffer', k') ∧ length buffer' = 52%nat ∧
    rest k' (deliver (Z.to_nat (m_to m)) (mkMail p m bs) f) ds.
Proof.
  intros [Hk Hms] Hc Hlen Hpl Hto Hbuf.
  destruct (PostalDelivery_reads _ _ _ _ _ _ _ _ Hk Hc (proj1 Hlen) Hpl Hbuf) as (k2 & buffer' & Hk2 & Hbuf' & Hbs & ->).
  pose proof (small_mail m (proj2 Hlen)) as H2.
  rewrite (bind_run _ _ _ _ _ (ASSERT_true _ (in_range _ _ Hto) k2)), (bind_run _ _ _ _ _ (ASSERT_true _ H2 k2)).
  assert (EN : new_Mail p m (drop 12 buffer') k2 = Ok (mkMail p m bs, k2)).
  { unfold new_Mail. rewrite (bind_run _ _ _ _ _ (ASSERT_true _ H2 k2)).
    rewrite (bind_run _ _ _ _ _ (bcopy_ok (drop 12 buffer') (m_length m) k2 ltac:(rewrite length_drop; lia))).
    by rewrite Hbs. }
  set (b := Z.to_nat (m_to m)). destruct (lookup_lt_is_Some_2 (o_boxes f) b) as [ms Hb]; [lia|].
  set (f' := set_o_boxes (<[b := ms ++ [mkMail p m bs]]> (o_boxes f)) f).
  destruct (Append_ok no_locks f _ k2 b ms (mkMail p m bs) (post_coming_framed f ds) (post_coming_framed f' ds) Hk2 eq_refl Hb)
    as (k3 & E3 & Hk3).
  assert (EP : Put b p m (drop 12 buffer') k2 = Ok (tt, k3)) by (unfold Put; by rewrite (bind_run _ _ _ _ _ EN)).
  rewrite (bind_run _ _ _ _ _ EP). exists k3, buffer'. split; [done|]. split; [done|].
  unfold deliver. rewrite Hb. split; [done|]. cbn. apply Forall_insert; [done|]. apply Forall_app. split.
  - by eapply Forall_lookup_1 in Hms.
  - constructor; [|done]. cbn. by apply Z.leb_le.
Qed.

Lemma Receive_ok fuel k f ds (b : nat) x ms : rest k f ds → o_boxes f !! b = Some (x :: ms) →
  ∃ k', Receive (S fuel) (Z.of_nat b) k = Ok (x, k') ∧ rest k' (set_o_boxes (<[b := ms]> (o_boxes f)) f) ds.
Proof.
  intros [Hk Hms] Hb. unfold Receive. unfold mbind at 1, M_bind at 1, gets.
  rewrite (numBoxes_ok _ _ _ (proj1 (at_h_dev _ _ _ Hk))). pose proof (lookup_lt_Some _ _ _ Hb) as Hlt.
  rewrite (bind_run _ _ _ _ _ (ASSERT_true _ (in_range (Z.of_nat b) (Z.of_nat (length (o_boxes f))) ltac:(lia)) k)).
  rewrite Nat2Z.id. unfold Get.
  destruct (Remove_ok fuel no_locks f _ k b x ms (post_coming_framed f ds)
    (post_coming_framed (set_o_boxes (<[b := ms]> (o_boxes f)) f) ds) Hk eq_refl Hb) as (k' & E & Hk').
  rewrite (bind_run _ _ _ _ _ E). pose proof (Forall_lookup_1 _ _ _ _ Hms Hb) as Hx.
  apply Forall_cons in Hx as [Hx Hms']. apply Z.leb_le in Hx.
  rewrite (bind_run _ _ _ _ _ (ASSERT_true _ Hx k')). exists k'. split; [done|]. split; [done|].
  by apply Forall_insert.
Qed.

(** *** The thread keeps the processor

    A thread that blocks leaves the processor idle, so the idle time tells
    whether a call has blocked. *)
Definition awake (k k' : K) : Prop := idleTicks (stats k') = idleTicks (stats k).

#[local] Instance awake_preorder : PreOrder awake.
Proof. split; [by intros k|]. intros k1 k2 k3 H1 H2. unfold awake in *. congruence. Qed.

Lemma awake_on_intr f : respects awake (on_intr f : M K unit).
Proof. by intros k x k' [= _ <-]. Qed.
Lemma awake_on_world f : respects awake (on_world f : M K unit).
Proof. by intros k x k' [= _ <-]. Qed.
Lemma awake_on_stats f : (∀ s, idleTicks (f s) = idleTicks s) → respects awake (on_stats f : M K unit).
Proof. intros Hf k x k' [= _ <-]. apply Hf. Qed.
#[local] Hint Resolve awake_on_intr awake_on_world : respects.
#[local] Hint Extern 1 (respects awake (on_stats _)) => apply awake_on_stats; intros []; by repeat case_match : respects.

Lemma awake_handler x : respects awake (call_handler x : M K unit).
Proof.
  destruct x; cbn [call_handler platform].
  - unfold CheckPktAvail, Schedule, set_pending, IncomingPacket, V_off, bcopy. respects_tac.
  - unfold SendDone, PacketSent, V_off. respects_tac.
Qed.
#[local] Hint Resolve awake_handler : respects.

Lemma awake_CheckIfDue : respects awake (CheckIfDue false : M K bool).
Proof.
  unfold CheckIfDue, fire, set_pending, set_inHandler, setStatus, machine_DelayedLoad, platform. cbn [andb]. respects_tac.
Qed.
Lemma awake_due_loop : respects awake (due_loop : M K unit).
Proof.
  assert (Hl : ∀ fuel, respects awake (CheckIfDue_loop fuel : M K unit)).
  { induction fuel as [|fuel IH]; cbn [CheckIfDue_loop]; [respects_tac|].
    apply respects_bind; [typeclasses eauto|apply awake_CheckIfDue|intros []; respects_tac]. }
  unfold due_loop. respects_tac.
Qed.
#[local] Hint Resolve awake_due_loop : respects.

Lemma awake_SetLevel l : respects awake (SetLevel l : M K IntStatus).
Proof.
  unfold SetLevel, OneTick, ChangeLevel, set_level, set_yieldOnReturn, setStatus, currentThread_Yield, platform. respects_tac.
Qed.
#[local] Hint Resolve awake_SetLevel : respects.

Lemma awake_V n : respects awake (V n : M K unit).
Proof. unfold V, V_off. respects_tac. Qed.
#[local] Hint Resolve awake_V : respects.
Lemma awake_Release l : respects awake (Release l : M K unit).
Proof. unfold Release. respects_tac. Qed.

(** [P] of a semaphore that is not 0 does not block. *)
Lemma awake_P n v h J x k k' : on (at_ v h false J) k → n ≠ arrival → v n = mkSem (x + 1) false → 0 ≤ x →
  P n k = Ok (tt, k') → awake k k'.
Proof.
  intros (st & t & w & -> & Hb & Hw) Hn Hv Hx. unfold P.
  rewrite (bind_run _ _ _ _ _ (SetLevel_disable [poll_at t] false st w)).
  assert (Hs : sem_of n w = mkSem (x + 1) false) by (by rewrite (at_sem _ _ _ _ _ Hw n Hn)).
  change (mk IntOff [poll_at t] false st w) with (off [poll_at t] false SystemMode st w).
  rewrite (bind_run _ _ _ _ _ (P_loop_free 1 n [poll_at t] st w x Hs Hx)). intros E.
  apply bind_Ok in E as (l & k1 & E%awake_SetLevel & E1). binds E1. exact E.
Qed.

Lemma awake_Acquire l h J k k' : framed J → at_h h J k → h l = false → Acquire l k = Ok (tt, k') → awake k k'.
Proof.
  intros HJ (v & Hv & Hk) Hh E.
  assert (Hheld : held l (world k) = false)
    by (destruct Hk as (st & t & w & -> & _ & Hw); exact (eq_trans (at_held _ _ _ _ _ Hw l) Hh)).
  unfold Acquire in E. unfold mbind at 1, M_bind at 1, gets in E. rewrite Hheld in E.
  assert (Hi : lock_semInvP l ≠ arrival) by (by destruct l). assert (Hs : lock_sem l ≠ arrival) by (by destruct l).
  destruct (P_ok _ _ _ (lock_semInvP l) 0 _ Hk HJ Hi) as (k1 & E1 & H1); [by rewrite (so_inv _ _ Hv)|done|].
  rewrite (bind_run _ _ _ _ _ E1) in E. apply (awake_P _ _ _ _ 0 _ _ Hk Hi) in E1; [|by rewrite (so_inv _ _ Hv)|done].
  destruct (V_ok _ _ _ (lock_semInvP l) 0 _ H1 HJ Hi) as (k2 & E2 & H2); [by unfold upd; rewrite decide_True|].
  rewrite (bind_run _ _ _ _ _ E2) in E. apply awake_V in E2.
  assert (Hvs : upd (upd v (lock_semInvP l) (mkSem 0 false)) (lock_semInvP l) (mkSem (0 + 1) false) (lock_sem l) = mkSem (0 + 1) false).
  { unfold upd. rewrite !decide_False by (by destruct l). by rewrite (so_lock _ _ Hv), Hh. }
  destruct (P_ok _ _ _ (lock_sem l) 0 _ H2 HJ Hs) as (k3 & E3 & _); [exact Hvs|done|].
  rewrite (bind_run _ _ _ _ _ E3) in E. apply (awake_P _ _ _ _ 0 _ _ H2 Hs Hvs) in E3; [|done].
  apply awake_on_world in E. by rewrite E1, E2, E3.
Qed.

(** [Wait] returns at once, with the box and the locks as they were. *)
Lemma Wait_returns h f I k b ms : framed (dev f I) → at_h h (dev f I) k → h (box_lock b) = true →
  o_boxes f !! b = Some ms → ∃ k', Wait b k = Ok (tt, k') ∧ awake k k' ∧ at_h h (dev f I) k'.
Proof.
  intros HJ Hk Hh Hb. destruct (at_h_dev _ _ _ Hk) as [Hd Hhe].
  destruct (box_lookup _ _ _ _ _ Hd Hb) as (x & Hx & Hms).
  unfold Wait. unfold mbind at 1, M_bind at 1, gets. cbn [held locks]. rewrite Hhe, Hh.
  rewrite (bind_run _ _ _ _ _ (ASSERT_true _ eq_refl k)), (bind_run _ _ _ _ _ (box_at_ok b x k Hx)).
  destruct Hk as (v & Hv & st & t & w & -> & Ht & Hw). set (s := waited x).
  unfold mbind at 1, M_bind at 1, on_world at 1, modify. cbn [mk intr stats world] in *.
  pose proof (at_set_sem _ _ _ _ _ (box_wait b s) (mkSem 1 false) HJ ltac:(done) Hw) as Hw1.
  destruct (put_queue_ok _ h f I (mk IntOn [poll_at t] false st (set_sem (box_wait b s) (mkSem 1 false) w))
    b x (semList x ++ [s]) (S s) ltac:(eexists _, _, _; split; [reflexivity|by split]) Hx) as (k2 & E2 & Hk2).
  rewrite (bind_run _ _ _ _ _ E2). apply (sems_ok_wait _ _ b s 1) in Hv.
  destruct (Release_ok _ h _ (box_lock b) 0 k2 HJ Hk2 Hh) as (k3 & E3 & Hk3); [done| |].
  { by rewrite (so_lock _ _ Hv), Hh. }
  rewrite (bind_run _ _ _ _ _ E3). apply (sems_ok_lock _ _ (box_lock b) false) in Hv.
  destruct (P_ok _ _ _ (box_wait b s) 0 k3 Hk3 HJ) as (k4 & E4 & Hk4); [done| |done|].
  { unfold upd. by rewrite decide_False, decide_True. }
  rewrite (bind_run _ _ _ _ _ E4). apply (sems_ok_wait _ _ b s 0) in Hv.
  destruct (post_acquired (box_lock b) (upd h (box_lock b) false) _ k4 HJ) as (k5 & E5 & Hk5);
    [by eexists|by unfold upd; rewrite decide_True|].
  exists k5. split; [done|]. split; [|eapply at_h_ext; [|exact Hk5]].
  { apply awake_Release in E3. apply (awake_P _ _ _ _ 0 _ _ Hk3) in E4;
      [|done|unfold upd; by rewrite decide_False, decide_True|done].
    eapply (awake_Acquire _ _ _ k4 k5 HJ) in E5; [|by eexists|by unfold upd; rewrite decide_True].
    apply awake_on_world in E2. unfold awake in *. cbn in *. congruence. }
   intros l. unfold upd.
  by destruct (decide (l = box_lock b)) as [-> |].
Qed.

(** [n] rounds of [while (list->IsEmpty()) listEmpty->Wait();], each of which finds
    the box empty and comes back from [Wait]. *)
Inductive rounds (b : nat) : nat → K → K → Prop :=
  | rounds_0 k : rounds b 0 k k
  | rounds_S n x k k1 k2 :
      box_at b k = Ok (x, k) → messages x = [] → Wait b k = Ok (tt, k1) → awake k k1 → rounds b n k1 k2 → rounds b (S n) k k2.

(** Rounds of [Remove] on an empty box: the thread goes on and on. *)
Lemma Remove_loop_spins n h f I k b : framed (dev f I) → at_h h (dev f I) k → h (box_lock b) = true →
  o_boxes f !! b = Some [] → ∃ k', rounds b n k k' ∧ at_h h (dev f I) k'.
Proof.
  intros HJ Hk Hh Hb. revert k Hk. induction n as [|n IH]; intros k Hk; [by exists k; split; [constructor|]|].
  destruct (box_lookup _ _ _ _ _ (proj1 (at_h_dev _ _ _ Hk)) Hb) as (x & Hx & Hms).
  destruct (Wait_returns _ _ _ _ _ _ HJ Hk Hh Hb) as (k1 & E1 & Ha & Hk1).
  destruct (IH k1 Hk1) as (k' & E & Hk'). exists k'. split; [|done]. by eapply rounds_S; [apply box_at_ok| |exact E1|exact Ha|].
Qed.

Lemma rounds_awake b n k k' : rounds b n k k' → awake k k'.
Proof. induction 1 as [|? x ? ? ? _ _ _ Ha _ IH]; [done|by etrans]. Qed.

(** The loop of [Remove] goes through them, whatever bound it runs with. *)
Lemma rounds_Remove b n k k' : rounds b n k k' → ∀ fuel, Remove_loop (n + fuel) b k = Remove_loop fuel b k'.
Proof.
  induction 1 as [|n x k k1 k2 Ex Hx E _ _ IH]; intros fuel; [done|]. cbn [Nat.add Remove_loop].
  rewrite (bind_run _ _ _ _ _ Ex), Hx. rewrite (bind_run _ _ _ _ _ E). apply IH.
Qed.

Lemma new_PostOffice_ok addr c n jh jb ds st : Forall (legal addr) ds → length jb = 52%nat →
  ∃ k, new_PostOffice addr c n jh jb ds st = Ok k ∧
    rest k (mkOffice addr (chanceToWork (new_Network addr c jh jb)) [] 0 (replicate n [])) ds.
Proof.
  intros Hds Hjb. eexists. split; [reflexivity|]. split; cbn [o_boxes].
  - eexists. split; [|eexists st, (totalTicks st + 100), _; split; [reflexivity|]; split; [lia|]; split; try done].
    + split; try done; intros []; done.
    + unfold dev. cbn [o_addr]. split_and!; try done.
      * unfold office_of. cbn. by rewrite fmap_replicate.
      * split; [done|]. by left.
  - by apply Forall_replicate.
Qed.

Lemma Send_carries Random junk k f ds p m bytes : rest k f ds → mail_ok m → is_int (p_to p) → is_int (o_addr f) →
  0 ≤ m_to m < Z.of_nat (length (o_boxes f)) → m_length m ≤ Z.of_nat (length bytes) →
  ∃ k' o, Send Random junk p m bytes k = Ok (tt, k') ∧ rest k' (sent o f) ds ∧
    if lost Random (o_chance f) (o_draws f) then o = []
    else ∃ d, o = [(p_to p, d)] ∧
           carries d (mkPkt (p_to p) (o_addr f) (m_length m + 12)) m (take (Z.to_nat (m_length m)) bytes).
Proof.
  intros Hk Hm Hp Ha Hto Hb. destruct Hm as (Hm1 & Hm2 & Hlen).
  destruct (Send_ok Random junk k f ds p m bytes Hk Hlen Hto Hb) as (k' & o & E & Hk' & Ho).
  exists k', o. split; [done|]. split; [done|]. destruct (lost _ _ _); [done|].
  destruct Ho as (tail & -> & Hl). eexists. split; [reflexivity|]. apply packet_carries; [|done| |done].
  - split_and!; cbn; try done. unfold is_uint. lia.
  - rewrite length_take. lia.
Qed.

(** C19: the post office works as a specification with a queue of datagrams to
    come, the datagrams sent and a queue of mail for each box: a new office is
    ready; [Send] returns when its packet is gone and has put one datagram
    with its headers and data on the wire, or none if the network drops it;
    the worker waits for the next datagram and adds its mail at the end of the
    box it names; [Receive] takes the oldest mail of a box.  This holds at any
    phase of the polling, and whatever fresh memory contains. *)
Theorem PostOffice_serves (Random junk : nat → Z) :
  (∀ addr c n jh jb ds st, Forall (legal addr) ds → length jb = 52%nat →
     ∃ k, new_PostOffice addr c n jh jb ds st = Ok k ∧
       rest k (mkOffice addr (chanceToWork (new_Network addr c jh jb))
                            [] 0 (replicate n [])) ds) ∧
  (∀ k f ds p m bytes, rest k f ds → mail_ok m →
     is_int (p_to p) → is_int (o_addr f) →
     0 ≤ m_to m < Z.of_nat (length (o_boxes f)) →
     m_length m ≤ Z.of_nat (length bytes) →
     ∃ k' o, Send Random junk p m bytes k = Ok (tt, k') ∧ rest k' (sent o f) ds ∧
       if lost Random (o_chance f) (o_draws f) then o = []
       else ∃ d, o = [(p_to p, d)] ∧
              carries d
                (mkPkt (p_to p) (o_addr f) (m_length m + 12)) m
                (take (Z.to_nat (m_length m)) bytes)) ∧
  (∀ k f d ds p m bs buffer, rest k f (d :: ds) → carries d p m bs →
     0 ≤ m_length m ≤ 40 → m_length m + 12 ≤ p_length p →
     0 ≤ m_to m < Z.of_nat (length (o_boxes f)) → length buffer = 52%nat →
     ∃ k' buffer', PostalDelivery buffer k = Ok (buffer', k') ∧ length buffer' = 52%nat ∧
       rest k' (deliver (Z.to_nat (m_to m)) (mkMail p m bs) f) ds) ∧
  (∀ fuel k f ds (b : nat) x ms, rest k f ds → o_boxes f !! b = Some (x :: ms) →
     ∃ k', Receive (S fuel) (Z.of_nat b) k = Ok (x, k') ∧
       rest k' (set_o_boxes (<[b := ms]> (o_boxes f)) f) ds).
Proof.
  split_and!.
  - apply new_PostOffice_ok.
  - apply Send_carries.
  - apply PostalDelivery_ok.
  - apply Receive_ok.
Qed.

(** C18: mail arrives as it was sent.  Unless the network drops it, what one
    post office sends is a datagram such that, when it is the next to come at
    the machine it is addressed to, a round of the worker there followed by
    [Receive] on the box returns the mail header, the bytes of the message and
    a packet header with the address of the sender, and leaves the receiving
    office as it was. *)
Theorem mail_roundtrip (Random junk : nat → Z) k f ds p m bytes :
  rest k f ds → mail_ok m → is_int (p_to p) → is_int (o_addr f) →
  0 ≤ m_to m < Z.of_nat (length (o_boxes f)) →
  Z.of_nat (length bytes) = m_length m →
  lost Random (o_chance f) (o_draws f) = false →
  ∃ k' d, Send Random junk p m bytes k = Ok (tt, k') ∧
    rest k' (sent [(p_to p, d)] f) ds ∧ legal (p_to p) d ∧
    ∀ l g es buffer, rest l g (d :: es) → length buffer = 52%nat →
      o_boxes g !! Z.to_nat (m_to m) = Some [] →
      ∃ l1 buffer' l2, PostalDelivery buffer l = Ok (buffer', l1) ∧
        Receive 1 (m_to m) l1 =
          Ok (mkMail (mkPkt (p_to p) (o_addr f) (m_length m + 12))
                m bytes, l2) ∧
        rest l2 g es.
Proof.
  intros Hk Hm Hp Ha Hto Hlen Hlost.
  destruct (Send_carries Random junk k f ds p m bytes Hk Hm Hp Ha Hto) as (k' & o & E & Hk' & Ho); [lia|].
  rewrite Hlost in Ho. destruct Ho as (d & -> & Hc). rewrite take_ge in Hc by lia.
  destruct Hm as (_ & _ & Hm). exists k', d. split; [done|]. split; [done|]. split.
  { destruct Hc as [Hs Hpk _ _]. split; [done|]. rewrite Hpk. cbn. lia. }
  intros l g es buffer Hl Hbuf Hbox. pose proof (lookup_lt_Some _ _ _ Hbox) as Hlt.
  destruct (PostalDelivery_ok l g d es _ m bytes buffer Hl Hc Hm) as (l1 & buffer' & E1 & _ & Hl1);
    [cbn; lia|lia|done|].
  unfold deliver in Hl1. rewrite Hbox in Hl1.
  destruct (Receive_ok 0 _ _ _ (Z.to_nat (m_to m)) (mkMail (mkPkt (p_to p) (o_addr f) (m_length m + 12)) m bytes) [] Hl1)
    as (l2 & E2 & Hl2); [by apply list_lookup_insert_eq|].
  rewrite Z2Nat.id in E2 by lia. exists l1, buffer', l2. split; [done|]. split; [exact E2|].
  cbn in Hl2. rewrite list_insert_insert_eq, list_insert_id in Hl2 by done. by destruct g.
Qed.

(** C35: where the post office falls short.  On an empty box [Receive] never
    gives up the processor: the semaphore of [Wait] starts at 1, so that [Wait]
    returns without blocking - the processor is not idle in between - and finds the
    box as empty as it was; there are any number [n] of such rounds, and the loop of
    [Remove] goes through all of them, while the worker that could fill the box is
    not run.  And mail for a box that the receiving office does not have stops that
    machine at an assertion: the sender checks the number against its own boxes. *)
Theorem PostOffice_falls_short k f ds :
  rest k f ds →
  (∀ b n, o_boxes f !! b = Some [] →
     ∃ k1 k2, Acquire (box_lock b) k = Ok (tt, k1) ∧ rounds b n k1 k2 ∧
       messages <$> boxes (world k2) = o_boxes f ∧ idleTicks (stats k2) = idleTicks (stats k1) ∧
       ∀ fuel, Remove_loop (n + fuel) b k1 = Remove_loop fuel b k2) ∧
  (∀ d es p m bs buffer, ds = d :: es → carries d p m bs → 0 ≤ m_length m →
     m_length m + 12 ≤ p_length p → length buffer = 52%nat →
     Z.of_nat (length (o_boxes f)) ≤ m_to m →
     PostalDelivery buffer k = Err AssertFailed).
Proof.
  intros [Hk _]. split.
  - intros b n Hb.
    destruct (post_acquired (box_lock b) _ _ k (post_coming_framed f ds) Hk eq_refl) as (k1 & E1 & Hk1).
    assert (Hh : upd no_locks (box_lock b) true (box_lock b) = true)
      by (unfold upd; by rewrite decide_True).
    destruct (Remove_loop_spins n _ _ _ k1 b (post_coming_framed f ds) Hk1 Hh Hb) as (k2 & Hr & Hk2).
    exists k1, k2. split_and!; [done|done| | |by apply rounds_Remove].
    + by destruct (at_h_dev _ _ _ Hk2) as [(<- & _) _].
    + by eapply rounds_awake.
  - intros d es p m bs buffer -> Hc H0 Hlen Hbuf Hto.
    destruct (PostalDelivery_reads _ _ _ _ _ _ _ _ Hk Hc H0 Hlen Hbuf) as (k2 & b' & _ & _ & _ & ->).
    apply bind_err. destruct (Z.ltb_spec (m_to m) (Z.of_nat (length (o_boxes f)))); [lia|].
    by rewrite andb_false_r.
Qed.

(** A message of three bytes from machine 1 to box 2 of machine 7. *)
Definition reliable : QArith_base.Q := QArith_base.inject_Z 1.
Definition letter : MailHeader := mkMailHdr 2 0 3.

Lemma mail_roundtrip_witness :
  ∃ k k' d, new_PostOffice 1 reliable 3 (mkPkt 0 0 0) (replicate 52 0) [] new_Statistics = Ok k ∧
    Send (λ _, 42) (λ _, 0) (mkPkt 7 0 0) letter [104; 111; 108] k = Ok (tt, k') ∧
    ∃ l l1 buffer l2, new_PostOffice 7 reliable 5 (mkPkt 0 0 0) (replicate 52 1) [d] new_Statistics = Ok l ∧
      PostalDelivery (replicate 52 9) l = Ok (buffer, l1) ∧
      Receive 1 2 l1 = Ok (mkMail (mkPkt 7 1 15) letter [104; 111; 108], l2).
Proof.
  destruct (new_PostOffice_ok 1 reliable 3 (mkPkt 0 0 0) (replicate 52 0) [] new_Statistics) as (k & E & Hk);
    [done|done|].
  destruct (mail_roundtrip (λ _, 42) (λ _, 0) k _ [] (mkPkt 7 0 0) letter [104; 111; 108] Hk)
    as (k' & d & ES & _ & Hd & HR); try (unfold mail_ok, is_int, int_min, int_max; cbn; lia); [reflexivity|].
  destruct (new_PostOffice_ok 7 reliable 5 (mkPkt 0 0 0) (replicate 52 1) [d] new_Statistics) as (l & El & Hl);
    [by constructor|done|].
  destruct (HR l _ [] (replicate 52 9) Hl) as (l1 & b' & l2 & E1 & E2 & _); [reflexivity|reflexivity|].
  exists k, k', d. split; [exact E|]. split; [exact ES|]. exists l, l1, b', l2. by split_and!.
Defined.

Lemma PostOffice_falls_short_witness :
  ∃ k k1 k2, new_PostOffice 1 reliable 3 (mkPkt 0 0 0) (replicate 52 0) [] new_Statistics = Ok k ∧
    Acquire (box_lock 2) k = Ok (tt, k1) ∧ rounds 2 1000 k1 k2 ∧
    idleTicks (stats k2) = idleTicks (stats k1) ∧ messages <$> boxes (world k2) = [[]; []; []].
Proof.
  destruct (new_PostOffice_ok 1 reliable 3 (mkPkt 0 0 0) (replicate 52 0) [] new_Statistics) as (k & E & Hk);
    [done|done|].
  destruct (proj1 (PostOffice_falls_short k _ [] Hk) 2%nat 1000%nat eq_refl) as (k1 & k2 & E1 & Hr & Hb & Hi & _).
  exists k, k1, k2. split; [exact E|]. split; [exact E1|]. split; [exact Hr|]. split; [exact Hi|exact Hb].
Defined.

End Post.
