(* ===== verification/Confined.v ===== *)
(** * Confined: what runs for a process stays in its frames

    A user program reaches memory only through its page table, and so does the
    kernel when it copies on behalf of a program.  [confined k k'] is what both
    guarantee: between [k] and [k'] only bytes of frames that a valid entry of
    the table maps have changed, and of the table itself only use and dirty
    bits.  It holds of [ReadMem] and [WriteMem], hence of every instruction
    (machine/mipssim.cc) and of the copying routines of userprog/user.cc. *)

From S2P Require Import Prelude Scheduler Machine Mips Disk FileSys Console Syscall.

(** The entries of two tables map the same pages to the same frames. *)
Definition same_entry (e e' : TranslationEntry) : Prop :=
  physicalPage e' = physicalPage e ∧ valid e' = valid e ∧ readOnly e' = readOnly e.
Definition same_table (o o' : option (list TranslationEntry)) : Prop :=
  match o, o' with
  | Some pt, Some pt' => Forall2 same_entry pt pt'
  | None, None => True
  | _, _ => False
  end.

(** The address [a] of main memory lies in a frame of a valid entry. *)
Definition mapped (pt : list TranslationEntry) (a : nat) : Prop :=
  ∃ e, e ∈ pt ∧ valid e = true ∧ uint (physicalPage e) = Z.of_nat a / PageSize.

Record confined_to (k k' : Machine) : Prop := {
  cf_tlb : tlb k' = None;
  cf_size : pageTableSize k' = pageTableSize k;
  cf_table : same_table (m_pageTable k) (m_pageTable k');
  cf_length : length (mainMemory k') = length (mainMemory k);
  cf_regs : length (m_registers k') = length (m_registers k);
  cf_memory a : (∀ pt, m_pageTable k = Some pt → ¬ mapped pt a) → mainMemory k' !! a = mainMemory k !! a
}.

(** A machine with a page table and no TLB, as the kernel configures it. *)
Definition confined (k k' : Machine) : Prop := tlb k = None → confined_to k k'.

#[export] Instance same_entry_equiv : Equivalence same_entry.
Proof.
  split; unfold same_entry; [by intros e|by intros e1 e2 (? & ? & ?)|].
  intros e1 e2 e3 (? & ? & ?) (? & ? & ?). split_and!; congruence.
Qed.

#[export] Instance same_table_preorder : PreOrder same_table.
Proof.
  split.
  - intros [pt|]; [|done]. cbn. reflexivity.
  - intros [p1|] [p2|] [p3|]; cbn; try done. intros H1 H2. etrans; eassumption.
Qed.

Lemma mapped_same pt pt' a : Forall2 same_entry pt pt' → mapped pt' a → mapped pt a.
Proof.
  intros HF (e' & He' & Hv & Hp). apply list_elem_of_lookup in He' as [i Hi].
  destruct (Forall2_lookup_r _ _ _ _ _ HF Hi) as (e & He & (H1 & H2 & _)).
  exists e. split; [by eapply list_elem_of_lookup_2|]. by rewrite <- H1, <- H2.
Qed.

#[export] Instance confined_preorder : PreOrder confined.
Proof.
  split; [intros k Ht; split; try done; reflexivity|]. intros k1 k2 k3 H12 H23 Ht. destruct (H12 Ht) as [A1 A2 A3 A4 A6 A5].
  destruct (H23 A1) as [B1 B2 B3 B4 B6 B5]. split; [done|congruence|by etrans|congruence|congruence|].
  intros a Ha. rewrite B5; [by apply A5|]. intros pt2 Hpt2 Hm.
  destruct (m_pageTable k1) as [pt1|] eqn:E1; [|by rewrite Hpt2 in A3].
  rewrite Hpt2 in A3. apply (Ha pt1 eq_refl). by eapply mapped_same.
Qed.

(** ** Registers *)

Lemma confined_regs r k : tlb k = None → length r = length (m_registers k) → confined_to k (set_regs r k).
Proof. intros Ht Hl. by split. Qed.
Lemma confined_reg_get i : respects confined (reg_get i).
Proof. intros k a k' H. unfold reg_get in H. repeat case_match; simplify_eq. reflexivity. Qed.
Lemma confined_reg_set i v : respects confined (reg_set i v).
Proof. intros k a k' H Ht. unfold reg_set in H. case_match; simplify_eq. apply confined_regs; [done|by rewrite length_insert]. Qed.
#[export] Hint Resolve confined_reg_get confined_reg_set : respects.

Lemma confined_DelayedLoad r v : respects confined (DelayedLoad r v).
Proof. unfold DelayedLoad. respects_tac. Qed.
Lemma confined_ReadRegister i : respects confined (ReadRegister i).
Proof. unfold ReadRegister. respects_tac. Qed.
Lemma confined_WriteRegister i v : respects confined (WriteRegister i v).
Proof. unfold WriteRegister. respects_tac. Qed.
Lemma confined_W i v : respects confined (W i v).
Proof. unfold W. respects_tac. Qed.
#[export] Hint Resolve confined_DelayedLoad confined_ReadRegister confined_WriteRegister confined_W : respects.

(** ** Memory *)

(** A translation changes use and dirty bits, and gives an address in a frame
    of a valid entry, with room for the access. *)
Lemma Translate_confined addr size writing k r k' : Translate addr size writing k = Ok (r, k') → tlb k = None →
  size = 1 ∨ size = 2 ∨ size = 4 →
  confined_to k k' ∧ mainMemory k' = mainMemory k ∧
  match r with
  | inl _ => True
  | inr pa => 0 ≤ pa ∧ ∃ pt e, m_pageTable k = Some pt ∧ e ∈ pt ∧ valid e = true ∧
      pa / PageSize = uint (physicalPage e) ∧ (pa + size - 1) / PageSize = uint (physicalPage e)
  end.
Proof.
  intros H Ht Hs. assert (Hrefl : confined_to k k) by (by apply (reflexivity (R := confined) k)).
  unfold Translate in H. destruct ((_ && _) || _) eqn:Em; [by binds H|].
  apply bind_Ok in H as (k0 & k1 & E & H). unfold get in E. injection E as <- <-.
  apply bind_Ok in H as ([] & k1 & (_ & -> & _)%ASSERT_Ok & H).
  apply bind_Ok in H as ([] & k1 & (_ & -> & _)%ASSERT_Ok & H).
  apply bind_Ok in H as (x & k1 & E & H). unfold find_entry in E.
  apply bind_Ok in E as (k0 & k2 & E0 & E). unfold get in E0. injection E0 as <- <-. rewrite Ht in E.
  case_bool_decide; [by binds E; binds H|].
  apply bind_Ok in E as (pt & k2 & E0 & E). destruct (m_pageTable k) as [pt'|] eqn:Ept; [|done].
  cbn in E0. unfold mret, M_ret in E0. injection E0 as <- <-.
  destruct (pt' !! _) as [e|] eqn:Ee; [|done]. binds E.
  destruct (valid e) eqn:Ev; cbn [negb] in H; [|by binds H].
  destruct (readOnly e && writing); [by binds H|]. case_bool_decide as Hp; [by binds H|].
  apply bind_Ok in H as ([] & k1 & E & H). unfold update_entry in E. unfold modify in E. injection E as <-.
  apply bind_Ok in H as ([] & k1 & (Hr%bool_decide_eq_true & -> & _)%ASSERT_Ok & H). binds H. rewrite Ht, Ept.
  set (i := Z.to_nat (uint addr / PageSize)) in *. split; [|split; [done|]].
  - split; cbn; try done. rewrite Ept. cbn.
    apply Forall2_same_length_lookup. rewrite length_insert. split; [done|].
    intros j x y Hx Hy. destruct (decide (j = i)) as [->|Hj].
    + rewrite list_lookup_insert_eq in Hy by (by eapply lookup_lt_Some). simplify_eq. done.
    + rewrite list_lookup_insert_ne in Hy by done. by simplify_eq.
  - split; [tauto|]. exists pt', e. split; [done|]. split; [by eapply list_elem_of_lookup_2|]. split; [done|].
    assert (Hal : misaligned addr size = false) by (by rewrite <- misaligned_land).
    pose proof (uint_range (physicalPage e)) as Hu.
    destruct (aligned_in_page addr size) as [Ho Ho']; [done|done|].
    unfold PageSize, SectorSize in *. clear -Ho Ho' Hs.
    split; symmetry; [apply (Z.div_unique _ _ _ (uint addr `mod` 128))|
                      apply (Z.div_unique _ _ _ (uint addr `mod` 128 + size - 1))]; lia.
Qed.

(** ** Programs and the kernel's copies *)

Section Confined.
Context (h : ExceptionType → M Machine unit) (Hh : ∀ x, respects confined (h x)).

#[local] Hint Resolve Hh : respects.

Lemma confined_RaiseException x a : respects confined (RaiseException h x a).
Proof. unfold RaiseException. respects_tac. Qed.
#[local] Hint Resolve confined_RaiseException : respects.

Lemma confined_Translate addr size w : access_size size → respects confined (Translate addr size w).
Proof. intros Hs k r k' H Ht. by destruct (Translate_confined _ _ _ _ _ _ H Ht Hs). Qed.
#[local] Hint Resolve confined_Translate : respects.

Lemma confined_ReadMem addr size : access_size size → respects confined (ReadMem h addr size).
Proof. intros Hs. unfold ReadMem. respects_tac. Qed.

(** The bytes of an access are in the frame of the entry that translates it. *)
Lemma in_frame pa size p a : 0 ≤ pa → 0 < size → pa / PageSize = p → (pa + size - 1) / PageSize = p →
  (Z.to_nat pa ≤ a < Z.to_nat pa + Z.to_nat size)%nat → p = Z.of_nat a / PageSize.
Proof. unfold PageSize, SectorSize. lia. Qed.

Lemma confined_WriteMem addr size v : access_size size → respects confined (WriteMem h addr size v).
Proof.
  intros Hs k b k' H Ht. unfold WriteMem in H. apply bind_Ok in H as (r & k1 & E & H).
  destruct (Translate_confined _ _ _ _ _ _ E Ht Hs) as (Hc & Hm & Hr). destruct r as [x|pa].
  { apply bind_Ok in H as ([] & k2 & E2 & H). binds H.
    apply (transitivity (R := confined) (λ _, Hc) (confined_RaiseException _ _ _ _ _ E2) Ht). }
  destruct Hr as (H0 & pt & e & Hpt & He & Hv & Hp & Hp').
  assert (∃ n u, size = Z.of_nat n ∧ k' = set_memory (store_bytes n (Z.to_nat pa) u (mainMemory k1)) k1)
    as (n & u & Hn & ->).
  { destruct Hs as [->|[->| ->]]; cbn -[store_memory] in H; apply bind_Ok in H as ([] & k2 & E2 & H);
      apply store_memory_Ok in E2 as ->; binds H; [exists 1%nat|exists 2%nat|exists 4%nat]; eexists; by split. }
  rewrite Hm. destruct Hc as [C1 C2 C3 C4 C6 C5]. split; cbn; [done..|by rewrite length_store|done|].
  intros a Ha. apply store_other. destruct (decide (a < Z.to_nat pa ∨ Z.to_nat pa + n ≤ a)%nat) as [|Hin]; [done|].
  destruct (Ha pt Hpt). exists e. split; [done|]. split; [done|].
  apply (in_frame pa size); [done|unfold access_size in Hs; lia|done|done|lia].
Qed.
#[local] Hint Resolve confined_ReadMem confined_WriteMem : respects.
#[local] Hint Extern 1 (access_size _) => unfold access_size; lia : respects.

Lemma confined_trap x a : respects confined (trap h x a).
Proof. unfold trap. respects_tac. Qed.
#[local] Hint Resolve confined_trap : respects.

Lemma confined_execute i pc : respects confined (execute h i pc).
Proof.
  unfold execute, exec_1, exec_2, exec_3, exec_4, exec_5, with_rs_rt, merge_base.
  destruct (i_opCode i); cbv zeta; respects_tac.
Qed.
#[local] Hint Resolve confined_execute : respects.

Lemma confined_OneInstruction : respects confined (OneInstruction h).
Proof. unfold OneInstruction. respects_tac. Qed.

End Confined.

(** ** The kernel's copies, userprog/user.cc *)

Lemma confined_unexpected x : respects confined (unexpected x).
Proof. unfold unexpected. respects_tac. Qed.
#[export] Hint Resolve confined_unexpected : respects.

Lemma confined_read_char a v : respects confined (read_char a v).
Proof. unfold read_char. respects_tac. apply confined_ReadMem; [auto with respects|by left]. Qed.
#[export] Hint Resolve confined_read_char : respects.

Lemma confined_in_array cap i : respects confined (in_array cap i).
Proof. unfold in_array. respects_tac. Qed.
#[export] Hint Resolve confined_in_array : respects.

Lemma confined_readStr_loop fuel cap a i v : respects confined (readStr_loop fuel cap a i v).
Proof. revert i v. induction fuel as [|fuel IH]; intros i v; cbn [readStr_loop]; respects_tac. Qed.
Lemma confined_readBuff_loop n a i v : respects confined (readBuff_loop n a i v).
Proof. revert i v. induction n as [|n IH]; intros i v; cbn [readBuff_loop]; respects_tac. Qed.
Lemma confined_writeBuff_loop buff a i : respects confined (writeBuff_loop buff a i).
Proof.
  revert i. induction buff as [|c buff IH]; intros i; cbn [writeBuff_loop]; respects_tac.
  apply confined_WriteMem; [auto with respects|by left].
Qed.
Lemma confined_skip_loop fuel d n v : respects confined (skip_loop fuel d n v).
Proof. revert n v. induction fuel as [|fuel IH]; intros n v; cbn [skip_loop]; respects_tac. Qed.
Lemma confined_special_loop fuel cap d n i v : respects confined (special_loop fuel cap d n i v).
Proof. revert n i v. induction fuel as [|fuel IH]; intros n i v; cbn [special_loop]; respects_tac. Qed.
#[export] Hint Resolve confined_readStr_loop confined_readBuff_loop confined_writeBuff_loop confined_skip_loop
  confined_special_loop : respects.

Lemma confined_readStrFromUsr cap a : respects confined (readStrFromUsr cap a).
Proof. unfold readStrFromUsr. respects_tac. Qed.
Lemma confined_readBuffFromUsr a n : respects confined (readBuffFromUsr a n).
Proof. unfold readBuffFromUsr. respects_tac. Qed.
Lemma confined_writeBuffToUsr b a n : respects confined (writeBuffToUsr b a n).
Proof. unfold writeBuffToUsr. respects_tac. Qed.
Lemma confined_readStrFromUsrSpecial cap a d : respects confined (readStrFromUsrSpecial cap a d).
Proof. unfold readStrFromUsrSpecial. respects_tac. Qed.
Lemma confined_increaseProgramCounter : respects confined increaseProgramCounter.
Proof. unfold increaseProgramCounter. respects_tac. Qed.
#[export] Hint Resolve confined_readStrFromUsr confined_readBuffFromUsr confined_writeBuffToUsr
  confined_readStrFromUsrSpecial confined_increaseProgramCounter : respects.

(** ** The file system calls *)

Section Calls.
Context {D T : Type} `{!SectorDevice D} `{!Terminal T}.
Context (junk : Z → Z) (fs : FileSystem).

Definition sys_confined (s s' : sys D T) : Prop := confined (s_mach s) (s_mach s').
#[export] Instance sys_confined_preorder : PreOrder sys_confined.
Proof. split; unfold sys_confined; [by intros s|intros s1 s2 s3 ? ?; by etrans]. Qed.

Lemma confined_on_mach {A} (m : M Machine A) : respects confined m → respects sys_confined (on_mach (D := D) (T := T) m).
Proof. intros Hm s a s' H. unfold on_mach in H. destruct (m (s_mach s)) as [[]|] eqn:E; simplify_eq. by apply Hm in E. Qed.
Lemma confined_on_disk {A} (m : M D A) : respects sys_confined (on_disk (T := T) m).
Proof. intros s a s' H. unfold on_disk in H. destruct (m (s_disk s)) as [[]|]; simplify_eq. by unfold sys_confined; cbn. Qed.
Lemma confined_on_term {A} (m : M T A) : respects sys_confined (on_term (D := D) m).
Proof. intros s a s' H. unfold on_term in H. destruct (m (s_term s)) as [[]|]; simplify_eq. by unfold sys_confined; cbn. Qed.
Lemma confined_desc_get id : respects sys_confined (desc_get (D := D) (T := T) id).
Proof. intros s a s' H. unfold desc_get in H. case_match; simplify_eq. reflexivity. Qed.
#[local] Hint Resolve confined_on_mach confined_on_disk confined_on_term confined_desc_get : respects.
Lemma confined_desc_set id f : respects sys_confined (desc_set (D := D) (T := T) id f).
Proof. unfold desc_set. respects_tac. intros s x s' [= <- <-]. by unfold sys_confined; cbn. Qed.
Lemma confined_open_file id : respects sys_confined (open_file (D := D) (T := T) id).
Proof. unfold open_file. respects_tac. Qed.
Lemma confined_AssignId_loop fuel i : respects sys_confined (AssignId_loop (D := D) (T := T) fuel i).
Proof. revert i. induction fuel as [|fuel IH]; intros i; cbn [AssignId_loop]; respects_tac. Qed.
Lemma confined_console_read n : respects sys_confined (console_read (D := D) (T := T) n).
Proof. induction n as [|n IH]; cbn [console_read]; respects_tac. Qed.
Lemma confined_console_write b : respects sys_confined (console_write (D := D) (T := T) b).
Proof. induction b as [|c b IH]; cbn [console_write]; respects_tac. Qed.
#[local] Hint Resolve confined_desc_set confined_open_file confined_AssignId_loop confined_console_read
  confined_console_write : respects.

(** Every call on files, and any handler of the other calls that is confined. *)
Lemma confined_ExceptionHandler pc undef which : (∀ type, respects sys_confined (pc type)) →
  respects sys_confined (ExceptionHandler junk fs pc undef which).
Proof.
  intros Hpc. unfold ExceptionHandler, do_Create, do_Read, do_Write, do_Open, do_Close, AssignId. respects_tac.
Qed.

End Calls.
