(* ===== verification/Calm.v ===== *)
(** * Calm: what the kernel's thread code leaves alone

    The process layer of userprog/exception.cc relies on the thread code for
    more than it calls: while a process waits, sends or is switched out, its
    address space, its process identifier and its control stack stay its own,
    and when it gets the processor back the page table of the machine is again
    its own.  [calm] and [moved] state this of the operations of Scheduler.v
    and Synch.v; [yields] states which frames they leave on a stack. *)

From S2P Require Import Prelude Interrupt Scheduler Synch.

(** ** The scheduler *)

(** What a process owns in its control block. *)
Definition same_join (th th' : Thread) : Prop :=
  th_join th' = th_join th ∧ th_portJoin th' = th_portJoin th.
Record same_proc (th th' : Thread) : Prop := {
  sp_space : th_space th' = th_space th;
  sp_pid : th_pid th' = th_pid th;
  sp_join : same_join th th';
  sp_fresh : th_fresh th' = true → th_fresh th = true
}.

#[export] Instance same_proc_preorder : PreOrder same_proc.
Proof.
  split; [by intros th|]. intros a b c [H1 H2 [H3 H4] H5] [K1 K2 [K3 K4] K5].
  split; [congruence|congruence|split; congruence|auto].
Qed.

Lemma same_proc_back (m m' : gmap Z Thread) t th : option_Forall2 same_proc (m !! t) (m' !! t) → m' !! t = Some th →
  ∃ th0, m !! t = Some th0 ∧ same_proc th0 th.
Proof. intros H Hth. rewrite Hth in H. inversion H; subst. eauto. Qed.

Lemma same_proc_on (m m' : gmap Z Thread) t th : option_Forall2 same_proc (m !! t) (m' !! t) → m !! t = Some th →
  ∃ th', m' !! t = Some th' ∧ same_proc th th'.
Proof. intros H Hth. rewrite Hth in H. inversion H; subst. eauto. Qed.

Record calm_s (s s' : sched) : Prop := {
  cs_current : currentThread s' = currentThread s;
  cs_table : machine_pageTable s' = machine_pageTable s;
  cs_doomed : threadToBeDestroyed s' = threadToBeDestroyed s;
  cs_regs : length (registers s') = length (registers s);
  cs_threads t : option_Forall2 same_proc (threads s !! t) (threads s' !! t)
}.

#[export] Instance calm_s_preorder : PreOrder calm_s.
Proof.
  split; [intros s; split; done|].
  intros a b c [A1 A2 A3 A5 A4] [B1 B2 B3 B5 B4]. split; [congruence..|]. intros t. etrans; [apply A4|apply B4].
Qed.

Section CalmSched.

Lemma calm_thread_at t : respects calm_s (thread_at t).
Proof. intros s a s' H. unfold thread_at in H. case_match; simplify_eq. reflexivity. Qed.

Lemma calm_thread_upd t f : (∀ th, same_proc th (f th)) → respects calm_s (thread_upd t f).
Proof.
  intros Hf s a s' H. unfold thread_upd, thread_at in H. apply bind_Ok in H as (th & s1 & E & H).
  destruct (threads s !! t) as [th'|] eqn:Et; simplify_eq. binds H. split; try done. intros t'. cbn.
  destruct (decide (t' = t)) as [->|Hne]; [rewrite lookup_insert_eq, Et; by constructor|by rewrite lookup_insert_ne].
Qed.

Lemma calm_queue_at i : respects calm_s (queue_at i).
Proof. intros s a s' H. unfold queue_at in H. repeat case_match; simplify_eq. reflexivity. Qed.
Lemma calm_queue_set i q : respects calm_s (queue_set i q).
Proof. intros s a s' H. unfold queue_set, modify in H. injection H as _ <-. by split. Qed.
Lemma calm_slevel l : respects calm_s (modify (set_slevel l)).
Proof. intros s a s' H. unfold modify in H. injection H as _ <-. by split. Qed.
Lemma calm_read_reg i : respects calm_s (read_reg i).
Proof. intros s a s' H. unfold read_reg in H. repeat case_match; simplify_eq. reflexivity. Qed.
Lemma calm_write_reg i v : respects calm_s (write_reg i v).
Proof. intros s a s' H. unfold write_reg in H. repeat case_match; simplify_eq. split; try done. cbn. by rewrite length_insert. Qed.

End CalmSched.

#[export] Hint Resolve calm_thread_at calm_queue_at calm_queue_set calm_slevel calm_read_reg calm_write_reg : respects.
#[export] Hint Extern 1 (respects calm_s (thread_upd _ _)) => apply calm_thread_upd; intros ?; split; done : respects.

Section CalmOps.

Lemma calm_queue_Append i t : respects calm_s (queue_Append i t).
Proof. unfold queue_Append. respects_tac. Qed.
Lemma calm_queue_Prepend i t : respects calm_s (queue_Prepend i t).
Proof. unfold queue_Prepend. respects_tac. Qed.
Lemma calm_queue_Remove i : respects calm_s (queue_Remove i).
Proof. unfold queue_Remove. respects_tac. Qed.
Lemma calm_queue_IsEmpty i : respects calm_s (queue_IsEmpty i).
Proof. unfold queue_IsEmpty. respects_tac. Qed.
Hint Resolve calm_queue_Append calm_queue_Prepend calm_queue_Remove calm_queue_IsEmpty : respects.

Lemma calm_ReadyToRun t : respects calm_s (ReadyToRun t).
Proof. unfold ReadyToRun. respects_tac. Qed.
Lemma calm_FindNext_loop p : respects calm_s (FindNext_loop p).
Proof. induction p as [|p IH]; cbn [FindNext_loop]; respects_tac. Qed.
Hint Resolve calm_FindNext_loop : respects.
Lemma calm_FindNextToRun : respects calm_s FindNextToRun.
Proof. unfold FindNextToRun. respects_tac. Qed.
Lemma calm_SaveUserState t : respects calm_s (SaveUserState t).
Proof. unfold SaveUserState. respects_tac. Qed.
Lemma calm_RestoreUserState t : respects calm_s (RestoreUserState t).
Proof. unfold RestoreUserState. respects_tac. Qed.
Lemma calm_CheckOverflow t : respects calm_s (CheckOverflow t).
Proof. unfold CheckOverflow. respects_tac. Qed.
Lemma calm_Sleep_begin t : respects calm_s (Sleep_begin t).
Proof. unfold Sleep_begin. respects_tac. Qed.
Lemma calm_Change_loop fuel i p th h : respects calm_s (Change_loop fuel i p th h).
Proof. induction fuel as [|fuel IH]; cbn [Change_loop]; respects_tac. Qed.
Hint Resolve calm_Change_loop : respects.
Lemma calm_ChangeQueuePriority th p : respects calm_s (ChangeQueuePriority th p).
Proof. unfold ChangeQueuePriority. respects_tac. Qed.

End CalmOps.

#[export] Hint Resolve calm_ReadyToRun calm_FindNextToRun calm_SaveUserState calm_RestoreUserState
  calm_CheckOverflow calm_Sleep_begin calm_ChangeQueuePriority : respects.

(** The thread that has the processor has left [ThreadRoot]. *)
Definition begun (s : sched) : Prop := ∀ th, threads s !! currentThread s = Some th → th_fresh th = false.

(** A step that may switch: no control block is lost but the one that waits to
    be destroyed, and the thread that has the processor at the end is the one
    that had it, or one that has just been forked, or one whose page table is
    loaded. *)
Record moved (s s' : sched) : Prop := {
  mv_threads t : threadToBeDestroyed s ≠ Some t → option_Forall2 same_proc (threads s !! t) (threads s' !! t);
  mv_doomed t : threadToBeDestroyed s' = Some t → threadToBeDestroyed s = Some t;
  mv_destroyed t th : threadToBeDestroyed s = Some t → threads s' !! t = Some th →
    ∃ th0, threads s !! t = Some th0 ∧ same_proc th0 th;
  mv_table :
    currentThread s' = currentThread s ∧ machine_pageTable s' = machine_pageTable s ∨
    (∃ th, threads s !! currentThread s' = Some th ∧ th_fresh th = true) ∨
    (∀ th sp, threads s' !! currentThread s' = Some th → th_space th = Some sp → machine_pageTable s' = Some sp);
  mv_begun : begun s → begun s';
  mv_regs : length (registers s') = length (registers s)
}.

Lemma calm_begun s s' : calm_s s s' → begun s → begun s'.
Proof.
  intros [H1 _ _ _ H4] Hb th Hth. rewrite H1 in Hth. destruct (same_proc_back _ _ _ _ (H4 _) Hth) as (th0 & H0 & [_ _ _ Hf]).
  specialize (Hb th0 H0). destruct (th_fresh th); [|done]. by rewrite Hf in Hb.
Qed.

Lemma calm_moved s s' : calm_s s s' → moved s s'.
Proof.
  intros Hc. pose proof Hc as [H1 H2 H3 H5 H4]. split; [auto|congruence| |by left|by apply calm_begun|done].
  intros t th Ht Hth. specialize (H4 t). rewrite Hth in H4. inversion H4; subst. eauto.
Qed.

Lemma calm_then_moved s s1 s' : calm_s s s1 → moved s1 s' → moved s s'.
Proof.
  intros Hc [M1 M2 M3 M4 M5 M6]. pose proof Hc as [C1 C2 C3 C5 C4]. split; [| | | |intros Hb; by eapply M5, calm_begun|congruence].
  - intros t Ht. rewrite <- C3 in Ht. etrans; [apply C4|by apply M1].
  - intros t Ht. rewrite <- C3. auto.
  - intros t th Ht Hth. rewrite <- C3 in Ht. destruct (M3 t th Ht Hth) as (th1 & H1 & Hs).
    destruct (same_proc_back _ _ _ _ (C4 t) H1) as (th0 & H0 & Hs0). exists th0. split; [done|]. by etrans.
  - rewrite <- C1, <- C2. destruct M4 as [M4|[(th & Hth & Hf)|M4]]; [by left| |by right; right].
    right. left. destruct (same_proc_back _ _ _ _ (C4 _) Hth) as (th0 & H0 & [_ _ _ Hs]). eauto.
Qed.

Section Switch.

(** [Scheduler::Run] up to [SWITCH]. *)
Lemma Run_before_effect n s s' : Run_before n s = Ok (tt, s') →
  currentThread s' = n ∧ threadToBeDestroyed s' = threadToBeDestroyed s ∧ length (registers s') = length (registers s) ∧
  ∀ t, option_Forall2 same_proc (threads s !! t) (threads s' !! t).
Proof.
  intros H. unfold Run_before in H. apply bind_Ok in H as (o & s1 & E & H). binds E.
  apply bind_Ok in H as (old & s2 & E1%calm_thread_at & H).
  apply bind_Ok in H as ([] & s3 & E2 & H).
  assert (C3 : calm_s s2 s3).
  { destruct (th_space old); [|by binds E2]. apply bind_Ok in E2 as ([] & s4 & E2%calm_SaveUserState & E3).
    unfold space_SaveState in E3. by binds E3. }
  apply bind_Ok in H as ([] & s4 & E4%calm_CheckOverflow & H).
  apply bind_Ok in H as ([] & s5 & E5 & H). binds E5.
  apply (calm_thread_upd n (th_setStatus RUNNING)) in H; [|by intros ?; split].
  assert (C : calm_s s s4) by (by repeat (etrans; [eassumption|])).
  destruct C as [K1 K2 K3 K5 K4], H as [H1 H2 H3 H5 H4]. cbn in *. split; [done|]. split; [congruence|]. split; [congruence|].
  intros t. etrans; [apply K4|apply H4].
Qed.

(** What a thread does when it comes back out of [SWITCH]. *)
Lemma Run_after_effect s s' : Run_after s = Ok (tt, s') →
  currentThread s' = currentThread s ∧ threadToBeDestroyed s' = None ∧ length (registers s') = length (registers s) ∧
  (∀ t, threadToBeDestroyed s ≠ Some t → option_Forall2 same_proc (threads s !! t) (threads s' !! t)) ∧
  (∀ t, threadToBeDestroyed s = Some t → threads s' !! t = None) ∧
  ∀ th sp, threads s' !! currentThread s' = Some th → th_space th = Some sp → machine_pageTable s' = Some sp.
Proof.
  intros H. unfold Run_after in H. apply bind_Ok in H as (d & s1 & E & H). binds E.
  apply bind_Ok in H as ([] & s2 & E2 & H).
  assert (currentThread s2 = currentThread s ∧ threadToBeDestroyed s2 = None ∧ registers s2 = registers s ∧
    (∀ t, threadToBeDestroyed s ≠ Some t → threads s2 !! t = threads s !! t) ∧
    (∀ t, threadToBeDestroyed s = Some t → threads s2 !! t = None)) as (D1 & D2 & D5 & D3 & D4).
  { destruct (threadToBeDestroyed s) as [t|] eqn:Ed; [|by binds E2].
    unfold delete_Thread in E2. apply bind_Ok in E2 as ([] & s3 & E2 & E3). binds E3.
    apply bind_Ok in E2 as (x & s4 & E & E2). binds E.
    apply bind_Ok in E2 as ([] & s5 & (_ & -> & _)%ASSERT_Ok & E2).
    apply bind_Ok in E2 as (th & s5 & E & E2). unfold thread_at in E. case_match; simplify_eq. binds E2. cbn.
    split_and!; [done|done|done| |].
    - intros t' Hne. apply lookup_delete_ne. congruence.
    - intros t' [= ->]. apply lookup_delete_eq. }
  apply bind_Ok in H as (c & s3 & E & H). binds E.
  apply bind_Ok in H as (th & s4 & E & H). unfold thread_at in E.
  destruct (threads s2 !! currentThread s2) as [th'|] eqn:Eth; [|done]. injection E as <- <-.
  assert (C : ∃ s5, calm_s s2 s5 ∧ (∀ sp, th_space th' = Some sp → machine_pageTable s' = Some sp) ∧
    currentThread s' = currentThread s5 ∧ threadToBeDestroyed s' = threadToBeDestroyed s5 ∧ threads s' = threads s5 ∧
    registers s' = registers s5).
  { destruct (th_space th') as [sp|]; [|binds H; by exists s2].
    apply bind_Ok in H as ([] & s5 & E5%calm_RestoreUserState & H). unfold space_RestoreState in H. binds H.
    exists s5. split; [done|]. by split_and!; [intros ? [= ->]|..]. }
  destruct C as (s5 & [K1 K2 K3 K5 K4] & Hpt & C1 & C2 & C3 & C4).
  split_and!; [congruence|congruence|congruence| | |].
  - intros t Ht. rewrite C3, <- (D3 t Ht). apply K4.
  - intros t Ht. rewrite C3. specialize (K4 t). rewrite (D4 t Ht) in K4. by inversion K4.
  - intros th sp Hth Hsp. rewrite C1, C3, K1 in Hth.
    destruct (same_proc_back _ _ _ _ (K4 _) Hth) as (th0 & H0 & [Hs _ _ _]). simplify_eq. apply Hpt. congruence.
Qed.

Lemma Run_moved n s s' : Run n s = Ok (tt, s') → moved s s'.
Proof.
  intros H. unfold Run in H. apply bind_Ok in H as ([] & s1 & (B1 & B2 & B4 & B3)%Run_before_effect & H).
  apply bind_Ok in H as (th & s2 & E & H). unfold thread_at in E.
  destruct (threads s1 !! n) as [th'|] eqn:Eth; [|done]. injection E as <- <-. destruct (th_fresh th') eqn:Ef.
  - assert (Hn : threads s' !! n = Some (th_setStack (th_stack th') false th')).
    { unfold thread_upd, thread_at in H. apply bind_Ok in H as (x & s3 & E & H). rewrite Eth in E.
      injection E as <- <-. binds H. cbn. by rewrite lookup_insert_eq. }
    apply (calm_thread_upd n (λ th, th_setStack (th_stack th) false th)) in H; [|by intros ?; split].
    destruct H as [H1 H2 H3 H5 H4]. split; [| | | | |congruence].
    + intros t _. etrans; [apply B3|apply H4].
    + congruence.
    + intros t th _ Hth. destruct (same_proc_back _ _ _ _ (H4 t) Hth) as (th1 & Hth1 & Hs1).
      destruct (same_proc_back _ _ _ _ (B3 t) Hth1) as (th0 & Hth0 & Hs0). exists th0. split; [done|]. by etrans.
    + right. left. rewrite H1, B1. destruct (same_proc_back _ _ _ _ (B3 n) Eth) as (th0 & Hth0 & [_ _ _ Hf]). eauto.
    + intros _ th Hth. rewrite H1, B1, Hn in Hth. by injection Hth as <-.
  - apply Run_after_effect in H as (A1 & A2 & A6 & A3 & A4 & A5). rewrite B2 in *. split; [| | | | |congruence].
    + intros t Ht. etrans; [apply B3|by apply A3].
    + congruence.
    + intros t th Ht Hth. by rewrite (A4 t Ht) in Hth.
    + by right; right.
    + intros _ th Hth. rewrite A1, B1 in Hth. destruct (decide (threadToBeDestroyed s = Some n)) as [Hd|Hd].
      * by rewrite (A4 n Hd) in Hth.
      * destruct (same_proc_back _ _ _ _ (A3 n Hd) Hth) as (th0 & Hth0 & [_ _ _ Hf]). simplify_eq.
        destruct (th_fresh th); [|done]. by rewrite <- Ef, Hf.
Qed.

Lemma Sleep_round_moved s b s' : Sleep_round s = Ok (b, s') → moved s s'.
Proof.
  intros H. unfold Sleep_round in H. apply bind_Ok in H as (o & s1 & E%calm_FindNextToRun & H).
  destruct o as [n|]; [|binds H; by apply calm_moved].
  apply bind_Ok in H as ([] & s2 & E2%Run_moved & H). binds H. by eapply calm_then_moved.
Qed.

Lemma Yield_moved t s b s' : Yield t s = Ok (b, s') → moved s s'.
Proof.
  intros H. unfold Yield in H. apply bind_Ok in H as (l & s1 & E & H). binds E.
  apply bind_Ok in H as ([] & s2 & E2%calm_slevel & H).
  apply bind_Ok in H as (c & s3 & E & H). binds E.
  apply bind_Ok in H as ([] & s4 & (_ & -> & _)%ASSERT_Ok & H).
  apply bind_Ok in H as (o & s5 & E5%calm_FindNextToRun & H).
  assert (C : calm_s s s5) by (by etrans). destruct o as [n|].
  - apply bind_Ok in H as ([] & s6 & E6%calm_ReadyToRun & H).
    apply bind_Ok in H as ([] & s7 & E7%Run_moved & H). binds H.
    eapply calm_then_moved; [|exact E7]. by etrans.
  - apply bind_Ok in H as ([] & s6 & E6%calm_slevel & H). binds H. apply calm_moved. by etrans.
Qed.

End Switch.

(** ** The synchronization routines *)

(** No semaphore, lock or port is freed. *)
Record grows (k k' : kernel) : Prop := {
  gr_sems s : is_Some (sems k !! s) → is_Some (sems k' !! s);
  gr_locks l : is_Some (locks k !! l) → is_Some (locks k' !! l);
  gr_ports q : is_Some (ports k !! q) → is_Some (ports k' !! q)
}.

#[export] Instance grows_preorder : PreOrder grows.
Proof. split; [by intros k|]. intros a b c [A1 A2 A3] [B1 B2 B3]. split; auto. Qed.

Lemma insert_grows {K V} `{Countable K} (m : gmap K V) i j x : is_Some (m !! j) → is_Some (<[i := x]> m !! j).
Proof. destruct (decide (i = j)) as [->|Hne]; [by rewrite lookup_insert_eq|by rewrite lookup_insert_ne]. Qed.
#[export] Hint Resolve insert_grows : nachos.

Record calm (k k' : kernel) : Prop := {
  cm_sched : calm_s (k_sched k) (k_sched k');
  cm_conts : conts k' = conts k;
  cm_grows : grows k k'
}.

#[export] Instance calm_preorder : PreOrder calm.
Proof. split; [by intros k|]. intros a b c [H1 H2 H3] [K1 K2 K3]. split; [by etrans|congruence|by etrans]. Qed.

Lemma calm_on_sched {A} (m : M sched A) : respects calm_s m → respects calm (on_sched m).
Proof.
  intros Hm k a k' H. unfold on_sched in H. destruct (m (k_sched k)) as [[]|] eqn:E; simplify_eq.
  split; [by eapply Hm|done|done].
Qed.
Lemma calm_set_intr i : respects calm (set_intr i).
Proof. unfold set_intr. respects_tac. apply calm_on_sched. auto with respects. Qed.
Lemma calm_put_sem s x : respects calm (put_sem s x).
Proof. intros k a k' [= _ <-]. split; [done|done|]. split; cbn; auto with nachos. Qed.
Lemma calm_put_lock s x : respects calm (put_lock s x).
Proof. intros k a k' [= _ <-]. split; [done|done|]. split; cbn; auto with nachos. Qed.
Lemma calm_put_cond s x : respects calm (put_cond s x).
Proof. intros k a k' [= _ <-]. split; [done|done|]. split; cbn; auto with nachos. Qed.
Lemma calm_put_port s x : respects calm (put_port s x).
Proof. intros k a k' [= _ <-]. split; [done|done|]. split; cbn; auto with nachos. Qed.
Lemma calm_emit e : respects calm (emit e).
Proof. intros k a k' [= _ <-]. by split. Qed.
Lemma calm_current : respects calm current.
Proof. unfold current. respects_tac. Qed.
#[export] Hint Resolve calm_on_sched calm_set_intr calm_put_sem calm_put_lock calm_put_cond calm_put_port
  calm_emit calm_current : respects.

Section CalmSynch.

Lemma calm_sem_at s : respects calm (sem_at s).
Proof. unfold sem_at. respects_tac. Qed.
Lemma calm_lock_at l : respects calm (lock_at l).
Proof. unfold lock_at. respects_tac. Qed.
Lemma calm_cond_at c : respects calm (cond_at c).
Proof. unfold cond_at. respects_tac. Qed.
Lemma calm_port_at p : respects calm (port_at p).
Proof. unfold port_at. respects_tac. Qed.
Hint Resolve calm_sem_at calm_lock_at calm_cond_at calm_port_at : respects.

Lemma calm_P_loop s old : respects calm (P_loop s old).
Proof. unfold P_loop. respects_tac. Qed.
Hint Resolve calm_P_loop : respects.
Lemma calm_P s : respects calm (Semaphore_P s).
Proof. unfold Semaphore_P. respects_tac. Qed.
Lemma calm_V s : respects calm (Semaphore_V s).
Proof. unfold Semaphore_V. respects_tac. Qed.
Lemma calm_isHeld l : respects calm (isHeldByCurrentThread l).
Proof. unfold isHeldByCurrentThread. respects_tac. Qed.
Hint Resolve calm_P calm_V calm_isHeld : respects.
Lemma calm_Acquire l : respects calm (Lock_Acquire l).
Proof. unfold Lock_Acquire. respects_tac. Qed.
Lemma calm_inherit l : respects calm (Acquire_inherit l).
Proof. unfold Acquire_inherit. respects_tac. Qed.
Lemma calm_Acquire_sem l : respects calm (Acquire_sem l).
Proof. unfold Acquire_sem. respects_tac. Qed.
Lemma calm_Acquire_end l : respects calm (Acquire_end l).
Proof. unfold Acquire_end. respects_tac. Qed.
Lemma calm_Release l : respects calm (Lock_Release l).
Proof. unfold Lock_Release. respects_tac. Qed.
Hint Resolve calm_Acquire calm_inherit calm_Acquire_sem calm_Acquire_end calm_Release : respects.
Lemma calm_Wait c : respects calm (Condition_Wait c).
Proof. unfold Condition_Wait, new_Semaphore. respects_tac. Qed.
Lemma calm_Signal c : respects calm (Condition_Signal c).
Proof. unfold Condition_Signal. respects_tac. Qed.
Hint Resolve calm_Wait calm_Signal : respects.
Lemma calm_Broadcast_loop c : respects calm (Broadcast_loop c).
Proof. unfold Broadcast_loop. respects_tac. Qed.
Lemma calm_Send p msg : respects calm (Puerto_Send p msg).
Proof. unfold Puerto_Send. respects_tac. Qed.
Lemma calm_Send_loop p msg : respects calm (Send_loop p msg).
Proof. unfold Send_loop. respects_tac. Qed.
Lemma calm_Receive p : respects calm (Puerto_Receive p).
Proof. unfold Puerto_Receive. respects_tac. Qed.
Lemma calm_Receive_loop p : respects calm (Receive_loop p).
Proof. unfold Receive_loop. respects_tac. Qed.
Hint Resolve calm_Broadcast_loop calm_Send calm_Send_loop calm_Receive calm_Receive_loop : respects.
Lemma calm_Finish : respects calm Thread_Finish.
Proof. unfold Thread_Finish. respects_tac. Qed.
Lemma calm_Join t : respects calm (Thread_Join t).
Proof. unfold Thread_Join. respects_tac. Qed.
Lemma calm_new_Puerto p a b : respects calm (new_Puerto p a b).
Proof. unfold new_Puerto, new_Lock, new_Condition, new_Semaphore. respects_tac. Qed.
Hint Resolve calm_Finish : respects.

(** Every frame but a switch and the last one of a thread. *)
Lemma calm_run_frame f : f ≠ FSleep → f ≠ FFinish_end → respects calm (run_frame f).
Proof.
  intros H1 H2. destruct f; try done; cbn [run_frame]; unfold Wait_sem, Wait_lock, Send_end, Receive_end; respects_tac.
Qed.

End CalmSynch.

(** ** The frames an operation leaves *)

(** [yields P m]: whatever [m] returns satisfies [P]. *)
Definition yields {S A} (P : A → Prop) (m : M S A) : Prop := ∀ s a s', m s = Ok (a, s') → P a.

Section Yields.
Context {S : Type}.

Lemma yields_ret {A} (P : A → Prop) (a : A) : P a → yields P (mret a : M S A).
Proof. intros Ha s b s' [= <- <-]. done. Qed.
Lemma yields_fail {A} (P : A → Prop) e : yields P (fail e : M S A).
Proof. by intros s b s' [=]. Qed.
Lemma yields_bind {A B} (P : B → Prop) (m : M S A) (f : A → M S B) :
  (∀ a, yields P (f a)) → yields P (m ≫= f).
Proof. intros Hf s b s' (a & s1 & _ & H)%bind_Ok. by eapply Hf. Qed.
Lemma yields_bind_with {A B} (Q : A → Prop) (P : B → Prop) (m : M S A) (f : A → M S B) :
  yields Q m → (∀ a, Q a → yields P (f a)) → yields P (m ≫= f).
Proof. intros Hm Hf s b s' (a & s1 & E & H)%bind_Ok. eapply Hf; [|exact H]. by eapply Hm. Qed.

End Yields.

Ltac yields_tac :=
  repeat match goal with
  | |- ∀ _, _ => intros ?
  | |- yields _ (_ ≫= _) => first [eapply yields_bind_with; [solve [eauto 3 with respects]|]|apply yields_bind]
  | |- yields _ (match ?x with _ => _ end) => destruct x
  | |- yields _ (let _ := _ in _) => cbv zeta
  | |- yields _ (mret _) => apply yields_ret
  | |- yields _ (fail _) => apply yields_fail
  | |- yields _ _ => solve [eauto 3 with respects]
  end.

(** A frame of a thread that is not ending. *)
Definition goes_on (f : frame) : Prop := f ≠ FFinish ∧ f ≠ FFinish_end ∧ f ≠ FUser.

Section Frames.
Abbreviation on_going := (yields (Forall goes_on)) (only parsing).

Lemma goes_on_app gs f : Forall goes_on gs → goes_on f → Forall goes_on (gs ++ [f]).
Proof. intros H1 H2. apply Forall_app. auto. Qed.
Hint Resolve goes_on_app : respects.
Hint Extern 1 (goes_on _) => split_and!; discriminate : respects.
Hint Extern 1 (Forall goes_on (_ :: _)) => constructor : respects.
Hint Extern 1 (Forall goes_on []) => constructor : respects.

Lemma yields_P_loop s old : on_going (P_loop s old).
Proof. unfold P_loop. yields_tac; eauto 4 with respects. Qed.
Hint Resolve yields_P_loop : respects.
Lemma yields_P s : on_going (Semaphore_P s).
Proof. unfold Semaphore_P. yields_tac. Qed.
Hint Resolve yields_P : respects.
Lemma yields_Acquire l : on_going (Lock_Acquire l).
Proof. unfold Lock_Acquire. yields_tac; eauto 4 with respects. Qed.
Lemma yields_inherit l : on_going (Acquire_inherit l).
Proof. unfold Acquire_inherit. yields_tac; eauto 4 with respects. Qed.
Lemma yields_Acquire_sem l : on_going (Acquire_sem l).
Proof. unfold Acquire_sem. yields_tac; eauto 4 with respects. Qed.
Lemma yields_Acquire_end l : on_going (Acquire_end l).
Proof. unfold Acquire_end. yields_tac; eauto 4 with respects. Qed.
Lemma yields_Wait c : on_going (Condition_Wait c).
Proof. unfold Condition_Wait. yields_tac; eauto 4 with respects. Qed.
Lemma yields_Broadcast_loop c : on_going (Broadcast_loop c).
Proof. unfold Broadcast_loop. yields_tac; eauto 4 with respects. Qed.
Hint Resolve yields_Acquire yields_inherit yields_Acquire_sem yields_Acquire_end yields_Wait yields_Broadcast_loop : respects.
Lemma yields_Send_loop p msg : on_going (Send_loop p msg).
Proof. unfold Send_loop. yields_tac; eauto 4 with respects. Qed.
Lemma yields_Receive_loop p : on_going (Receive_loop p).
Proof. unfold Receive_loop. yields_tac; eauto 4 with respects. Qed.
Lemma yields_Receive p : on_going (Puerto_Receive p).
Proof. unfold Puerto_Receive. yields_tac; eauto 4 with respects. Qed.
Hint Resolve yields_Send_loop yields_Receive_loop yields_Receive : respects.
Lemma yields_Join t : on_going (Thread_Join t).
Proof. unfold Thread_Join. yields_tac; eauto 4 with respects. Qed.
Lemma yields_Sleep : on_going Sleep_frame.
Proof. unfold Sleep_frame. apply yields_bind. intros b. apply yields_ret. destruct b; eauto 4 with respects. Qed.

Lemma yields_run_frame f : goes_on f → on_going (run_frame f).
Proof.
  intros (H1 & H2 & H3). pose proof yields_Sleep.
  destruct f; try done; cbn [run_frame]; unfold Wait_sem, Wait_lock, Send_end, Receive_end; yields_tac; eauto 4 with respects.
Qed.

End Frames.

(** ** Steps of a thread in the kernel *)

Lemma stack_at_Ok t k fs k' : stack_at t k = Ok (fs, k') → conts k !! t = Some fs ∧ k' = k.
Proof.
  intros H. unfold stack_at in H. apply bind_Ok in H as (x & k1 & E & H). unfold get in E. injection E as <- <-.
  by apply at_ptr_Ok in H.
Qed.

Lemma push_Ok t gs k u k' : push t gs k = Ok (u, k') →
  ∃ fs, conts k !! t = Some fs ∧ k' = set_conts (<[t := gs ++ fs]> (conts k)) k.
Proof.
  intros H. unfold push, put_stack in H. apply bind_Ok in H as (fs & k1 & [Hfs ->]%stack_at_Ok & H). binds H. eauto.
Qed.

(** The current thread goes on with a frame [f] that is not the end of it. *)
Lemma Resume_effect k k' u f rest : conts k !! currentThread (k_sched k) = Some (f :: rest) → f ≠ FFinish_end →
  step Resume k = Ok (u, k') →
  moved (k_sched k) (k_sched k') ∧ grows k k' ∧
  ∃ gs, conts k' = <[currentThread (k_sched k) := gs ++ rest]> (conts k) ∧ (goes_on f → Forall goes_on gs).
Proof.
  intros Hf Hne H. set (t := currentThread (k_sched k)) in *.
  unfold step in H. apply bind_Ok in H as (x & k1 & E & H). binds E. cbv zeta in H.
  apply bind_Ok in H as (fs & k2 & [E ->]%stack_at_Ok & H). fold t in E. rewrite Hf in E. injection E as <-.
  apply bind_Ok in H as ([] & k3 & E3 & H). unfold put_stack in E3. binds E3.
  apply bind_Ok in H as (gs & k4 & E4 & H).
  assert (HM : moved (k_sched k) (k_sched k4) ∧ grows k k4 ∧ conts k4 = <[t := rest]> (conts k)).
  { destruct (decide (f = FSleep)) as [->|Hs].
    - cbn [run_frame] in E4. unfold Sleep_frame in E4. apply bind_Ok in E4 as (b & k5 & E5 & E6). binds E6.
      unfold on_sched in E5. destruct (Sleep_round _) as [[b' s']|] eqn:Es; [|done].
      injection E5 as <- <-. apply Sleep_round_moved in Es. done.
    - apply calm_run_frame in E4 as [C1 C2 C3]; [|done..]. split; [by apply calm_moved|]. split; [by destruct C3|done]. }
  destruct HM as (HM & HG & Hk4). apply push_Ok in H as (r & Hr & ->). fold t in Hr. rewrite Hk4, lookup_insert_eq in Hr.
  injection Hr as <-. split; [done|]. split; [by destruct HG|].
  exists gs. cbn. rewrite Hk4, insert_insert_eq. split; [done|]. intros Hg. by eapply yields_run_frame.
Qed.

(** The end of its time slice. *)
Lemma Preempt_effect k k' u : step Preempt k = Ok (u, k') →
  moved (k_sched k) (k_sched k') ∧ grows k k' ∧
  ∃ gs fs, conts k !! currentThread (k_sched k) = Some fs ∧ Forall goes_on gs ∧
    conts k' = <[currentThread (k_sched k) := gs ++ fs]> (conts k).
Proof.
  intros H. set (t := currentThread (k_sched k)) in *.
  unfold step in H. apply bind_Ok in H as (x & k1 & E & H). binds E. cbv zeta in H. fold t in H.
  apply bind_Ok in H as (fs & k2 & [Et ->]%stack_at_Ok & H).
  apply bind_Ok in H as ([] & k4 & (_ & -> & _)%ASSERT_Ok & H).
  apply bind_Ok in H as (b & k5 & E5 & H). unfold on_sched in E5.
  destruct (Yield t (k_sched k)) as [[b' s']|] eqn:Ey; [|done]. injection E5 as <- <-. apply Yield_moved in Ey.
  destruct b'.
  - apply push_Ok in H as (r & Hr & ->). cbn in Hr. rewrite Et in Hr. injection Hr as <-.
    split; [done|]. split; [done|]. exists [FYield IntOn], fs. split; [done|]. split; [|done]. repeat constructor; discriminate.
  - binds H. split; [done|]. split; [done|]. exists [], fs. split; [done|]. split; [constructor|]. cbn. by rewrite insert_id.
Qed.

(** The last frame: the thread waits to be destroyed. *)
Lemma Finish_end_effect k k' u rest : conts k !! currentThread (k_sched k) = Some (FFinish_end :: rest) →
  step Resume k = Ok (u, k') →
  ∃ s1, calm_s (set_toBeDestroyed (Some (currentThread (k_sched k))) (k_sched k)) s1 ∧ k_sched k' = s1 ∧
    conts k' = <[currentThread (k_sched k) := FSleep :: rest]> (conts k) ∧ grows k k'.
Proof.
  intros Hf H. set (t := currentThread (k_sched k)) in *.
  unfold step in H. apply bind_Ok in H as (x & k1 & E & H). binds E. cbv zeta in H.
  apply bind_Ok in H as (fs & k2 & [E ->]%stack_at_Ok & H). fold t in E. rewrite Hf in E. injection E as <-.
  apply bind_Ok in H as ([] & k3 & E3 & H). unfold put_stack in E3. binds E3.
  apply bind_Ok in H as (gs & k4 & E4 & H). cbn [run_frame] in E4. unfold Thread_Finish_end, current in E4.
  apply bind_Ok in E4 as (c & k5 & E5 & E4). binds E5. apply bind_Ok in E4 as ([] & k5 & E5 & E4). binds E4.
  unfold on_sched in E5. destruct (Finish_end _ _) as [[[] s']|] eqn:Ef; [|done]. injection E5 as <-.
  unfold Finish_end in Ef. apply bind_Ok in Ef as (c & s1 & E5 & Ef). binds E5.
  apply bind_Ok in Ef as ([] & s2 & E5 & Ef). binds E5. apply calm_Sleep_begin in Ef.
  apply push_Ok in H as (r & Hr & ->). cbn in Hr. fold t in Hr. rewrite lookup_insert_eq in Hr. injection Hr as <-.
  eexists. split; [exact Ef|].
  split; [done|]. split; [|done]. cbn. by rewrite insert_insert_eq.
Qed.
