(* ===== verification/Process.v ===== *)
(** * Process: the calls on processes, userprog/exception.cc and progtest.cc

    [Halt], [Exec], [Join] and [Exit], on top of the thread kernel of Synch.v,
    the address spaces of AddrSpace.v and the simulated machine.  The state
    [psys] puts them together: the registers and the page table pointer are
    those of the scheduler, which a context switch saves and restores; the
    pointer designates the table of an address space of [p_spaces] ([AddrSpace *]
    is the identifier of the thread it was made for), so that what a program
    does to its page table is seen by the kernel that frees it.

    A step is a stretch of kernel code of the current thread, the end of its
    time slice, or, when its own code is on top of its control stack, one stretch
    of it: the beginning of [StartProcess], one user instruction with the system
    call it makes, or the return from [Join].

    The calls on files and the file an executable is read from are those of the
    class [Files]; a call on files runs to completion. *)

From S2P Require Import Prelude Bitmap Interrupt Scheduler Synch Machine Mips Disk FileHdr OpenFile FileSys AddrSpace.
From S2P Require Import Console Syscall Confined Calm.

(** ** Data *)

Definition maxCantProcess : Z := 100.
Definition SC_Halt : Z := 0.
Definition SC_Exit : Z := 1.
Definition SC_Exec : Z := 2.
Definition SC_Join : Z := 3.

(** What the process layer calls: [fileSystem->Open], [ReadAt] of the file that
    was opened, and the system calls on files. *)
Class Files (D T : Type) := {
  exe_t : Type;
  fs_Open : list Z → M D (option exe_t);
  fs_file : exe_t → ExeFile D;
  fs_call : Z → M (sys D T) unit
}.

(** Of these the kernel needs little: [ReadAt] does not give more than it was
    asked for, and the calls reach user memory through the page table. *)
Class FilesOK (D T : Type) `{!Files D T} := {
  fs_ReadAt_length f n pos d r d' : @exe_ReadAt D (fs_file f) n pos d = Ok (r, d') → 0 < n → is_int pos →
    Z.of_nat (length r) ≤ n;
  fs_call_confined undef : respects sys_confined (fs_call undef)
}.

(** Where a process is in the procedure it runs: about to begin [StartProcess],
    in user code, waiting in [Join(pid)], or past [Exit]. *)
Inductive pcont := InStart | InUser | InJoin (pid : Z) | InExit.

#[export] Instance pcont_eq_dec : EqDecision pcont.
Proof. solve_decision. Defined.

(** [p_desc] are the arrays [descriptores] of the threads. *)
Record psys (D T : Type) := mkPsys {
  p_kern : kernel;
  p_memory : list Z;
  p_frames : BitMap;
  p_disk : D;
  p_term : T;
  p_desc : gmap Z (list (option OpenFile));
  processIdTable : list (option Z);
  cantProcesses : Z;
  p_spaces : gmap Z AddrSpace;
  p_conts : gmap Z pcont
}.
Arguments mkPsys {D T} _ _ _ _ _ _ _ _ _ _.
Arguments p_kern {D T} _.
Arguments p_memory {D T} _.
Arguments p_frames {D T} _.
Arguments p_disk {D T} _.
Arguments p_term {D T} _.
Arguments p_desc {D T} _.
Arguments processIdTable {D T} _.
Arguments cantProcesses {D T} _.
Arguments p_spaces {D T} _.
Arguments p_conts {D T} _.

(** What the host's allocator and uninitialised memory contribute to a step: the
    address of the control block [Exec] makes, and the junk in it. *)
Record alloc := mkAlloc {
  a_thread : Z; a_regs : list Z; a_desc : list (option OpenFile); a_lock : Z; a_buf : Z; a_noff : list Z; a_undef : Z
}.

Section Code.
Context {D T : Type} `{!Files D T}.
Implicit Types (p : psys D T).

Definition p_sched p : sched := k_sched (p_kern p).
Definition p_cur p : Z := currentThread (p_sched p).

(** ** Access to the parts of the state *)

Definition set_kern (k : kernel) p : psys D T :=
  mkPsys k (p_memory p) (p_frames p) (p_disk p) (p_term p) (p_desc p) (processIdTable p) (cantProcesses p)
    (p_spaces p) (p_conts p).
Definition set_table (l : list (option Z)) p : psys D T :=
  mkPsys (p_kern p) (p_memory p) (p_frames p) (p_disk p) (p_term p) (p_desc p) l (cantProcesses p)
    (p_spaces p) (p_conts p).
Definition set_count (n : Z) p : psys D T :=
  mkPsys (p_kern p) (p_memory p) (p_frames p) (p_disk p) (p_term p) (p_desc p) (processIdTable p) n
    (p_spaces p) (p_conts p).
Definition set_spaces (m : gmap Z AddrSpace) p : psys D T :=
  mkPsys (p_kern p) (p_memory p) (p_frames p) (p_disk p) (p_term p) (p_desc p) (processIdTable p) (cantProcesses p)
    m (p_conts p).
Definition set_pconts (m : gmap Z pcont) p : psys D T :=
  mkPsys (p_kern p) (p_memory p) (p_frames p) (p_disk p) (p_term p) (p_desc p) (processIdTable p) (cantProcesses p)
    (p_spaces p) m.
Definition set_desc (m : gmap Z (list (option OpenFile))) p : psys D T :=
  mkPsys (p_kern p) (p_memory p) (p_frames p) (p_disk p) (p_term p) m (processIdTable p) (cantProcesses p)
    (p_spaces p) (p_conts p).

Definition on_kern {A} (m : M kernel A) : M (psys D T) A := λ p,
  match m (p_kern p) with Ok (a, k) => Ok (a, set_kern k p) | Err f => Err f end.

(** The simulated machine: main memory, the registers, and the page table the
    machine's pointer designates.  A null pointer goes with a size that is never
    read. *)
Definition machine_of p : res Machine :=
  match machine_pageTable (p_sched p) with
  | None => Ok (mkMachine (p_memory p) (registers (p_sched p)) None None 0)
  | Some a =>
      match p_spaces p !! a with
      | Some sp => Ok (mkMachine (p_memory p) (registers (p_sched p)) None (Some (pageTable sp)) (numPages sp))
      | None => Err BadPointer
      end
  end.

Definition upd_sched (f : sched → sched) (k : kernel) : kernel :=
  mkKernel (f (k_sched k)) (sems k) (locks k) (conds k) (ports k) (conts k) (log k).

Definition put_machine (k : Machine) p : psys D T :=
  mkPsys (upd_sched (set_registers (m_registers k)) (p_kern p)) (mainMemory k) (p_frames p) (p_disk p) (p_term p)
    (p_desc p) (processIdTable p) (cantProcesses p)
    (match machine_pageTable (p_sched p), m_pageTable k with
     | Some a, Some pt => <[a := mkSpace pt (pageTableSize k)]> (p_spaces p)
     | _, _ => p_spaces p
     end)
    (p_conts p).

Definition on_machine {A} (m : M Machine A) : M (psys D T) A := λ p,
  match machine_of p with
  | Ok k => match m k with Ok (a, k') => Ok (a, put_machine k' p) | Err f => Err f end
  | Err f => Err f
  end.

(** Code that only touches the registers does not follow the pointer. *)
Definition on_regs {A} (m : M Machine A) : M (psys D T) A := λ p,
  match m (mkMachine (p_memory p) (registers (p_sched p)) None None 0) with
  | Ok (a, k) => Ok (a, set_kern (upd_sched (set_registers (m_registers k)) (p_kern p)) p)
  | Err f => Err f
  end.

(** A system call on files, with the descriptors of the current thread. *)
Definition on_sys {A} (m : M (sys D T) A) : M (psys D T) A := λ p,
  match machine_of p, p_desc p !! p_cur p with
  | Ok k, Some ds =>
      match m (mkSys k (p_disk p) (p_term p) ds) with
      | Ok (a, s) =>
          let q := put_machine (s_mach s) p in
          Ok (a, mkPsys (p_kern q) (p_memory q) (p_frames q) (s_disk s) (s_term s)
                   (<[p_cur p := descriptores s]> (p_desc q)) (processIdTable q) (cantProcesses q)
                   (p_spaces q) (p_conts q))
      | Err f => Err f
      end
  | Err f, _ => Err f
  | _, None => Err BadPointer
  end.

(** The constructor and the destructor of an address space. *)
Definition on_umem {A} (m : M (umem D) A) : M (psys D T) A := λ p,
  match m (mkUmem (mkMachine (p_memory p) (registers (p_sched p)) None None 0) (p_frames p) (p_disk p)) with
  | Ok (a, s) =>
      Ok (a, mkPsys (p_kern p) (mainMemory (mach s)) (frames s) (exe s) (p_term p) (p_desc p) (processIdTable p)
               (cantProcesses p) (p_spaces p) (p_conts p))
  | Err f => Err f
  end.

Definition on_pdisk {A} (m : M D A) : M (psys D T) A := λ p,
  match m (p_disk p) with
  | Ok (a, d) =>
      Ok (a, mkPsys (p_kern p) (p_memory p) (p_frames p) d (p_term p) (p_desc p) (processIdTable p) (cantProcesses p)
               (p_spaces p) (p_conts p))
  | Err f => Err f
  end.

(** [processIdTable[pid]], read and written. *)
Definition table_get (pid : Z) : M (psys D T) (option Z) := λ p,
  match (if pid <? 0 then None else processIdTable p !! Z.to_nat pid) with
  | Some o => Ok (o, p)
  | None => Err OutOfBounds
  end.
Definition table_put (pid : Z) (o : option Z) : M (psys D T) unit :=
  table_get pid ≫= λ _, modify (λ p, set_table (<[Z.to_nat pid := o]> (processIdTable p)) p).

Definition cur_thread : M (psys D T) Thread :=
  t ← gets p_cur; on_kern (on_sched (thread_at t)).
Definition upd_thread (t : Z) (f : Thread → Thread) : M (psys D T) unit := on_kern (on_sched (thread_upd t f)).
Definition th_setSpace (sp : option Z) (t : Thread) : Thread :=
  mkThread (th_status t) (th_priority t) (th_join t) (th_portJoin t) (th_stack t) (th_fresh t)
    (th_userRegisters t) sp (th_pid t).
Definition th_setPid (pid : Z) (t : Thread) : Thread :=
  mkThread (th_status t) (th_priority t) (th_join t) (th_portJoin t) (th_stack t) (th_fresh t)
    (th_userRegisters t) (th_space t) pid.

Definition set_pcont (c : pcont) : M (psys D T) unit :=
  t ← gets p_cur; modify (λ p, set_pconts (<[t := c]> (p_conts p)) p).

(** The frames the current thread's code returns. *)
Definition push_frames (gs : list frame) : M (psys D T) unit :=
  t ← gets p_cur; on_kern (push t gs).

(** ** Exec *)

(** The loop that reads the arguments: each string is read where the one before
    it ended; they are not used. *)
Fixpoint read_args (n : nat) (nextAddr : Z) : M Machine unit :=
  match n with
  | O => mret tt
  | S n => '(next, _) ← readStrFromUsrSpecial 128 nextAddr 32; read_args n next
  end.

(** [while (processIdTable[pid] != NULL) pid++]. *)
Fixpoint pid_loop (fuel : nat) (pid : Z) : M (psys D T) Z :=
  match fuel with
  | O => fail OutOfFuel
  | S fuel =>
      o ← table_get pid;
      match o with Some _ => pid_loop fuel (pid + 1) | None => mret pid end
  end.

(** [delete currentThread->space] and [execThread->space = space]: the object a
    space pointer designates. *)
Definition put_space (t : Z) (sp : AddrSpace) : M (psys D T) unit :=
  modify (λ p, set_spaces (<[t := sp]> (p_spaces p)) p).

(** [new Thread]: the allocator gives an address not in use, which also names
    the stack, the port and the space made for the thread. *)
Definition new_thread (a : alloc) : M (psys D T) unit :=
  p ← get;
  ASSERT (is_new (threads (p_sched p) !! a_thread a) && is_new (conts (p_kern p) !! a_thread a) &&
          is_new (locks (p_kern p) !! LPort (a_thread a)) && is_new (p_spaces p !! a_thread a)) ≫= λ _,
  on_kern (Thread_new (a_thread a) (a_regs a)) ≫= λ _,
  modify (λ p, set_desc (<[a_thread a := a_desc a]> (p_desc p)) p).

Definition do_Exec (a : alloc) (pid : Z) (executable : exe_t) : M (psys D T) unit :=
  let execThread := a_thread a in
  new_thread a ≫= λ _,
  upd_thread execThread (th_setPid pid) ≫= λ _,
  table_put pid (Some execThread) ≫= λ _,
  space ← on_umem (@new_AddrSpace D (fs_file executable) (a_noff a));
  put_space execThread space ≫= λ _,
  upd_thread execThread (th_setSpace (Some execThread)) ≫= λ _,
  modify (λ p, set_count (sint (cantProcesses p + 1)) p) ≫= λ _,
  on_kern (Thread_Fork execThread 0 0 (a_lock a) (a_buf a)) ≫= λ _,
  modify (λ p, set_pconts (<[execThread := InStart]> (p_conts p)) p).

Definition Exec (a : alloc) : M (psys D T) unit :=
  addr_name ← on_machine (ReadRegister 4);
  argc ← on_machine (ReadRegister 5);
  addr_argv ← on_machine (ReadRegister 6);
  filename ← on_machine (readStrFromUsr 128 addr_name);
  on_machine (read_args (Z.to_nat argc) addr_argv) ≫= λ _,
  executable ← on_pdisk (fs_Open filename);
  executable ← (match executable with Some f => mret f | None => ASSERT false ≫= λ _, fail AssertFailed end);
  th ← cur_thread;
  t ← gets p_cur;
  table_put (th_pid th) (Some t) ≫= λ _,
  pid ← pid_loop (S (Z.to_nat maxCantProcess)) 1;
  if bool_decide (pid < maxCantProcess) then
    on_machine (WriteRegister 2 pid) ≫= λ _, do_Exec a pid executable
  else ASSERT false.

(** ** Join *)

(** [processIdTable[pid]->Join()], up to the return of [Receive]. *)
Definition Join : M (psys D T) unit :=
  pid ← on_machine (ReadRegister 4);
  o ← table_get pid;
  t ← deref o;
  gs ← on_kern (Thread_Join t);
  push_frames gs ≫= λ _,
  set_pcont (InJoin pid).

(** The rest of [case SC_Join], and the end of [ExceptionHandler]. *)
Definition Join_end (pid : Z) : M (psys D T) unit :=
  table_put pid None ≫= λ _,
  on_machine (WriteRegister 2 0) ≫= λ _,
  on_machine increaseProgramCounter ≫= λ _,
  set_pcont InUser.

(** ** Exit *)

(** [delete currentThread->space]. *)
Definition delete_space (sp : Z) : M (psys D T) unit :=
  p ← get;
  match p_spaces p !! sp with
  | Some space =>
      on_umem (delete_AddrSpace space) ≫= λ _,
      modify (λ p, set_spaces (delete sp (p_spaces p)) p)
  | None => fail BadPointer
  end.

Definition Exit : M (psys D T) unit :=
  on_machine (ReadRegister 4) ≫= λ estado,
  modify (λ p, set_count (sint (cantProcesses p - 1)) p) ≫= λ _,
  n ← gets cantProcesses;
  (if bool_decide (n ≤ 0) then fail Halted else mret tt) ≫= λ _,
  th ← cur_thread;
  t ← gets p_cur;
  (match th_space th with
   | Some sp =>
       delete_space sp ≫= λ _,
       upd_thread t (th_setSpace None) ≫= λ _,
       table_put (th_pid th) None
   | None => mret tt
   end) ≫= λ _,
  gs ← on_kern Thread_Finish;
  push_frames gs ≫= λ _,
  set_pcont InExit.

(** ** Halt *)

(** [delete processIdTable[i]]; the delete of a null pointer does nothing. *)
Definition delete_entry (i : Z) : M (psys D T) unit :=
  o ← table_get i;
  match o with Some t => on_kern (on_sched (delete_Thread t)) | None => mret tt end.

Definition Halt : M (psys D T) unit :=
  for_loop (Z.to_nat maxCantProcess) 0 (λ i,
    for_loop (Z.to_nat MAX_OPEN_FILES) 0 (λ _, delete_entry i) ≫= λ _,
    o ← table_get i;
    t ← gets p_cur;
    (if bool_decide (o ≠ Some t) && negb (is_null o) then delete_entry i else mret tt) ≫= λ _,
    table_put i None) ≫= λ _,
  th ← cur_thread;
  t ← gets p_cur;
  (match th_space th with
   | Some sp => delete_space sp ≫= λ _, upd_thread t (th_setSpace None)
   | None => mret tt
   end) ≫= λ _,
  fail Halted.

(** ** User code *)

(** [StartProcess] up to [machine->Run()]. *)
Definition StartProcess : M (psys D T) unit :=
  th ← cur_thread;
  t ← gets p_cur;
  sp ← deref (th_space th);
  p ← get;
  space ← (match p_spaces p !! sp with Some space => mret space | None => fail BadPointer end);
  on_regs (InitRegisters space) ≫= λ _,
  on_kern (on_sched (space_RestoreState sp)) ≫= λ _,
  on_kern (on_sched (CheckOverflow t)) ≫= λ _,
  set_pcont InUser.

(** The instruction at the program counter is a [SYSCALL]. *)
Definition at_syscall (k : Machine) : bool :=
  match (pc ← reg_get PCReg; ReadMem unexpected pc 4) k with
  | Ok (Some raw, _) =>
      match Decode (uint raw) with
      | Some i => bool_decide (i_opCode i = OP_SYSCALL)
      | None => false
      end
  | _ => false
  end.

(** [ExceptionHandler] for a [SyscallException].  [Join] and [Exit] leave the
    increment of the program counter for later, [Exit] for ever. *)
Definition handle_syscall (a : alloc) : M (psys D T) unit :=
  type ← on_machine (ReadRegister 2);
  if bool_decide (type = SC_Halt) then Halt
  else if bool_decide (type = SC_Exec) then Exec a ≫= λ _, on_machine increaseProgramCounter
  else if bool_decide (type = SC_Join) then Join
  else if bool_decide (type = SC_Exit) then Exit
  else on_sys (fs_call (a_undef a)).

(** One user instruction.  [OneInstruction] ends with the exception it raises,
    if any: a system call is handled in the state it leaves, and every other
    exception stops the kernel. *)
Definition user_instruction (a : alloc) : M (psys D T) unit :=
  k ← on_machine get;
  if at_syscall k then
    on_machine (OneInstruction (λ _, mret tt)) ≫= λ _, handle_syscall a
  else on_machine (OneInstruction unexpected).

(** ** The system *)

Inductive plabel := PResume | PPreempt | PUser (a : alloc).

Definition user_top (fs : list frame) : bool := match fs with FUser :: _ => true | _ => false end.

Definition process_step (l : plabel) : M (psys D T) unit :=
  p ← get;
  fs ← on_kern (stack_at (p_cur p));
  match l with
  | PResume => ASSERT (negb (user_top fs)) ≫= λ _, on_kern (step Resume)
  | PPreempt => on_kern (step Preempt)
  | PUser a =>
      ASSERT (user_top fs) ≫= λ _,
      match p_conts p !! p_cur p with
      | Some InStart => StartProcess
      | Some InUser => user_instruction a
      | Some (InJoin pid) => Join_end pid
      | Some InExit | None => fail AssertFailed
      end
  end.

(** progtest.cc, [StartProcess] of the main thread, which has the identifier 0;
    [None] when there is no such file. *)
Definition first_process (filename noff : list Z) : M (psys D T) bool :=
  executable ← on_pdisk (fs_Open filename);
  match executable with
  | None => mret false
  | Some executable =>
      space ← on_umem (@new_AddrSpace D (fs_file executable) noff);
      put_space 0 space ≫= λ _,
      upd_thread 0 (th_setSpace (Some 0)) ≫= λ _,
      on_regs (InitRegisters space) ≫= λ _,
      on_kern (on_sched (space_RestoreState 0)) ≫= λ _,
      set_pcont InUser ≫= λ _,
      mret true
  end.

(** The system as it boots: no process, every frame free. *)
Definition boot_system (regs junk : list Z) (ds : list (option OpenFile)) (d : D) (t : T) : psys D T :=
  mkPsys (boot regs junk) (replicate (Z.to_nat MemorySize) 0) empty_frames d t {[ 0 := ds ]}
    (replicate (Z.to_nat maxCantProcess) None) 1 ∅ ∅.

End Code.
