(* ===== verification/ProcessInv.v ===== *)
(** * ProcessInv: what holds of the processes in every reachable state

    [pinv] is the invariant of the process layer: the frames in use are those of
    the live processes, no two of which share one; a process is a live thread
    with its own address space; [cantProcesses] counts them; the entries of
    [processIdTable] are live processes under their own identifier; and the
    page table of the machine is that of the process that runs.  [good] is what a
    stretch of kernel code for the current process does: it keeps the invariant
    and leaves the memory and the page table of every other process alone. *)

From S2P Require Import Prelude Bitmap Interrupt Scheduler Synch Machine Mips Disk FileHdr OpenFile FileSys AddrSpace.
From S2P Require Import Console Syscall Confined Calm Process.

(** ** Address spaces by thread *)

Section Spaces.
Context {D : Type}.
Implicit Types (m : gmap Z AddrSpace) (s : umem D).

Definition spaces_of m : list AddrSpace := (map_to_list m).*2.

Lemma spaces_insert m t sp : m !! t = None → spaces_of (<[t := sp]> m) ≡ₚ sp :: spaces_of m.
Proof. intros H. unfold spaces_of. by rewrite map_to_list_insert. Qed.
Lemma spaces_delete m t sp : m !! t = Some sp → spaces_of m ≡ₚ sp :: spaces_of (delete t m).
Proof. intros H. unfold spaces_of. by rewrite <- (map_to_list_delete m t sp). Qed.
Lemma spaces_elem m t sp : m !! t = Some sp → sp ∈ spaces_of m.
Proof. intros H. unfold spaces_of. apply (list_elem_of_fmap_2 snd _ (t, sp)). by apply elem_of_map_to_list. Qed.

Lemma live_perm s l l' : l ≡ₚ l' → live_ok (s, l) → live_ok (s, l').
Proof.
  intros Hl [H1 H2 H3 H4 H5]. cbn in *.
  assert (Ha : all_frames l ≡ₚ all_frames l').
  { clear -Hl. unfold all_frames. induction Hl; cbn; [done|by f_equiv| |by etrans].
    by rewrite Permutation_app_swap_app. }
  split; cbn; [done|done|by rewrite <- Ha| |by rewrite <- Hl]. rewrite H4. by apply list_to_set_perm_L.
Qed.

(** The state that [live_ok] looks at is the map of frames. *)
Lemma live_frames s s' l : frames s' = frames s → live_ok (s, l) → live_ok (s', l).
Proof. intros E [H1 H2 H3 H4 H5]. split; cbn in *; by rewrite ?E. Qed.

Definition same_space (sp sp' : AddrSpace) : Prop := space_frames sp' = space_frames sp ∧ numPages sp' = numPages sp.

Lemma same_space_length sp sp' : same_space sp sp' → length (pageTable sp') = length (pageTable sp).
Proof. intros [H _]. apply (f_equal length) in H. unfold space_frames in H. by rewrite !length_fmap in H. Qed.

(** One space replaced by one over the same frames. *)
Lemma live_update s m t sp sp' : m !! t = Some sp → same_space sp sp' →
  live_ok (s, spaces_of m) → live_ok (s, spaces_of (<[t := sp']> m)).
Proof.
  intros Ht Hs Hl. pose proof (same_space_length _ _ Hs) as Hlen. destruct Hs as [Hf Hn].
  rewrite <- insert_delete_eq. apply (live_perm s (sp' :: spaces_of (delete t m))).
  { symmetry. apply spaces_insert, lookup_delete_eq. }
  apply (live_perm s _ (sp :: spaces_of (delete t m))) in Hl; [|by apply spaces_delete].
  destruct Hl as [H1 H2 H3 H4 H5]. cbn [fst snd] in *. rewrite all_frames_cons in *.
  apply Forall_cons in H5 as [H5 H6]. split; cbn [fst snd]; rewrite ?all_frames_cons, ?Hf; try done.
  constructor; [by rewrite Hn, Hlen|done].
Qed.

(** Frames of different processes. *)
Lemma live_disjoint s m t1 t2 sp1 sp2 x : live_ok (s, spaces_of m) → m !! t1 = Some sp1 → m !! t2 = Some sp2 → t1 ≠ t2 →
  x ∈ space_frames sp1 → x ∈ space_frames sp2 → False.
Proof.
  intros Hl H1 H2 Hne X1 X2. apply (live_perm s _ (sp1 :: spaces_of (delete t1 m))) in Hl; [|by apply spaces_delete].
  destruct Hl as [_ _ Hnd _ _]. cbn [snd] in Hnd. rewrite all_frames_cons in Hnd.
  apply NoDup_app in Hnd as (_ & Hd & _). apply (Hd x X1).
  assert (He : sp2 ∈ spaces_of (delete t1 m)) by (apply (spaces_elem _ t2); by rewrite lookup_delete_ne).
  apply list_elem_of_lookup in He as [i Hi]. unfold all_frames. apply elem_of_concat_lookup.
  exists i, (space_frames sp2). by rewrite list_lookup_fmap, Hi.
Qed.

Lemma live_range s m t sp x : live_ok (s, spaces_of m) → m !! t = Some sp → x ∈ space_frames sp → 0 ≤ x < NumPhysPages.
Proof.
  intros [H1 H2 H3 H4 H5] Ht Hx. cbn in *. assert (Hb : x ∈ bits_of (frames s)).
  { rewrite H4. apply elem_of_list_to_set, elem_of_concat_lookup. pose proof (spaces_elem _ _ _ Ht) as He.
    apply list_elem_of_lookup in He as [i Hi]. exists i, (space_frames sp). by rewrite list_lookup_fmap, Hi. }
  apply elem_of_bits in Hb as [Hb _]. lia.
Qed.

End Spaces.

(** ** The invariant *)

Section Invariant.
Context {D T : Type} `{!Files D T}.
Implicit Types (p : psys D T).

Definition p_umem p : umem D := mkUmem (mkMachine (p_memory p) (registers (p_sched p)) None None 0) (p_frames p) (p_disk p).

(** A process has its code at the bottom of a control stack that goes on. *)
Definition stack_fine (k : kernel) (t : Z) : Prop :=
  ∃ gs rest, conts k !! t = Some (gs ++ FUser :: rest) ∧ Forall goes_on gs.

(** The port of a thread that can be joined, with its lock. *)
Definition has_port (k : kernel) (q : Z) : Prop :=
  is_Some (ports k !! q) ∧ is_Some (locks k !! LPort q) ∧ is_Some (sems k !! SInv (LPort q)).

Lemma has_port_grows k k' q : grows k k' → has_port k q → has_port k' q.
Proof. intros [G1 G2 G3] (H1 & H2 & H3). split_and!; auto. Qed.

Definition is_process p (t : Z) : Prop := ∃ th, threads (p_sched p) !! t = Some th ∧ th_space th = Some t.

Record pinv p : Prop := {
  pi_live : live_ok (p_umem p, spaces_of (p_spaces p));
  pi_owner t th sp : threads (p_sched p) !! t = Some th → th_space th = Some sp → sp = t ∧ is_Some (p_spaces p !! t);
  pi_space t : is_Some (p_spaces p !! t) → is_process p t;
  pi_count : cantProcesses p = sint (Z.of_nat (size (p_spaces p)));
  pi_length : length (processIdTable p) = Z.to_nat maxCantProcess;
  pi_table pid t : processIdTable p !! pid = Some (Some t) →
    ∃ th, threads (p_sched p) !! t = Some th ∧ th_space th = Some t ∧ th_pid th = Z.of_nat pid;
  pi_doomed t : threadToBeDestroyed (p_sched p) = Some t → p_spaces p !! t = None ∧ is_Some (conts (p_kern p) !! t);
  pi_stack t : is_Some (p_spaces p !! t) → stack_fine (p_kern p) t;
  pi_fresh t th : threads (p_sched p) !! t = Some th → th_fresh th = true → p_conts p !! t = Some InStart;
  pi_begun : begun (p_sched p);
  pi_loaded : p_conts p !! p_cur p ≠ Some InStart → is_Some (p_spaces p !! p_cur p) →
    machine_pageTable (p_sched p) = Some (p_cur p);
  pi_conts t c : p_conts p !! t = Some c → c ≠ InExit → is_Some (p_spaces p !! t);
  pi_kernel : kinv (p_kern p);
  pi_port t th : threads (p_sched p) !! t = Some th → th_join th = true →
    ∃ q, th_portJoin th = Some q ∧ has_port (p_kern p) q;
  pi_pid t th : threads (p_sched p) !! t = Some th → is_Some (p_spaces p !! t) → 0 ≤ th_pid th < maxCantProcess;
  pi_regs : length (registers (p_sched p)) = Z.to_nat NumTotalRegs
}.

(** The current thread is a process in its user code or in a call it made, with
    no frame of the kernel on its stack. *)
Definition user_mode p : Prop :=
  (∃ c, p_conts p !! p_cur p = Some c ∧ c ≠ InStart ∧ c ≠ InExit) ∧
  ∃ rest, conts (p_kern p) !! p_cur p = Some (FUser :: rest).

(** Nothing of the process [t] has changed: its page table and the bytes of its frames. *)
Definition untouched (t : Z) p p' : Prop := ∀ sp, p_spaces p !! t = Some sp →
  p_spaces p' !! t = Some sp ∧
  ∀ a, Z.of_nat a / PageSize ∈ space_frames sp → p_memory p' !! a = p_memory p !! a.

#[export] Instance untouched_preorder t : PreOrder (untouched t).
Proof.
  split; [by intros p sp|]. intros a b c H1 H2 sp Hsp. destruct (H1 sp Hsp) as [Hb Hm].
  destruct (H2 sp Hb) as [Hc Hm']. split; [done|]. intros x Hx. by rewrite Hm', Hm.
Qed.

Definition good p p' : Prop := pinv p → user_mode p →
  pinv p' ∧ user_mode p' ∧ p_cur p' = p_cur p ∧ ∀ t, t ≠ p_cur p → untouched t p p'.

#[export] Instance good_preorder : PreOrder good.
Proof.
  split; [by intros p|]. intros a b c H1 H2 Ha Hu. destruct (H1 Ha Hu) as (Hb & Hub & Hc & Ht).
  destruct (H2 Hb Hub) as (Hc' & Huc & Hcc & Ht'). split_and!; [done|done|congruence|].
  intros t Hne. etrans; [by apply Ht|apply Ht'; congruence].
Qed.

Lemma user_mode_loaded p : pinv p → user_mode p →
  is_Some (p_spaces p !! p_cur p) ∧ machine_pageTable (p_sched p) = Some (p_cur p).
Proof.
  intros Hp [(c & Hc & H1 & H2) _]. pose proof (pi_conts p Hp _ _ Hc H2) as Hs. split; [done|].
  apply (pi_loaded p Hp); [|done]. rewrite Hc. congruence.
Qed.

(** ** Steps of the thread kernel *)

Lemma pinv_kern p k' : pinv p → moved (p_sched p) (k_sched k') →
  (∀ t, is_Some (p_spaces p !! t) → stack_fine k' t) →
  (∀ t, is_Some (conts (p_kern p) !! t) → is_Some (conts k' !! t)) →
  kinv k' → grows (p_kern p) k' → pinv (set_kern k' p).
Proof.
  intros Hp [M1 M2 M3 M4 M5 M6] Hst Hgrow Hkinv Hgr.
  assert (Hback : ∀ t th, threads (k_sched k') !! t = Some th →
    ∃ th0, threads (p_sched p) !! t = Some th0 ∧ same_proc th0 th).
  { intros t th Hth. destruct (decide (threadToBeDestroyed (p_sched p) = Some t)) as [Hd|Hd]; [by eapply M3|].
    eapply same_proc_back; [by apply M1|done]. }
  assert (Hon : ∀ t th, threads (p_sched p) !! t = Some th → th_space th = Some t →
    ∃ th', threads (k_sched k') !! t = Some th' ∧ same_proc th th').
  { intros t th Hth Hsp. eapply same_proc_on; [|done]. apply M1. intros Hd.
    pose proof (pi_doomed p Hp t Hd) as [Hn _]. destruct (pi_owner p Hp _ _ _ Hth Hsp) as [_ [x Hx]]. congruence. }
  split; unfold p_sched in *; cbn.
  - by apply (live_frames (p_umem p)), (pi_live p Hp).
  - intros t th sp Hth Hsp. destruct (Hback t th Hth) as (th0 & H0 & [Hs _ _ _]).
    apply (pi_owner p Hp t th0); [done|congruence].
  - intros t Ht. destruct (pi_space p Hp t Ht) as (th & Hth & Hsp).
    destruct (Hon t th Hth Hsp) as (th' & Hth' & [Hs _ _ _]). exists th'. split; [done|congruence].
  - exact (pi_count p Hp).
  - exact (pi_length p Hp).
  - intros pid t Ht. destruct (pi_table p Hp pid t Ht) as (th & Hth & Hsp & Hpid).
    destruct (Hon t th Hth Hsp) as (th' & Hth' & [Hs Hs' _ _]). exists th'. split_and!; [done|congruence..].
  - intros t Ht. destruct (pi_doomed p Hp t (M2 t Ht)). auto.
  - exact Hst.
  - intros t th Hth Hf. destruct (Hback t th Hth) as (th0 & H0 & [_ _ _ Hs]). apply (pi_fresh p Hp t th0); auto.
  - apply M5, (pi_begun p Hp).
  - intros Hc Hsp. destruct M4 as [[E1 E2]|[(th & Hth & Hf)|M4]].
    + unfold p_cur, p_sched in *. cbn in *. rewrite E1 in *. rewrite E2. by apply (pi_loaded p Hp).
    + destruct Hc. by apply (pi_fresh p Hp _ th).
    + destruct (pi_space p Hp _ Hsp) as (th & Hth & Hs). destruct (Hon _ th Hth Hs) as (th' & Hth' & [Hs' _ _ _]).
      apply (M4 th'); [done|congruence].
  - exact (pi_conts p Hp).
  - done.
  - intros t th Hth Hj. destruct (Hback t th Hth) as (th0 & H0 & [_ _ [Hj0 Hq0] _]).
    destruct (pi_port p Hp t th0 H0) as (q & Hq & Hport); [congruence|]. exists q. split; [congruence|by eapply has_port_grows].
  - intros t th Hth Hs. destruct (Hback t th Hth) as (th0 & H0 & [_ Hpd _ _]). rewrite Hpd. by apply (pi_pid p Hp t).
  - rewrite M6. apply (pi_regs p Hp).
Qed.

Lemma moved_conts p k' : pinv p → conts k' = conts (p_kern p) → ∀ t, is_Some (p_spaces p !! t) → stack_fine k' t.
Proof. intros Hp E t Ht. destruct (pi_stack p Hp t Ht) as (gs & rest & H & Hg). exists gs, rest. by rewrite E. Qed.

Lemma kinv_upd_sched f k : kinv k → kinv (upd_sched f k).
Proof. intros [[O1 O2 O3 O4] K2 K3]. split; [|exact K2|exact K3]. split; [exact O1|exact O2|exact O3|exact O4]. Qed.

(** ** The machine *)

(** Registers, and what lies outside the invariant. *)
Lemma pinv_same p p' : pinv p → live_ok (p_umem p', spaces_of (p_spaces p')) →
  (∀ t, is_Some (p_spaces p' !! t) ↔ is_Some (p_spaces p !! t)) → size (p_spaces p') = size (p_spaces p) →
  calm (p_kern p) (p_kern p') → kinv (p_kern p') → processIdTable p' = processIdTable p →
  cantProcesses p' = cantProcesses p → p_conts p' = p_conts p → pinv p'.
Proof.
  intros Hp Hl Hs Hsz [Hc Hk Hg] Hki Ht Hn Hpc.
  assert (H : pinv (set_kern (p_kern p') p)).
  { apply pinv_kern; [done|by apply calm_moved|by apply moved_conts|by rewrite Hk|done|done]. }
  destruct H as [L1 L2 L3 L4 L5 L6 L7 L8 L9 L10 L11 L12 L13 L14 L15 L16]. cbn in *.
  split; rewrite ?Ht, ?Hn, ?Hpc, ?Hsz; try done.
  - intros t th sp Hth Hsp. rewrite Hs. by eapply L2.
  - intros t Hx. by apply L3, Hs.
  - intros t Hx. destruct (L7 t Hx) as [Hno Hco]. split; [|done]. apply eq_None_not_Some. by rewrite Hs, <- eq_None_not_Some.
  - intros t Hx. by apply L8, Hs.
  - intros Hne Hx. apply L11; [done|by apply Hs].
  - intros t c Hx Hne. apply Hs. by eapply L12.
  - intros t th Hth Hx. eapply L15; [done|by apply Hs].
Qed.

Lemma machine_of_user p : pinv p → user_mode p → ∃ sp, p_spaces p !! p_cur p = Some sp ∧
  machine_of p = Ok (mkMachine (p_memory p) (registers (p_sched p)) None (Some (pageTable sp)) (numPages sp)).
Proof.
  intros Hp Hu. destruct (user_mode_loaded p Hp Hu) as [[sp Hsp] Hpt]. exists sp. split; [done|].
  unfold machine_of. by rewrite Hpt, Hsp.
Qed.

(** The machine put back after a computation that stays in its frames. *)
Lemma good_put p k k' : machine_of p = Ok k → confined k k' → good p (put_machine k' p).
Proof.
  intros Hk Hc Hp Hu. destruct (machine_of_user p Hp Hu) as (sp & Hsp & E). rewrite E in Hk. injection Hk as <-.
  destruct (user_mode_loaded p Hp Hu) as [_ Hpt].
  destruct (Hc eq_refl) as [C1 C2 C3 C4 C6 C5]. cbn in *. destruct (m_pageTable k') as [pt'|] eqn:Ept; [|done].
  assert (Hspaces : p_spaces (put_machine k' p) = <[p_cur p := mkSpace pt' (pageTableSize k')]> (p_spaces p)).
  { unfold put_machine. cbn. by rewrite Hpt, Ept. }
  assert (Hss : same_space sp (mkSpace pt' (pageTableSize k'))).
  { split; [|done]. unfold space_frames. cbn. clear -C3. induction C3 as [|e e' l l' (H & _ & _) _ IH]; [done|].
    cbn. by rewrite H, IH. }
  split; [|split; [|split]].
  - apply (pinv_same p); try done; rewrite ?Hspaces.
    + apply (live_frames (p_umem p)); [done|]. by eapply live_update; [| |apply (pi_live p Hp)].
    + intros t. destruct (decide (t = p_cur p)) as [->|Hne].
      * rewrite lookup_insert_eq, Hsp. split; eauto.
      * by rewrite lookup_insert_ne.
    + rewrite map_size_insert_Some by eauto. done.
    + apply kinv_upd_sched, (pi_kernel p Hp).
  - exact Hu.
  - done.
  - intros t Hne sp2 Hsp2. rewrite Hspaces, lookup_insert_ne by done. split; [done|]. intros a Ha.
    apply (C5 a). intros pt [= <-] (e & He & _ & Hpe).
    assert (Hf : physicalPage e ∈ space_frames sp) by (by apply list_elem_of_fmap_2).
    pose proof (live_range _ _ _ _ _ (pi_live p Hp) Hsp Hf) as Hr.
    rewrite uint_id in Hpe by (unfold is_uint, NumPhysPages in *; lia).
    eapply (live_disjoint _ _ _ _ _ _ (physicalPage e) (pi_live p Hp) Hsp Hsp2); [done|done|]. by rewrite Hpe.
Qed.

Lemma good_on_machine {A} (m : M Machine A) : respects confined m → respects good (on_machine m).
Proof.
  intros Hm p a p' H. unfold on_machine in H. destruct (machine_of p) as [k|] eqn:Ek; [|done].
  destruct (m k) as [[a' k']|] eqn:E; [|done]. injection H as <- <-. eapply good_put; [done|by eapply Hm].
Qed.

(** Fields the invariant does not speak of. *)
Lemma good_other p p' : p_kern p' = p_kern p → p_frames p' = p_frames p → p_spaces p' = p_spaces p →
  p_memory p' = p_memory p → processIdTable p' = processIdTable p → cantProcesses p' = cantProcesses p →
  p_conts p' = p_conts p → good p p'.
Proof.
  intros E1 E2 E3 E4 E5 E6 E7 Hp Hu. assert (Hcur : p_cur p' = p_cur p) by (unfold p_cur, p_sched; by rewrite E1).
  split; [|split; [|split]].
  - apply (pinv_same p); rewrite ?E3, ?E1; try done; [|apply (pi_kernel p Hp)].
    by apply (live_frames (p_umem p)), (pi_live p Hp).
  - unfold user_mode. by rewrite Hcur, E1, E7.
  - done.
  - intros t _ sp Hsp. by rewrite E3, E4.
Qed.

Lemma good_on_sys {A} (m : M (sys D T) A) : respects sys_confined m → respects good (on_sys m).
Proof.
  intros Hm p a p' H. unfold on_sys in H. destruct (machine_of p) as [k|] eqn:Ek; [|done].
  destruct (p_desc p !! p_cur p) as [ds|]; [|done].
  destruct (m (mkSys k (p_disk p) (p_term p) ds)) as [[a' s']|] eqn:E; [|done]. injection H as <- <-.
  apply Hm in E. unfold sys_confined in E. cbn in E.
  etrans; [by eapply good_put|]. by apply good_other.
Qed.

Lemma good_on_pdisk {A} (m : M D A) : respects good (on_pdisk m).
Proof.
  intros p a p' H. unfold on_pdisk in H. destruct (m (p_disk p)) as [[]|]; [|done]. injection H as <- <-. by apply good_other.
Qed.

(** ** The process table *)

Lemma good_table_get pid : respects good (table_get pid).
Proof. intros p a p' H. unfold table_get in H. case_match; simplify_eq. reflexivity. Qed.

Lemma table_get_Ok pid p o p' : table_get pid p = Ok (o, p') →
  p' = p ∧ 0 ≤ pid ∧ processIdTable p !! Z.to_nat pid = Some o.
Proof.
  unfold table_get. destruct (Z.ltb_spec pid 0); [done|]. case_match; [|done]. intros [= <- <-]. done.
Qed.

Lemma table_put_Ok pid o p u p' : table_put pid o p = Ok (u, p') →
  0 ≤ pid ∧ (Z.to_nat pid < length (processIdTable p))%nat ∧
  p' = set_table (<[Z.to_nat pid := o]> (processIdTable p)) p.
Proof.
  intros H. unfold table_put in H. apply bind_Ok in H as (o' & p1 & (-> & H0 & Hl)%table_get_Ok & H). binds H.
  split_and!; [done|by eapply lookup_lt_Some|done].
Qed.

Lemma table_insert p i o : pinv p →
  (∀ t, o = Some t → ∃ th, threads (p_sched p) !! t = Some th ∧ th_space th = Some t ∧ th_pid th = Z.of_nat i) →
  pinv (set_table (<[i := o]> (processIdTable p)) p).
Proof.
  intros Hp Ho. destruct Hp as [L1 L2 L3 L4 L5 L6 L7 L8 L9 L10 L11 L12 L13 L14 L15 L16]. split; try done.
  - cbn. by rewrite length_insert.
  - cbn. intros pid t H. destruct (decide (pid = i)) as [->|Hne].
    + apply Ho. destruct (decide (i < length (processIdTable p))%nat).
      * rewrite list_lookup_insert_eq in H by done. by injection H.
      * rewrite list_insert_ge in H by lia. apply lookup_lt_Some in H. lia.
    + rewrite list_lookup_insert_ne in H by done. by apply L6.
Qed.

Lemma good_table_clear pid : respects good (table_put pid None).
Proof.
  intros p u p' (H0 & Hl & ->)%table_put_Ok Hp Hu. split; [|done]. by apply table_insert.
Qed.

(** [processIdTable[currentThread->pid] = currentThread]. *)
Lemma cur_thread_Ok p th p' : cur_thread p = Ok (th, p') → p' = p ∧ threads (p_sched p) !! p_cur p = Some th.
Proof.
  intros H. unfold cur_thread in H. apply bind_Ok in H as (t & p1 & E & H). binds E.
  unfold on_kern, on_sched, thread_at in H. fold (p_sched p) in H. destruct (threads (p_sched p) !! p_cur p) as [th'|] eqn:E; [|done].
  injection H as <- <-. split; [|done]. unfold p_sched, set_kern. destruct p as [[] ? ? ? ? ? ? ? ? ?]. done.
Qed.

Lemma user_thread p th : pinv p → user_mode p → threads (p_sched p) !! p_cur p = Some th → th_space th = Some (p_cur p).
Proof.
  intros Hp Hu Hth. destruct (user_mode_loaded p Hp Hu) as [Hs _]. destruct (pi_space p Hp _ Hs) as (th' & H1 & H2). congruence.
Qed.

Lemma good_table_self p th u p' : threads (p_sched p) !! p_cur p = Some th →
  table_put (th_pid th) (Some (p_cur p)) p = Ok (u, p') → good p p'.
Proof.
  intros Hth (H0 & Hl & ->)%table_put_Ok Hp Hu. split; [|done]. apply table_insert; [done|].
  intros t [= <-]. exists th. rewrite Z2Nat.id by done. split_and!; [done|by apply user_thread|done].
Qed.

(** The current thread goes to another place of its procedure. *)
Lemma pinv_pcont p c : pinv p → c ≠ InStart → c ≠ InExit → is_Some (p_spaces p !! p_cur p) →
  machine_pageTable (p_sched p) = Some (p_cur p) → pinv (set_pconts (<[p_cur p := c]> (p_conts p)) p).
Proof.
  intros Hp H1 H2 Hs Hpt. destruct Hp as [L1 L2 L3 L4 L5 L6 L7 L8 L9 L10 L11 L12 L13 L14 L15 L16]. split; try done; cbn.
  - intros t th Hth Hf. destruct (decide (t = p_cur p)) as [->|Hne].
    + unfold p_cur in Hth. by rewrite (L10 th Hth) in Hf.
    + rewrite lookup_insert_ne by done. by eapply L9.
  - intros t c' Hc Hne. destruct (decide (t = p_cur p)) as [->|Hne']; [done|].
    rewrite lookup_insert_ne in Hc by done. by eapply L12.
Qed.

Lemma good_set_pcont c : c ≠ InStart → c ≠ InExit → respects good (set_pcont c).
Proof.
  intros H1 H2 p u p' H Hp Hu. unfold set_pcont in H. apply bind_Ok in H as (t & p1 & E & H). binds E. binds H.
  destruct (user_mode_loaded p Hp Hu) as [Hs Hpt]. split; [by apply pinv_pcont|].
  split; [|done]. split; [exists c; cbn; by rewrite lookup_insert_eq|apply Hu].
Qed.

End Invariant.

(** ** Loading a program writes to its own frames only *)

Section Loader.
Context {D : Type} `{!ExeFile D}.
Hypothesis ReadAt_length : ∀ n pos (d : D) r d', exe_ReadAt n pos d = Ok (r, d') → 0 < n → is_int pos →
  Z.of_nat (length r) ≤ n.
Implicit Types (s : umem D).

Definition outside (ps : list Z) s s' : Prop :=
  ∀ a, Z.of_nat a / PageSize ∉ ps → mainMemory (mach s') !! a = mainMemory (mach s) !! a.

#[local] Instance outside_preorder ps : PreOrder (outside ps).
Proof. split; [by intros s|]. intros a b c H1 H2 x Hx. by rewrite H2, H1. Qed.

Lemma outside_on_exe ps {A} (m : M D A) : respects (outside ps) (on_exe m).
Proof. intros s a s' H. unfold on_exe in H. destruct (m (exe s)) as [[]|]; simplify_eq. done. Qed.
Lemma outside_on_frames ps {A} (m : M BitMap A) : respects (outside ps) (on_frames (D := D) m).
Proof. intros s a s' H. unfold on_frames in H. destruct (m (frames s)) as [[]|]; simplify_eq. done. Qed.
#[local] Hint Resolve outside_on_exe outside_on_frames : respects.

Lemma outside_alloc ps n i : respects (outside ps) (alloc_loop (D := D) n i).
Proof. revert i. induction n as [|n IH]; intros i; cbn [alloc_loop]; respects_tac. Qed.

Lemma frame_addr_Ok pt j s a s' : frame_addr (D := D) pt j s = Ok (a, s') →
  s' = s ∧ ∃ e, e ∈ pt ∧ a = physicalPage e * PageSize.
Proof.
  intros H. unfold frame_addr in H. destruct (j <? 0); [done|]. destruct (pt !! _) as [e|] eqn:E; [|done].
  binds H. split; [done|]. exists e. split; [by eapply list_elem_of_lookup_2|done].
Qed.

(** At most a page of bytes stored at the start of a frame. *)
Lemma poke_outside pt e r s u s' : e ∈ pt → Z.of_nat (length r) ≤ PageSize →
  poke (physicalPage e * PageSize) r s = Ok (u, s') → outside (physicalPage <$> pt) s s'.
Proof.
  intros He Hr H a Ha. unfold poke in H. case_match; [|done].
  match goal with Hb : _ && _ = true |- _ => apply andb_true_iff in Hb as [H0%bool_decide_eq_true _] end.
  injection H as <- <-. cbn.
  assert (Hne : physicalPage e ≠ Z.of_nat a / PageSize) by (intros E; apply Ha; rewrite <- E; by apply list_elem_of_fmap_2).
  unfold PageSize, SectorSize in *.
  destruct (decide (a < Z.to_nat (physicalPage e * 128))%nat).
  - by rewrite list_lookup_inserts_lt.
  - rewrite list_lookup_inserts_ge; [done|]. lia.
Qed.

Lemma zero_loop_outside pt n : respects (outside (physicalPage <$> pt)) (zero_loop (D := D) pt n).
Proof.
  unfold zero_loop. apply respects_for; [typeclasses eauto|]. intros i s u s' H.
  apply bind_Ok in H as (a & s1 & (-> & e & He & ->)%frame_addr_Ok & H).
  eapply poke_outside; [done| |exact H]. by rewrite length_replicate.
Qed.

Lemma load_page_outside pt fileAddr i j : respects (outside (physicalPage <$> pt)) (load_page pt fileAddr i j).
Proof.
  intros s u s' H. unfold load_page in H. apply bind_Ok in H as (a & s1 & (-> & e & He & ->)%frame_addr_Ok & H).
  apply bind_Ok in H as (r & s2 & E & H). pose proof (outside_on_exe (physicalPage <$> pt) _ _ _ _ E) as Ho.
  etrans; [exact Ho|]. eapply poke_outside; [done| |exact H]. unfold on_exe in E.
  destruct (exe_ReadAt _ _ _) as [[r' d']|] eqn:Er; [|done]. injection E as <- <-.
  apply ReadAt_length in Er; [done|done|apply sint_range].
Qed.

Lemma load_loop_outside fuel pt fileAddr limit i j :
  respects (outside (physicalPage <$> pt)) (load_loop fuel pt fileAddr limit i j).
Proof.
  revert i j. pose proof load_page_outside. induction fuel as [|fuel IH]; intros i j; cbn [load_loop]; respects_tac.
Qed.

Lemma new_AddrSpace_outside junk s sp s' : new_AddrSpace junk s = Ok (sp, s') → outside (space_frames sp) s s'.
Proof.
  intros H. unfold new_AddrSpace in H. apply bind_Ok in H as (r & s1 & E1 & H). cbv zeta in H.
  apply bind_Ok in H as ([] & s2 & (_ & -> & _)%ASSERT_Ok & H).
  apply bind_Ok in H as ([] & s2 & (_ & -> & _)%ASSERT_Ok & H).
  apply bind_Ok in H as (cl & s2 & E2 & H).
  apply bind_Ok in H as ([] & s3 & (_ & -> & _)%ASSERT_Ok & H).
  apply bind_Ok in H as (pt & s3 & E3 & H).
  apply bind_Ok in H as ([] & s4 & E4 & H).
  apply bind_Ok in H as (i & s5 & E5 & H).
  apply bind_Ok in H as ([] & s6 & E6 & H). binds H. unfold space_frames. cbn.
  pose proof load_loop_outside. etrans; [by eapply outside_on_exe|]. etrans; [by eapply outside_on_frames|].
  etrans; [by eapply outside_alloc|]. etrans; [by eapply zero_loop_outside|].
  lazymatch type of E5 with ?m _ = _ => assert (H5 : respects (outside (physicalPage <$> pt)) m) by respects_tac end.
  lazymatch type of E6 with ?m _ = _ => assert (H6 : respects (outside (physicalPage <$> pt)) m) by respects_tac end.
  etrans; [by eapply H5|by eapply H6].
Qed.

End Loader.

(** ** A new thread *)

(** The thread [t] is being set up: its address space and identifier stay, and
    the other threads are as they were. *)
Record newborn (t : Z) (s s' : sched) : Prop := {
  nb_current : currentThread s' = currentThread s;
  nb_table : machine_pageTable s' = machine_pageTable s;
  nb_doomed : threadToBeDestroyed s' = threadToBeDestroyed s;
  nb_regs : length (registers s') = length (registers s);
  nb_others t' : t' ≠ t → option_Forall2 same_proc (threads s !! t') (threads s' !! t');
  nb_self th : threads s !! t = Some th → ∃ th', threads s' !! t = Some th' ∧ th_space th' = th_space th ∧ th_pid th' = th_pid th
}.

#[export] Instance newborn_preorder t : PreOrder (newborn t).
Proof.
  split; [intros s; split; naive_solver|].
  intros a b c [A1 A2 A3 A6 A4 A5] [B1 B2 B3 B6 B4 B5]. split; [congruence..| |].
  - intros t' Hne. etrans; [by apply A4|by apply B4].
  - intros th Hth. destruct (A5 th Hth) as (th1 & H1 & H2 & H3). destruct (B5 th1 H1) as (th2 & H4 & H5 & H6).
    exists th2. split_and!; [done|congruence..].
Qed.

Lemma calm_newborn t s s' : calm_s s s' → newborn t s s'.
Proof.
  intros [H1 H2 H3 H5 H4]. split; [done..|by intros t' _|].
  intros th Hth. destruct (same_proc_on _ _ _ _ (H4 t) Hth) as (th' & Hth' & [E1 E2 _ _]). eauto.
Qed.

Lemma newborn_upd t f : (∀ th, th_space (f th) = th_space th ∧ th_pid (f th) = th_pid th) →
  respects (newborn t) (thread_upd t f).
Proof.
  intros Hf s a s' H. unfold thread_upd, thread_at in H. apply bind_Ok in H as (th & s1 & E & H).
  destruct (threads s !! t) as [th'|] eqn:Et; [|done]. injection E as <- <-. binds H. split; try done; cbn.
  - intros t' Hne. by rewrite lookup_insert_ne.
  - intros th0 H0. rewrite Et in H0. injection H0 as <-. rewrite lookup_insert_eq. destruct (Hf th'). eauto.
Qed.

(** [Fork] of a thread that can be joined. *)
Lemma Fork_newborn t port pr s u s' : Fork t port 0 pr s = Ok (u, s') →
  newborn t s s' ∧ ∃ th, threads s' !! t = Some th ∧ th_join th = true ∧ th_portJoin th = Some port.
Proof.
  intros H. unfold Fork, StackAllocate in H.
  apply bind_Ok in H as ([] & s1 & E1 & H). apply newborn_upd in E1; [|done].
  apply bind_Ok in H as ([] & s2 & E2 & H). rewrite bool_decide_eq_true_2 in E2 by done.
  assert (Hj : ∃ th, threads s2 !! t = Some th ∧ th_join th = true ∧ th_portJoin th = Some port).
  { unfold thread_upd, thread_at in E2. apply bind_Ok in E2 as (th & s3 & E & E2).
    destruct (threads s1 !! t) as [th'|] eqn:Et; [|done]. injection E as <- <-. binds E2. cbn. rewrite lookup_insert_eq. eauto. }
  apply newborn_upd in E2; [|done].
  lazymatch type of H with ?m _ = _ => assert (Hm : respects calm_s m) by respects_tac end. apply Hm in H.
  split; [etrans; [exact E1|etrans; [exact E2|by apply calm_newborn]]|]. destruct Hj as (th & Hth & Hj & Hq).
  destruct (same_proc_on _ _ _ _ (cs_threads _ _ H t) Hth) as (th' & Hth' & [_ _ [E E'] _]). exists th'. by rewrite E, E'.
Qed.

Lemma new_Puerto_has q a b k u k' : new_Puerto q a b k = Ok (u, k') → has_port k' q.
Proof.
  intros H. unfold new_Puerto, new_Lock, new_Condition, new_Semaphore, put_sem, put_lock, put_cond, put_port in H. binds H.
  unfold has_port. cbn. rewrite !lookup_insert_eq. split_and!; eauto.
Qed.

Lemma Thread_Fork_effect t pr a b k u k' : Thread_Fork t 0 pr a b k = Ok (u, k') →
  newborn t (k_sched k) (k_sched k') ∧ conts k' = <[t := [FEnable; FUser; FFinish]]> (conts k) ∧ grows k k' ∧ has_port k' t ∧
  ∃ th, threads (k_sched k') !! t = Some th ∧ th_join th = true ∧ th_portJoin th = Some t.
Proof.
  intros H. unfold Thread_Fork in H. apply bind_Ok in H as ([] & k1 & E & H). rewrite bool_decide_eq_true_2 in E by done.
  apply new_Puerto_has in E as Hport. apply calm_new_Puerto in E as [C1 C2 C3].
  apply bind_Ok in H as ([] & k2 & E2 & H). unfold put_stack in E2. binds E2.
  unfold on_sched in H. destruct (Fork _ _ _ _ _) as [[x s']|] eqn:Ef; [|done]. injection H as _ <-.
  apply Fork_newborn in Ef as [Ef Hj]. cbn in *. rewrite C2. split; [|split; [done|split; [by destruct C3|done]]].
  etrans; [|exact Ef]. by apply calm_newborn.
Qed.

(** ** The calls *)

Section Calls.
Context {D T : Type} `{!Files D T} `{!FilesOK D T}.
Implicit Types (p : psys D T) (a : alloc).

Lemma on_kern_Ok {A} (m : M kernel A) p x p' : on_kern m p = Ok (x, p') → ∃ k, m (p_kern p) = Ok (x, k) ∧ p' = set_kern k p.
Proof. unfold on_kern. destruct (m (p_kern p)) as [[y k]|]; [|done]. intros [= -> <-]. eauto. Qed.

Lemma upd_thread_Ok t f p u p' : upd_thread t f p = Ok (u, p') →
  ∃ th, threads (p_sched p) !! t = Some th ∧
    p' = set_kern (upd_sched (set_threads (<[t := f th]> (threads (p_sched p)))) (p_kern p)) p.
Proof.
  intros (k & E & ->)%on_kern_Ok. unfold on_sched, thread_upd, thread_at in E. unfold_M. fold (p_sched p) in E.
  destruct (threads (p_sched p) !! t) as [th|] eqn:Et; [|done]. injection E as _ <-. exists th. split; [done|].
  unfold upd_sched, p_sched. done.
Qed.

(** What [do_Exec] does: a thread [t] that was not there, with a space of its own. *)
Record exec_effect (t pid : Z) (sp : AddrSpace) p (um : umem D) p' : Prop := {
  xe_thread : threads (p_sched p) !! t = None;
  xe_conts : conts (p_kern p) !! t = None;
  xe_space : p_spaces p !! t = None;
  xe_pid : 0 ≤ pid;
  xe_pcur : p_cur p' = p_cur p;
  xe_pt : machine_pageTable (p_sched p') = machine_pageTable (p_sched p);
  xe_doomed : threadToBeDestroyed (p_sched p') = threadToBeDestroyed (p_sched p);
  xe_others t' : t' ≠ t → option_Forall2 same_proc (threads (p_sched p) !! t') (threads (p_sched p') !! t');
  xe_self : ∃ th, threads (p_sched p') !! t = Some th ∧ th_space th = Some t ∧ th_pid th = pid ∧ th_portJoin th = Some t;
  xe_port : has_port (p_kern p') t;
  xe_regs : length (registers (p_sched p')) = length (registers (p_sched p));
  xe_kinv : kinv (p_kern p) → kinv (p_kern p');
  xe_grows : grows (p_kern p) (p_kern p');
  xe_stack : conts (p_kern p') = <[t := [FEnable; FUser; FFinish]]> (conts (p_kern p));
  xe_memory : p_memory p' = mainMemory (mach um);
  xe_frames : p_frames p' = frames um;
  xe_table : processIdTable p' = <[Z.to_nat pid := Some t]> (processIdTable p);
  xe_count : cantProcesses p' = sint (cantProcesses p + 1);
  xe_spaces : p_spaces p' = <[t := sp]> (p_spaces p);
  xe_pconts : p_conts p' = <[t := InStart]> (p_conts p)
}.

Lemma do_Exec_effect a pid f p u p' : do_Exec a pid f p = Ok (u, p') →
  ∃ sp um, @new_AddrSpace D (fs_file f) (a_noff a) (p_umem p) = Ok (sp, um) ∧ exec_effect (a_thread a) pid sp p um p'.
Proof.
  intros H. unfold do_Exec, new_thread in H. cbv zeta in H. set (t := a_thread a) in *.
  apply bind_Ok in H as ([] & p1 & E & H). apply bind_Ok in E as (x & p2 & E0 & E). unfold get in E0. injection E0 as <- <-.
  apply bind_Ok in E as ([] & p2 & (Hn & -> & _)%ASSERT_Ok & E). apply bind_Ok in E as ([] & p2 & E1 & E). binds E.
  apply on_kern_Ok in E1 as (k1 & E1 & ->). unfold Thread_new, on_sched, modify in E1. injection E1 as <-.
  fold t in Hn. rewrite !andb_true_iff in Hn. destruct Hn as [[[N1 N2] N4] N3].
  destruct (threads (p_sched p) !! t) eqn:T1, (conts (p_kern p) !! t) eqn:T2, (p_spaces p !! t) eqn:T3,
    (locks (p_kern p) !! LPort t) eqn:T4; try done.
  apply bind_Ok in H as ([] & p3 & (th1 & Hth1 & ->)%upd_thread_Ok & H).
  unfold p_sched in Hth1. cbn in Hth1. rewrite lookup_insert_eq in Hth1. injection Hth1 as <-.
  apply bind_Ok in H as ([] & p4 & (Hp0 & _ & ->)%table_put_Ok & H).
  apply bind_Ok in H as (sp & p5 & E5 & H). unfold on_umem in E5. cbn in E5.
  destruct (new_AddrSpace _ _) as [[sp' um]|] eqn:En; [|done]. injection E5 as <- <-.
  apply bind_Ok in H as ([] & p6 & E6 & H). unfold put_space in E6. binds E6.
  apply bind_Ok in H as ([] & p7 & (th2 & Hth2 & ->)%upd_thread_Ok & H).
  unfold p_sched in Hth2. cbn in Hth2. rewrite lookup_insert_eq in Hth2. injection Hth2 as <-.
  apply bind_Ok in H as ([] & p8 & E8 & H). binds E8.
  apply bind_Ok in H as ([] & p9 & (k9 & E9 & ->)%on_kern_Ok & H). binds H.
  assert (Hki : kinv (p_kern p) → kinv k9).
  { intros Hk. revert E9. apply Fork_kinv; [|exact T4|exact T2]. cbn. by do 3 apply kinv_upd_sched. }
  apply Thread_Fork_effect in E9 as ([F1 F2 F3 F6 F4 F5] & Fc & Fg & Fp & thj & Fj1 & Fj2 & Fj3).
  exists sp', um. split; [done|]. unfold p_sched in *. cbn in *. split; try done; cbn.
  - intros t' Hne. specialize (F4 t' Hne). unfold p_sched in F4. cbn in F4. rewrite !lookup_insert_ne in F4 by done. done.
  - edestruct F5 as (th' & Hth' & H1 & H2); [unfold p_sched; cbn; by rewrite lookup_insert_eq|]. exists th'. rewrite Fj1 in Hth'. injection Hth' as ->.
    by rewrite H1, H2.
  - by destruct Fg.
Qed.

(** A new address space takes frames that no other has. *)
Lemma new_space_spares f junk p sp um t sp' : pinv p → @new_AddrSpace D (fs_file f) junk (p_umem p) = Ok (sp, um) →
  p_spaces p !! t = Some sp' → ∀ a : nat, Z.of_nat a / PageSize ∈ space_frames sp' → mainMemory (mach um) !! a = p_memory p !! a.
Proof.
  intros Hp En Hsp' a Ha. pose proof (pi_live p Hp) as Hl.
  apply (@new_AddrSpace_outside D (fs_file f)) in En as Ho; [|intros; by eapply fs_ReadAt_length]. apply Ho.
  destruct (@new_AddrSpace_frames D (fs_file f) _ _ _ _ (lo_wf _ Hl) (lo_bits _ Hl) En) as (ps & Hps & _ & _ & Hf & _).
  intros Hin. rewrite Hps in Hin. rewrite Forall_forall in Hf. apply (Hf _ Hin).
  rewrite (lo_used _ Hl). apply elem_of_list_to_set, elem_of_concat_lookup.
  pose proof (spaces_elem _ _ _ Hsp') as He. apply list_elem_of_lookup in He as [i Hi].
  exists i, (space_frames sp'). split; [|done]. cbn. by rewrite list_lookup_fmap, Hi.
Qed.

Lemma exec_good f junk t pid sp p um p' : pid < maxCantProcess → @new_AddrSpace D (fs_file f) junk (p_umem p) = Ok (sp, um) →
  exec_effect t pid sp p um p' → good p p'.
Proof.
  intros Hpr En [T1 T2 T3 T4 X1 X2 X3 X4 X5 X13 X14 X15 X16 X6 X7 X8 X9 X10 X11 X12] Hp Hu.
  destruct (user_mode_loaded p Hp Hu) as [Hcs Hpt]. destruct (pi_space p Hp _ Hcs) as (thc & Hthc & _).
  assert (Hct : p_cur p ≠ t) by (intros <-; congruence).
  assert (Hback : ∀ t' th, t' ≠ t → threads (p_sched p') !! t' = Some th →
    ∃ th0, threads (p_sched p) !! t' = Some th0 ∧ same_proc th0 th) by (intros; eapply same_proc_back; eauto).
  assert (Hon : ∀ t' th, threads (p_sched p) !! t' = Some th →
    ∃ th', threads (p_sched p') !! t' = Some th' ∧ same_proc th th').
  { intros t' th Hth. eapply same_proc_on; [|done]. apply X4. intros ->. congruence. }
  destruct X5 as (tht & Htht & Hspt & Hpidt & Hptt).
  pose proof (pi_live p Hp) as Hl. split; [split|split; [|split; [done|]]].
  - rewrite X11. apply (live_perm _ (sp :: spaces_of (p_spaces p))); [symmetry; by apply spaces_insert|].
    apply (live_frames um); [by cbn|]. eapply (@space_step_ok _ (fs_file f)); [by econstructor|done].
  - intros t' th sp' Hth Hsp'. rewrite X11. destruct (decide (t' = t)) as [->|Hne].
    + rewrite lookup_insert_eq. split; [congruence|eauto].
    + destruct (Hback t' th Hne Hth) as (th0 & H0 & [Hs _ _ _]). rewrite lookup_insert_ne by done.
      apply (pi_owner p Hp t' th0); [done|congruence].
  - intros t'. rewrite X11. destruct (decide (t' = t)) as [->|Hne]; [by exists tht|].
    rewrite lookup_insert_ne by done. intros Hs. destruct (pi_space p Hp t' Hs) as (th & Hth & Hsp').
    destruct (Hon t' th Hth) as (th' & Hth' & [E _ _ _]). exists th'. split; [done|congruence].
  - rewrite X10, X11, map_size_insert_None by done. rewrite (pi_count p Hp), sint_add. f_equal. lia.
  - rewrite X9, length_insert. exact (pi_length p Hp).
  - intros i t' Hi. rewrite X9 in Hi. destruct (decide (i = Z.to_nat pid)) as [->|Hne].
    + apply list_lookup_insert_Some in Hi as [(_ & [= ->] & _)|[? _]]; [|done]. exists tht. split_and!; [done..|lia].
    + rewrite list_lookup_insert_ne in Hi by done. destruct (pi_table p Hp i t' Hi) as (th & Hth & Hs & Hpd).
      destruct (Hon t' th Hth) as (th' & Hth' & [E E' _ _]). exists th'. split_and!; [done|congruence..].
  - intros d Hd. rewrite X3 in Hd. destruct (pi_doomed p Hp d Hd) as [Hn [fs Hfs]].
    assert (d ≠ t) by (intros ->; congruence). rewrite X11, X6, !lookup_insert_ne by done. eauto.
  - intros t'. rewrite X11. destruct (decide (t' = t)) as [->|Hne].
    + intros _. exists [FEnable], [FFinish]. rewrite X6, lookup_insert_eq. split; [done|]. repeat constructor; discriminate.
    + rewrite lookup_insert_ne by done. intros Hs. destruct (pi_stack p Hp t' Hs) as (gs & rest & H & Hg).
      exists gs, rest. by rewrite X6, lookup_insert_ne.
  - intros t' th Hth Hf. rewrite X12. destruct (decide (t' = t)) as [->|Hne]; [by rewrite lookup_insert_eq|].
    rewrite lookup_insert_ne by done. destruct (Hback t' th Hne Hth) as (th0 & H0 & [_ _ _ Hs]).
    apply (pi_fresh p Hp t' th0); auto.
  - intros th Hth. change (threads (p_sched p') !! p_cur p' = Some th) in Hth. rewrite X1 in Hth.
    destruct (Hback _ th Hct Hth) as (th0 & H0 & [_ _ _ Hs]). pose proof (pi_begun p Hp th0 H0).
    destruct (th_fresh th); [|done]. by rewrite Hs in *.
  - rewrite X1, X2, X11, X12, !lookup_insert_ne by done. apply (pi_loaded p Hp).
  - intros t' c. rewrite X11, X12. destruct (decide (t' = t)) as [->|Hne]; [rewrite !lookup_insert_eq; eauto|].
    rewrite !lookup_insert_ne by done. apply (pi_conts p Hp).
  - apply X15, (pi_kernel p Hp).
  - intros t' th Hth Hj. destruct (decide (t' = t)) as [->|Hne]; [exists t; split; [congruence|done]|].
    destruct (Hback t' th Hne Hth) as (th0 & H0 & [_ _ [Hj0 Hq0] _]).
    destruct (pi_port p Hp t' th0 H0) as (q & Hq & Hport); [congruence|]. exists q. split; [congruence|by eapply has_port_grows].
  - intros t' th Hth. rewrite X11. destruct (decide (t' = t)) as [->|Hne].
    + intros _. rewrite Htht in Hth. injection Hth as <-. lia.
    + rewrite lookup_insert_ne by done. destruct (Hback t' th Hne Hth) as (th0 & H0 & [_ Hpd _ _]). rewrite Hpd.
      by apply (pi_pid p Hp).
  - rewrite X14. apply (pi_regs p Hp).
  - unfold user_mode. by rewrite X1, X12, X6, !lookup_insert_ne.
  - intros t' _ sp' Hsp'. assert (t' ≠ t) by (intros ->; congruence). rewrite X11, X7, lookup_insert_ne by done.
    split; [done|]. by eapply new_space_spares.
Qed.

Lemma good_do_Exec a pid f : pid < maxCantProcess → respects good (do_Exec a pid f).
Proof. intros Hpid p u p' (sp & um & En & Hx)%do_Exec_effect. by eapply exec_good. Qed.

Hint Resolve good_on_machine good_on_pdisk good_on_sys good_table_get good_table_clear good_do_Exec : respects.

Lemma confined_read_args n addr : respects confined (read_args n addr).
Proof. revert addr. induction n as [|n IH]; intros addr; cbn [read_args]; respects_tac. Qed.
Hint Resolve confined_read_args : respects.

Lemma good_pid_loop fuel pid : respects good (pid_loop (D := D) (T := T) fuel pid).
Proof. revert pid. induction fuel as [|fuel IH]; intros pid; cbn [pid_loop]; respects_tac. Qed.
Hint Resolve good_pid_loop : respects.

Lemma good_Exec a : respects good (Exec a).
Proof.
  unfold Exec. do 6 (apply respects_bind; [typeclasses eauto|solve [respects_tac]|intros ?]).
  apply respects_bind; [typeclasses eauto|solve [respects_tac]|intros f].
  intros p u p' H. apply bind_Ok in H as (th & p1 & [-> Hth]%cur_thread_Ok & H).
  apply bind_Ok in H as (t & p1 & E & H). binds E.
  apply bind_Ok in H as ([] & p1 & E & H). apply good_table_self in E; [|done]. etrans; [exact E|].
  apply bind_Ok in H as (pid & p2 & E2%good_pid_loop & H). etrans; [exact E2|].
  case_bool_decide as Hpid; [|done]. apply bind_Ok in H as ([] & p3 & E3 & H).
  etrans; [by eapply good_on_machine; [|exact E3]; auto with respects|by apply good_do_Exec in H].
Qed.

Lemma good_Join_end pid : respects good (Join_end (D := D) (T := T) pid).
Proof. unfold Join_end. respects_tac. by apply good_set_pcont. Qed.

(** A step keeps the invariant, and leaves the processes that do not run alone. *)
Definition safe_step p p' : Prop := pinv p' ∧ ∀ t, t ≠ p_cur p → untouched t p p'.

Lemma good_then_safe p p1 p' : good p p1 → pinv p → user_mode p → (pinv p1 → user_mode p1 → safe_step p1 p') → safe_step p p'.
Proof.
  intros G Hp Hu Hs. destruct (G Hp Hu) as (Hp1 & Hu1 & Hc & Ht). destruct (Hs Hp1 Hu1) as [Hp' Ht']. split; [done|].
  intros t Hne. etrans; [by apply Ht|apply Ht'; congruence].
Qed.
Lemma good_safe p p' : good p p' → pinv p → user_mode p → safe_step p p'.
Proof. intros G Hp Hu. destruct (G Hp Hu) as (Hp1 & _ & _ & Ht). by split. Qed.

(** *** Join *)

(** The frames of a call of the kernel go on top of the process's own code. *)
Lemma pushed_stacks p gs rest k' : pinv p → conts (p_kern p) !! p_cur p = Some (FUser :: rest) → Forall goes_on gs →
  conts k' = <[p_cur p := gs ++ FUser :: rest]> (conts (p_kern p)) →
  (∀ t, is_Some (p_spaces p !! t) → stack_fine k' t) ∧ ∀ t, is_Some (conts (p_kern p) !! t) → is_Some (conts k' !! t).
Proof.
  intros Hp Hfs Hg Hk. split; intros t Ht; [|by rewrite Hk; auto with nachos].
  unfold stack_fine. rewrite Hk. destruct (decide (t = p_cur p)) as [->|Hne].
  - rewrite lookup_insert_eq. by exists gs, rest.
  - rewrite lookup_insert_ne by done. by apply (pi_stack p Hp).
Qed.

Lemma Join_safe p u p' : Join p = Ok (u, p') → pinv p → user_mode p → safe_step p p'.
Proof.
  intros H Hp Hu. unfold Join in H. apply bind_Ok in H as (pid & p1 & E & H).
  apply (good_on_machine _ (confined_ReadRegister 4)) in E. eapply good_then_safe; [exact E|done|done|]. clear E Hp Hu p.
  intros Hp Hu. apply bind_Ok in H as (o & p2 & (-> & _)%table_get_Ok & H).
  apply bind_Ok in H as (t & p2 & E & H). destruct o as [t'|]; [|done]. cbn in E. binds E.
  apply bind_Ok in H as (gs & p3 & (k3 & E3 & ->)%on_kern_Ok & H).
  apply bind_Ok in H as ([] & p4 & E4 & H). unfold push_frames in E4. apply bind_Ok in E4 as (c & p5 & E5 & E4). binds E5.
  apply on_kern_Ok in E4 as (k4 & E4 & ->). cbn in E4. destruct (user_mode_loaded p1 Hp Hu) as [Hsp Hpt]. destruct Hu as [_ [rest Hfs]].
  assert (Hki : kinv k4).
  { eapply (step_kinv (CallJoin t')); [apply (pi_kernel p1 Hp)|]. unfold step, stack_at. unfold_M.
    change (currentThread (k_sched (p_kern p1))) with (p_cur p1). rewrite Hfs. cbn. rewrite E3.
    apply calm_Join in E3 as [C _ _]. rewrite <- E4. f_equal. symmetry. apply (cs_current _ _ C). }
  pose proof (yields_Join _ _ _ _ E3) as Hg. apply calm_Join in E3 as [C1 C2 C3].
  assert (Hcur : currentThread (k_sched k3) = p_cur p1) by apply C1.
  unfold p_cur, p_sched in E4. cbn in E4. rewrite Hcur in E4. apply push_Ok in E4 as (fs & Hfs' & ->).
  rewrite C2, Hfs in Hfs'. injection Hfs' as <-.
  destruct (pushed_stacks p1 gs rest (set_conts (<[p_cur p1 := gs ++ FUser :: rest]> (conts k3)) k3) Hp Hfs Hg) as [S1 S2];
    [by cbn; rewrite C2|].
  assert (Hp4 : pinv (set_kern (set_conts (<[p_cur p1 := gs ++ FUser :: rest]> (conts k3)) k3) p1)).
  { apply pinv_kern; try done; [by apply calm_moved|by destruct C3]. }
  unfold set_pcont in H. apply bind_Ok in H as (c & p5 & E5 & H). binds E5. binds H. split; [|done].
  apply (pinv_pcont _ (InJoin pid) Hp4); [done|done|..]; unfold p_cur, p_sched; cbn; rewrite Hcur; [done|].
  by rewrite (cs_table _ _ C1).
Qed.

(** *** Exit *)

(** The loop of [delete_AddrSpace] touches the map of frames only. *)
Definition only_frames (s s' : umem D) : Prop := mach s' = mach s ∧ exe s' = exe s.
Instance only_frames_preorder : PreOrder only_frames.
Proof. split; [by intros s|]. intros x y z [H1 H2] [H3 H4]. split; congruence. Qed.
Lemma delete_only_frames sp : respects only_frames (delete_AddrSpace (D := D) sp).
Proof.
  unfold delete_AddrSpace, CleanMyBitmap. apply respects_for; [typeclasses eauto|]. intros i s u s' H.
  case_match; [|done]. unfold on_frames in H. destruct (BitMap_Clear _ _) as [[]|]; simplify_eq. done.
Qed.

(** [Finish] called on top of a process's code. *)
Lemma Finish_kinv k rest gs k' u k'' : Thread_Finish k = Ok (gs, k') → kinv k →
  conts k !! currentThread (k_sched k) = Some (FUser :: rest) → push (currentThread (k_sched k)) gs k' = Ok (u, k'') → kinv k''.
Proof.
  intros H Hk Hfs Hpush. destruct (inv_stacks _ Hk _ _ Hfs) as [Hb Hst].
  eapply (segment_kinv k k _ (FUser :: rest)); [done|done|by rewrite insert_id|done| |exact Hpush].
  assert (Hs : stack_ok (FFinish :: FUser :: rest)) by (split; [constructor; [done|exact Hb]|done]).
  exact (Finish_segment k gs k' (FUser :: rest) (inv_objs _ Hk) Hs H).
Qed.

Record exit_effect p p' : Prop := {
  ee_count : 0 < cantProcesses p' ∧ cantProcesses p' = sint (cantProcesses p - 1);
  ee_memory : p_memory p' = p_memory p;
  ee_frames : ∃ sp um, p_spaces p !! p_cur p = Some sp ∧ delete_AddrSpace sp (p_umem p) = Ok (tt, um) ∧
    p_frames p' = frames um;
  ee_spaces : p_spaces p' = delete (p_cur p) (p_spaces p);
  ee_table : ∃ th, threads (p_sched p) !! p_cur p = Some th ∧ 0 ≤ th_pid th ∧
    processIdTable p' = <[Z.to_nat (th_pid th) := None]> (processIdTable p);
  ee_pconts : p_conts p' = <[p_cur p := InExit]> (p_conts p);
  ee_cur : p_cur p' = p_cur p;
  ee_pt : machine_pageTable (p_sched p') = machine_pageTable (p_sched p);
  ee_doomed : threadToBeDestroyed (p_sched p') = threadToBeDestroyed (p_sched p);
  ee_others t : t ≠ p_cur p → option_Forall2 same_proc (threads (p_sched p) !! t) (threads (p_sched p') !! t);
  ee_self th' : threads (p_sched p') !! p_cur p = Some th' → th_space th' = None ∧
    ∃ th, threads (p_sched p) !! p_cur p = Some th ∧ same_join th th' ∧ (th_fresh th' = true → th_fresh th = true);
  ee_regs : length (registers (p_sched p')) = length (registers (p_sched p));
  ee_kinv : kinv (p_kern p) → kinv (p_kern p');
  ee_grows : grows (p_kern p) (p_kern p');
  ee_conts : ∃ fs, conts (p_kern p') = <[p_cur p := fs]> (conts (p_kern p))
}.

(** [Exit] after it has read its argument. *)
Lemma Exit_effect p u p' : pinv p → user_mode p → Exit p = Ok (u, p') →
  ∃ x p1, on_machine (ReadRegister 4) p = Ok (x, p1) ∧ good p p1 ∧ exit_effect p1 p'.
Proof.
  intros Hp Hu H. unfold Exit in H. apply bind_Ok in H as (x & p1 & E & H).
  assert (G1 : good p p1) by (eapply (good_on_machine _ (confined_ReadRegister 4)); exact E).
  destruct (G1 Hp Hu) as (Hp1 & Hu1 & _ & _). exists x, p1. split; [done|]. split; [done|]. clear E x.
  apply bind_Ok in H as ([] & p2 & E & H). binds E. apply bind_Ok in H as (n & p2 & E & H). binds E. cbn [cantProcesses set_count] in H.
  apply bind_Ok in H as ([] & p2 & E & H). case_bool_decide as Hpos; [done|]. binds E.
  apply bind_Ok in H as (th & p2 & [-> Hth]%cur_thread_Ok & H). change (threads (p_sched p1) !! p_cur p1 = Some th) in Hth.
  apply bind_Ok in H as (t & p2 & E & H). binds E. change (p_cur (set_count _ p1)) with (p_cur p1) in H.
  destruct (user_mode_loaded p1 Hp1 Hu1) as [[sp Hsp] _]. pose proof (user_thread p1 th Hp1 Hu1 Hth) as Hths.
  rewrite Hths in H. apply bind_Ok in H as ([] & p2 & E & H).
  apply bind_Ok in E as ([] & p3 & E3 & E). unfold delete_space in E3.
  apply bind_Ok in E3 as (x & p4 & E0 & E3). unfold get in E0. injection E0 as <- <-. cbn [p_spaces set_count] in E3.
  rewrite Hsp in E3. apply bind_Ok in E3 as ([] & p4 & E4 & E3). binds E3. unfold on_umem in E4. cbn in E4.
  destruct (delete_AddrSpace sp _) as [[[] um]|] eqn:Ed; [|done]. injection E4 as <-.
  destruct (delete_only_frames _ _ _ _ Ed) as [Hm He]. cbn in Hm, He.
  apply bind_Ok in E as ([] & p5 & (th2 & Hth2 & ->)%upd_thread_Ok & E).
  change (threads (p_sched p1) !! p_cur p1 = Some th2) in Hth2. rewrite Hth in Hth2. injection Hth2 as <-.
  apply table_put_Ok in E as (Hpid & _ & ->). cbn in H.
  apply bind_Ok in H as (gs & p6 & (k6 & E6 & ->)%on_kern_Ok & H).
  apply bind_Ok in H as ([] & p7 & E7 & H). unfold push_frames in E7. apply bind_Ok in E7 as (x & p8 & E8 & E7). binds E8.
  apply on_kern_Ok in E7 as (k8 & E8 & ->). destruct (proj2 Hu1) as [rest Hrest].
  assert (Hki : kinv (p_kern p1) → kinv k8).
  { intros Hk. eapply (Finish_kinv _ _ _ _ _ _ E6); [|exact Hrest|].
    - by apply kinv_upd_sched.
    - revert E8. apply calm_Finish in E6 as [C _ _]. unfold p_cur, p_sched. cbn. rewrite (cs_current _ _ C). done. }
  apply calm_Finish in E6 as [[C1 C2 C3 C6 C4] C5 C7]. apply push_Ok in E8 as (fs & _ & ->).
  unfold set_pcont in H. apply bind_Ok in H as (x & p8 & E8 & H). binds E8. binds H.
  unfold p_cur, p_sched in *. cbn in *. rewrite C1, C5 in *.
  split; unfold p_cur, p_sched; cbn; rewrite ?C1, ?C2, ?C3; try done.
  - lia.
  - by rewrite Hm.
  - by exists sp, um.
  - by exists th.
  - intros t Hne. specialize (C4 t). rewrite lookup_insert_ne in C4 by done. done.
  - intros th' Hth'. specialize (C4 (currentThread (k_sched (p_kern p1)))).
    destruct (same_proc_back _ _ _ _ C4 Hth') as (th0 & H0 & [E1 _ [E2 E3] E4]). rewrite lookup_insert_eq in H0. injection H0 as <-.
    split; [done|]. by exists th.
  - by destruct C7.
  - by eexists.
Qed.

Lemma live_delete (s : umem D) m t sp s' : m !! t = Some sp → live_ok (s, spaces_of m) →
  delete_AddrSpace sp s = Ok (tt, s') → live_ok (s', spaces_of (delete t m)).
Proof.
  intros Ht Hl E. apply (live_perm s _ (sp :: spaces_of (delete t m))) in Hl; [|by apply spaces_delete].
  destruct (live_split s [] sp _ Hl) as (H1 & H2 & H3 & H4 & H5 & H6). cbn [app] in *.
  destruct (delete_AddrSpace_ok sp s _ (lo_wf _ Hl) H5 H1 H3 H4) as (s2 & E' & Hwf & Hn & Hb).
  rewrite E in E'. injection E' as <-. split; cbn [fst snd]; try done. rewrite Hn. exact (lo_bits _ Hl).
Qed.

Lemma exit_good p p' : pinv p → user_mode p → exit_effect p p' →
  pinv p' ∧ p_cur p' = p_cur p ∧ ∀ t, t ≠ p_cur p → untouched t p p'.
Proof.
  intros Hp Hu [E1 E2 (sp & um & Hsp & Ed & E3) E4 (th & Hth & Hpid & E5) E6 E7 E8 E9 E10 E11 E13 E14 E15 (fs & E12)].
  set (c := p_cur p) in *. split; [split|split; [done|]].
  - rewrite E4. apply (live_frames um); [by cbn|]. by eapply live_delete; [|apply (pi_live p Hp)|].
  - intros t th' sp' Hth' Hsp'. destruct (decide (t = c)) as [->|Hne]; [by destruct (E11 th' Hth'); congruence|].
    rewrite E4, lookup_delete_ne by done. destruct (same_proc_back _ _ _ _ (E10 t Hne) Hth') as (th0 & H0 & [Hs _ _ _]).
    apply (pi_owner p Hp t th0); [done|congruence].
  - intros t. rewrite E4. destruct (decide (t = c)) as [->|Hne]; [by rewrite lookup_delete_eq; intros [??]|].
    rewrite lookup_delete_ne by done. intros Hs. destruct (pi_space p Hp t Hs) as (th' & Hth' & Hsp').
    destruct (same_proc_on _ _ _ _ (E10 t Hne) Hth') as (th1 & H1 & [Hs1 _ _ _]). exists th1. split; [done|congruence].
  - destruct E1 as [_ ->]. rewrite E4, (pi_count p Hp), map_size_delete_Some by eauto.
    rewrite <- Z.add_opp_r, sint_add. f_equal.
    assert (size (p_spaces p) ≠ 0%nat) by (eapply map_size_ne_0_lookup_2; eauto). lia.
  - rewrite E5, length_insert. exact (pi_length p Hp).
  - intros i t Hi. rewrite E5 in Hi. apply list_lookup_insert_Some in Hi as [(_ & ? & _)|[Hne Hi]]; [done|].
    destruct (pi_table p Hp i t Hi) as (th' & Hth' & Hs' & Hpid'). destruct (decide (t = c)) as [->|Hnt].
    { rewrite Hth in Hth'. injection Hth' as <-. lia. }
    destruct (same_proc_on _ _ _ _ (E10 t Hnt) Hth') as (th1 & H1 & [Hs1 Hp1 _ _]). exists th1. split_and!; [done|congruence..].
  - intros t Ht. rewrite E9 in Ht. destruct (pi_doomed p Hp t Ht) as [Hn Hc]. rewrite E4, E12. split.
    + by apply lookup_delete_None; right.
    + destruct (decide (t = c)) as [->|Hne]; [by rewrite lookup_insert_eq|by rewrite lookup_insert_ne].
  - intros t. rewrite E4. destruct (decide (t = c)) as [->|Hne]; [by rewrite lookup_delete_eq; intros [??]|].
    rewrite lookup_delete_ne by done. intros Hs. destruct (pi_stack p Hp t Hs) as (gs & rest & H & Hg).
    exists gs, rest. by rewrite E12, lookup_insert_ne.
  - intros t th' Hth' Hf. destruct (decide (t = c)) as [->|Hne].
    + destruct (E11 th' Hth') as (_ & th0 & H0 & _ & Hf0). pose proof (pi_begun p Hp th0 H0). rewrite Hf0 in *; done.
    + rewrite E6, lookup_insert_ne by done. destruct (same_proc_back _ _ _ _ (E10 t Hne) Hth') as (th0 & H0 & [_ _ _ Hs]).
      apply (pi_fresh p Hp t th0); auto.
  - intros th' Hth'. change (threads (p_sched p') !! p_cur p' = Some th') in Hth'. rewrite E7 in Hth'.
    destruct (E11 th' Hth') as (_ & th0 & H0 & _ & Hf0). pose proof (pi_begun p Hp th0 H0). destruct (th_fresh th'); [|done].
    by rewrite Hf0 in *.
  - rewrite E7, E4, lookup_delete_eq. by intros _ [??].
  - intros t c'. rewrite E4, E6. destruct (decide (t = c)) as [->|Hne]; [rewrite lookup_insert_eq; congruence|].
    rewrite lookup_insert_ne, lookup_delete_ne by done. apply (pi_conts p Hp).
  - apply E14, (pi_kernel p Hp).
  - intros t th' Hth' Hj. assert (∃ th0, threads (p_sched p) !! t = Some th0 ∧ same_join th0 th') as (th0 & H0 & [Hj0 Hq0]).
    { destruct (decide (t = c)) as [->|Hne]; [destruct (E11 th' Hth') as (_ & th0 & H0 & Hj0 & _); eauto|].
      destruct (same_proc_back _ _ _ _ (E10 t Hne) Hth') as (th0 & H0 & [_ _ Hj0 _]). eauto. }
    destruct (pi_port p Hp t th0 H0) as (q & Hq & Hport); [congruence|]. exists q. split; [congruence|by eapply has_port_grows].
  - intros t th' Hth'. rewrite E4. destruct (decide (t = c)) as [->|Hne]; [by rewrite lookup_delete_eq; intros [??]|].
    rewrite lookup_delete_ne by done. destruct (same_proc_back _ _ _ _ (E10 t Hne) Hth') as (th0 & H0 & [_ Hpd _ _]).
    rewrite Hpd. by apply (pi_pid p Hp).
  - rewrite E13. apply (pi_regs p Hp).
  - intros t Hne sp' Hsp'. rewrite E4, E2, lookup_delete_ne by done. done.
Qed.

(** *** The beginning of a process, and the end of the machine *)

(** [Halt] does not return. *)
Lemma Halt_never p u p' : Halt p ≠ Ok (u, p').
Proof.
  intros H. unfold Halt in H. apply bind_Ok in H as ([] & p1 & _ & H). apply bind_Ok in H as (th & p2 & _ & H).
  apply bind_Ok in H as (t & p3 & _ & H). by apply bind_Ok in H as ([] & p4 & _ & H).
Qed.

Lemma handle_syscall_safe a p u p' : handle_syscall a p = Ok (u, p') → pinv p → user_mode p → safe_step p p'.
Proof.
  intros H Hp Hu. unfold handle_syscall in H. apply bind_Ok in H as (type & p1 & E & H).
  apply (good_on_machine _ (confined_ReadRegister 2)) in E. eapply good_then_safe; [exact E|done|done|]. clear E Hp Hu.
  intros Hp Hu. assert (Hgood : ∀ m : M (psys D T) unit, respects good m → m p1 = Ok (u, p') → safe_step p1 p').
  { intros m Hm Em. apply good_safe; [by eapply Hm|done|done]. }
  case_bool_decide; [by apply Halt_never in H|].
  case_bool_decide. { revert H. apply Hgood. pose proof good_Exec. respects_tac. }
  case_bool_decide; [by apply Join_safe in H|].
  case_bool_decide.
  - destruct (Exit_effect p1 u p' Hp Hu H) as (x & p2 & _ & G2 & Hx). eapply good_then_safe; [exact G2|done|done|].
    intros Hp2 Hu2. by destruct (exit_good p2 p' Hp2 Hu2 Hx) as (Hp3 & _ & Ht3).
  - revert H. apply Hgood, good_on_sys, fs_call_confined.
Qed.

Lemma user_instruction_safe a p u p' : user_instruction a p = Ok (u, p') → pinv p → user_mode p → safe_step p p'.
Proof.
  intros H Hp Hu. unfold user_instruction in H. apply bind_Ok in H as (k & p1 & E & H).
  apply good_on_machine in E; [|apply respects_get; typeclasses eauto].
  eapply good_then_safe; [exact E|done|done|]. clear E Hp Hu. intros Hp Hu. destruct (at_syscall k).
  - apply bind_Ok in H as ([] & p2 & E2 & H).
    apply good_on_machine in E2; [|apply confined_OneInstruction; intros x; apply respects_ret; typeclasses eauto].
    eapply good_then_safe; [exact E2|done|done|]. by apply (handle_syscall_safe a p2 u).
  - apply good_on_machine in H; [|apply confined_OneInstruction, confined_unexpected]. by apply good_safe.
Qed.

Lemma confined_InitRegisters sp : respects confined (InitRegisters sp).
Proof. unfold InitRegisters. respects_tac. Qed.
Lemma InitRegisters_length sp k u k' : InitRegisters sp k = Ok (u, k') → tlb k = None →
  length (m_registers k') = length (m_registers k).
Proof. intros H Ht. apply (cf_regs _ _ (confined_InitRegisters sp _ _ _ H Ht)). Qed.

Lemma StartProcess_safe p u p' : StartProcess p = Ok (u, p') → pinv p → p_conts p !! p_cur p = Some InStart → safe_step p p'.
Proof.
  intros H Hp Hc. pose proof (pi_conts p Hp _ _ Hc ltac:(done)) as Hs.
  unfold StartProcess in H. apply bind_Ok in H as (th & p1 & [-> Hth]%cur_thread_Ok & H).
  apply bind_Ok in H as (t & p1 & E & H). binds E.
  destruct (pi_space p Hp _ Hs) as (th' & Hth' & Hsp). rewrite Hth in Hth'. injection Hth' as <-. rewrite Hsp in H.
  apply bind_Ok in H as (sp & p1 & E & H). cbn in E. unfold mret, M_ret in E. injection E as <- <-.
  apply bind_Ok in H as (x & p1 & E & H). unfold get in E. injection E as <- <-.
  apply bind_Ok in H as (space & p1 & E & H). destruct (p_spaces p !! p_cur p) as [sp|] eqn:Esp; [|done]. binds E.
  apply bind_Ok in H as ([] & p1 & E1 & H). unfold on_regs in E1. destruct (InitRegisters _ _) as [[[] k]|] eqn:Ei; [|done].
  injection E1 as <-. apply InitRegisters_length in Ei as Hk; [|done].
  apply bind_Ok in H as ([] & p2 & (k2 & E2 & ->)%on_kern_Ok & H). unfold on_sched, space_RestoreState, modify in E2.
  injection E2 as <-.
  apply bind_Ok in H as ([] & p3 & (k3 & E3 & ->)%on_kern_Ok & H).
  pose proof (on_sched_quiet _ _ _ _ E3) as [(_ & Ho & Hv) _].
  apply (calm_on_sched _ (calm_CheckOverflow _)) in E3 as [C1 C2 C3]. cbn in C1, C2.
  unfold set_pcont in H. apply bind_Ok in H as (t & p4 & E & H). binds E. binds H.
  assert (Hcur : currentThread (k_sched k3) = p_cur p) by apply C1. set (c := p_cur p) in *.
  assert (Hth3 : ∀ t, option_Forall2 same_proc (threads (p_sched p) !! t) (threads (k_sched k3) !! t)) by apply C1.
  assert (Hpt : machine_pageTable (k_sched k3) = Some c) by apply C1.
  pose proof (pi_kernel p Hp) as Hki.
  assert (H3 : pinv (set_kern k3 p)).
  { apply pinv_kern; [done| |by apply moved_conts|by rewrite C2| |by destruct C3].
    - split; [auto|intros t; by rewrite (cs_doomed _ _ C1)| | | |].
      + intros t th' _ H'. eapply same_proc_back; [apply Hth3|exact H'].
      + right. right. intros th' sp' H' Hsp'. rewrite Hcur in H'. rewrite Hpt.
        destruct (same_proc_back _ _ _ _ (Hth3 c) H') as (th0 & H0 & [E _ _ _]). simplify_eq. congruence.
      + intros Hb th' H'. rewrite Hcur in H'. destruct (same_proc_back _ _ _ _ (Hth3 c) H') as (th0 & H0 & [_ _ _ E]).
        specialize (Hb th0 H0). destruct (th_fresh th'); [|done]. by rewrite E in Hb.
      + by rewrite (cs_regs _ _ C1).
    - split; [apply Ho; by destruct (kinv_upd_sched id _ Hki) as [[] _ _]|rewrite C2; apply (inv_stacks _ Hki)|].
      intros l. rewrite C2, Hv. apply (inv_locks _ Hki l). }
  split; [|done]. apply (pinv_pcont _ InUser H3); [done|done|..]; unfold p_cur, p_sched; cbn; rewrite Hcur; [eauto|done].
Qed.

(** *** Steps in the kernel *)

Lemma stack_grows p k' t0 fs : conts k' = <[t0 := fs]> (conts (p_kern p)) →
  ∀ t, is_Some (conts (p_kern p) !! t) → is_Some (conts k' !! t).
Proof.
  intros E t. rewrite E. destruct (decide (t = t0)) as [->|Hne]; [by rewrite lookup_insert_eq|by rewrite lookup_insert_ne].
Qed.

(** The stack of the current thread when it is a process: it ends in its code,
    and what is on top of that goes on. *)
Lemma process_stack p fs : pinv p → is_Some (p_spaces p !! p_cur p) → conts (p_kern p) !! p_cur p = Some fs →
  user_top fs = false → ∃ f gs rest, fs = f :: gs ++ FUser :: rest ∧ goes_on f ∧ Forall goes_on gs.
Proof.
  intros Hp Hs Hfs Ht. destruct (pi_stack p Hp _ Hs) as (gs & rest & H & Hg). rewrite Hfs in H. injection H as ->.
  destruct gs as [|f gs]; [done|]. apply Forall_cons in Hg as [Hf Hg]. by exists f, gs, rest.
Qed.

Lemma Resume_safe p k' u fs : pinv p → conts (p_kern p) !! p_cur p = Some fs → user_top fs = false →
  step Resume (p_kern p) = Ok (u, k') → pinv (set_kern k' p).
Proof.
  intros Hp Hfs Htop H. pose proof (step_kinv _ _ _ _ (pi_kernel p Hp) H) as Hki. destruct fs as [|f rest].
  { unfold step in H. apply bind_Ok in H as (x & k1 & E & H). binds E. cbv zeta in H.
    apply bind_Ok in H as (fs & k2 & [E ->]%stack_at_Ok & H). fold (p_sched p) (p_cur p) in E. rewrite Hfs in E. by injection E as <-. }
  destruct (decide (f = FFinish_end)) as [->|Hne].
  - assert (Hn : p_spaces p !! p_cur p = None).
    { apply eq_None_not_Some. intros Hs. by destruct (process_stack p _ Hp Hs Hfs Htop) as (f & ? & ? & [= <-] & (_ & ? & _) & _). }
    destruct (Finish_end_effect _ _ _ _ Hfs H) as (s1 & Hc & <- & Hk & Hgr).
    set (p1 := set_kern (upd_sched (set_toBeDestroyed (Some (p_cur p))) (p_kern p)) p).
    assert (Hp1 : pinv p1).
    { destruct Hp as [L1 L2 L3 L4 L5 L6 L7 L8 L9 L10 L11 L12 L13 L14 L15 L16].
      split; try done; [intros t [= <-]; split; [done|]; cbn; eauto|by apply kinv_upd_sched]. }
    apply (pinv_kern p1 k' Hp1); [by apply calm_moved| |by eapply (stack_grows p1)|done|by destruct Hgr].
    intros t Ht. destruct (decide (t = p_cur p)) as [->|Hnt]; [|].
    + cbn in Ht. rewrite Hn in Ht. by destruct Ht.
    + destruct (pi_stack p Hp t Ht) as (gs & r & E & Hg). exists gs, r. by rewrite Hk, lookup_insert_ne.
  - destruct (Resume_effect _ _ _ _ _ Hfs Hne H) as (Hm & Hgr & gs & Hk & Hg).
    apply pinv_kern; [done|done| |by eapply stack_grows|done|done].
    intros t Ht. unfold stack_fine. rewrite Hk. destruct (decide (t = p_cur p)) as [->|Hnt].
    + destruct (process_stack p _ Hp Ht Hfs Htop) as (f' & gs' & r & [= <- ->] & Hf & Hgs').
      exists (gs ++ gs'), r. rewrite lookup_insert_eq, <- app_assoc. split; [done|]. apply Forall_app. auto.
    + rewrite lookup_insert_ne by done. by apply (pi_stack p Hp).
Qed.

Lemma Preempt_safe p k' u : pinv p → step Preempt (p_kern p) = Ok (u, k') → pinv (set_kern k' p).
Proof.
  intros Hp H. pose proof (step_kinv _ _ _ _ (pi_kernel p Hp) H) as Hki.
  destruct (Preempt_effect _ _ _ H) as (Hm & Hgr & gs & fs & Hfs & Hg & Hk).
  apply pinv_kern; [done|done| |by eapply stack_grows|done|done].
  intros t Ht. unfold stack_fine. rewrite Hk. destruct (pi_stack p Hp t Ht) as (gs' & r & E & Hg').
  destruct (decide (t = p_cur p)) as [->|Hnt].
  - change (conts (p_kern p) !! p_cur p = Some fs) in Hfs. rewrite Hfs in E. injection E as ->.
    exists (gs ++ gs'), r. rewrite lookup_insert_eq, <- app_assoc. split; [done|]. by apply Forall_app.
  - rewrite lookup_insert_ne by done. by exists gs', r.
Qed.

Lemma process_step_safe l p u p' : process_step l p = Ok (u, p') → pinv p → safe_step p p'.
Proof.
  intros H Hp. unfold process_step in H. apply bind_Ok in H as (x & p1 & E & H). unfold get in E. injection E as <- <-.
  apply bind_Ok in H as (fs & p1 & (k & [Hfs ->]%stack_at_Ok & ->)%on_kern_Ok & H).
  assert (Hid : set_kern (p_kern p) p = p) by (by destruct p). rewrite Hid in H. destruct l as [| |a].
  - apply bind_Ok in H as ([] & p1 & (Ht%negb_true_iff & -> & _)%ASSERT_Ok & H).
    apply on_kern_Ok in H as (k' & E & ->). split; [|done]. by eapply Resume_safe.
  - apply on_kern_Ok in H as (k' & E & ->). split; [|done]. by eapply Preempt_safe.
  - apply bind_Ok in H as ([] & p1 & (Ht & -> & _)%ASSERT_Ok & H).
    assert (Hu : ∀ c, p_conts p !! p_cur p = Some c → c ≠ InStart → c ≠ InExit → user_mode p).
    { intros c Hc H1 H2. split; [by exists c|]. destruct fs as [|[] rest]; try done. eauto. }
    destruct (p_conts p !! p_cur p) as [[| |pid|]|] eqn:Ec; try done.
    + by eapply StartProcess_safe.
    + eapply user_instruction_safe; [done|done|]. by apply (Hu InUser).
    + apply good_Join_end in H. apply good_safe; [done|done|]. by apply (Hu (InJoin pid)).
Qed.

(** ** Reachable states *)

Definition pstep p p' : Prop := ∃ l u, process_step l p = Ok (u, p').

(** The states the system goes through once the first program is loaded. *)
Inductive reachable p : Prop :=
  | reach regs junk ds (d : D) (t : T) filename noff p0 : length regs = Z.to_nat NumTotalRegs →
      first_process filename noff (boot_system regs junk ds d t) = Ok (true, p0) → rtc pstep p0 p → reachable p.

Lemma live_empty (s : umem D) : frames s = empty_frames → live_ok (s, []).
Proof. intros E. apply live_initial; rewrite E; [apply empty_frames_wf|done|by vm_compute]. Qed.

Lemma first_process_inv regs junk ds (d : D) (t : T) filename noff p0 :
  length regs = Z.to_nat NumTotalRegs → first_process filename noff (boot_system regs junk ds d t) = Ok (true, p0) → pinv p0.
Proof.
  intros Hregs H. unfold boot_system in H. set (mem := replicate (Z.to_nat MemorySize) 0) in H. clearbody mem.
  unfold first_process in H. apply bind_Ok in H as (o & p1 & E & H). unfold on_pdisk in E.
  destruct (fs_Open _ _) as [[o' d']|]; [|done]. injection E as <- <-. destruct o' as [f|]; [|done].
  apply bind_Ok in H as (sp & p2 & E & H). unfold on_umem in E. cbn in E.
  destruct (new_AddrSpace _ _) as [[sp' um]|] eqn:En; [|done]. injection E as <- <-.
  apply bind_Ok in H as ([] & p3 & E & H). unfold put_space in E. binds E.
  apply bind_Ok in H as ([] & p4 & (th & Hth & ->)%upd_thread_Ok & H).
  apply bind_Ok in H as ([] & p5 & E & H). unfold on_regs in E. destruct (InitRegisters _ _) as [[[] k]|] eqn:Ei; [|done].
  injection E as <-. apply InitRegisters_length in Ei as Hk; [|done]. apply bind_Ok in H as ([] & p6 & (k6 & E & ->)%on_kern_Ok & H).
  unfold on_sched, space_RestoreState, modify in E. injection E as <-.
  apply bind_Ok in H as ([] & p7 & E & H). binds H. unfold set_pcont in E. apply bind_Ok in E as (c & p8 & E' & E). binds E'. binds E.
  unfold p_sched in Hth. cbn in Hth. rewrite lookup_singleton_eq in Hth. injection Hth as <-.
  assert (Hone : ∀ i x, (<[0 := x]> (∅ : gmap Z AddrSpace)) !! i ≠ None → i = 0).
  { intros i x. destruct (decide (i = 0)) as [->|Hne]; [done|]. by rewrite lookup_insert_ne. }
  split; unfold p_cur, p_sched in *; cbn in *.
  - apply (live_perm _ [sp']); [by rewrite spaces_insert|]. apply (live_frames um); [by cbn|].
    eapply (@space_step_ok _ (fs_file f)); [by econstructor|by apply live_empty].
  - intros i th sp. destruct (decide (i = 0)) as [->|Hne].
    + rewrite !lookup_insert_eq. intros [= <-] [= <-]. eauto.
    + by rewrite !lookup_insert_ne, lookup_singleton_ne by done.
  - intros i [x Hx]. assert (i = 0) as -> by (eapply Hone; by rewrite Hx). unfold is_process, p_sched. cbn.
    rewrite lookup_insert_eq. eauto.
  - done.
  - done.
  - intros i j Hi. change (replicate 100 None !! i = Some (Some j)) in Hi. by apply lookup_replicate in Hi as [? _].
  - done.
  - intros i [x Hx]. assert (i = 0) as -> by (eapply Hone; by rewrite Hx). exists [], []. cbn.
    by rewrite lookup_singleton_eq.
  - intros i th. destruct (decide (i = 0)) as [->|Hne]; [rewrite lookup_insert_eq; by intros [= <-]|].
    by rewrite lookup_insert_ne, lookup_singleton_ne by done.
  - intros th. cbn. rewrite lookup_insert_eq. by intros [= <-].
  - done.
  - intros i c. destruct (decide (i = 0)) as [->|Hne]; [rewrite lookup_insert_eq; eauto|].
    by rewrite lookup_insert_ne.
  - split; [split; cbn; try done| |].
    + cbn. intros i fs [<- <-]%lookup_singleton_Some. repeat constructor.
    + intros l. unfold view. cbn. rewrite lookup_empty. by intros i fs [<- <-]%lookup_singleton_Some.
  - intros i th. destruct (decide (i = 0)) as [->|Hne]; [rewrite lookup_insert_eq; by intros [= <-]|].
    by rewrite lookup_insert_ne, lookup_singleton_ne by done.
  - intros i th. destruct (decide (i = 0)) as [->|Hne]; [rewrite lookup_insert_eq; by intros [= <-]|].
    by rewrite lookup_insert_ne, lookup_singleton_ne by done.
  - by rewrite Hk.
Qed.

Lemma pstep_safe p p' : pstep p p' → pinv p → safe_step p p'.
Proof. intros (l & u & H). by apply (process_step_safe l p u). Qed.

Lemma reachable_inv p : reachable p → pinv p.
Proof.
  intros [regs junk ds d t filename noff p0 Hregs H Hr]. apply first_process_inv in H; [|done]. clear -H Hr FilesOK0.
  induction Hr as [p|p1 p2 p3 Hs _ IH]; [done|]. by apply IH, (pstep_safe _ _ Hs).
Qed.

End Calls.
