(* ===== verification/ProcessSpec.v ===== *)
(** * ProcessSpec: what the calls on processes guarantee

    The theorems about the process layer of Process.v, from the invariant of
    ProcessInv.v: the accounting of processes and frames, isolation, and the
    outcome of each call, its faults included. *)

From S2P Require Import Prelude Bitmap Interrupt Scheduler Synch Machine Mips Disk FileHdr OpenFile FileSys AddrSpace.
From S2P Require Import Console Syscall Confined Calm Process ProcessInv.

(** ** The calls of the thread kernel run *)

Section Runs.
Implicit Types (k : kernel) (q : Z).

Lemma P_runs s k : is_Some (sems k !! s) → is_Some (threads (k_sched k) !! currentThread (k_sched k)) →
  ∃ gs k', Semaphore_P s k = Ok (gs, k').
Proof.
  intros [x Hx] [th Hth]. unfold Semaphore_P, set_intr, P_loop, sem_at, current, on_sched, Sleep_begin, thread_upd, thread_at,
    put_sem, set_intr, on_sched. unfold_M. cbn. rewrite Hx. cbn.
  destruct (bool_decide (value x = 0)); cbn; [|eauto]. rewrite !bool_decide_eq_true_2 by done. cbn. rewrite Hth. eauto.
Qed.

Lemma Acquire_runs q k : objs_ok k → has_port k q → is_Some (threads (k_sched k) !! currentThread (k_sched k)) →
  ∃ gs k', Lock_Acquire (LPort q) k = Ok (gs, k').
Proof.
  intros Ho (_ & [x Hx] & Hs) Hth. unfold Lock_Acquire, isHeldByCurrentThread, lock_at, current. unfold_M. rewrite Hx. cbn.
  destruct (bool_decide _); [eauto|]. rewrite Hx. cbn. destruct (ok_locks _ Ho _ _ Hx) as [_ ->].
  destruct (P_runs _ k Hs Hth) as (gs & k' & ->). eauto.
Qed.

Lemma Send_runs q msg k : objs_ok k → has_port k q → is_Some (threads (k_sched k) !! currentThread (k_sched k)) →
  ∃ gs k', Puerto_Send q msg k = Ok (gs, k').
Proof.
  intros Ho Hq Hth. destruct (Acquire_runs q k Ho Hq Hth) as (gs & k' & E). destruct Hq as ([x Hx] & _).
  unfold Puerto_Send, port_at. unfold_M. rewrite Hx. cbn. destruct (ok_ports _ Ho _ _ Hx) as (-> & _). rewrite E. eauto.
Qed.


(** Every thread that can be joined has its port. *)
Definition ports_there k : Prop := ∀ t th, threads (k_sched k) !! t = Some th → th_join th = true →
  ∃ q, th_portJoin th = Some q ∧ has_port k q.

Lemma Finish_runs k : objs_ok k → ports_there k → is_Some (threads (k_sched k) !! currentThread (k_sched k)) →
  ∃ gs k', Thread_Finish k = Ok (gs, k').
Proof.
  intros Ho Hp [th Hth]. unfold Thread_Finish.
  destruct (set_intr IntOff k) as [[i k1]|] eqn:E1; [|done].
  rewrite (bind_run _ _ _ _ _ E1). unfold set_intr, on_sched in E1. unfold_M. injection E1 as <- <-.
  unfold current, on_sched, thread_at. unfold_M. cbn. rewrite Hth. destruct (th_join th) eqn:Ej; [|eauto].
  destruct (Hp _ th Hth Ej) as (q & -> & Hq). cbn.
  match goal with |- context [Puerto_Send q 0 ?k1] => destruct (Send_runs q 0 k1) as (gs & k' & E) end; [|done|cbn; eauto|].
  - by destruct Ho.
  - rewrite E. eauto.
Qed.


End Runs.

(** ** A system call is the last thing an instruction does *)

Section Split.
Context (h : ExceptionType → M Machine unit).
Hypothesis h_other : ∀ x, x ≠ SyscallException → ∀ k, h x k = unexpected x k.

Lemma bind_ext {S A B} (m1 m2 : M S A) (f1 f2 : A → M S B) : (∀ s, m1 s = m2 s) → (∀ a s, f1 a s = f2 a s) →
  ∀ s, (m1 ≫= f1) s = (m2 ≫= f2) s.
Proof. intros Hm Hf s. unfold mbind, M_bind. rewrite Hm. destruct (m2 s) as [[a s']|]; [apply Hf|done]. Qed.

Lemma Translate_exception addr size w k x k' : Translate addr size w k = Ok (inl x, k') → x ≠ SyscallException.
Proof.
  intros H. unfold Translate in H. destruct (_ || _); [by injection H as <- <-|].
  apply bind_Ok in H as (k0 & k1 & E & H). binds E. apply bind_Ok in H as ([] & k2 & _ & H).
  apply bind_Ok in H as ([] & k3 & _ & H). apply bind_Ok in H as (r & k4 & E & H).
  destruct r as [y|[i e]].
  - binds H. unfold find_entry in E. apply bind_Ok in E as (k5 & k6 & E' & E). binds E'.
    destruct (tlb _) as [t|].
    + destruct (tlb_search _ _ _) as [[]|]; unfold mret, M_ret in E; by simplify_eq.
    + case_bool_decide; [by binds E|]. apply bind_Ok in E as (pt & k7 & _ & E). case_match; [|done].
      destruct (negb _); unfold mret, M_ret in E; by simplify_eq.
  - destruct (readOnly e && w); [by binds H|]. case_bool_decide; [by binds H|].
    apply bind_Ok in H as ([] & k5 & _ & H). apply bind_Ok in H as ([] & k6 & _ & H). done.
Qed.

Lemma RaiseException_other x a k : x ≠ SyscallException → RaiseException h x a k = RaiseException unexpected x a k.
Proof.
  intros Hx. unfold RaiseException. revert k. apply bind_ext; [done|]. intros _. apply bind_ext; [done|]. intros _. by apply h_other.
Qed.

Lemma ReadMem_other addr size k : ReadMem h addr size k = ReadMem unexpected addr size k.
Proof.
  unfold ReadMem, mbind, M_bind. destruct (Translate addr size false k) as [[[x|pa] k']|] eqn:E; [|done|done].
  by rewrite RaiseException_other by (by eapply Translate_exception).
Qed.
Lemma WriteMem_other addr size v k : WriteMem h addr size v k = WriteMem unexpected addr size v k.
Proof.
  unfold WriteMem, mbind, M_bind. destruct (Translate addr size true k) as [[[x|pa] k']|] eqn:E; [|done|done].
  by rewrite RaiseException_other by (by eapply Translate_exception).
Qed.
Lemma trap_other x a k : x ≠ SyscallException → trap h x a k = trap unexpected x a k.
Proof. intros Hx. unfold trap. revert k. apply bind_ext; [|done]. intros k. by apply RaiseException_other. Qed.

Ltac other :=
  repeat first
    [ reflexivity
    | apply trap_other; discriminate
    | apply ReadMem_other | apply WriteMem_other
    | apply bind_ext; intros
    | match goal with |- (match ?x with _ => _ end) _ = _ => destruct x end
    | progress intros ].

Lemma execute_other i pc k : i_opCode i ≠ OP_SYSCALL → execute h i pc k = execute unexpected i pc k.
Proof.
  intros Hi. unfold execute, exec_1, exec_2, exec_3, exec_4, exec_5, with_rs_rt.
  destruct (i_opCode i) eqn:E; try done; cbv zeta; other.
Qed.

(** [OP_SYSCALL] raises the exception and returns. *)
Lemma execute_syscall (g : ExceptionType → M Machine unit) i pc k : i_opCode i = OP_SYSCALL →
  execute g i pc k = (with_rs_rt i (λ _ _, mret Return) ≫= λ _, trap g SyscallException 0) k.
Proof.
  intros Hi. unfold execute, exec_5, with_rs_rt. rewrite Hi. unfold_M.
  destruct (reg_get (i_rs i) k) as [[a k1]|]; [|done]. by destruct (reg_get (i_rt i) k1) as [[b k2]|].
Qed.

(** An instruction under the kernel's handler, which stops at every exception
    but a system call, is the same as the instruction without the handler
    followed, when it is a [SYSCALL], by the handler: handling the call is the
    last thing the instruction does. *)
Theorem OneInstruction_split k : OneInstruction h k =
  if at_syscall k then (OneInstruction (λ _, mret tt) ≫= λ _, h SyscallException) k else OneInstruction unexpected k.
Proof.
  unfold at_syscall, OneInstruction. unfold mbind, M_bind. destruct (reg_get PCReg k) as [[pc k1]|]; [|done].
  rewrite ReadMem_other.
  assert (Hq : ∀ r k2, ReadMem unexpected pc 4 k1 = Ok (Some r, k2) → ReadMem (λ _, mret tt) pc 4 k1 = Ok (Some r, k2)).
  { intros r k2. unfold ReadMem, mbind, M_bind. destruct (Translate pc 4 false k1) as [[[x|pa] k']|]; [|done|done].
    destruct (RaiseException unexpected x pc k') as [[]|]; done. }
  destruct (ReadMem unexpected pc 4 k1) as [[[raw|] k2]|] eqn:Er; [|done|done].
  destruct (Decode (uint raw)) as [i|] eqn:Ed; [|done]. case_bool_decide as Hop.
  - rewrite (Hq raw k2 eq_refl), Ed. destruct (reg_get NextPCReg k2) as [[npc k3]|]; [|done].
    rewrite !execute_syscall by done. unfold mbind, M_bind. destruct (with_rs_rt _ _ k3) as [[o k4]|]; [|done].
    unfold trap, RaiseException, mbind, M_bind. destruct (reg_set BadVAddrReg 0 k4) as [[u1 k5]|]; [|done].
    destruct (DelayedLoad 0 0 k5) as [[u2 k6]|]; [|done]. cbn. by destruct (h SyscallException k6) as [[[] k7]|].
  - destruct (reg_get NextPCReg k2) as [[npc k3]|]; [|done]. by rewrite execute_other.
Qed.

End Split.

(** ** The outcome of a call *)

Section Outcomes.
Context {D T : Type} `{!Files D T} `{!FilesOK D T}.
Implicit Types (p : psys D T).

Lemma put_machine_id p k : machine_of p = Ok k → put_machine k p = p.
Proof.
  intros H. unfold machine_of in H. unfold put_machine. destruct (machine_pageTable (p_sched p)) as [a|] eqn:Ea.
  - destruct (p_spaces p !! a) as [sp|] eqn:Es; [|done]. injection H as <-. cbn.
    rewrite insert_id by (by destruct sp). by destruct p as [[[] ? ? ? ? ? ?] ? ? ? ? ? ? ? ? ?].
  - injection H as <-. cbn. by destruct p as [[[] ? ? ? ? ? ?] ? ? ? ? ? ? ? ? ?].
Qed.

(** A register read by a call. *)
Lemma read_register p i v : pinv p → user_mode p → 0 ≤ i < NumTotalRegs → registers (p_sched p) !! Z.to_nat i = Some v →
  on_machine (ReadRegister i) p = Ok (v, p).
Proof.
  intros Hp Hu Hi Hv. destruct (machine_of_user p Hp Hu) as (sp & _ & Ek). unfold on_machine. rewrite Ek.
  rewrite (ReadRegister_run _ i v) by done. by rewrite (put_machine_id p _ Ek).
Qed.

Lemma register_there p i : pinv p → 0 ≤ i < NumTotalRegs → ∃ v, registers (p_sched p) !! Z.to_nat i = Some v.
Proof. intros Hp Hi. apply lookup_lt_is_Some_2. rewrite (pi_regs p Hp). lia. Qed.

Lemma cur_thread_run p th : threads (p_sched p) !! p_cur p = Some th → cur_thread p = Ok (th, p).
Proof.
  intros H. unfold cur_thread, on_kern, on_sched, thread_at. unfold_M. fold (p_sched p). rewrite H.
  by destruct p as [[] ? ? ? ? ? ? ? ? ?].
Qed.

Lemma table_put_run p pid o : 0 ≤ pid → (Z.to_nat pid < length (processIdTable p))%nat →
  table_put pid o p = Ok (tt, set_table (<[Z.to_nat pid := o]> (processIdTable p)) p).
Proof.
  intros H0 Hl. unfold table_put, table_get. unfold_M. destruct (Z.ltb_spec pid 0); [lia|].
  destruct (lookup_lt_is_Some_2 _ _ Hl) as [x ->]. done.
Qed.

Lemma cur_process p : pinv p → user_mode p → ∃ th sp, threads (p_sched p) !! p_cur p = Some th ∧
  th_space th = Some (p_cur p) ∧ 0 ≤ th_pid th < maxCantProcess ∧ p_spaces p !! p_cur p = Some sp.
Proof.
  intros Hp Hu. destruct (user_mode_loaded p Hp Hu) as [Hs _]. destruct (pi_space p Hp _ Hs) as (th & Hth & Hsp).
  pose proof (pi_pid p Hp _ th Hth Hs). destruct Hs as [sp Hs]. by exists th, sp.
Qed.

Lemma delete_space_run p sp : pinv p → p_spaces p !! p_cur p = Some sp → ∀ n, ∃ b,
  delete_space (p_cur p) (set_count n p) = Ok (tt, mkPsys (p_kern p) (p_memory p) b (p_disk p) (p_term p) (p_desc p)
    (processIdTable p) n (delete (p_cur p) (p_spaces p)) (p_conts p)).
Proof.
  intros Hp Hsp n. pose proof (pi_live p Hp) as Hl.
  apply (live_perm _ _ (sp :: spaces_of (delete (p_cur p) (p_spaces p)))) in Hl; [|by apply spaces_delete].
  destruct (live_split (p_umem p) [] sp _ Hl) as (H1 & H2 & H3 & H4 & H5 & H6). cbn [app] in *.
  destruct (delete_AddrSpace_ok sp (p_umem p) _ (lo_wf _ Hl) H5 H1 H3 H4) as (um & E & _). exists (frames um).
  unfold delete_space. unfold_M. cbn. rewrite Hsp. unfold on_umem. change (mkUmem _ _ _) with (p_umem p). rewrite E. cbn.
  destruct (delete_only_frames (D := D) sp _ _ _ E) as [-> ->]. done.
Qed.

Lemma Exit_runs p : pinv p → user_mode p → 0 < sint (cantProcesses p - 1) → ∃ p', Exit p = Ok (tt, p').
Proof.
  intros Hp Hu Hn. destruct (cur_process p Hp Hu) as (th & sp & Hth & Hsp & Hpid & Hspace).
  destruct (register_there p 4 Hp ltac:(done)) as [v Hv]. unfold Exit.
  rewrite (bind_run _ _ _ _ _ (read_register p 4 v Hp Hu ltac:(done) Hv)).
  set (n := sint (cantProcesses p - 1)) in *. rewrite (bind_run _ _ p tt (set_count n p)) by done.
  rewrite (bind_run _ _ _ n (set_count n p)) by done. rewrite bool_decide_eq_false_2 by lia.
  rewrite (bind_run _ _ _ tt (set_count n p)) by done.
  rewrite (bind_run _ _ _ _ _ (cur_thread_run (set_count n p) th Hth)).
  rewrite (bind_run _ _ _ (p_cur p) (set_count n p)) by done. rewrite Hsp.
  destruct (delete_space_run p sp Hp Hspace n) as [b E].
  set (f := set_threads (<[p_cur p := th_setSpace None th]> (threads (p_sched p)))).
  set (p3 := mkPsys (upd_sched f (p_kern p)) (p_memory p) b (p_disk p) (p_term p) (p_desc p)
    (<[Z.to_nat (th_pid th) := None]> (processIdTable p)) n (delete (p_cur p) (p_spaces p)) (p_conts p)).
  rewrite (bind_run _ _ _ tt p3).
  2: { rewrite (bind_run _ _ _ _ _ E). unfold upd_thread, on_kern, on_sched, thread_upd, thread_at. unfold_M. cbn.
       fold (p_sched p). rewrite Hth. apply table_put_run; [lia|]. cbn. rewrite (pi_length p Hp). lia. }
  assert (Hpt : ports_there (upd_sched f (p_kern p))).
  { intros t th' Hth' Hj. assert (∃ th0, threads (p_sched p) !! t = Some th0 ∧ same_join th0 th') as (th0 & H0 & [E1 E2]).
    { cbn in Hth'. destruct (decide (t = p_cur p)) as [->|Hne].
      - rewrite lookup_insert_eq in Hth'. injection Hth' as <-. by exists th.
      - rewrite lookup_insert_ne in Hth' by done. by exists th'. }
    destruct (pi_port p Hp t th0 H0) as (q & Hq & Hport); [congruence|]. exists q. split; [congruence|by destruct Hport]. }
  destruct (Finish_runs (upd_sched f (p_kern p))) as (gs & k' & Ef); [|done|cbn; rewrite lookup_insert_eq; eauto|].
  { apply kinv_upd_sched, (pi_kernel p Hp). }
  rewrite (bind_run _ _ _ gs (set_kern k' p3)) by (unfold on_kern; cbn; by rewrite Ef).
  apply calm_Finish in Ef as [C1 C2 _]. destruct (proj2 Hu) as [rest Hrest].
  assert (Hcur : p_cur (set_kern k' p3) = p_cur p) by apply C1.
  unfold push_frames, set_pcont, on_kern, push, stack_at, put_stack. unfold_M. rewrite Hcur. cbn. rewrite C2. cbn.
  rewrite Hrest. cbn. eauto.
Qed.

(** The state in which the kernel handles a system call: the current process,
    in user code, has executed a [SYSCALL]. *)
Inductive calling p : Prop :=
  | calling_intro p0 k rest : reachable p0 → p_conts p0 !! p_cur p0 = Some InUser →
      conts (p_kern p0) !! p_cur p0 = Some (FUser :: rest) → machine_of p0 = Ok k → at_syscall k = true →
      on_machine (OneInstruction (λ _, mret tt)) p0 = Ok (tt, p) → calling p.

(** [handle_syscall] is what the step does. *)
Lemma calling_step a p0 k rest p : p_conts p0 !! p_cur p0 = Some InUser →
  conts (p_kern p0) !! p_cur p0 = Some (FUser :: rest) → machine_of p0 = Ok k → at_syscall k = true →
  on_machine (OneInstruction (λ _, mret tt)) p0 = Ok (tt, p) → process_step (PUser a) p0 = handle_syscall a p.
Proof.
  intros Hc Hfs Hk Hs E. unfold process_step. rewrite (bind_run _ _ _ p0 p0) by done.
  rewrite (bind_run _ _ _ (FUser :: rest) p0).
  2: { unfold on_kern, stack_at. unfold_M. rewrite Hfs. cbn. by destruct p0. }
  rewrite (bind_run _ _ _ tt p0) by done. rewrite Hc. unfold user_instruction.
  rewrite (bind_run _ _ _ k p0).
  2: { unfold on_machine. rewrite Hk. cbn. by rewrite (put_machine_id p0 k Hk). }
  rewrite Hs. by rewrite (bind_run _ _ _ _ _ E).
Qed.

Lemma calling_inv p : calling p → pinv p ∧ user_mode p.
Proof.
  intros [p0 k rest Hr Hc Hfs Hk Hs E]. pose proof (reachable_inv p0 Hr) as Hp0.
  apply good_on_machine in E; [|apply confined_OneInstruction; intros x; apply respects_ret; typeclasses eauto].
  destruct (E Hp0) as (Hp & Hu & _); [|done]. split; [by exists InUser|eauto].
Qed.

(** Register [i] holds [v]. *)
Definition reg_is p (i v : Z) : Prop := registers (p_sched p) !! Z.to_nat i = Some v.

Lemma handle_syscall_code a p type : pinv p → user_mode p → reg_is p 2 type →
  handle_syscall a p =
    (if bool_decide (type = SC_Halt) then Halt
     else if bool_decide (type = SC_Exec) then Exec a ≫= λ _, on_machine increaseProgramCounter
     else if bool_decide (type = SC_Join) then Join
     else if bool_decide (type = SC_Exit) then Exit
     else on_sys (fs_call (a_undef a))) p.
Proof.
  intros Hp Hu Hr. unfold handle_syscall. by rewrite (bind_run _ _ _ _ _ (read_register p 2 type Hp Hu ltac:(done) Hr)).
Qed.

(** The free frames. *)
Lemma live_clear (s : umem D) m : live_ok (s, spaces_of m) →
  BitMap_NumClear (frames s) = Ok (NumPhysPages - foldr Z.add 0 (numPages <$> spaces_of m), frames s).
Proof.
  intros [H1 H2 H3 H4 H5]. cbn in *. rewrite NumClear_spec by done. do 2 f_equal. rewrite <- all_frames_length by done.
  by rewrite H4, size_list_to_set, H2.
Qed.

Lemma sum_perm (l l' : list Z) : l ≡ₚ l' → foldr Z.add 0 l = foldr Z.add 0 l'.
Proof. induction 1; cbn; lia. Qed.

Lemma sum_pages_delete m t sp : m !! t = Some sp →
  foldr Z.add 0 (numPages <$> spaces_of m) = numPages sp + foldr Z.add 0 (numPages <$> spaces_of (delete t m)).
Proof. intros Ht. by rewrite (sum_perm _ (numPages <$> (sp :: spaces_of (delete t m)))) by (by rewrite (spaces_delete m t sp)). Qed.

(** *** Join *)




(** *** Halt *)

Lemma for_loop_app {S} n m lo (body : Z → M S unit) s :
  for_loop (n + m) lo body s = (for_loop n lo body ≫= λ _, for_loop m (lo + Z.of_nat n) body) s.
Proof.
  revert lo s. induction n as [|n IH]; intros lo s.
  - cbn. unfold_M. by rewrite Z.add_0_r.
  - cbn. unfold_M. destruct (body lo s) as [[x s']|]; [|done]. rewrite IH. unfold_M.
    destruct (for_loop n (lo + 1) body s') as [[y s2]|]; [|done]. f_equal. lia.
Qed.

Lemma for_loop_same {S} n lo (body : Z → M S unit) s : (∀ i, lo ≤ i < lo + Z.of_nat n → body i s = Ok (tt, s)) →
  for_loop n lo body s = Ok (tt, s).
Proof.
  revert lo. induction n as [|n IH]; intros lo Hb; [done|]. cbn. rewrite (bind_run _ _ _ tt s) by (apply Hb; lia).
  apply IH. intros i Hi. apply Hb. lia.
Qed.

Lemma table_get_run p i o : 0 ≤ i → processIdTable p !! Z.to_nat i = Some o → table_get i p = Ok (o, p).
Proof. intros H0 Ht. unfold table_get. destruct (Z.ltb_spec i 0); [lia|]. by rewrite Ht. Qed.

(** One round of the loop of [Halt]. *)
Definition Halt_round (i : Z) : M (psys D T) unit :=
  for_loop (Z.to_nat MAX_OPEN_FILES) 0 (λ _, delete_entry i) ≫= λ _,
  o ← table_get i;
  t ← gets p_cur;
  (if bool_decide (o ≠ Some t) && negb (is_null o) then delete_entry i else mret tt) ≫= λ _,
  table_put i None.

Lemma Halt_eq : Halt (D := D) (T := T) = for_loop (Z.to_nat maxCantProcess) 0 Halt_round ≫= λ _,
  th ← cur_thread; t ← gets p_cur;
  (match th_space th with
   | Some sp => delete_space sp ≫= λ _, upd_thread t (th_setSpace None)
   | None => mret tt
   end) ≫= λ _, fail Halted.
Proof. done. Qed.

Lemma Halt_round_null p i : 0 ≤ i → processIdTable p !! Z.to_nat i = Some None → Halt_round i p = Ok (tt, p).
Proof.
  intros H0 Ht. unfold Halt_round. rewrite (bind_run _ _ _ tt p).
  2: { apply for_loop_same. intros j _. unfold delete_entry. by rewrite (bind_run _ _ _ _ _ (table_get_run p i None H0 Ht)). }
  rewrite (bind_run _ _ _ _ _ (table_get_run p i None H0 Ht)). rewrite (bind_run _ _ _ (p_cur p) p) by done.
  rewrite andb_false_r. rewrite (bind_run _ _ _ tt p) by done.
  rewrite table_put_run by (done || by eapply lookup_lt_Some). rewrite list_insert_id by done. by destruct p.
Qed.

Lemma Halt_round_entry p i t : 0 ≤ i → processIdTable p !! Z.to_nat i = Some (Some t) → is_Some (threads (p_sched p) !! t) →
  Halt_round i p = Err (if decide (t = p_cur p) then AssertFailed else BadPointer).
Proof.
  intros H0 Ht [th Hth]. unfold Halt_round. apply bind_err.
  change (Z.to_nat MAX_OPEN_FILES) with (S (S 98)). cbn [for_loop].
  assert (Hd : ∀ q : psys D T, processIdTable q = processIdTable p → delete_entry i q = on_kern (on_sched (delete_Thread t)) q).
  { intros q Hq. unfold delete_entry. rewrite (bind_run _ _ q (Some t) q); [done|]. apply table_get_run; [done|]. by rewrite Hq. }
  destruct (decide (t = p_cur p)) as [->|Hne].
  - apply bind_err. rewrite Hd by done. unfold on_kern, on_sched, delete_Thread. unfold_M. cbn. by rewrite bool_decide_eq_true_2.
  - rewrite (bind_run _ _ _ tt (set_kern (upd_sched (set_threads (delete t (threads (p_sched p)))) (p_kern p)) p)).
    2: { rewrite Hd by done. unfold on_kern, on_sched, delete_Thread, thread_at. unfold_M. cbn.
         rewrite bool_decide_eq_false_2 by done. cbn. fold (p_sched p). by rewrite Hth. }
    apply bind_err. rewrite Hd by done. unfold on_kern, on_sched, delete_Thread, thread_at. unfold_M. cbn.
    rewrite bool_decide_eq_false_2 by done. cbn. by rewrite lookup_delete_eq.
Qed.

Lemma Halt_prefix p n : (∀ j, (j < n)%nat → processIdTable p !! j = Some None) → for_loop n 0 Halt_round p = Ok (tt, p).
Proof. intros Hn. apply for_loop_same. intros i Hi. apply Halt_round_null; [lia|]. apply Hn. lia. Qed.

(** *** Exec *)

(** [pid_loop] looks for the first free entry from [pid] on. *)
Lemma pid_loop_run p fuel pid pid' : 0 ≤ pid ≤ pid' → (Z.to_nat (pid' - pid) < fuel)%nat →
  processIdTable p !! Z.to_nat pid' = Some None →
  (∀ j, pid ≤ j < pid' → ∃ t, processIdTable p !! Z.to_nat j = Some (Some t)) → pid_loop fuel pid p = Ok (pid', p).
Proof.
  revert pid. induction fuel as [|fuel IH]; intros pid Hb Hf Hn Hl; [lia|]. cbn [pid_loop].
  destruct (decide (pid = pid')) as [->|Hne].
  - by rewrite (bind_run _ _ _ _ _ (table_get_run p pid' None ltac:(lia) Hn)).
  - destruct (Hl pid) as [t Ht]; [lia|]. rewrite (bind_run _ _ _ _ _ (table_get_run p pid (Some t) ltac:(lia) Ht)).
    apply IH; [lia|lia|done|]. intros j Hj. apply Hl. lia.
Qed.

Lemma pid_loop_full p fuel pid : length (processIdTable p) = Z.to_nat maxCantProcess → 0 ≤ pid ≤ maxCantProcess →
  (Z.to_nat (maxCantProcess - pid) < fuel)%nat →
  (∀ j, pid ≤ j < maxCantProcess → ∃ t, processIdTable p !! Z.to_nat j = Some (Some t)) → pid_loop fuel pid p = Err OutOfBounds.
Proof.
  intros Hlen. revert pid. induction fuel as [|fuel IH]; intros pid Hb Hf Hl; [lia|]. cbn [pid_loop].
  destruct (decide (pid = maxCantProcess)) as [->|Hne].
  - apply bind_err. unfold table_get. destruct (Z.ltb_spec maxCantProcess 0); [lia|].
    by rewrite lookup_ge_None_2 by lia.
  - destruct (Hl pid) as [t Ht]; [lia|]. rewrite (bind_run _ _ _ _ _ (table_get_run p pid (Some t) ltac:(lia) Ht)).
    apply IH; [lia|lia|]. intros j Hj. apply Hl. lia.
Qed.

Lemma pid_search p : length (processIdTable p) = Z.to_nat maxCantProcess →
  (∃ pid, 1 ≤ pid < maxCantProcess ∧ pid_loop (S (Z.to_nat maxCantProcess)) 1 p = Ok (pid, p) ∧
     processIdTable p !! Z.to_nat pid = Some None ∧
     ∀ j, 1 ≤ j < pid → ∃ t, processIdTable p !! Z.to_nat j = Some (Some t)) ∨
  (pid_loop (S (Z.to_nat maxCantProcess)) 1 p = Err OutOfBounds ∧
     ∀ j, 1 ≤ j < maxCantProcess → ∃ t, processIdTable p !! Z.to_nat j = Some (Some t)).
Proof.
  intros Hl. assert (Hs : ∀ n : nat, Z.of_nat n < maxCantProcess →
    (∃ pid, 1 ≤ pid ≤ Z.of_nat n ∧ processIdTable p !! Z.to_nat pid = Some None ∧
       ∀ j, 1 ≤ j < pid → ∃ t, processIdTable p !! Z.to_nat j = Some (Some t)) ∨
    ∀ j, 1 ≤ j ≤ Z.of_nat n → ∃ t, processIdTable p !! Z.to_nat j = Some (Some t)).
  { induction n as [|n IH]; intros Hn; [right; lia|]. destruct IH as [(pid & H1 & H2)|IH]; [lia| |].
    - left. exists pid. split; [lia|done].
    - destruct (lookup_lt_is_Some_2 (processIdTable p) (S n)) as [o Ho]; [rewrite Hl; lia|].
      destruct o as [t|].
      + right. intros j Hj. destruct (decide (j = Z.of_nat (S n))) as [->|Hne]; [rewrite Nat2Z.id; eauto|apply IH; lia].
      + left. exists (Z.of_nat (S n)). rewrite Nat2Z.id. split; [lia|]. split; [done|]. intros j Hj. apply IH. lia. }
  destruct (Hs 99%nat ltac:(done)) as [(pid & H1 & H2 & H3)|H].
  - left. exists pid. split; [unfold maxCantProcess; lia|]. split; [|done].
    apply pid_loop_run; [lia|unfold maxCantProcess; lia|done|done].
  - right. assert (H' : ∀ j, 1 ≤ j < maxCantProcess → ∃ t, processIdTable p !! Z.to_nat j = Some (Some t)).
    { intros j Hj. apply H. unfold maxCantProcess in Hj. lia. }
    split; [|done]. apply pid_loop_full; [done|unfold maxCantProcess; lia|unfold maxCantProcess; lia|done].
Qed.

Lemma Halt_halts p : pinv p → user_mode p → (∀ pid, (pid < 100)%nat → processIdTable p !! pid = Some None) → Halt p = Err Halted.
Proof.
  intros Hp Hu Hn. rewrite Halt_eq. rewrite (bind_run _ _ _ _ _ (Halt_prefix p (Z.to_nat maxCantProcess) Hn)).
  destruct (cur_process p Hp Hu) as (th & sp & Hth & Hsp & _ & Hspace).
  rewrite (bind_run _ _ _ _ _ (cur_thread_run p th Hth)). rewrite (bind_run _ _ _ (p_cur p) p) by done. rewrite Hsp.
  destruct (delete_space_run p sp Hp Hspace (cantProcesses p)) as [b E].
  replace (set_count (cantProcesses p) p) with p in E by (by destruct p).
  unfold mbind at 1 2, M_bind at 1 2. rewrite E. unfold upd_thread, on_kern, on_sched, thread_upd, thread_at. unfold_M. cbn.
  fold (p_sched p). by rewrite Hth.
Qed.

Lemma Halt_faults p pid t : pinv p → processIdTable p !! pid = Some (Some t) →
  (∀ j, (j < pid)%nat → processIdTable p !! j = Some None) → Halt p = Err (if decide (t = p_cur p) then AssertFailed else BadPointer).
Proof.
  intros Hp Ht Hj. rewrite Halt_eq. apply bind_err. pose proof (lookup_lt_Some _ _ _ Ht) as Hlt. rewrite (pi_length p Hp) in Hlt.
  replace (Z.to_nat maxCantProcess) with (pid + S (Z.to_nat maxCantProcess - pid - 1))%nat by lia.
  rewrite for_loop_app, (bind_run _ _ _ _ _ (Halt_prefix p pid Hj)). cbn [for_loop]. apply bind_err.
  destruct (pi_table p Hp pid t Ht) as (th & Hth & _). apply Halt_round_entry; [lia| |by exists th].
  by rewrite Z.add_0_l, Nat2Z.id.
Qed.

Lemma Exit_halts p : pinv p → user_mode p → cantProcesses p = 1 → Exit p = Err Halted.
Proof.
  intros Hp Hu Hn. destruct (register_there p 4 Hp ltac:(done)) as [v Hv]. unfold Exit.
  rewrite (bind_run _ _ _ _ _ (read_register p 4 v Hp Hu ltac:(done) Hv)). rewrite (bind_run _ _ p tt (set_count 0 p)).
  2: { unfold modify. by rewrite Hn. }
  by rewrite (bind_run _ _ _ 0 (set_count 0 p)).
Qed.

(** What is left of a process that has called [Exit]. *)
Lemma Exit_result p p' : pinv p → user_mode p → Exit p = Ok (tt, p') → ∃ sp n, p_spaces p !! p_cur p = Some sp ∧
  p_spaces p' = delete (p_cur p) (p_spaces p) ∧ cantProcesses p' = sint (cantProcesses p - 1) ∧
  BitMap_NumClear (p_frames p) = Ok (n, p_frames p) ∧
  BitMap_NumClear (p_frames p') = Ok (n + numPages sp, p_frames p') ∧
  (∀ pid, processIdTable p' !! pid ≠ Some (Some (p_cur p))) ∧ p_memory p' = p_memory p.
Proof.
  intros Hp Hu E. destruct (register_there p 4 Hp ltac:(done)) as [v Hv].
  destruct (Exit_effect p tt p' Hp Hu E) as (x & p1 & Er & _ & Hx).
  rewrite (read_register p 4 v Hp Hu ltac:(done) Hv) in Er. injection Er as <- <-. destruct (exit_good p p' Hp Hu Hx) as (Hp' & _ & _).
  pose proof (live_clear _ _ (pi_live p Hp)) as C. pose proof (live_clear _ _ (pi_live p' Hp')) as C'. cbn in C, C'.
  destruct (cur_process p Hp Hu) as (th & sp & Hth & _ & _ & Hspace). pose proof (ee_spaces _ _ Hx) as Es.
  exists sp, (NumPhysPages - foldr Z.add 0 (numPages <$> spaces_of (p_spaces p))).
  split_and!; [done|done|apply (ee_count _ _ Hx)|done| | |apply (ee_memory _ _ Hx)].
  - rewrite C', Es. do 2 f_equal. rewrite (sum_pages_delete _ _ _ Hspace). lia.
  - intros pid Hpid. destruct (pi_table p' Hp' pid _ Hpid) as (th' & Hth' & Hsp' & _).
    destruct (pi_owner p' Hp' _ _ _ Hth' Hsp') as [_ [x Hx']]. by rewrite Es, lookup_delete_eq in Hx'.
Qed.

End Outcomes.

(** ** Theorems *)

Section Theorems.
Context {D T : Type} `{!Files D T} `{!FilesOK D T}.
Implicit Types (p : psys D T) (a : alloc).

(** C3: in every reachable state the processes are exactly the live threads with an
    address space, [cantProcesses] counts them, no two share a frame, the frames
    that are not free are exactly theirs, every entry of [processIdTable] is a
    live process with that identifier, so that the table never holds a dangling
    pointer, and a process that runs user code runs it under its own page
    table. *)
Theorem processes_accounted p : reachable p →
  (∀ t, is_Some (p_spaces p !! t) ↔ ∃ th, threads (p_sched p) !! t = Some th ∧ th_space th = Some t) ∧
  cantProcesses p = sint (Z.of_nat (size (p_spaces p))) ∧
  (∀ t1 t2 sp1 sp2 x, p_spaces p !! t1 = Some sp1 → p_spaces p !! t2 = Some sp2 → t1 ≠ t2 →
     x ∈ space_frames sp1 → x ∉ space_frames sp2) ∧
  BitMap_NumClear (p_frames p) = Ok (NumPhysPages - foldr Z.add 0 (numPages <$> spaces_of (p_spaces p)), p_frames p) ∧
  (∀ pid t, processIdTable p !! pid = Some (Some t) →
     ∃ th, threads (p_sched p) !! t = Some th ∧ th_space th = Some t ∧ th_pid th = Z.of_nat pid) ∧
  (p_conts p !! p_cur p = Some InUser → machine_pageTable (p_sched p) = Some (p_cur p)).
Proof.
  intros Hr. pose proof (reachable_inv p Hr) as Hp. pose proof (pi_live p Hp) as Hl. split_and!.
  - intros t. split; [apply (pi_space p Hp)|]. intros (th & Hth & Hs). by apply (pi_owner p Hp t th t).
  - exact (pi_count p Hp).
  - intros t1 t2 sp1 sp2 x H1 H2 Hne Hx1 Hx2. by eapply (live_disjoint _ _ t1 t2).
  - exact (live_clear (p_umem p) _ Hl).
  - exact (pi_table p Hp).
  - intros Hc. apply (pi_loaded p Hp); [by rewrite Hc|]. by apply (pi_conts p Hp _ InUser).
Qed.

(** A step of the system while a process other than [t] has the processor. *)
Definition step_of_other (t : Z) p p' : Prop := pstep p p' ∧ p_cur p ≠ t.

(** C4: whatever the other processes and the kernel do, system calls included, as
    long as a process does not run its page table and every byte of its memory
    stay as they are. *)
Theorem process_isolation p p' t sp : reachable p → p_spaces p !! t = Some sp → rtc (step_of_other t) p p' →
  p_spaces p' !! t = Some sp ∧
  ∀ v, 0 ≤ v < space_size (space_frames sp) →
    user_byte (space_frames sp) (p_memory p') v = user_byte (space_frames sp) (p_memory p) v.
Proof.
  intros Hr Hsp Hs. pose proof (reachable_inv p Hr) as Hp.
  assert (Hrange : Forall (λ x, 0 ≤ x < NumPhysPages) (space_frames sp)).
  { apply Forall_forall. intros x Hx. by eapply live_range; [apply (pi_live p Hp)| |]. }
  assert (Hu : untouched t p p').
  { clear -Hp Hs FilesOK0. induction Hs as [p|p1 p2 p3 [Hs Hne] _ IH]; [done|].
    destruct (pstep_safe p1 p2 Hs Hp) as [Hp2 Ht]. etrans; [apply Ht; congruence|by apply IH]. }
  destruct (Hu sp Hsp) as [Hsp' Hm]. split; [done|]. intros v Hv. unfold user_byte. f_equal. apply Hm.
  by apply user_addr_range.
Qed.

(** C36: [Exit] of the last process halts the machine; of any other (with the count
    within [int]) it returns, frees exactly the frames of the process, which is
    no longer there, nor in [processIdTable], and changes no byte of memory. *)
Theorem Exit_outcome a p : calling p → reg_is p 2 SC_Exit → Z.of_nat (size (p_spaces p)) ≤ int_max →
  (size (p_spaces p) = 1%nat → handle_syscall a p = Err Halted) ∧
  ((1 < size (p_spaces p))%nat → ∃ sp p' n, p_spaces p !! p_cur p = Some sp ∧ handle_syscall a p = Ok (tt, p') ∧
     p_spaces p' = delete (p_cur p) (p_spaces p) ∧ cantProcesses p' = cantProcesses p - 1 ∧
     BitMap_NumClear (p_frames p) = Ok (n, p_frames p) ∧
     BitMap_NumClear (p_frames p') = Ok (n + numPages sp, p_frames p') ∧
     (∀ pid, processIdTable p' !! pid ≠ Some (Some (p_cur p))) ∧ p_memory p' = p_memory p).
Proof.
  intros Hcall Hr Hmax. destruct (calling_inv p Hcall) as [Hp Hu]. rewrite (handle_syscall_code a p _ Hp Hu Hr). cbn.
  pose proof (pi_count p Hp) as Hn. rewrite sint_id in Hn by (unfold is_int, int_min in *; lia). split.
  - intros H1. by apply Exit_halts; [| |rewrite Hn, H1].
  - intros H1. destruct (Exit_runs p Hp Hu) as [p' E]; [rewrite Hn, sint_id; unfold is_int, int_min in *; lia|].
    destruct (Exit_result p p' Hp Hu E) as (sp & n & Hsp & E1 & E2 & E3 & E4 & E5 & E6).
    exists sp, p', n. rewrite E2, sint_id by (unfold is_int, int_min in *; lia). by split_and!.
Qed.


(** C37: [Halt] halts the machine only while the process table is empty.  The loop
    deletes each entry a hundred times: the first entry that is not null stops
    the kernel at the assertion of [~Thread] when it is the caller's own, which
    [Exec] puts there, and is freed twice when it is another process's. *)
Theorem Halt_outcome a p : calling p → reg_is p 2 SC_Halt →
  ((∀ pid, (pid < 100)%nat → processIdTable p !! pid = Some None) → handle_syscall a p = Err Halted) ∧
  (∀ pid t, processIdTable p !! pid = Some (Some t) → (∀ j, (j < pid)%nat → processIdTable p !! j = Some None) →
     handle_syscall a p = Err (if decide (t = p_cur p) then AssertFailed else BadPointer)).
Proof.
  intros Hcall Hr. destruct (calling_inv p Hcall) as [Hp Hu]. rewrite (handle_syscall_code a p _ Hp Hu Hr). cbn. split.
  - intros Hnull. by apply Halt_halts.
  - intros pid t Ht Hj. by eapply Halt_faults.
Qed.

End Theorems.

(** ** The two file systems *)

(** The file system of Nachos, and its calls (Syscall.v). *)
Section NachosFiles.
Context {D T : Type} `{!SectorDevice D} `{!SectorDeviceOK D} `{!Terminal T} (junk : Z → Z) (fs : FileSystem).

Definition nachos_files : Files D T := {|
  exe_t := OpenFile;
  fs_Open := Open junk fs;
  fs_file f := NachosFile.file junk (hdr f);
  fs_call undef := ExceptionHandler junk fs (λ _, fail AssertFailed) undef SyscallException
|}.

Lemma bcopy_from_length {S} buf off n (s : S) r s' : bcopy_from buf off n s = Ok (r, s') → Z.of_nat (length r) ≤ Z.max 0 n.
Proof. unfold bcopy_from. destruct (_ && _); [|done]. intros [= <- <-]. rewrite length_take. lia. Qed.

Lemma ReadAt_length h n pos (d : D) r d' : ReadAt junk h n pos d = Ok (r, d') → 0 < n → is_int pos → Z.of_nat (length r) ≤ n.
Proof.
  intros H Hn Hpos. unfold ReadAt in H. destruct (_ || _); [binds H; cbn; lia|]. cbv zeta in H.
  apply bind_Ok in H as (b & d1 & _ & H). apply bind_Ok in H as (buf & d2 & _ & H). apply bcopy_from_length in H.
  case_bool_decide as Hb; [|lia]. unfold is_int, sint, int_min, int_max in *. lia.
Qed.

Lemma nachos_files_ok : @FilesOK D T nachos_files.
Proof.
  split.
  - intros f n pos d r d' H. by apply (ReadAt_length (hdr f) n pos d r d').
  - intros undef. apply confined_ExceptionHandler. intros type. apply respects_fail.
Qed.

End NachosFiles.

(** The UNIX files of the FILESYS_STUB build, as far as loading a program needs
    them: a directory of names and contents. *)
Module UnixFiles.

Definition directory : Type := list (list Z * list Z).

Definition unix_Open (name : list Z) : M directory (option (list Z)) :=
  gets (λ d, match list_find (λ f, f.1 = name) d with Some (_, f) => Some f.2 | None => None end).

Definition unix_file (c : list Z) : ExeFile directory := {|
  exe_ReadAt n pos := λ d, match StubFile.Stub_ReadAt n pos c with Ok (r, _) => Ok (r, d) | Err f => Err f end;
  exe_holds _ c' := c' = c
|}.

Definition files : Files directory unit := {|
  exe_t := list Z;
  fs_Open := unix_Open;
  fs_file := unix_file;
  fs_call _ := fail AssertFailed
|}.

Lemma files_ok : @FilesOK _ _ files.
Proof.
  split.
  - intros c n pos d r d' H Hn _. cbn in H. unfold StubFile.Stub_ReadAt in H. unfold_M. case_bool_decide; [|done].
    injection H as <- _. rewrite length_take. lia.
  - intros undef. apply respects_fail.
Qed.

End UnixFiles.

(** ** A parent and a child *)

Module Family.
Import UnixFiles.
#[local] Existing Instance files.
#[local] Existing Instance files_ok.

Definition bytes4 (w : Z) : list Z := [w `mod` 256; (w / 256) `mod` 256; (w / 65536) `mod` 256; (w / 16777216) `mod` 256].
Definition noff (code : list Z) : list Z :=
  concat (bytes4 <$> [NOFFMAGIC; 0; 40; Z.of_nat (length code); 0; 0; 0; 0; 0; 0]) ++ code.
Definition addiu (rt imm : Z) : list Z := bytes4 (0x24000000 + rt * 65536 + imm).
Definition syscall : list Z := bytes4 12.

(** [Exec("b"); Join(1); Exit(0)] with the name at address 40, and
    [Exit(0)]. *)
Definition parent : list Z := noff (addiu 4 40 ++ addiu 2 2 ++ syscall ++ addiu 4 1 ++ addiu 2 3 ++ syscall ++
  addiu 2 1 ++ syscall ++ bytes4 0 ++ bytes4 0 ++ [98; 0; 0; 0]).
Definition child : list Z := noff (addiu 2 1 ++ syscall).
Definition halter : list Z := noff syscall.

Definition disk : directory := [([97], parent); ([98], child); ([99], halter)].
Definition booted : psys directory unit :=
  boot_system (replicate 40 0) (replicate 40 0) (replicate 100 None) disk tt.
Definition al : alloc := mkAlloc 1 (replicate 40 0) (replicate 100 None) 0 0 (replicate 40 0) 0.

Fixpoint prun (ls : list plabel) (p : psys directory unit) : res (psys directory unit) :=
  match ls with
  | [] => Ok p
  | l :: ls => match process_step l p with Ok (_, p') => prun ls p' | Err f => Err f end
  end.

Definition started (name : list Z) : res (psys directory unit) :=
  match first_process name (replicate 40 0) booted with Ok (true, p) => Ok p | Ok (false, _) => Err AssertFailed | Err f => Err f end.
Definition state (name : list Z) (ls : list plabel) : psys directory unit :=
  match started name with Ok p => match prun ls p with Ok p' => p' | Err _ => booted end | Err _ => booted end.
Definition runs (name : list Z) (ls : list plabel) : bool :=
  match started name with Ok p => match prun ls p with Ok _ => true | Err _ => false end | Err _ => false end.

Lemma prun_steps ls p p' : prun ls p = Ok p' → rtc pstep p p'.
Proof.
  revert p. induction ls as [|l ls IH]; intros p; cbn; [by intros [= ->]|].
  destruct (process_step l p) as [[u p1]|] eqn:E; [|done]. intros H. eapply rtc_l; [by exists l, u|by apply IH].
Qed.

Lemma state_reachable name ls : runs name ls = true → reachable (state name ls).
Proof.
  unfold runs, state, started. destruct (first_process _ _ _) as [[[] p]|] eqn:E; try done.
  destruct (prun ls p) as [p'|] eqn:Er; [|done]. intros _. eapply reach; [|exact E|by eapply prun_steps].
  by rewrite length_replicate.
Qed.

Lemma prun_snoc ls l p : prun (ls ++ [l]) p =
  match prun ls p with Ok p' => match process_step l p' with Ok (_, p2) => Ok p2 | Err f => Err f end | Err f => Err f end.
Proof. revert p. induction ls as [|l' ls IH]; intros p; cbn; [done|]. destruct (process_step l' p) as [[u p1]|]; [apply IH|done]. Qed.

Lemma state_step name ls l : runs name (ls ++ [l]) = true → pstep (state name ls) (state name (ls ++ [l])).
Proof.
  unfold runs, state. destruct (started name) as [p|]; [|done]. rewrite prun_snoc. destruct (prun ls p) as [p'|]; [|done].
  destruct (process_step l p') as [[u p2]|] eqn:E; [|done]. intros _. by exists l, u.
Qed.

(** The state in which the call of the next instruction is handled. *)
Definition called (name : list Z) (ls : list plabel) : psys directory unit :=
  match on_machine (OneInstruction (λ _, mret tt)) (state name ls) with Ok (_, p) => p | Err _ => booted end.
Definition callable (name : list Z) (ls : list plabel) : bool :=
  let p := state name ls in
  runs name ls && bool_decide (p_conts p !! p_cur p = Some InUser) &&
  match conts (p_kern p) !! p_cur p with Some fs => user_top fs | None => false end &&
  match machine_of p with Ok k => at_syscall k | Err _ => false end &&
  match on_machine (OneInstruction (λ _, mret tt)) p with Ok _ => true | Err _ => false end.

Lemma called_calling name ls : callable name ls = true → calling (called name ls).
Proof.
  unfold callable, called. rewrite !andb_true_iff. intros ((((Hr & Hc) & Hfs) & Hk) & E).
  apply bool_decide_eq_true in Hc. destruct (conts _ !! _) as [fs|] eqn:Efs; [|done]. destruct fs as [|[] rest]; try done.
  destruct (machine_of _) as [k|] eqn:Ek; [|done]. destruct (on_machine _ _) as [[[] p]|] eqn:Ep; [|done].
  by eapply calling_intro; [apply state_reachable| | | | |].
Qed.

(** The parent after [Exec], the child about to start, the child about to exit,
    the parent about to join. *)
Definition two : list plabel := [PUser al; PUser al; PUser al].
Definition child_starts : list plabel := two ++ [PPreempt; PResume].
Definition child_exits : list plabel := child_starts ++ [PUser al; PUser al].

End Family.

(** *** Witnesses *)

Section Witnesses.
Import UnixFiles Family.
#[local] Existing Instance files.
#[local] Existing Instance files_ok.

Lemma OneInstruction_split_witness : ∃ k, at_syscall k = true ∧
  OneInstruction (λ x, if decide (x = SyscallException) then WriteRegister 2 7 else unexpected x) k =
    (OneInstruction (λ _, mret tt) ≫= λ _, WriteRegister 2 7) k.
Proof.
  set (k := match machine_of (state [99] []) with Ok k => k | Err _ => new_Machine 0 end).
  exists k. assert (Hs : at_syscall k = true) by (vm_compute; reflexivity). clearbody k. split; [exact Hs|].
  rewrite (OneInstruction_split (λ x, if decide (x = SyscallException) then WriteRegister 2 7 else unexpected x)).
  - by rewrite Hs.
  - intros x Hx k'. by rewrite decide_False.
Defined.

Lemma processes_accounted_witness :
  size (p_spaces (state [97] two)) = 2%nat ∧ cantProcesses (state [97] two) = 2 ∧
  BitMap_NumClear (p_frames (state [97] two)) =
    Ok (NumPhysPages - foldr Z.add 0 (numPages <$> spaces_of (p_spaces (state [97] two))), p_frames (state [97] two)).
Proof.
  assert (Hr : reachable (state [97] two)) by (apply state_reachable; vm_compute; reflexivity).
  destruct (processes_accounted (state [97] two) Hr) as (_ & _ & _ & H & _).
  split; [vm_compute; reflexivity|]. split; [vm_compute; reflexivity|exact H].
Defined.

(** The child starts and calls [Exit] while the parent waits. *)
Lemma process_isolation_witness : ∃ sp, p_spaces (state [97] child_starts) !! 0 = Some sp ∧
  p_spaces (state [97] child_exits) !! 0 = Some sp ∧
  ∀ v, 0 ≤ v < space_size (space_frames sp) →
    user_byte (space_frames sp) (p_memory (state [97] child_exits)) v =
    user_byte (space_frames sp) (p_memory (state [97] child_starts)) v.
Proof.
  assert (Hr : reachable (state [97] child_starts)) by (apply state_reachable; vm_compute; reflexivity).
  destruct (p_spaces (state [97] child_starts) !! 0) as [sp|] eqn:Esp; [|vm_compute in Esp; discriminate].
  assert (Hs : rtc (step_of_other 0) (state [97] child_starts) (state [97] child_exits)).
  { eapply rtc_l with (state [97] (child_starts ++ [PUser al])); [|eapply rtc_l; [|reflexivity]].
    - split; [apply state_step; vm_compute; reflexivity|vm_compute; discriminate].
    - split; [apply (state_step _ (child_starts ++ [PUser al])); vm_compute; reflexivity|vm_compute; discriminate]. }
  exists sp. split; [reflexivity|]. exact (process_isolation _ _ 0 sp Hr Esp Hs).
Defined.

Lemma Exit_outcome_witness : ∃ p', handle_syscall al (called [97] child_exits) = Ok (tt, p') ∧ cantProcesses p' = 1 ∧
  handle_syscall al (called [98] [PUser al]) = Err Halted.
Proof.
  assert (Hc : calling (called [97] child_exits)) by (apply called_calling; vm_compute; reflexivity).
  destruct (Exit_outcome al _ Hc) as [_ H]; [vm_compute; reflexivity|vm_compute; discriminate|].
  destruct H as (sp & p' & n & _ & E & _ & Hn & _); [vm_compute; lia|].
  exists p'. split; [exact E|]. split; [rewrite Hn; vm_compute; reflexivity|].
  assert (Hc' : calling (called [98] [PUser al])) by (apply called_calling; vm_compute; reflexivity).
  destruct (Exit_outcome al _ Hc') as [H _]; [vm_compute; reflexivity|vm_compute; discriminate|]. apply H. vm_compute. reflexivity.
Defined.


Lemma Halt_outcome_witness : handle_syscall al (called [99] []) = Err Halted.
Proof.
  assert (Hc : calling (called [99] [])) by (apply called_calling; vm_compute; reflexivity).
  destruct (Halt_outcome al _ Hc) as [H _]; [vm_compute; reflexivity|]. apply H.
  assert (Ht : processIdTable (called [99] []) = replicate 100 None) by (vm_compute; reflexivity).
  intros pid Hpid. rewrite Ht. by apply lookup_replicate_2.
Defined.

End Witnesses.
