(* ===== verification/ExecSpec.v ===== *)
(** * The outcome of Exec

    The call [Exec] of userprog/exception.cc as a whole: the identifier it gives
    the new process, what it leaves in the process table and in the kernel, and
    what happens when every identifier is taken.  [Exec_file] is its first half,
    up to the opening of the executable. *)

From S2P Require Import Prelude Bitmap Interrupt Scheduler Synch Machine Mips Disk FileHdr OpenFile FileSys AddrSpace.
From S2P Require Import Console Syscall Confined Calm Process ProcessInv ProcessSpec.

Section Exec.
Context {D T : Type} `{!Files D T} `{!FilesOK D T}.
Implicit Types (p : psys D T) (a : alloc).

(** The name and the arguments are read and the file is opened. *)
Definition Exec_file : M (psys D T) (option exe_t) :=
  addr_name ← on_machine (ReadRegister 4);
  argc ← on_machine (ReadRegister 5);
  addr_argv ← on_machine (ReadRegister 6);
  filename ← on_machine (readStrFromUsr 128 addr_name);
  on_machine (read_args (Z.to_nat argc) addr_argv) ≫= λ _,
  on_pdisk (fs_Open filename).

Definition Exec_rest a (executable : option exe_t) : M (psys D T) unit :=
  executable ← (match executable with Some f => mret f | None => ASSERT false ≫= λ _, fail AssertFailed end);
  th ← cur_thread;
  t ← gets p_cur;
  table_put (th_pid th) (Some t) ≫= λ _,
  pid ← pid_loop (S (Z.to_nat maxCantProcess)) 1;
  if bool_decide (pid < maxCantProcess) then
    on_machine (WriteRegister 2 pid) ≫= λ _, do_Exec a pid executable
  else ASSERT false.

Lemma Exec_eq a p : Exec a p = (Exec_file ≫= Exec_rest a) p.
Proof.
  unfold Exec, Exec_file, Exec_rest, mbind, M_bind.
  do 6 (match goal with |- match ?m with _ => _ end = _ => destruct m as [[? ?]|]; [|done] end). done.
Qed.

(** What the machine and the files leave alone. *)
Record same_table p p' : Prop := {
  st_threads : threads (p_sched p') = threads (p_sched p);
  st_ready : readyListP (p_sched p') = readyListP (p_sched p);
  st_kern : conts (p_kern p') = conts (p_kern p) ∧ locks (p_kern p') = locks (p_kern p);
  st_cur : p_cur p' = p_cur p;
  st_table : processIdTable p' = processIdTable p;
  st_count : cantProcesses p' = cantProcesses p;
  st_conts : p_conts p' = p_conts p;
  st_dom : dom (p_spaces p') =@{gset Z} dom (p_spaces p)
}.

#[export] Instance same_table_preorder : PreOrder same_table.
Proof.
  split; [intros p; by split|]. intros a b c [A1 A2 [A3 A4] A5 A6 A7 A8 A9] [B1 B2 [B3 B4] B5 B6 B7 B8 B9].
  split; [congruence|congruence|split; congruence|congruence..].
Qed.

Lemma same_on_machine {A} (m : M Machine A) : respects same_table (on_machine m).
Proof.
  intros p x p' H. unfold on_machine, machine_of in H. destruct (machine_pageTable (p_sched p)) as [ap|] eqn:Ea.
  - destruct (p_spaces p !! ap) as [sp|] eqn:Es; [|done]. destruct (m _) as [[x' k]|]; [|done]. injection H as <- <-.
    split; try done. cbn. rewrite Ea. destruct (m_pageTable k); [|done]. rewrite dom_insert_L.
    apply elem_of_dom_2 in Es. set_solver.
  - destruct (m _) as [[x' k]|]; [|done]. injection H as <- <-. split; try done. cbn. by rewrite Ea.
Qed.
Lemma same_on_pdisk {A} (m : M D A) : respects same_table (on_pdisk m).
Proof. intros p x p' H. unfold on_pdisk in H. destruct (m _) as [[x' d]|]; [|done]. injection H as <- <-. by split. Qed.
#[local] Hint Resolve same_on_machine same_on_pdisk : respects.

Lemma Exec_file_same : respects same_table Exec_file.
Proof. unfold Exec_file. respects_tac. Qed.

#[local] Hint Resolve good_on_machine good_on_pdisk confined_read_args : respects.

Lemma Exec_file_good : respects good Exec_file.
Proof. unfold Exec_file. respects_tac. Qed.

(** Nothing in [do_Exec] touches the machine's registers. *)
Definition same_regs (s s' : sched) : Prop := registers s' = registers s.
#[local] Instance same_regs_preorder : PreOrder same_regs.
Proof. split; [by intros s|]. intros x y z H1 H2. unfold same_regs in *. congruence. Qed.

Lemma regs_thread_at t : respects same_regs (thread_at t).
Proof. intros s x s' H. unfold thread_at in H. by case_match; simplify_eq. Qed.
Lemma regs_queue_at i : respects same_regs (queue_at i).
Proof. intros s x s' H. unfold queue_at in H. by repeat case_match; simplify_eq. Qed.
Lemma regs_set (f : sched → sched) : (∀ s, registers (f s) = registers s) → respects same_regs (modify f).
Proof. intros Hf s x s' H. unfold modify in H. injection H as _ <-. apply Hf. Qed.
#[local] Hint Resolve regs_thread_at regs_queue_at : respects.
#[local] Hint Extern 1 (respects same_regs (modify _)) => apply regs_set; done : respects.
#[local] Hint Extern 1 (respects same_regs (queue_set _ _)) => apply regs_set; done : respects.

Lemma regs_Fork t port j pr : respects same_regs (Fork t port j pr).
Proof. unfold Fork, StackAllocate, ReadyToRun, thread_upd, queue_Append. respects_tac. Qed.

Lemma regs_Thread_Fork t pr b c k u k' : Thread_Fork t 0 pr b c k = Ok (u, k') → same_regs (k_sched k) (k_sched k').
Proof.
  intros H. unfold Thread_Fork in H. rewrite bool_decide_eq_true_2 in H by done.
  unfold new_Puerto, new_Lock, new_Condition, new_Semaphore, put_sem, put_lock, put_cond, put_port, put_stack in H. binds H.
  unfold on_sched in H. destruct (Fork _ _ _ _ _) as [[x s']|] eqn:Ef; [|done]. injection H as _ <-.
  by apply regs_Fork in Ef.
Qed.

Lemma regs_upd_thread t f p u p' : upd_thread t f p = Ok (u, p') → same_regs (p_sched p) (p_sched p').
Proof. by intros (th & _ & ->)%upd_thread_Ok. Qed.

Lemma regs_do_Exec a pid f p u p' : do_Exec a pid f p = Ok (u, p') → same_regs (p_sched p) (p_sched p').
Proof.
  intros H. unfold do_Exec, new_thread in H. cbv zeta in H.
  apply bind_Ok in H as ([] & p1 & E & H). apply bind_Ok in E as (x & p2 & E0 & E). unfold get in E0. injection E0 as <- <-.
  apply bind_Ok in E as ([] & p2 & (_ & -> & _)%ASSERT_Ok & E). apply bind_Ok in E as ([] & p2 & E1 & E). binds E.
  apply on_kern_Ok in E1 as (k1 & E1 & ->). unfold Thread_new, on_sched, modify in E1. injection E1 as <-.
  apply bind_Ok in H as ([] & p3 & E3%regs_upd_thread & H). apply bind_Ok in H as ([] & p4 & (_ & _ & ->)%table_put_Ok & H).
  apply bind_Ok in H as (sp & p5 & E5 & H). unfold on_umem in E5. destruct (new_AddrSpace _ _) as [[sp' um]|]; [|done].
  injection E5 as <- <-. apply bind_Ok in H as ([] & p6 & E6 & H). unfold put_space in E6. binds E6.
  apply bind_Ok in H as ([] & p7 & E7%regs_upd_thread & H). apply bind_Ok in H as ([] & p8 & E8 & H). binds E8.
  apply bind_Ok in H as ([] & p9 & (k9 & E9%regs_Thread_Fork & ->)%on_kern_Ok & H). binds H.
  unfold same_regs, p_sched in *. cbn in *. congruence.
Qed.

(** The address the allocator gives is not in use. *)
Definition fresh a p : Prop :=
  threads (p_sched p) !! a_thread a = None ∧ conts (p_kern p) !! a_thread a = None ∧
  locks (p_kern p) !! LPort (a_thread a) = None ∧ p_spaces p !! a_thread a = None.

Lemma Fork_runs t port s th q : threads s !! t = Some th → readyListP s !! 0%nat = Some q →
  ∃ s', Fork t port 0 0 s = Ok (tt, s').
Proof.
  intros Ht Hq. unfold Fork, StackAllocate. rewrite bool_decide_eq_true_2 by done.
  rewrite (bind_run _ _ _ _ _ (thread_upd_ok t _ s th Ht)). set (f1 := th_setStack _ _). set (s1 := set_threads _ s).
  assert (H1 : threads s1 !! t = Some (f1 th)) by (unfold s1; cbn; by rewrite lookup_alter_eq, Ht).
  rewrite (bind_run _ _ _ _ _ (thread_upd_ok t _ s1 _ H1)). set (f2 := th_setJoin _ _). set (s2 := set_threads _ s1).
  assert (H2 : threads s2 !! t = Some (f2 (f1 th))) by (unfold s2; cbn [threads set_threads]; by rewrite lookup_alter_eq, H1).
  rewrite (bind_run _ _ _ _ _ (thread_upd_ok t _ s2 _ H2)). set (s3 := set_threads _ s2).
  assert (H3 : threads (set_slevel IntOff s3) !! t = Some (th_setPriority 0 (f2 (f1 th)))).
  { unfold s3. cbn [threads set_slevel set_threads]. by rewrite lookup_alter_eq, H2. }
  unfold gets, modify. unfold_M. rewrite (ReadyToRun_ok t _ _ q H3) by done. eauto.
Qed.

Lemma Thread_Fork_runs t b c k th q : threads (k_sched k) !! t = Some th → readyListP (k_sched k) !! 0%nat = Some q →
  ∃ k', Thread_Fork t 0 0 b c k = Ok (tt, k').
Proof.
  intros Ht Hq. unfold Thread_Fork, new_Puerto, new_Lock, new_Condition, new_Semaphore, put_sem, put_lock, put_cond, put_port, put_stack.
  rewrite bool_decide_eq_true_2 by done. unfold_M. unfold on_sched. cbn [k_sched].
  destruct (Fork_runs t t (k_sched k) th q Ht Hq) as [s' E]. cbn. rewrite E. eauto.
Qed.

Lemma upd_thread_run t f p th : threads (p_sched p) !! t = Some th →
  upd_thread t f p = Ok (tt, set_kern (upd_sched (set_threads (alter f t (threads (p_sched p)))) (p_kern p)) p).
Proof.
  intros Ht. unfold upd_thread, on_kern, on_sched. fold (p_sched p). by rewrite (thread_upd_ok t f (p_sched p) th Ht).
Qed.

Lemma do_Exec_runs a pid f p sp um q : fresh a p → 0 ≤ pid < maxCantProcess → length (processIdTable p) = Z.to_nat maxCantProcess →
  readyListP (p_sched p) !! 0%nat = Some q →
  @new_AddrSpace D (fs_file f) (a_noff a) (p_umem p) = Ok (sp, um) → ∃ p', do_Exec a pid f p = Ok (tt, p').
Proof.
  intros (N1 & N2 & N3 & N4) Hpid Hlen Hq En. unfold do_Exec, new_thread. cbv zeta. set (t := a_thread a) in *.
  set (k1 := upd_sched (set_threads (<[t := new_Thread (a_regs a)]> (threads (p_sched p)))) (p_kern p)).
  set (p1 := set_desc (<[t := a_desc a]> (p_desc p)) (set_kern k1 p)).
  rewrite (bind_run _ _ p tt p1).
  2: { unfold get, ASSERT. unfold_M. fold (p_sched p). rewrite N1, N2, N3, N4. done. }
  rewrite (bind_run _ _ _ _ _ (upd_thread_run t _ p1 (new_Thread (a_regs a)) ltac:(unfold p1, k1, p_sched; cbn; apply lookup_insert_eq))).
  set (p2 := set_kern _ p1). rewrite (bind_run _ _ _ _ _ (table_put_run p2 pid _ ltac:(lia) ltac:(cbn; lia))).
  set (p3 := set_table _ p2). assert (E3 : p_umem p3 = p_umem p) by done.
  rewrite (bind_run _ _ p3 sp (mkPsys (p_kern p3) (mainMemory (mach um)) (frames um) (exe um) (p_term p3) (p_desc p3)
    (processIdTable p3) (cantProcesses p3) (p_spaces p3) (p_conts p3))).
  2: { unfold on_umem. change (mkUmem _ _ _) with (p_umem p3). by rewrite E3, En. }
  set (p4 := mkPsys _ _ _ _ _ _ _ _ _ _). rewrite (bind_run _ _ p4 tt (set_spaces (<[t := sp]> (p_spaces p4)) p4)) by done.
  set (p5 := set_spaces _ p4). set (th5 := th_setPid pid (new_Thread (a_regs a))).
  assert (H5 : threads (p_sched p5) !! t = Some th5) by (unfold p5, p4, p3, p2, p1, k1, p_sched; cbn; by rewrite lookup_alter_eq, lookup_insert_eq).
  rewrite (bind_run _ _ _ _ _ (upd_thread_run t _ p5 th5 H5)). set (p6 := set_kern _ p5).
  rewrite (bind_run _ _ p6 tt (set_count (sint (cantProcesses p6 + 1)) p6)) by done. set (p7 := set_count _ p6).
  destruct (Thread_Fork_runs t (a_lock a) (a_buf a) (p_kern p7) (th_setSpace (Some t) th5) q) as [k8 E8]; [|done|].
  { change (threads (k_sched (p_kern p7))) with (alter (th_setSpace (Some t)) t (threads (p_sched p5))). by rewrite lookup_alter_eq, H5. }
  rewrite (bind_run _ _ p7 tt (set_kern k8 p7)) by (unfold on_kern; by rewrite E8). unfold modify. eauto.
Qed.

(** Register code run on the machine of a process. *)
Definition with_regs (r : list Z) p : psys D T := set_kern (upd_sched (set_registers r) (p_kern p)) p.

Lemma on_machine_regs (m : M Machine unit) p r : pinv p → user_mode p →
  (∀ k, m_registers k = registers (p_sched p) → m k = Ok (tt, set_regs r k)) → on_machine m p = Ok (tt, with_regs r p).
Proof.
  intros Hp Hu Hm. destruct (machine_of_user p Hp Hu) as (sp & Hsp & Ek). unfold on_machine. rewrite Ek, Hm by done.
  pose proof (f_equal p_spaces (put_machine_id p _ Ek)) as Hs. unfold put_machine in Hs |- *. cbn in Hs |- *.
  unfold with_regs, set_kern. by rewrite Hs.
Qed.

(** What [Exec] leaves: the new process [pid] in the table beside the caller [th],
    its control block with its identifier and its address space, about to start;
    one more process, the caller still running, and [pid] as the result. *)
Record executed a th pid p p' : Prop := {
  ex_result : reg_is p' 2 pid;
  ex_table : processIdTable p' = <[Z.to_nat pid := Some (a_thread a)]>
    (<[Z.to_nat (th_pid th) := Some (p_cur p)]> (processIdTable p));
  ex_was_new : threads (p_sched p) !! a_thread a = None ∧ p_spaces p !! a_thread a = None;
  ex_thread : ∃ th', threads (p_sched p') !! a_thread a = Some th' ∧ th_pid th' = pid ∧ th_space th' = Some (a_thread a);
  ex_space : is_Some (p_spaces p' !! a_thread a);
  ex_spaces : size (p_spaces p') = S (size (p_spaces p));
  ex_count : cantProcesses p' = sint (cantProcesses p + 1);
  ex_starts : p_conts p' !! a_thread a = Some InStart;
  ex_current : p_cur p' = p_cur p
}.

(** The entries of the table when [Exec] looks for a free one. *)
Definition self_table p th : list (option Z) := <[Z.to_nat (th_pid th) := Some (p_cur p)]> (processIdTable p).
Definition used (l : list (option Z)) (pid : Z) : Prop := ∃ t, l !! Z.to_nat pid = Some (Some t).

Section Found.
Context (a : alloc) (p p1 : psys D T) (th : Thread) (f : exe_t).
Hypotheses (Hp : pinv p) (Hu : user_mode p) (Hth : threads (p_sched p) !! p_cur p = Some th)
  (Hf : Exec_file p = Ok (Some f, p1)).

Let p2 := set_table (self_table p th) p1.

Lemma found_good : pinv p2 ∧ user_mode p2.
Proof.
  destruct (Exec_file_good p _ _ Hf Hp Hu) as (Hp1 & Hu1 & _). destruct (Exec_file_same p _ _ Hf) as [S1 _ _ S4 S5 _ _ _].
  assert (Hth1 : threads (p_sched p1) !! p_cur p1 = Some th) by (by rewrite S1, S4).
  destruct (cur_process p1 Hp1 Hu1) as (th' & _ & Hth' & _ & Hr & _). assert (th' = th) as -> by congruence.
  assert (E : table_put (th_pid th) (Some (p_cur p1)) p1 = Ok (tt, p2)).
  { rewrite table_put_run by (rewrite ?(pi_length p1 Hp1); lia). unfold p2, self_table. by rewrite S4, S5. }
  destruct (good_table_self p1 th _ _ Hth1 E Hp1 Hu1) as (? & ? & _). done.
Qed.

(** [Exec] from the point where it looks for an identifier. *)
Lemma Exec_from : Exec a p = (pid ← pid_loop (S (Z.to_nat maxCantProcess)) 1;
  if bool_decide (pid < maxCantProcess) then on_machine (WriteRegister 2 pid) ≫= λ _, do_Exec a pid f else ASSERT false) p2.
Proof.
  destruct (Exec_file_good p _ _ Hf Hp Hu) as (Hp1 & Hu1 & _). destruct (Exec_file_same p _ _ Hf) as [S1 _ _ S4 S5 _ _ _].
  assert (Hth1 : threads (p_sched p1) !! p_cur p1 = Some th) by (by rewrite S1, S4).
  destruct (cur_process p1 Hp1 Hu1) as (th' & _ & Hth' & _ & Hr & _). assert (th' = th) as -> by congruence.
  rewrite Exec_eq. rewrite (bind_run _ _ _ _ _ Hf). unfold Exec_rest. rewrite (bind_run _ _ _ f p1) by done.
  rewrite (bind_run _ _ _ _ _ (cur_thread_run p1 th Hth1)). rewrite (bind_run _ _ _ (p_cur p1) p1) by done.
  rewrite (bind_run _ _ p1 tt p2); [done|].
  rewrite table_put_run by (rewrite ?(pi_length p1 Hp1); lia). unfold p2, self_table. by rewrite S4, S5.
Qed.

(** The state in which [do_Exec] starts. *)
Definition registered (pid : Z) : psys D T := with_regs (<[2%nat := pid]> (registers (p_sched p1))) p2.

Lemma write_result pid : on_machine (WriteRegister 2 pid) p2 = Ok (tt, registered pid) ∧
  pinv (registered pid) ∧ user_mode (registered pid).
Proof.
  destruct found_good as [Hp2 Hu2].
  assert (E : on_machine (WriteRegister 2 pid) p2 = Ok (tt, registered pid)).
  { apply on_machine_regs; [done|done|]. intros k Hk. rewrite WriteRegister_run; [by rewrite Hk| |done].
    rewrite Hk. exact (pi_regs p2 Hp2). }
  split; [done|]. apply (good_on_machine (WriteRegister 2 pid)) in E; [|auto with respects].
  destruct (E Hp2 Hu2) as (? & ? & _). done.
Qed.

Lemma found_executed pid p4 : 1 ≤ pid < maxCantProcess → do_Exec a pid f (registered pid) = Ok (tt, p4) →
  ∃ p', on_machine increaseProgramCounter p4 = Ok (tt, p') ∧ executed a th pid p p'.
Proof.
  intros Hpid E. destruct (write_result pid) as (_ & Hp3 & Hu3). destruct (Exec_file_same p _ _ Hf) as [S1 _ _ S4 S5 S6 S7 S8].
  pose proof (regs_do_Exec _ _ _ _ _ _ E) as Hregs. unfold same_regs in Hregs.
  assert (Hg : pinv p4 ∧ user_mode p4).
  { destruct (good_do_Exec a pid f ltac:(lia) _ _ _ E Hp3 Hu3) as (? & ? & _). done. }
  destruct Hg as [Hp4 Hu4]. exists (with_regs (next_pc (registers (p_sched p4))) p4). split.
  { apply on_machine_regs; [done|done|]. intros k Hk. rewrite increaseProgramCounter_run; [by rewrite Hk|].
    rewrite Hk. exact (pi_regs p4 Hp4). }
  apply do_Exec_effect in E as (sp & um & _ & [X1 _ X3 _ X5 _ _ _ (th' & Hth' & Hsp' & Hpid' & _) _ _ _ _ _ _ _ X9 X10 X11 X12]).
  assert (Hcur : p_cur (registered pid) = p_cur p) by exact S4.
  split; cbn.
  - unfold reg_is, with_regs, next_pc. cbn. rewrite !list_lookup_insert_ne by done. rewrite Hregs. cbn.
    rewrite list_lookup_insert_eq; [done|]. pose proof (pi_regs _ Hp3) as Hl. cbn in Hl. rewrite length_insert in Hl.
    unfold p_sched in *. rewrite Hl. unfold NumTotalRegs. lia.
  - by rewrite X9.
  - split; [by rewrite <- S1|]. destruct (p_spaces p !! a_thread a) eqn:Es; [|done]. exfalso.
    assert (Hin : a_thread a ∈@{gset Z} dom (p_spaces p)) by (apply elem_of_dom; eauto).
    rewrite <- S8 in Hin. apply elem_of_dom in Hin as [x Hx]. cbn in X3. congruence.
  - exists th'. done.
  - rewrite X11, lookup_insert_eq. eauto.
  - rewrite X11, map_size_insert_None by done. f_equal. cbn. by rewrite <- !(size_dom (D := gset Z)), S8.
  - rewrite X10. cbn. by rewrite S6.
  - by rewrite X12, lookup_insert_eq.
  - by rewrite <- Hcur, <- X5.
Qed.

Lemma Exec_pid_run pid : 1 ≤ pid < maxCantProcess → pid_loop (S (Z.to_nat maxCantProcess)) 1 p2 = Ok (pid, p2) →
  Exec a p = do_Exec a pid f (registered pid).
Proof.
  intros Hpid E. rewrite Exec_from, (bind_run _ _ _ _ _ E), bool_decide_eq_true_2 by lia.
  by rewrite (bind_run _ _ _ _ _ (proj1 (write_result pid))).
Qed.

Lemma fresh_registered pid : fresh a p → fresh a (registered pid).
Proof.
  intros (N1 & N2 & N3 & N4). destruct (Exec_file_same p _ _ Hf) as [S1 _ [S2 S3] _ _ _ _ S8]. unfold fresh. cbn.
  unfold p_sched in *. rewrite S1, S2, S3. split_and!; try done. apply not_elem_of_dom. rewrite S8. by apply not_elem_of_dom.
Qed.

End Found.

(** C38: [Exec] of a process.  A file that cannot be opened stops the machine.
    Otherwise the identifier is the least one from 1 on that no process has, the
    caller's own included: when the call returns, it is the result in register 2,
    the new process is the entry of [processIdTable] at that identifier, with that
    identifier in its control block, its own address space and [StartProcess] to
    run, one more process is counted and no other entry of the table has changed;
    and the call does return when the allocator gives an unused address and the
    loader makes the address space.  When no identifier is free the search runs
    past the end of [processIdTable], so that the test of [pid < maxCantProcess]
    that follows it never fails. *)
Theorem Exec_outcome a p th r p1 : calling p → reg_is p 2 SC_Exec → threads (p_sched p) !! p_cur p = Some th →
  Exec_file p = Ok (r, p1) →
  match r with
  | None => handle_syscall a p = Err AssertFailed
  | Some f =>
      (∃ pid, 1 ≤ pid < maxCantProcess ∧ self_table p th !! Z.to_nat pid = Some None ∧
         (∀ j, 1 ≤ j < pid → used (self_table p th) j) ∧
         (∀ p', handle_syscall a p = Ok (tt, p') → executed a th pid p p') ∧
         (∀ sp um q, fresh a p → readyListP (p_sched p) !! 0%nat = Some q →
            @new_AddrSpace D (fs_file f) (a_noff a) (p_umem (registered p p1 th pid)) = Ok (sp, um) →
            ∃ p', handle_syscall a p = Ok (tt, p'))) ∨
      ((∀ j, 1 ≤ j < maxCantProcess → used (self_table p th) j) ∧ handle_syscall a p = Err OutOfBounds)
  end.
Proof.
  intros Hcall Hr Hth Hf. destruct (calling_inv p Hcall) as [Hp Hu]. rewrite (handle_syscall_code a p _ Hp Hu Hr). cbn.
  destruct r as [f|].
  2: { apply bind_err. rewrite Exec_eq, (bind_run _ _ _ _ _ Hf). done. }
  destruct (found_good p p1 th f Hp Hu Hth Hf) as [Hp2 Hu2].
  destruct (pid_search _ (pi_length _ Hp2)) as [(pid & Hpid & E & Hn & Hl)|[E Hl]].
  - left. exists pid. pose proof (Exec_pid_run a p p1 th f Hp Hu Hth Hf pid Hpid E) as Ex. split_and!; [lia|lia|done|done| |].
    + intros p' H. apply bind_Ok in H as ([] & p4 & E4 & H). rewrite Ex in E4.
      destruct (found_executed a p p1 th f Hp Hu Hth Hf pid p4 Hpid E4) as (p5 & E5 & Hx). congruence.
    + intros sp um q Hfr Hq En. destruct (Exec_file_same p _ _ Hf) as [_ S2 _ _ _ _ _ _].
      destruct (write_result p p1 th f Hp Hu Hth Hf pid) as (_ & Hp3 & _).
      destruct (do_Exec_runs a pid f (registered p p1 th pid) sp um q) as [p4 E4];
        [by eapply fresh_registered|lia|exact (pi_length _ Hp3)|cbn; unfold p_sched in *; congruence|done|].
      destruct (found_executed a p p1 th f Hp Hu Hth Hf pid p4 Hpid E4) as (p5 & E5 & _).
      exists p5. etrans; [apply (bind_run _ _ p tt p4); by rewrite Ex|exact E5].
  - right. split; [done|]. apply bind_err. rewrite (Exec_from a p p1 th f Hp Hu Hth Hf). by apply bind_err.
Qed.

End Exec.

(** ** A parent that makes a child *)

Section Witness.
Import UnixFiles Family.
#[local] Existing Instance files.
#[local] Existing Instance files_ok.

Definition before_exec : psys directory unit := called [97] [PUser al; PUser al].

Lemma Exec_outcome_witness : ∃ th p', handle_syscall al before_exec = Ok (tt, p') ∧ executed al th 1 before_exec p'.
Proof.
  assert (Hc : calling before_exec) by (apply called_calling; vm_compute; reflexivity).
  destruct (threads (p_sched before_exec) !! p_cur before_exec) as [th|] eqn:Hth; [|vm_compute in Hth; discriminate].
  destruct (Exec_file before_exec) as [[r p1]|] eqn:Hf; [|vm_compute in Hf; discriminate].
  destruct (handle_syscall al before_exec) as [[[] p']|] eqn:E; [|vm_compute in E; discriminate].
  exists th, p'. split; [reflexivity|].
  assert (T1 : self_table before_exec th !! Z.to_nat 1 = Some None).
  { assert (Hpid : th_pid th = 0) by (vm_compute in Hth; injection Hth as <-; reflexivity).
    unfold self_table. rewrite Hpid. vm_compute. reflexivity. }
  pose proof (Exec_outcome al before_exec th r p1 Hc ltac:(vm_compute; reflexivity) Hth Hf) as H.
  destruct r as [f|]; [|congruence]. destruct H as [(pid & Hb & Hn & Hl & Hx & _)|[Hl _]].
  - assert (pid = 1) as ->; [|by apply Hx]. destruct (decide (pid = 1)) as [|Hne]; [done|].
    destruct (Hl 1) as [t Ht]; [lia|congruence].
  - destruct (Hl 1) as [t Ht]; [unfold maxCantProcess; lia|congruence].
Defined.

End Witness.
