(* ===== verification/Coff.v ===== *)
(** * Coff: bin/coff2noff.c and bin/coff.h

    The host program that turns a MIPS COFF executable into the NOFF format that
    [AddrSpace] loads, on a host with 32-bit [DWORD]s and little-endian words
    (HOST_x86_64).  It works on two open files and leaves with a message and
    status 1 when something is wrong, after removing the output file: the state
    [tool] has both files, and a computation of [Tool] returns or exits.

    The theorems follow a program from the COFF file into the memory of the
    simulated machine. *)

From S2P Require Import Prelude Bitmap Machine Mips Disk FileHdr Directory AddrSpace.

(** ** The COFF format, bin/coff.h *)

Definition MIPSELMAGIC : Z := 354.
Definition OMAGIC : Z := 263.

Record filehdr := mkFilehdr {
  f_magic : Z; f_nscns : Z; f_timdat : Z; f_symptr : Z; f_nsyms : Z; f_opthdr : Z; f_flags : Z
}.
Record aouthdr := mkAouthdr {
  magic : Z; vstamp : Z; tsize : Z; dsize : Z; bsize : Z; a_entry : Z; text_start : Z; data_start : Z;
  bss_start : Z; gprmask : Z; cprmask : list Z; gp_value : Z
}.
Record scnhdr := mkScnhdr {
  s_name : list Z; s_paddr : Z; s_vaddr : Z; s_size : Z; s_scnptr : Z; s_relptr : Z; s_lnnoptr : Z;
  s_nreloc : Z; s_nlnno : Z; s_flags : Z
}.

Definition sizeof_filehdr : Z := 20.
Definition sizeof_aouthdr : Z := 56.
Definition sizeof_scnhdr : Z := 40.
Definition sizeof_NoffHeader : Z := 40.

(** The structures as they lie in the bytes that were read: an [int], an
    [unsigned short] and a [short] at an offset. *)
Definition int_at (off : nat) (bs : list Z) : Z := sint (le_value (host_read off 4 bs)).
Definition ushort_at (off : nat) (bs : list Z) : Z := le_value (host_read off 2 bs).
Definition short_at (off : nat) (bs : list Z) : Z :=
  let v := ushort_at off bs in if v <? 32768 then v else v - 65536.

Definition filehdr_of (bs : list Z) : filehdr :=
  mkFilehdr (ushort_at 0 bs) (ushort_at 2 bs) (int_at 4 bs) (int_at 8 bs) (int_at 12 bs) (ushort_at 16 bs)
    (ushort_at 18 bs).
Definition aouthdr_of (bs : list Z) : aouthdr :=
  mkAouthdr (short_at 0 bs) (short_at 2 bs) (int_at 4 bs) (int_at 8 bs) (int_at 12 bs) (int_at 16 bs) (int_at 20 bs)
    (int_at 24 bs) (int_at 28 bs) (int_at 32 bs) [int_at 36 bs; int_at 40 bs; int_at 44 bs; int_at 48 bs]
    (int_at 52 bs).
Definition scnhdr_of (bs : list Z) : scnhdr :=
  mkScnhdr (take 8 bs) (int_at 8 bs) (int_at 12 bs) (int_at 16 bs) (int_at 20 bs) (int_at 24 bs) (int_at 28 bs)
    (ushort_at 32 bs) (ushort_at 34 bs) (int_at 36 bs).

(** The array of section headers. *)
Fixpoint sections_of (n : nat) (bs : list Z) : list scnhdr :=
  match n with
  | O => []
  | S n => scnhdr_of (take 40 bs) :: sections_of n (drop 40 bs)
  end.

(** [NoffHeader] in memory. *)
Definition segment_words (s : Segment) : list Z := [virtualAddr s; inFileAddr s; segsize s].
Definition noff_bytes (n : NoffHeader) : list Z :=
  words_bytes (noffMagic n :: segment_words (code n) ++ segment_words (initData n) ++ segment_words (uninitData n)).

(** [!strcmp(name, s)]; [name] has room for any [s] it is compared with. *)
Definition strcmp_zero (name s : list Z) : bool := strncmp_zero (S (length s)) name (s ++ [0]).

Definition dot_text : list Z := [46; 116; 101; 120; 116].
Definition dot_data : list Z := [46; 100; 97; 116; 97].
Definition dot_rdata : list Z := [46; 114; 100; 97; 116; 97].
Definition dot_bss : list Z := [46; 98; 115; 115].
Definition dot_sbss : list Z := [46; 115; 98; 115; 115].

(** ** The state *)

Inductive message :=
  | Usage | CannotOpen | FileTooShort | UnableToWrite | NotMipsel | NotOmagic | BothData | BothBss | UnknownSegment.

(** [fdIn] with its contents and position; [fdOut], which may be -1; and the
    file that has the name of the output. *)
Record tool := mkTool {
  in_file : list Z; in_pos : Z;
  out_open : bool; out_file : option (list Z); out_pos : Z
}.

Definition Tool (A : Type) : Type := tool → (message + A) * tool.
#[export] Instance Tool_ret : MRet Tool := λ A a t, (inr a, t).
#[export] Instance Tool_bind : MBind Tool := λ A B f m t,
  match m t with (inr a, t) => f a t | (inl e, t) => (inl e, t) end.

Definition exit_with {A} (e : message) : Tool A := λ t, (inl e, t).
Definition unlink : Tool unit := λ t, (inr tt, mkTool (in_file t) (in_pos t) (out_open t) None (out_pos t)).
(** [unlink(noffFileName); exit(1)]. *)
Definition quit {A} (e : message) : Tool A := unlink ≫= λ _, exit_with e.

(** [lseek(fd, off, 0)], whose result is not looked at: a negative offset leaves
    the position. *)
Definition lseek_in (off : Z) : Tool unit := λ t,
  (inr tt, mkTool (in_file t) (if off <? 0 then in_pos t else off) (out_open t) (out_file t) (out_pos t)).
Definition lseek_out (off : Z) : Tool unit := λ t,
  (inr tt, mkTool (in_file t) (in_pos t) (out_open t) (out_file t)
             (if (off <? 0) || negb (out_open t) then out_pos t else off)).

(** [read(fdIn, ...)]: the result and the bytes read.  A negative count is an
    invalid one. *)
Definition read_in (n : Z) : Tool (Z * list Z) := λ t,
  if n <? 0 then (inr (-1, []), t)
  else
    let bs := host_read (Z.to_nat (in_pos t)) (Z.to_nat n) (in_file t) in
    let got := Z.of_nat (length bs) in
    (inr (got, bs), mkTool (in_file t) (in_pos t + got) (out_open t) (out_file t) (out_pos t)).

Definition write_out (bs : list Z) (n : Z) : Tool Z := λ t,
  match out_open t, out_file t with
  | true, Some f =>
      if n <? 0 then (inr (-1), t)
      else (inr n, mkTool (in_file t) (in_pos t) true (Some (host_write (Z.to_nat (out_pos t)) (take (Z.to_nat n) bs) f))
                     (out_pos t + n))
  | _, _ => (inr (-1), t)
  end.

Module Coff2noff.

(** ** The program *)

Definition WordToHost (word : Z) : Z := word.
Definition ShortToHost (shortword : Z) : Z := shortword.

Definition Read (nBytes : Z) : Tool (list Z) :=
  '(r, buf) ← read_in nBytes;
  if bool_decide (r ≠ nBytes) then quit FileTooShort else mret buf.

Definition Write (buf : list Z) (nBytes : Z) : Tool unit :=
  r ← write_out buf nBytes;
  if bool_decide (r ≠ nBytes) then quit UnableToWrite else mret tt.

(** The contents of a section go to the end of the output. *)
Definition copy_section (s : scnhdr) : Tool unit :=
  lseek_in (s_scnptr s) ≫= λ _,
  buffer ← Read (s_size s);
  Write buffer (s_size s).

Definition set_code (g : Segment) (n : NoffHeader) : NoffHeader := mkNoff (noffMagic n) g (initData n) (uninitData n).
Definition set_initData (g : Segment) (n : NoffHeader) : NoffHeader := mkNoff (noffMagic n) (code n) g (uninitData n).
Definition set_uninitData (g : Segment) (n : NoffHeader) : NoffHeader := mkNoff (noffMagic n) (code n) (initData n) g.
Definition set_segsize (v : Z) (g : Segment) : Segment := mkSegment (virtualAddr g) (inFileAddr g) v.

Definition is_text (s : scnhdr) : bool := strcmp_zero (s_name s) dot_text.
Definition is_data (s : scnhdr) : bool := strcmp_zero (s_name s) dot_data || strcmp_zero (s_name s) dot_rdata.
Definition is_bss (s : scnhdr) : bool := strcmp_zero (s_name s) dot_bss || strcmp_zero (s_name s) dot_sbss.

(** One round of the loop that copies the segments. *)
Definition load_section (s : scnhdr) (noffH : NoffHeader) (inNoffFile : Z) : Tool (NoffHeader * Z) :=
  if bool_decide (s_size s = 0) then mret (noffH, inNoffFile)
  else if is_text s then
    copy_section s ≫= λ _,
    mret (set_code (mkSegment (s_paddr s) inNoffFile (s_size s)) noffH, sint (inNoffFile + s_size s))
  else if is_data s then
    (if bool_decide (segsize (initData noffH) ≠ 0) then quit BothData else mret tt) ≫= λ _,
    copy_section s ≫= λ _,
    mret (set_initData (mkSegment (s_paddr s) inNoffFile (s_size s)) noffH, sint (inNoffFile + s_size s))
  else if is_bss s then
    let u := uninitData noffH in
    if bool_decide (segsize u ≠ 0) then
      if bool_decide (s_paddr s = sint (virtualAddr u + segsize u)) then quit BothBss
      else mret (set_uninitData (set_segsize (sint (segsize u + s_size s)) u) noffH, inNoffFile)
    else mret (set_uninitData (mkSegment (s_paddr s) (inFileAddr u) (s_size s)) noffH, inNoffFile)
  else quit UnknownSegment.

Fixpoint load_sections (l : list scnhdr) (noffH : NoffHeader) (inNoffFile : Z) : Tool NoffHeader :=
  match l with
  | [] => mret noffH
  | s :: l => '(noffH, inNoffFile) ← load_section s noffH inNoffFile; load_sections l noffH inNoffFile
  end.

(** [main] from the first [ReadStruct] on; [junk] is what the stack has in
    [noffH]. *)
Definition convert (junk : NoffHeader) : Tool unit :=
  b ← Read sizeof_filehdr;
  let fileh := filehdr_of b in
  if bool_decide (ShortToHost (f_magic fileh) ≠ MIPSELMAGIC) then quit NotMipsel
  else
    b ← Read sizeof_aouthdr;
    let systemh := aouthdr_of b in
    if bool_decide (ShortToHost (magic systemh) ≠ OMAGIC) then quit NotOmagic
    else
      let numsections := ShortToHost (f_nscns fileh) in
      b ← Read (numsections * sizeof_scnhdr);
      let swap s :=
        mkScnhdr (s_name s) (WordToHost (s_paddr s)) (s_vaddr s) (WordToHost (s_size s)) (WordToHost (s_scnptr s))
          (s_relptr s) (s_lnnoptr s) (s_nreloc s) (s_nlnno s) (s_flags s) in
      let sections := swap <$> sections_of (Z.to_nat numsections) b in
      let noffH := mkNoff NOFFMAGIC (set_segsize 0 (code junk)) (set_segsize 0 (initData junk))
                     (set_segsize 0 (uninitData junk)) in
      let inNoffFile := sizeof_NoffHeader in
      lseek_out inNoffFile ≫= λ _,
      noffH ← load_sections sections noffH inNoffFile;
      lseek_out 0 ≫= λ _,
      Write (noff_bytes noffH) sizeof_NoffHeader.

(** The exit status with its message, and the file with the output's name.
    [input] is the COFF file if it can be opened, [fd] whether [fdOut] is a
    descriptor; the second test of [fdIn] never fails. *)
Definition main (argc : Z) (input : option (list Z)) (fd : bool) (old : option (list Z)) (junk : NoffHeader) :
    (message + unit) * option (list Z) :=
  if bool_decide (argc < 2) then (inl Usage, old)
  else
    match input with
    | None => (inl CannotOpen, old)
    | Some c =>
        let r := convert junk (mkTool c 0 fd (if fd then Some [] else old) 0) in
        (fst r, out_file (snd r))
    end.

End Coff2noff.
Import Coff2noff.

(** ** The files while the program runs *)

(** The bytes of a section in the COFF file, and those of several. *)
Definition sec_bytes (c : list Z) (s : scnhdr) : list Z :=
  host_read (Z.to_nat (s_scnptr s)) (Z.to_nat (s_size s)) c.
Definition contents (c : list Z) (l : list scnhdr) : list Z := concat (sec_bytes c <$> l).

(** The output with [data] behind the place of the header. *)
Definition output (data : list Z) (t : tool) : Prop :=
  out_open t = true ∧ out_pos t = 40 + Z.of_nat (length data) ∧
  ((data = [] ∧ out_file t = Some []) ∨ out_file t = Some (replicate 40 0 ++ data)).

Lemma Tool_run {A B} (m : Tool A) (f : A → Tool B) t a t' : m t = (inr a, t') → (m ≫= f) t = f a t'.
Proof. intros E. unfold mbind, Tool_bind. by rewrite E. Qed.

Lemma host_read_length off n c : (off + n ≤ length c)%nat → length (host_read off n c) = n.
Proof. intros H. unfold host_read. rewrite length_take, length_drop. lia. Qed.

Lemma sec_bytes_length c s : 0 ≤ s_scnptr s → 0 ≤ s_size s → s_scnptr s + s_size s ≤ Z.of_nat (length c) →
  Z.of_nat (length (sec_bytes c s)) = s_size s.
Proof. intros. unfold sec_bytes. rewrite host_read_length; lia. Qed.

(** What is there is read, and what is written is written. *)
Lemma read_in_ok n t : 0 ≤ n → 0 ≤ in_pos t → in_pos t + n ≤ Z.of_nat (length (in_file t)) →
  read_in n t = (inr (n, host_read (Z.to_nat (in_pos t)) (Z.to_nat n) (in_file t)),
                 mkTool (in_file t) (in_pos t + n) (out_open t) (out_file t) (out_pos t)).
Proof.
  intros Hn Hp Hl. unfold read_in. destruct (Z.ltb_spec n 0); [lia|]. cbv zeta. rewrite host_read_length by lia.
  by rewrite Z2Nat.id.
Qed.

Lemma write_out_ok bs t f : out_open t = true → out_file t = Some f →
  write_out bs (Z.of_nat (length bs)) t =
    (inr (Z.of_nat (length bs)),
     mkTool (in_file t) (in_pos t) true (Some (host_write (Z.to_nat (out_pos t)) bs f))
       (out_pos t + Z.of_nat (length bs))).
Proof.
  intros Ho Hf. unfold write_out. rewrite Ho, Hf. destruct (Z.ltb_spec (Z.of_nat (length bs)) 0); [lia|].
  by rewrite Nat2Z.id, take_ge by lia.
Qed.

Lemma Read_ok n t : 0 ≤ n → 0 ≤ in_pos t → in_pos t + n ≤ Z.of_nat (length (in_file t)) →
  Read n t = (inr (host_read (Z.to_nat (in_pos t)) (Z.to_nat n) (in_file t)),
              mkTool (in_file t) (in_pos t + n) (out_open t) (out_file t) (out_pos t)).
Proof.
  intros Hn Hp Hl. unfold Read. rewrite (Tool_run _ _ _ _ _ (read_in_ok n t Hn Hp Hl)).
  by rewrite bool_decide_eq_false_2 by auto.
Qed.

Lemma Write_ok bs t f : out_open t = true → out_file t = Some f →
  Write bs (Z.of_nat (length bs)) t =
    (inr tt, mkTool (in_file t) (in_pos t) true (Some (host_write (Z.to_nat (out_pos t)) bs f))
               (out_pos t + Z.of_nat (length bs))).
Proof.
  intros Ho Hf. unfold Write. rewrite (Tool_run _ _ _ _ _ (write_out_ok bs t f Ho Hf)).
  by rewrite bool_decide_eq_false_2 by auto.
Qed.

Lemma host_write_end bs f : host_write (length f) bs f = f ++ bs.
Proof.
  unfold host_write. rewrite take_ge, Nat.sub_diag, drop_ge by lia. cbn [replicate]. by rewrite app_nil_r.
Qed.

Lemma copy_section_ok c s t data : in_file t = c → output data t → 0 ≤ s_scnptr s → 0 ≤ s_size s →
  s_scnptr s + s_size s ≤ Z.of_nat (length c) →
  ∃ t', copy_section s t = (inr tt, t') ∧ in_file t' = c ∧ output (data ++ sec_bytes c s) t'.
Proof.
  intros Hc (Ho & Hp & Hf) H0 Hs Hl. subst c. unfold copy_section.
  assert (E1 : lseek_in (s_scnptr s) t =
    (inr tt, mkTool (in_file t) (s_scnptr s) (out_open t) (out_file t) (out_pos t))).
  { unfold lseek_in. by destruct (Z.ltb_spec (s_scnptr s) 0); [lia|]. }
  rewrite (Tool_run _ _ _ _ _ E1). erewrite Tool_run by (apply Read_ok; cbn; lia). cbn.
  fold (sec_bytes (in_file t) s). pose proof (sec_bytes_length (in_file t) s H0 Hs Hl) as Hlen.
  rewrite <- Hlen. destruct Hf as [[-> Hf]|Hf].
  - erewrite Write_ok; [|done|exact Hf]. eexists. split; [reflexivity|]. cbn. split; [done|].
    split_and!; [done|cbn; rewrite Hp; cbn; lia|]. right. cbn. rewrite Hp. cbn. unfold host_write. cbn.
    by rewrite app_nil_r.
  - erewrite Write_ok; [|done|exact Hf]. eexists. split; [reflexivity|]. split; [done|].
    split_and!; [done|cbn [out_pos]; rewrite Hp, length_app; lia|]. right. cbn [out_file out_pos].
    replace (Z.to_nat (out_pos t)) with (length (replicate 40 0 ++ data)).
    + by rewrite host_write_end, <- app_assoc.
    + rewrite length_app, length_replicate. lia.
Qed.

(** The header is written over the place left for it. *)
Lemma write_header_ok n t data : output data t → length (noff_bytes n) = 40%nat →
  ∃ t', (lseek_out 0 ≫= λ _, Write (noff_bytes n) sizeof_NoffHeader) t = (inr tt, t') ∧
    out_file t' = Some (noff_bytes n ++ data).
Proof.
  intros (Ho & Hp & Hf) Hn.
  assert (E1 : lseek_out 0 t = (inr tt, mkTool (in_file t) (in_pos t) (out_open t) (out_file t) 0)).
  { unfold lseek_out. by rewrite Ho. }
  rewrite (Tool_run _ _ _ _ _ E1). change sizeof_NoffHeader with (Z.of_nat 40). rewrite <- Hn.
  destruct Hf as [[-> Hf]|Hf]; (erewrite Write_ok; [|done|exact Hf]); eexists; (split; [reflexivity|]);
    cbn [out_file out_pos]; change (Z.to_nat 0) with 0%nat; unfold host_write; rewrite take_0, Nat.sub_0_l, Hn.
  - by rewrite drop_nil.
  - by rewrite drop_app_length' by (by rewrite length_replicate).
Qed.

Lemma noff_bytes_length n : length (noff_bytes n) = 40%nat.
Proof. unfold noff_bytes. by rewrite words_bytes_length. Qed.

(** The header reads back. *)
Definition segment_int (g : Segment) : Prop := is_int (virtualAddr g) ∧ is_int (inFileAddr g) ∧ is_int (segsize g).
Record noff_int (n : NoffHeader) : Prop := {
  ni_magic : is_int (noffMagic n);
  ni_code : segment_int (code n); ni_init : segment_int (initData n); ni_uninit : segment_int (uninitData n)
}.

Lemma noff_of_bytes n rest : noff_int n → noff_of (noff_bytes n ++ rest) = n.
Proof.
  intros [Hm (Hc1 & Hc2 & Hc3) (Hi1 & Hi2 & Hi3) (Hu1 & Hu2 & Hu3)]. unfold noff_of, noff_bytes. cbv zeta.
  pose proof (words_of_bytes (noffMagic n :: segment_words (code n) ++ segment_words (initData n) ++
    segment_words (uninitData n)) rest) as E. cbn [length app segment_words] in E. cbn [app segment_words].
  rewrite E. cbn. rewrite !sint_uint, !sint_id by done. by destruct n as [? [] [] []].
Qed.

(** ** Names *)

Lemma strncmp_zero_take n a b : ~ 0 ∈ b → (length b < n)%nat → strncmp_zero n a (b ++ [0]) = true →
  take (S (length b)) a = b ++ [0].
Proof.
  revert a b. induction n as [|n IH]; intros a b H0 Hn; [lia|]. destruct a as [|x a], b as [|y b]; cbn; try done.
  - destruct (Z.eqb_spec x 0) as [->|]; done.
  - destruct (Z.eqb_spec x y) as [->|]; [|done]. destruct (Z.eqb_spec y 0) as [->|].
    + intros _. destruct H0. by left.
    + intros H. f_equal. apply IH; [|cbn in Hn; lia|done]. intros ?. apply H0. by right.
Qed.

Lemma strcmp_zero_second name s x : strcmp_zero name s = true → bool_decide (0 ∈ s) = false → s !! 1%nat = Some x →
  name !! 1%nat = Some x.
Proof.
  unfold strcmp_zero. intros H Hs Hx. apply bool_decide_eq_false in Hs.
  apply strncmp_zero_take in H; [|done|lia].
  assert (E : take (S (length s)) name !! 1%nat = Some x) by (rewrite H; by apply lookup_app_l_Some).
  by apply lookup_take_Some in E as [E _].
Qed.

(** A section is of one kind. *)
Lemma is_text_second s : is_text s = true → s_name s !! 1%nat = Some 116.
Proof. intros H. by eapply strcmp_zero_second. Qed.
Lemma is_data_second s : is_data s = true → s_name s !! 1%nat = Some 100 ∨ s_name s !! 1%nat = Some 114.
Proof. intros [H|H]%orb_true_iff; [left|right]; by eapply strcmp_zero_second. Qed.
Lemma is_bss_second s : is_bss s = true → s_name s !! 1%nat = Some 98 ∨ s_name s !! 1%nat = Some 115.
Proof. intros [H|H]%orb_true_iff; [left|right]; by eapply strcmp_zero_second. Qed.

Lemma kinds_disjoint s :
  (is_text s = true → is_data s = false ∧ is_bss s = false) ∧ (is_data s = true → is_text s = false ∧ is_bss s = false) ∧
  (is_bss s = true → is_text s = false ∧ is_data s = false).
Proof.
  pose proof (is_text_second s). pose proof (is_data_second s). pose proof (is_bss_second s).
  destruct (is_text s), (is_data s), (is_bss s); naive_solver congruence.
Qed.

(** ** The loop over the sections *)

Definition live (s : scnhdr) : Prop := s_size s ≠ 0.
Definition text (s : scnhdr) : Prop := live s ∧ is_text s = true.
Definition data (s : scnhdr) : Prop := live s ∧ is_data s = true.
Definition bss (s : scnhdr) : Prop := live s ∧ is_bss s = true.
Definition copied (s : scnhdr) : Prop := text s ∨ data s.
#[export] Instance live_dec s : Decision (live s).
Proof. unfold live. apply _. Defined.
#[export] Instance text_dec s : Decision (text s).
Proof. unfold text. apply _. Defined.
#[export] Instance data_dec s : Decision (data s).
Proof. unfold data. apply _. Defined.
#[export] Instance bss_dec s : Decision (bss s).
Proof. unfold bss. apply _. Defined.
#[export] Instance copied_dec s : Decision (copied s).
Proof. unfold copied. apply _. Defined.

(** The segment [g] describes the section [s]; its bytes are in the output behind
    those of the sections that were copied before it. *)
Definition describes (s : scnhdr) (g : Segment) : Prop := virtualAddr g = s_paddr s ∧ segsize g = s_size s.
Definition placed (c : list Z) (l : list scnhdr) (s : scnhdr) (g : Segment) : Prop :=
  describes s g ∧ ∃ l1 l2, filter copied l = l1 ++ s :: l2 ∧ inFileAddr g = 40 + Z.of_nat (length (contents c l1)).

(** [g] is the segment of the sections of a kind, of which there is one at most. *)
Definition segment_of (P : scnhdr → Prop) `{!∀ s, Decision (P s)} (R : scnhdr → Segment → Prop) (l : list scnhdr)
    (g : Segment) : Prop :=
  (∀ s, s ∈ l → P s → R s g) ∧ (filter P l = [] → segsize g = 0).

Record loaded (c : list Z) (l : list scnhdr) (n : NoffHeader) : Prop := {
  ld_magic : noffMagic n = NOFFMAGIC;
  ld_code : segment_of text (placed c l) l (code n);
  ld_init : segment_of data (placed c l) l (initData n);
  ld_uninit : segment_of bss describes l (uninitData n);
  ld_int : noff_int n
}.

(** What the program asks of a section, and what an [int] holds. *)
Definition section_ok (c : list Z) (s : scnhdr) : Prop :=
  is_int (s_paddr s) ∧ is_int (s_size s) ∧
  (live s → 0 < s_size s ∧ (text s ∨ data s ∨ bss s) ∧
     (copied s → 0 ≤ s_scnptr s ∧ s_scnptr s + s_size s ≤ Z.of_nat (length c))).

Lemma contents_snoc c l s : contents c (l ++ [s]) = contents c l ++ sec_bytes c s.
Proof. unfold contents. rewrite fmap_app, concat_app. cbn. by rewrite app_nil_r. Qed.

Lemma filter_snoc_in (P : scnhdr → Prop) `{!∀ s, Decision (P s)} l s : P s → filter P (l ++ [s]) = filter P l ++ [s].
Proof. intros Hp. rewrite filter_app. f_equal. by rewrite filter_cons_True. Qed.
Lemma filter_snoc_out (P : scnhdr → Prop) `{!∀ s, Decision (P s)} l s : ¬ P s → filter P (l ++ [s]) = filter P l.
Proof. intros Hp. rewrite filter_app, filter_cons_False, filter_nil, app_nil_r; done. Qed.

Lemma placed_snoc c l s s' g : placed c l s' g → placed c (l ++ [s]) s' g.
Proof.
  intros [Hd (l1 & l2 & E & Ha)]. split; [done|]. destruct (decide (copied s)) as [Hs|Hs].
  - exists l1, (l2 ++ [s]). by rewrite filter_snoc_in, E, <- app_assoc by done.
  - exists l1, l2. by rewrite filter_snoc_out by done.
Qed.

(** A section of another kind leaves a segment as it is. *)
Lemma segment_of_other (P : scnhdr → Prop) `{!∀ s, Decision (P s)} (R R' : scnhdr → Segment → Prop) l s g :
  (∀ s g, R s g → R' s g) → segment_of P R l g → ¬ P s → segment_of P R' (l ++ [s]) g.
Proof.
  intros HR [H1 H2] Hs. split.
  - intros s' [Hs'|Hs']%elem_of_app Hp; [by apply HR, H1|]. apply list_elem_of_singleton in Hs' as ->. done.
  - by rewrite filter_snoc_out by done.
Qed.

(** The one section of its kind sets it. *)
Lemma segment_of_new (P : scnhdr → Prop) `{!∀ s, Decision (P s)} (R : scnhdr → Segment → Prop) l s g :
  filter P l = [] → P s → R s g → segment_of P R (l ++ [s]) g.
Proof.
  intros Hl Hs HR. split.
  - intros s' [Hs'|Hs']%elem_of_app Hp; [|by apply list_elem_of_singleton in Hs' as ->].
    assert (Hin : s' ∈ filter P l) by (by apply list_elem_of_filter). rewrite Hl in Hin. by apply elem_of_nil in Hin.
  - rewrite filter_snoc_in by done. by destruct (filter P l).
Qed.

Section Round.
Context (c : list Z) (pre : list scnhdr) (s : scnhdr) (n : NoffHeader) (t : tool).
Hypothesis (Hin : in_file t = c) (Hout : output (contents c (filter copied pre)) t) (Hl : loaded c pre n).
Hypothesis (Hs : section_ok c s).
Let at_ := 40 + Z.of_nat (length (contents c (filter copied pre))).
Hypothesis (Hsum : copied s → at_ + Z.of_nat (length (sec_bytes c s)) ≤ int_max).
Hypothesis (H1 : text s → filter text pre = []) (H2 : data s → filter data pre = []) (H3 : bss s → filter bss pre = []).

Definition round_ok : Prop := ∃ n' t',
  load_section s n at_ t = (inr (n', 40 + Z.of_nat (length (contents c (filter copied (pre ++ [s]))))), t') ∧
  in_file t' = c ∧ output (contents c (filter copied (pre ++ [s]))) t' ∧ loaded c (pre ++ [s]) n'.

(** A section that is copied. *)
Lemma round_copied (P : scnhdr → Prop) `{!∀ s, Decision (P s)} (set : Segment → NoffHeader → NoffHeader) :
  P s → copied s → filter P pre = [] →
  load_section s n at_ t = (copy_section s ≫= λ _,
    mret (set (mkSegment (s_paddr s) at_ (s_size s)) n, sint (at_ + s_size s))) t →
  (∀ g, segment_of P (placed c (pre ++ [s])) (pre ++ [s]) g → segment_int g → loaded c (pre ++ [s]) (set g n)) →
  round_ok.
Proof.
  intros HP Hcp Hf E Hset. destruct Hs as (Hi1 & Hi2 & Hlive).
  destruct Hlive as (Hpos & _ & Hr); [by destruct Hcp as [[]|[]]|]. destruct (Hr Hcp) as [Hr1 Hr2].
  destruct (copy_section_ok c s t _ Hin Hout Hr1 ltac:(lia) Hr2) as (t' & Et & Hin' & Hout').
  pose proof (sec_bytes_length c s Hr1 ltac:(lia) Hr2) as Hlen. specialize (Hsum Hcp).
  unfold round_ok. rewrite (filter_snoc_in copied) by done. rewrite contents_snoc.
  exists (set (mkSegment (s_paddr s) at_ (s_size s)) n), t'. split_and!; [|done|done|].
  - rewrite E, (Tool_run _ _ _ _ _ Et). unfold mret, Tool_ret. do 3 f_equal.
    rewrite sint_id by (unfold is_int, int_min in *; lia). subst at_. rewrite length_app. lia.
  - apply Hset; [|split_and!; try done; cbn; unfold is_int, int_min in *; lia]. apply segment_of_new; [done|done|]. split; [done|].
    exists (filter copied pre), []. by rewrite filter_snoc_in by done.
Qed.

Lemma load_section_ok : round_ok.
Proof.
  destruct (kinds_disjoint s) as (K1 & K2 & K3). destruct Hl as [L1 L2 L3 L4 [I1 I2 I3 I4]].
  assert (Hp : ∀ s' g, placed c pre s' g → placed c (pre ++ [s]) s' g) by (intros; by apply placed_snoc).
  destruct (decide (live s)) as [Hlv|Hlv].
  2:{ unfold round_ok. exists n, t. rewrite filter_snoc_out by (intros [[]|[]]; done).
      assert (Hd : s_size s = 0) by (by apply dec_stable). split_and!; try done.
      - unfold load_section. by rewrite bool_decide_eq_true_2.
      - split; try done; eapply segment_of_other; try done; by intros []. }
  assert (Hkind : text s ∨ data s ∨ bss s) by (destruct Hs as (_ & _ & H); by apply H).
  destruct Hkind as [Ht|[Hd|Hb]].
  - apply (round_copied text set_code); [done|by left|by apply H1| |].
    + unfold load_section. rewrite bool_decide_eq_false_2 by done. by rewrite (proj2 Ht).
    + destruct (K1 (proj2 Ht)) as [Kd Kb]. intros g Hg Hgi. split; try done.
      * eapply segment_of_other; [done|done|]. intros [_ ?]. congruence.
      * eapply segment_of_other; [done|done|]. intros [_ ?]. congruence.
  - destruct (K2 (proj2 Hd)) as [Kt Kb]. apply (round_copied data set_initData); [done|by right|by apply H2| |].
    + unfold load_section. rewrite bool_decide_eq_false_2 by done. rewrite Kt, (proj2 Hd).
      rewrite bool_decide_eq_false_2 by (intros Hn; apply Hn, L3; by apply H2). done.
    + intros g Hg Hgi. split; try done; (eapply segment_of_other; [done|done|]); intros [_ ?]; congruence.
  - destruct (K3 (proj2 Hb)) as [Kt Kd]. unfold round_ok.
    rewrite filter_snoc_out by (intros [[]|[]]; congruence).
    exists (set_uninitData (mkSegment (s_paddr s) (inFileAddr (uninitData n)) (s_size s)) n), t. split_and!; try done.
    + unfold load_section. rewrite bool_decide_eq_false_2 by done. rewrite Kt, Kd, (proj2 Hb). cbv zeta.
      rewrite bool_decide_eq_false_2 by (intros Hn; apply Hn, L4; by apply H3). done.
    + destruct Hs as (Hi1 & Hi2 & _). destruct I4 as (_ & Hi3 & _).
      split; try done; try (eapply segment_of_other; [done|done|]; intros [_ ?]; congruence).
      by apply segment_of_new; [apply H3| |].
Qed.

End Round.

(** The sections of an executable: each is sound, at most one of each kind is
    not empty, and the output has a size that fits an [int]. *)
Record sections_ok (c : list Z) (l : list scnhdr) : Prop := {
  so_each : Forall (section_ok c) l;
  so_text : (length (filter text l) ≤ 1)%nat;
  so_data : (length (filter data l) ≤ 1)%nat;
  so_bss : (length (filter bss l) ≤ 1)%nat;
  so_size : 40 + Z.of_nat (length (contents c (filter copied l))) ≤ int_max
}.

Lemma only_one (P : scnhdr → Prop) `{!∀ s, Decision (P s)} pre s l :
  (length (filter P (pre ++ s :: l)) ≤ 1)%nat → P s → filter P pre = [].
Proof.
  intros Hn Hs. rewrite filter_app, filter_cons_True, length_app in Hn by done. cbn in Hn.
  destruct (filter P pre); [done|cbn in Hn; lia].
Qed.

Lemma load_sections_ok c l : ∀ pre n t, sections_ok c (pre ++ l) →
  in_file t = c → output (contents c (filter copied pre)) t → loaded c pre n →
  ∃ n' t', load_sections l n (40 + Z.of_nat (length (contents c (filter copied pre)))) t = (inr n', t') ∧
    output (contents c (filter copied (pre ++ l))) t' ∧ loaded c (pre ++ l) n'.
Proof.
  induction l as [|s l IH]; intros pre n t Hok Hin Hout Hl.
  - exists n, t. by rewrite app_nil_r.
  - pose proof Hok as [Oe Ot Od Ob Os].
    assert (Hs : section_ok c s) by (eapply Forall_forall; [exact Oe|apply elem_of_app; right; left]).
    destruct (load_section_ok c pre s n t) as (n1 & t1 & E & Hin1 & Hout1 & Hl1); try done.
    + intros Hc. rewrite filter_app, filter_cons_True in Os by done. revert Os. unfold contents.
      rewrite fmap_app, concat_app, length_app. cbn. rewrite length_app. lia.
    + by apply (only_one text pre s l).
    + by apply (only_one data pre s l).
    + by apply (only_one bss pre s l).
    + cbn [load_sections]. erewrite Tool_run by exact E. cbn beta iota.
      rewrite (cons_middle s pre l), app_assoc in Hok |- *.
      destruct (IH (pre ++ [s]) n1 t1) as (n2 & t2 & E2 & H2); try done. exists n2, t2. by rewrite E2.
Qed.

(** ** The conversion *)

(** The COFF file [c] has the sections [l]. *)
Record coff_ok (c : list Z) (l : list scnhdr) : Prop := {
  co_magic : f_magic (filehdr_of (host_read 0 20 c)) = MIPSELMAGIC;
  co_nscns : f_nscns (filehdr_of (host_read 0 20 c)) = Z.of_nat (length l);
  co_omagic : magic (aouthdr_of (host_read 20 56 c)) = OMAGIC;
  co_headers : (76 + length l * 40 ≤ length c)%nat;
  co_sections : sections_of (length l) (host_read 76 (length l * 40) c) = l;
  co_ok : sections_ok c l
}.

(** What the stack had in the addresses of [noffH]. *)
Definition junk_ok (junk : NoffHeader) : Prop :=
  Forall (λ g, is_int (virtualAddr g) ∧ is_int (inFileAddr g)) [code junk; initData junk; uninitData junk].

Lemma loaded_nil c junk : junk_ok junk →
  loaded c [] (mkNoff NOFFMAGIC (set_segsize 0 (code junk)) (set_segsize 0 (initData junk))
                 (set_segsize 0 (uninitData junk))).
Proof.
  intros [[? ?] [[? ?] [[? ?] _]%Forall_cons]%Forall_cons]%Forall_cons.
  assert (is_int 0) by done. split; try done.
  all: split; [intros s Hs; by apply elem_of_nil in Hs|done].
Qed.

Lemma convert_ok c l junk fd : coff_ok c l → junk_ok junk →
  ∃ n t', convert junk (mkTool c 0 true (Some []) fd) = (inr tt, t') ∧ loaded c l n ∧
    out_file t' = Some (noff_bytes n ++ contents c (filter copied l)).
Proof.
  intros [Hm Hn Ho Hh Hsec Hok] Hj. unfold convert.
  erewrite Tool_run by (apply Read_ok; cbn [in_file in_pos]; unfold sizeof_filehdr, sizeof_aouthdr; lia). cbv zeta. cbn [in_pos in_file out_open out_file out_pos].
  change (Z.to_nat 0) with 0%nat. change (Z.to_nat sizeof_filehdr) with 20%nat.
  unfold ShortToHost. rewrite bool_decide_eq_false_2 by (rewrite Hm; auto). rewrite Hn.
  erewrite Tool_run by (apply Read_ok; cbn [in_file in_pos]; unfold sizeof_filehdr, sizeof_aouthdr; lia). cbv zeta. cbn [in_pos in_file out_open out_file out_pos].
  change (Z.to_nat (0 + sizeof_filehdr)) with 20%nat. change (Z.to_nat sizeof_aouthdr) with 56%nat.
  rewrite bool_decide_eq_false_2 by (rewrite Ho; auto).
  erewrite Tool_run by (apply Read_ok; cbn [in_file in_pos]; unfold sizeof_scnhdr, sizeof_filehdr, sizeof_aouthdr; lia).
  cbv zeta. cbn [in_pos in_file out_open out_file out_pos].
  change (Z.to_nat (0 + sizeof_filehdr + sizeof_aouthdr)) with 76%nat. rewrite Nat2Z.id.
  replace (Z.to_nat (Z.of_nat (length l) * sizeof_scnhdr)) with (length l * 40)%nat by (unfold sizeof_scnhdr; lia).
  rewrite Hsec. unfold WordToHost.
  rewrite (list_fmap_ext _ id l), list_fmap_id by (by intros ? [] ?).
  rewrite Tool_run with (a := tt) (t' := mkTool c (0 + sizeof_filehdr + sizeof_aouthdr +
    Z.of_nat (length l) * sizeof_scnhdr) true (Some []) 40) by done.
  edestruct (load_sections_ok c l []) as (n & t1 & E1 & Hout & Hl); [exact Hok|..]; [| |by apply loaded_nil|].
  3:{ rewrite (Tool_run _ _ _ _ _ E1). destruct (write_header_ok n t1 _ Hout (noff_bytes_length n)) as (t2 & E2 & H2).
      exists n, t2. by rewrite E2. }
  - done.
  - split_and!; [done|done|by left].
Qed.

Lemma placed_bytes c l s g n : sections_ok c l → s ∈ l → placed c l s g →
  host_read (Z.to_nat (inFileAddr g)) (Z.to_nat (segsize g)) (noff_bytes n ++ contents c (filter copied l)) =
    sec_bytes c s.
Proof.
  intros [He _ _ _ _] Hs [[_ Hz] (l1 & l2 & E & Ha)].
  assert (Hcs : copied s).
  { assert (Hin : s ∈ filter copied l) by (rewrite E; apply elem_of_app; right; left).
    by apply list_elem_of_filter in Hin as [? _]. }
  eapply Forall_forall in He as (_ & _ & Hlive); [|exact Hs].
  destruct Hlive as (Hp & _ & Hr); [by destruct Hcs as [[]|[]]|]. destruct (Hr Hcs) as [Hr1 Hr2].
  pose proof (sec_bytes_length c s Hr1 ltac:(lia) Hr2) as Hlen.
  rewrite E, Ha, Hz. unfold contents at 2. rewrite fmap_app, concat_app. cbn [fmap list_fmap concat].
  unfold host_read. rewrite (app_assoc (noff_bytes n)), drop_app_length'.
  2:{ rewrite length_app, noff_bytes_length. fold (contents c l1). lia. }
  apply take_app_length'. lia.
Qed.

(** An executable with at most one section of each kind that is not empty is
    converted: the program exits with status 0, and the output is the header,
    which reads back as [n], followed by the contents of the text and data
    sections in the order of the table; [n] describes each section, and finds
    its bytes in the output exactly where they are. *)
Theorem coff2noff_converts argc c l old junk : 2 ≤ argc → coff_ok c l → junk_ok junk →
  ∃ n out, main argc (Some c) true old junk = (inr tt, Some out) ∧ noff_of (take 40 out) = n ∧
    noffMagic n = NOFFMAGIC ∧ drop 40 out = contents c (filter copied l) ∧
    segment_of text describes l (code n) ∧ segment_of data describes l (initData n) ∧
    segment_of bss describes l (uninitData n) ∧
    (∀ s g, s ∈ l → (text s ∧ g = code n) ∨ (data s ∧ g = initData n) →
       host_read (Z.to_nat (inFileAddr g)) (Z.to_nat (segsize g)) out = sec_bytes c s).
Proof.
  intros Ha Hc Hj. destruct (convert_ok c l junk 0 Hc Hj) as (n & t & E & Hl & Ho).
  pose proof (ld_int c l n Hl) as Hi. destruct Hl as [L1 L2 L3 L4 _].
  exists n, (noff_bytes n ++ contents c (filter copied l)).
  assert (Hd : ∀ P `{!∀ s, Decision (P s)} g, segment_of P (placed c l) l g → segment_of P describes l g).
  { intros P ? g [H1 H2]. split; [|done]. intros s Hs HP. by apply H1. }
  split_and!; [| |done| |by apply Hd|by apply Hd|done|].
  - unfold main. rewrite bool_decide_eq_false_2 by lia. cbv zeta. rewrite E. cbn. by rewrite Ho.
  - rewrite take_app_length' by (by rewrite noff_bytes_length). rewrite <- (app_nil_r (noff_bytes n)). by apply noff_of_bytes.
  - by rewrite drop_app_length' by (by rewrite noff_bytes_length).
  - intros s g Hs Hg. assert (Hpl : placed c l s g) by (destruct Hg as [[? ->]|[? ->]]; [by apply L2|by apply L3]).
    apply placed_bytes; [apply Hc|done|done].
Qed.

(** ** From the COFF file into memory *)

Definition bss_size (l : list scnhdr) : Z := foldr Z.add 0 (s_size <$> filter bss l).

(** A program as the linker lays it out with [-N -T 0]: the code [t] from address
    0, the data [d] behind it. *)
Record linked (l : list scnhdr) (t d : scnhdr) : Prop := {
  lk_copied : filter copied l = [t; d];
  lk_text : text t ∧ s_paddr t = 0;
  lk_data : data d ∧ s_paddr d = s_size t;
  lk_fit : s_size t + s_size d + bss_size l + UserStackSize ≤ MemorySize
}.

Definition coff_pages (l : list scnhdr) (t d : scnhdr) : Z :=
  divRoundUp (s_size t + s_size d + bss_size l + UserStackSize) PageSize.

(** The byte at address [v] of the program: that of its sections, or 0. *)
Definition coff_byte (c : list Z) (t d : scnhdr) (v : Z) : Z :=
  default 0 ((sec_bytes c t ++ sec_bytes c d) !! Z.to_nat v).

Lemma linked_in l t d : linked l t d → t ∈ l ∧ d ∈ l.
Proof.
  intros [H _ _ _]. split; apply (list_elem_of_filter copied); rewrite H; [left|right; left].
Qed.

Lemma bss_segment c l n : sections_ok c l → loaded c l n → segsize (uninitData n) = bss_size l ∧ 0 ≤ bss_size l.
Proof.
  intros [He _ _ Hb _] [_ _ _ [L1 L2] _]. unfold bss_size. destruct (filter bss l) as [|b [|]] eqn:E.
  - by rewrite L2.
  - assert (Hin : b ∈ filter bss l) by (rewrite E; left). apply list_elem_of_filter in Hin as [Hbs Hin].
    destruct (L1 b Hin Hbs) as [_ ->]. eapply Forall_forall in He as (_ & _ & Hlive); [|exact Hin].
    destruct (Hlive (proj1 Hbs)) as [? _]. cbn. lia.
  - cbn in Hb. lia.
Qed.

Lemma linked_sizes c l t d : sections_ok c l → linked l t d →
  0 < s_size t ∧ 0 < s_size d ∧ Z.of_nat (length (sec_bytes c t)) = s_size t ∧
  Z.of_nat (length (sec_bytes c d)) = s_size d.
Proof.
  intros [He _ _ _ _] Hlk. destruct (linked_in l t d Hlk) as [Ht Hd]. pose proof Hlk as [_ [Htt _] [Hdd _] _].
  pose proof He as He'. eapply Forall_forall in He as (_ & _ & H1); [|exact Ht].
  eapply Forall_forall in He' as (_ & _ & H2); [|exact Hd].
  destruct (H1 (proj1 Htt)) as (P1 & _ & R1). destruct (H2 (proj1 Hdd)) as (P2 & _ & R2).
  destruct R1 as [? ?]; [by left|]. destruct R2 as [? ?]; [by right|].
  split_and!; [done|done|apply sec_bytes_length; lia..].
Qed.

Lemma linked_program c l t d n : sections_ok c l → loaded c l n → linked l t d →
  let out := noff_bytes n ++ contents c (filter copied l) in
  program_ok n out ∧ program_pages n = coff_pages l t d ∧ segsize (code n) = s_size t ∧
  segsize (initData n) = s_size d ∧ ∀ v, 0 ≤ v → program_byte n out v = coff_byte c t d v.
Proof.
  intros Hok Hl Hlk out. destruct (linked_sizes c l t d Hok Hlk) as (Pt & Pd & Lt & Ld).
  destruct (bss_segment c l n Hok Hl) as [Hu Hu0]. pose proof (ld_int c l n Hl) as Hint.
  destruct (linked_in l t d Hlk) as [Hint' Hind]. destruct Hlk as [Ec [Ht Pt0] [Hd Pd0] Hfit].
  destruct Hl as [Hm [Hc _] [Hi _] _ _]. destruct (Hc t Hint' Ht) as [[Vc Sc] (l1 & l2 & E1 & Fc)].
  destruct (Hi d Hind Hd) as [[Vi Si] _].
  assert (Hl1 : l1 = []).
  { rewrite Ec in E1. destruct l1 as [|x [|y l1]]; [done| |by destruct l1].
    injection E1 as _ E1 _. subst d. destruct Hd as [_ Hd], Ht as [_ Ht].
    destruct (kinds_disjoint t) as (K & _ & _). destruct (K Ht). congruence. }
  subst l1. cbn in Fc.
  assert (Hout : out = noff_bytes n ++ sec_bytes c t ++ sec_bytes c d).
  { subst out. rewrite Ec. unfold contents. cbn. by rewrite app_nil_r. }
  assert (Hlen : Z.of_nat (length out) = 40 + s_size t + s_size d).
  { rewrite Hout, !length_app, noff_bytes_length. lia. }
  split_and!; [split|..]; try done; try lia.
  - subst out. rewrite take_app_length' by (by rewrite noff_bytes_length).
    rewrite <- (app_nil_r (noff_bytes n)). by apply noff_of_bytes.
  - unfold program_pages, coff_pages. by rewrite Sc, Si, Hu.
  - intros v Hv. unfold program_byte, coff_byte. rewrite Hout, Fc, lookup_app_r by (rewrite noff_bytes_length; lia).
    rewrite noff_bytes_length. f_equal. f_equal. lia.
Qed.

(** C21: from the object file into memory: the file that [coff2noff] makes of a
    linked program is one that the constructor of an address space loads, and
    once the space is restored every byte the program reads is the byte of its
    text or data section in the COFF file, or 0 behind them - provided the code
    does not end exactly at a page boundary with more than a page of data behind
    it. *)
Theorem coff_program_loads {D} `{!ExeFile D} `{!ExeFileOK D} h argc c l t d old junk : 2 ≤ argc →
  coff_ok c l → junk_ok junk → linked l t d → s_size t `mod` 128 ≠ 0 ∨ s_size d ≤ 128 →
  ∃ out, main argc (Some c) true old junk = (inr tt, Some out) ∧
    ∀ (s : umem D) buf, umem_ok s → machine_ready (mach s) → exe_holds (exe s) out → length buf = 40%nat →
      coff_pages l t d ≤ clear_count (frames s) →
      ∃ sp s' k, new_AddrSpace buf s = Ok (sp, s') ∧ numPages sp = coff_pages l t d ∧
        RestoreState sp (mach s') = Ok (tt, k) ∧
        ∀ v, 0 ≤ v < 128 * coff_pages l t d → ∃ k', ReadMem h v 1 k = Ok (Some (extend 1 (coff_byte c t d v)), k').
Proof.
  intros Ha Hc Hj Hlk Hcase. destruct (convert_ok c l junk 0 Hc Hj) as (n & t' & E & Hl & Ho).
  destruct (linked_program c l t d n (co_ok c l Hc) Hl Hlk) as (Hp & Hpages & Hs1 & Hs2 & Hb).
  exists (noff_bytes n ++ contents c (filter copied l)). split.
  - unfold main. rewrite bool_decide_eq_false_2 by lia. cbv zeta. rewrite E. cbn. by rewrite Ho.
  - intros s buf Hok Hr He Hbuf Hcc. rewrite <- Hpages in *.
    destruct (new_AddrSpace_reads h buf n _ s Hok Hr He Hp Hbuf Hcc)
      as (sp & s' & k & En & Hn & _ & _ & _ & _ & Ek & _ & Hread).
    exists sp, s', k. split_and!; try done. intros v Hv. destruct (Hread v Hv) as (k' & Er). exists k'.
    rewrite Er, program_image_exact by (done || lia || by rewrite Hs1, Hs2). by rewrite Hb by lia.
Qed.

(** ** Every outcome *)

(** A computation that leaves the output with the header of a NOFF file, or
    removes it. *)
Definition complete (r : (message + unit) * tool) : Prop :=
  match r with
  | (inr _, t) => ∃ out, out_file t = Some out ∧ noffMagic (noff_of (take 40 out)) = NOFFMAGIC
  | (inl _, t) => out_file t = None
  end.

(** [m] removes the output whenever it exits, and keeps what [I] says otherwise. *)
Definition tidy {A} (I : A → tool → Prop) (m : Tool A) (t : tool) : Prop :=
  match m t with (inr a, t') => I a t' | (inl _, t') => out_file t' = None end.

Lemma tidy_bind {A B} (I : A → tool → Prop) (J : B → tool → Prop) (m : Tool A) (f : A → Tool B) t :
  tidy I m t → (∀ a t', I a t' → tidy J (f a) t') → tidy J (m ≫= f) t.
Proof.
  unfold tidy, mbind, Tool_bind. intros Hm Hf. destruct (m t) as [[e|a] t']; [done|]. by apply Hf.
Qed.

Lemma tidy_quit {A} (I : A → tool → Prop) e t : tidy I (quit e) t.
Proof. done. Qed.

(** The output is open and there. *)
Definition open_there (t : tool) : Prop := out_open t = true ∧ is_Some (out_file t).

Lemma tidy_Read n t : open_there t → tidy (λ _, open_there) (Read n) t.
Proof.
  intros Ht. unfold Read. eapply tidy_bind with (I := λ _, open_there).
  - unfold tidy, read_in. by destruct (n <? 0).
  - intros [r buf] t' Ht'. case_bool_decide; [apply tidy_quit|done].
Qed.

Lemma tidy_Write bs n t : open_there t → tidy (λ _, open_there) (Write bs n) t.
Proof.
  intros Ht. unfold Write. eapply tidy_bind with (I := λ _, open_there).
  - destruct Ht as [Ho [f Hf]]. unfold tidy, write_out. rewrite Ho, Hf. destruct (n <? 0); [by split; [|exists f]|].
    split; cbn; eauto.
  - intros r t' Ht'. case_bool_decide; [apply tidy_quit|done].
Qed.

Lemma tidy_copy_section s t : open_there t → tidy (λ _, open_there) (copy_section s) t.
Proof.
  intros Ht. eapply tidy_bind with (I := λ _, open_there); [done|]. intros x1 t1 Ht1.
  eapply tidy_bind; [by apply tidy_Read|]. intros x2 t2 Ht2. by apply tidy_Write.
Qed.

Lemma tidy_load_section s n pos t : open_there t → noffMagic n = NOFFMAGIC →
  tidy (λ r t, open_there t ∧ noffMagic (fst r) = NOFFMAGIC) (load_section s n pos) t.
Proof.
  intros Ht Hn. unfold load_section. case_bool_decide; [done|]. destruct (is_text s).
  { eapply tidy_bind; [by apply tidy_copy_section|]. intros x1 t1 Ht1. done. }
  destruct (is_data s).
  { eapply tidy_bind with (I := λ _, open_there); [case_bool_decide; [apply tidy_quit|done]|].
    intros x0 t0 Ht0. eapply tidy_bind; [by apply tidy_copy_section|]. intros x1 t1 Ht1. done. }
  destruct (is_bss s); [|apply tidy_quit]. cbv zeta. case_bool_decide; [|done]. case_bool_decide; [apply tidy_quit|done].
Qed.

Lemma tidy_load_sections l : ∀ n pos t, open_there t → noffMagic n = NOFFMAGIC →
  tidy (λ n t, open_there t ∧ noffMagic n = NOFFMAGIC) (load_sections l n pos) t.
Proof.
  induction l as [|s l IH]; intros n pos t Ht Hn; [done|]. cbn [load_sections].
  eapply tidy_bind; [by apply tidy_load_section|]. intros [n' pos'] t' [Ht' Hn']. by apply IH.
Qed.

Lemma write_header_magic n t : open_there t → noffMagic n = NOFFMAGIC →
  complete ((lseek_out 0 ≫= λ _, Write (noff_bytes n) sizeof_NoffHeader) t).
Proof.
  intros [Ho [f Hf]] Hn.
  assert (E1 : lseek_out 0 t = (inr tt, mkTool (in_file t) (in_pos t) (out_open t) (out_file t) 0)).
  { unfold lseek_out. by rewrite Ho. }
  rewrite (Tool_run _ _ _ _ _ E1). change sizeof_NoffHeader with (Z.of_nat 40). rewrite <- (noff_bytes_length n).
  erewrite Write_ok; [|done|exact Hf]. eexists. split; [reflexivity|].
  cbn [out_pos]. change (Z.to_nat 0) with 0%nat. unfold host_write. rewrite take_0, Nat.sub_0_l. cbn [replicate app].
  rewrite take_app_length' by (by rewrite noff_bytes_length). unfold noff_of, noff_bytes. cbv zeta.
  pose proof (words_of_bytes (noffMagic n :: segment_words (code n) ++ segment_words (initData n) ++
    segment_words (uninitData n)) []) as E. rewrite app_nil_r in E. cbn [length app segment_words] in E.
  cbn [app segment_words noffMagic]. rewrite E. cbn. by rewrite Hn.
Qed.

(** C39: whatever bytes the input has, the program ends; it leaves a file that
    begins with a NOFF header and exits with status 0, or removes the output
    and exits with status 1. *)
Theorem coff2noff_all_or_nothing argc c old junk : 2 ≤ argc →
  match main argc (Some c) true old junk with
  | (inr _, file) => ∃ out, file = Some out ∧ noffMagic (noff_of (take 40 out)) = NOFFMAGIC
  | (inl _, file) => file = None
  end.
Proof.
  intros Ha. unfold main. rewrite bool_decide_eq_false_2 by lia. cbv zeta.
  set (t0 := mkTool c 0 true (Some []) 0). assert (Ht0 : open_there t0) by (split; [done|by eexists]). clearbody t0.
  assert (Hc : tidy (λ _ t, complete (inr tt, t)) (convert junk) t0); [|revert Hc].
  - unfold convert. eapply tidy_bind; [by apply tidy_Read|]. intros x1 t1 Ht1. cbv zeta.
    case_bool_decide; [apply tidy_quit|]. eapply tidy_bind; [by apply tidy_Read|]. intros b2 t2 Ht2.
    case_bool_decide; [apply tidy_quit|]. eapply tidy_bind; [by apply tidy_Read|]. intros b3 t3 Ht3.
    eapply tidy_bind with (I := λ _, open_there); [done|]. intros x4 t4 Ht4.
    eapply tidy_bind; [by apply tidy_load_sections|]. intros n t5 [Ht5 Hn].
    pose proof (write_header_magic n t5 Ht5 Hn) as Hw. unfold tidy, complete in *.
    by destruct ((lseek_out 0 ≫= λ _, Write (noff_bytes n) sizeof_NoffHeader) t5) as [[] ?].
  - unfold tidy, complete. by destruct (convert junk t0) as [[] ?].
Qed.

(** The check on the uninitialised data is the wrong way round: a .bss or .sbss
    section that begins where the segment ends is refused, and one that does not
    is taken as if it did, so that the segment ends before the section does
    whenever there is a gap. *)
Theorem bss_check_inverted s n pos t : bss s → segsize (uninitData n) ≠ 0 →
  let u := uninitData n in
  is_int (virtualAddr u + segsize u) → is_int (segsize u + s_size s) →
  (s_paddr s = virtualAddr u + segsize u → fst (load_section s n pos t) = inl BothBss) ∧
  (virtualAddr u + segsize u < s_paddr s → ∃ n', load_section s n pos t = (inr (n', pos), t) ∧
     virtualAddr (uninitData n') = virtualAddr u ∧
     virtualAddr (uninitData n') + segsize (uninitData n') < s_paddr s + s_size s).
Proof.
  intros [Hlv Hb] Hu u Hi1 Hi2. destruct (kinds_disjoint s) as (_ & _ & K). destruct (K Hb) as [Kt Kd].
  unfold load_section. rewrite bool_decide_eq_false_2 by done. rewrite Kt, Kd, Hb. cbv zeta.
  fold u. rewrite bool_decide_eq_true_2 by done. rewrite !sint_id by done. split.
  - intros ->. by rewrite bool_decide_eq_true_2.
  - intros Hgap. rewrite bool_decide_eq_false_2 by lia. eexists. split; [reflexivity|]. cbn. split; [done|lia].
Qed.

(** ** A program *)

(** A COFF file with a .text section of 8 bytes, a .data section of 4 and a .bss
    section of 16. *)
Module Sample.

Definition scn_bytes (name : list Z) (paddr size scnptr : Z) : list Z :=
  take 8 (name ++ replicate 8 0) ++ words_bytes [paddr; paddr; size; scnptr; 0; 0; 0; 0].
Definition file : list Z :=
  le_bytes 2 MIPSELMAGIC ++ le_bytes 2 3 ++ words_bytes [0; 0; 0; 0] ++
  le_bytes 2 OMAGIC ++ replicate 54 0 ++
  scn_bytes dot_text 0 8 196 ++ scn_bytes dot_data 8 4 204 ++ scn_bytes dot_bss 12 16 0 ++
  [1; 2; 3; 4; 5; 6; 7; 8; 21; 22; 23; 24].
Definition sections : list scnhdr := sections_of 3 (host_read 76 120 file).
Definition nowhere : Segment := mkSegment 7 7 7.
Definition stack : NoffHeader := mkNoff 0 nowhere nowhere nowhere.

Lemma sections_eq : sections = [scnhdr_of (scn_bytes dot_text 0 8 196); scnhdr_of (scn_bytes dot_data 8 4 204);
  scnhdr_of (scn_bytes dot_bss 12 16 0)].
Proof. vm_compute. reflexivity. Qed.

Lemma sample_ok : coff_ok file sections.
Proof.
  split; [vm_compute; reflexivity..|vm_compute; lia|vm_compute; reflexivity|].
  split; [|vm_compute; lia..|vm_compute; congruence].
  rewrite sections_eq. repeat apply Forall_cons_2; [..|apply Forall_nil_2].
  all: unfold section_ok, live, text, data, bss, copied, text, data, live.
  all: split_and!; [vm_compute; split; congruence..|]; intros _; split_and!; [done| |].
  all: try (vm_compute; intuition congruence).
Qed.

Definition t : scnhdr := scnhdr_of (scn_bytes dot_text 0 8 196).
Definition d : scnhdr := scnhdr_of (scn_bytes dot_data 8 4 204).

Lemma linked_ok : linked sections t d.
Proof.
  split; [vm_compute; reflexivity|..].
  - split; [split; [done|vm_compute; reflexivity]|done].
  - split; [split; [done|vm_compute; reflexivity]|done].
  - vm_compute. congruence.
Qed.

Lemma stack_ok : junk_ok stack.
Proof. repeat apply Forall_cons_2; try apply Forall_nil_2; vm_compute; intuition congruence. Qed.

(** What the program makes of it, and a machine that has it in a UNIX file. *)
Definition noff : list Z := default [] (snd (main 3 (Some file) true None stack)).
Definition ready : umem (list Z) := mkUmem (new_Machine 0) empty_frames noff.

Lemma noff_made : main 3 (Some file) true None stack = (inr tt, Some noff).
Proof. vm_compute. reflexivity. Qed.

Lemma noff_held : @exe_holds _ StubFile.file (exe ready) noff.
Proof. split; [done|]. unfold is_byte. apply (bool_decide_unpack _). vm_compute. exact I. Qed.

Lemma ready_ok : umem_ok ready ∧ machine_ready (mach ready).
Proof. split; [split; [done|apply empty_frames_wf|done]|apply (example_machine_ready 0 0)]. Qed.

Lemma fits : coff_pages sections t d ≤ clear_count (frames ready).
Proof. vm_compute. discriminate. Qed.

(** A .bss section of 16 bytes at 100, and .sbss sections right behind it and
    four bytes further on. *)
Definition some_bss : NoffHeader := mkNoff NOFFMAGIC nowhere nowhere (mkSegment 100 0 16).
Definition sbss (paddr : Z) : scnhdr := scnhdr_of (scn_bytes dot_sbss paddr 8 0).

Lemma sbss_ok paddr : bss (sbss paddr).
Proof. by split. Qed.

End Sample.

Lemma coff2noff_converts_witness : ∃ n, noff_of (take 40 Sample.noff) = n ∧
  main 3 (Some Sample.file) true None Sample.stack = (inr tt, Some Sample.noff) ∧
  host_read (Z.to_nat (inFileAddr (initData n))) (Z.to_nat (segsize (initData n))) Sample.noff = [21; 22; 23; 24].
Proof.
  destruct (coff2noff_converts 3 Sample.file Sample.sections None Sample.stack ltac:(lia) Sample.sample_ok Sample.stack_ok)
    as (n & out & E & Hn & _ & _ & _ & _ & _ & Hb).
  assert (Ho : out = Sample.noff) by (pose proof Sample.noff_made; congruence). subst out.
  exists n. split; [exact Hn|]. split; [exact E|].
  rewrite (Hb Sample.d (initData n)).
  - vm_compute. reflexivity.
  - exact (proj2 (linked_in _ _ _ Sample.linked_ok)).
  - right. split; [exact (proj1 (lk_data _ _ _ Sample.linked_ok))|reflexivity].
Defined.

(** The program reads its second datum, 22, at address 9. *)
Lemma coff_program_loads_witness :
  ∃ sp s' k, @new_AddrSpace _ StubFile.file (replicate 40 7) Sample.ready = Ok (sp, s') ∧
    RestoreState sp (mach s') = Ok (tt, k) ∧ ∃ k', ReadMem no_handler 9 1 k = Ok (Some 22, k').
Proof.
  destruct (@coff_program_loads _ StubFile.file StubFile.file_ok no_handler 3 Sample.file Sample.sections Sample.t
    Sample.d None Sample.stack ltac:(lia) Sample.sample_ok Sample.stack_ok Sample.linked_ok ltac:(left; vm_compute; congruence))
    as (out & E & Hs).
  assert (Ho : out = Sample.noff) by (pose proof Sample.noff_made; congruence). subst out.
  destruct (Hs Sample.ready (replicate 40 7) (proj1 Sample.ready_ok) (proj2 Sample.ready_ok) Sample.noff_held eq_refl
    Sample.fits) as (sp & s' & k & En & _ & Ek & Hr).
  exists sp, s', k. split; [exact En|]. split; [exact Ek|]. apply (Hr 9). split; vm_compute; congruence.
Defined.

Lemma coff2noff_all_or_nothing_witness :
  main 3 (Some [1; 2; 3]) true None Sample.stack = (inl FileTooShort, None) ∧
  match main 3 (Some [1; 2; 3]) true None Sample.stack with
  | (inr _, file) => ∃ out, file = Some out ∧ noffMagic (noff_of (take 40 out)) = NOFFMAGIC
  | (inl _, file) => file = None
  end.
Proof. split; [reflexivity|]. apply (coff2noff_all_or_nothing 3). lia. Defined.

Lemma bss_check_inverted_witness : let t := mkTool [] 0 true (Some []) 0 in
  fst (load_section (Sample.sbss 116) Sample.some_bss 40 t) = inl BothBss ∧
  ∃ n, load_section (Sample.sbss 120) Sample.some_bss 40 t = (inr (n, 40), t) ∧
    virtualAddr (uninitData n) + segsize (uninitData n) < 128.
Proof.
  intros t. split.
  - apply (bss_check_inverted (Sample.sbss 116) Sample.some_bss 40 t (Sample.sbss_ok 116)); [discriminate| | |reflexivity];
      split; vm_compute; discriminate.
  - destruct (bss_check_inverted (Sample.sbss 120) Sample.some_bss 40 t (Sample.sbss_ok 120)) as [_ H];
      [discriminate|split; vm_compute; discriminate..|].
    destruct (H eq_refl) as (n & E & _ & Hlt). exists n. split; [exact E|exact Hlt].
Defined.
