(* ===== verification/FsTest.v ===== *)
(** * FsTest: filesys/fstest.cc

    [Copy] brings a UNIX file into the file system, [Print] prints one of its
    files, [PerformanceTest] writes and reads a large file in small pieces.  They
    are clients of the file system: the theorems use what FileSys.v proves of it
    and nothing of how it does it. *)

From S2P Require Import Prelude Bitmap Machine Disk FileHdr OpenFile Directory FileSys.

Definition TransferSize : Z := 10.

Section Code.
Context {D : Type} `{!SectorDevice D} (junk : Z → Z) (fs : FileSystem).

(** ** Copy and Print *)

Inductive copy_result := NoInput | NoOutput | Copied.

(** [while ((amountRead = fread(...)) > 0) openFile->Write(...)]; [rest] is what
    has not been read of the UNIX file. *)
Fixpoint copy_loop (fuel : nat) (rest : list Z) (openFile : OpenFile) : M D unit :=
  match fuel with
  | O => fail OutOfFuel
  | S fuel =>
      let buffer := take (Z.to_nat TransferSize) rest in
      let amountRead := Z.of_nat (length buffer) in
      if bool_decide (0 < amountRead) then
        '(_, openFile) ← Write junk buffer amountRead openFile;
        copy_loop fuel (drop (Z.to_nat TransferSize) rest) openFile
      else mret tt
  end.

(** [from] is the UNIX file, if there is one. *)
Definition Copy (from : option (list Z)) (to : list Z) : M D copy_result :=
  match from with
  | None => mret NoInput
  | Some fp =>
      let fileLength := sint (Z.of_nat (length fp)) in
      created ← Create junk fs to fileLength;
      if negb created then mret NoOutput
      else
        openFile ← Open junk fs to;
        ASSERT (negb (is_null openFile)) ≫= λ _,
        openFile ← deref openFile;
        copy_loop (S (length fp)) fp openFile ≫= λ _,
        mret Copied
  end.

(** [while ((amountRead = openFile->Read(...)) > 0) printf(...)]: what is
    printed. *)
Fixpoint print_loop (fuel : nat) (openFile : OpenFile) : M D (list Z) :=
  match fuel with
  | O => fail OutOfFuel
  | S fuel =>
      '(buffer, openFile) ← Read junk TransferSize openFile;
      if bool_decide (0 < Z.of_nat (length buffer)) then
        more ← print_loop fuel openFile;
        mret (buffer ++ more)
      else mret []
  end.

(** [None] is the message that the file cannot be opened. *)
Definition Print (fname : list Z) : M D (option (list Z)) :=
  openFile ← Open junk fs fname;
  match openFile with
  | None => mret None
  | Some openFile => out ← print_loop (S (Z.to_nat (Length openFile))) openFile; mret (Some out)
  end.

(** ** PerformanceTest *)

(** "TestFile", "1234567890". *)
Definition FileName : list Z := [84; 101; 115; 116; 70; 105; 108; 101].
Definition Contents : list Z := [49; 50; 51; 52; 53; 54; 55; 56; 57; 48].
Definition ContentSize : Z := Z.of_nat (length Contents).
Definition FileSize : Z := ContentSize * 5000.

Inductive perf_result := CannotCreate | CannotOpen | CannotTransfer | Transferred.

(** The loops over [i], with [n] rounds left. *)
Fixpoint write_rounds (n : nat) (openFile : OpenFile) : M D perf_result :=
  match n with
  | O => mret Transferred
  | S n =>
      '(numBytes, openFile) ← Write junk Contents ContentSize openFile;
      if bool_decide (numBytes < 10) then mret CannotTransfer else write_rounds n openFile
  end.

Definition FileWrite : M D perf_result :=
  created ← Create junk fs FileName 0;
  if negb created then mret CannotCreate
  else
    openFile ← Open junk fs FileName;
    match openFile with
    | None => mret CannotOpen
    | Some openFile => write_rounds (Z.to_nat (FileSize / ContentSize)) openFile
    end.

Fixpoint read_rounds (n : nat) (openFile : OpenFile) : M D perf_result :=
  match n with
  | O => mret Transferred
  | S n =>
      '(buffer, openFile) ← Read junk ContentSize openFile;
      if bool_decide (Z.of_nat (length buffer) < 10) || negb (strncmp_zero (Z.to_nat ContentSize) buffer Contents)
      then mret CannotTransfer
      else read_rounds n openFile
  end.

Definition FileRead : M D perf_result :=
  openFile ← Open junk fs FileName;
  match openFile with
  | None => mret CannotOpen
  | Some openFile => read_rounds (Z.to_nat (FileSize / ContentSize)) openFile
  end.

(** What the three parts report; the last is whether the file was removed. *)
Definition PerformanceTest : M D (perf_result * perf_result * bool) :=
  w ← FileWrite;
  r ← FileRead;
  removed ← FileSystem_Remove junk fs FileName;
  mret (w, r, removed).

End Code.

(** ** Open files of a file system *)

Section Proofs.
Context {D : Type} `{!SectorDevice D} `{!SectorDeviceOK D} (junk : Z → Z) (fs : FileSystem).
Hypothesis junk_byte : ∀ i, is_byte (junk i).
Implicit Types (d : D) (files : gmap (list Z) (list Z)) (k : list Z).

(** [f] is the file [k] of a file system that holds [files], at a position. *)
Definition open_at d files k (f : OpenFile) (pos : Z) : Prop :=
  dev_wf d ∧ ∃ b t s, fs_ok fs (sectors d) b t ∧ fs_files (sectors d) t = files ∧
    dir_map (mkDirectory t) !! k = Some s ∧ f = mkOpen (header_at (sectors d) s) pos.

Lemma open_at_holds d files k f pos : open_at d files k f pos → fs_holds fs d files.
Proof. intros (Hd & b & t & s & Hfs & Hf & _). split; [done|]. by exists b, t. Qed.

Lemma Open_at d files fname : fs_holds fs d files → is_name fname →
  ∃ o d', Open junk fs fname d = Ok (o, d') ∧ fs_holds fs d' files ∧
    match o with
    | None => files !! file_key fname = None
    | Some f => open_at d' files (file_key fname) f 0
    end.
Proof.
  intros Hh Hn. pose proof Hh as (Hd & b & t & Hfs & Hf). destruct (Open_ok junk junk_byte fs d b t fname Hd Hfs Hn) as (d' & Hd' & Hs & E).
  eexists _, d'. split; [exact E|]. split; [by eapply fs_holds_same|].
  destruct (dir_map (mkDirectory t) !! file_key fname) as [s|] eqn:Ek; cbn.
  - split; [done|]. exists b, t, s. by rewrite Hs.
  - subst files. by apply lookup_files_none.
Qed.

(** The contents of an open file. *)
Lemma open_at_bytes d files k f pos : open_at d files k f pos →
  hdr_ok (hdr f) ∧ files !! k = Some (file_bytes (sectors d) (hdr f)) ∧
  Z.of_nat (length (file_bytes (sectors d) (hdr f))) = Length f ∧ 0 ≤ Length f ≤ MaxFileSize.
Proof.
  intros (Hd & b & t & s & Hfs & <- & Hk & ->). destruct (lookup_file _ _ _ _ _ _ Hfs Hk) as [_ Hok].
  destruct (file_bytes_spec (sectors d) _ (dev_shape d Hd) Hok) as (Hl & _ & _ & Hnb & _ & Hns).
  cbn [hdr]. change MaxFileSize with 3840. unfold Length, FileLength. cbn [hdr].
  split_and!; [done|by rewrite fs_files_lookup, Hk|lia..].
Qed.

Lemma Read_at d files k f pos bytes n : open_at d files k f pos → files !! k = Some bytes → 0 ≤ pos →
  is_int (pos + n) →
  let r := take (Z.to_nat n) (drop (Z.to_nat pos) bytes) in
  ∃ f' d', Read junk n f d = Ok ((r, f'), d') ∧ open_at d' files k f' (pos + Z.of_nat (length r)).
Proof.
  intros Ho Hb Hp Hi r. destruct (open_at_bytes _ _ _ _ _ Ho) as (Hh & Hb' & _).
  assert (bytes = file_bytes (sectors d) (hdr f)) as -> by congruence.
  destruct Ho as (Hd & b & t & s & Hfs & Hf & Hk & ->). cbn [hdr] in *.
  destruct (ReadAt_ok junk _ n pos d Hh Hd Hp Hi) as (d' & E & Hd' & Hs). unfold Read. cbn [hdr seekPosition].
  rewrite (bind_run _ _ _ _ _ E). eexists _, d'. split; [reflexivity|]. split; [done|]. exists b, t, s.
  rewrite Hs. by split_and!.
Qed.

Lemma Write_at d files k f pos bytes from : open_at d files k f pos → files !! k = Some bytes → 0 ≤ pos →
  Forall is_byte from → is_int (pos + Z.of_nat (length from)) →
  let w := Z.max 0 (Z.min (Z.of_nat (length from)) (Z.of_nat (length bytes) - pos)) in
  ∃ f' d', Write junk from (Z.of_nat (length from)) f d = Ok ((w, f'), d') ∧
    open_at d' (<[k := list_inserts (Z.to_nat pos) (take (Z.to_nat w) from) bytes]> files) k f' (pos + w).
Proof.
  intros Ho Hb Hp Hfr Hi w. destruct (open_at_bytes _ _ _ _ _ Ho) as (Hh & Hb' & Hlen & _).
  assert (bytes = file_bytes (sectors d) (hdr f)) as -> by congruence.
  destruct Ho as (Hd & b & t & s & Hfs & Hf & Hk & ->). unfold Length, FileLength in Hlen. cbn [hdr] in *.
  destruct (WriteAt_ok junk (header_at (sectors d) s) from (Z.of_nat (length from)) pos d)
    as (d' & E & Hd' & Hf' & Ho'); try done.
  destruct (fs_ok_write fs (sectors d) (sectors d') b t k s Hfs Hk Ho') as (Hfs' & Hh' & Hfiles').
  unfold Write. cbn [hdr seekPosition]. rewrite (bind_run _ _ _ _ _ E). rewrite <- Hlen. fold w.
  eexists _, d'. split; [reflexivity|]. split; [done|]. exists b, t, s. rewrite Hh'.
  split_and!; [exact Hfs'| |exact Hk|reflexivity].
  rewrite Hfiles', Hf', Hf. do 3 f_equal. lia.
Qed.

(** ** The loops *)

Lemma small_int z : 0 ≤ z ≤ 100000 → is_int z.
Proof. unfold is_int, int_min, int_max. lia. Qed.

Lemma inserts_prefix (l buf tl : list Z) : (length buf ≤ length tl)%nat →
  list_inserts (length l) buf (l ++ tl) = l ++ buf ++ drop (length buf) tl.
Proof.
  intros Hl. rewrite <- (Nat.add_0_r (length l)), list_inserts_app_r. f_equal.
  rewrite <- (take_drop (length buf) tl) at 1. apply list_inserts_0_r. rewrite length_take. lia.
Qed.

(** What has been copied is in place, the rest is as it was. *)
Lemma copy_loop_ok k : ∀ fuel d files f pos bytes done rest,
  open_at d files k f pos → files !! k = Some bytes → bytes = done ++ drop (length done) bytes →
  pos = Z.of_nat (length done) → length bytes = (length done + length rest)%nat →
  Forall is_byte rest → (length rest < fuel)%nat →
  ∃ d', copy_loop junk fuel rest f d = Ok (tt, d') ∧ fs_holds fs d' (<[k := done ++ rest]> files).
Proof.
  induction fuel as [|fuel IH]; intros d files f pos bytes done rest Ho Hk Hb Hp Hl Hr Hf; [lia|].
  cbn [copy_loop]. change (Z.to_nat TransferSize) with 10%nat. cbv zeta. case_bool_decide as Hlt.
  - set (buf := take 10 rest) in *. set (rest' := drop 10 rest).
    assert (Hbl : (length buf <= 10)%nat) by (subst buf; rewrite length_take; lia).
    assert (Hsplit : rest = buf ++ rest') by (subst buf rest'; by rewrite take_drop).
    assert (Hrl : length rest = (length buf + length rest')%nat) by (rewrite Hsplit at 1; apply length_app).
    destruct (open_at_bytes _ _ _ _ _ Ho) as (_ & Hk' & Hlen & Hmax). rewrite Hk in Hk'. injection Hk' as Hk'.
    rewrite <- Hk' in Hlen. change MaxFileSize with 3840 in Hmax.
    destruct (Write_at d files k f pos bytes buf Ho Hk) as (f' & d1 & E & Ho'); [lia|by apply Forall_take|apply small_int; lia|].
    replace (Z.max _ _) with (Z.of_nat (length buf)) in * by lia. rewrite (bind_run _ _ _ _ _ E).
    rewrite Nat2Z.id, take_ge in Ho' by lia. rewrite Hp, Nat2Z.id in Ho'.
    assert (Hins : list_inserts (length done) buf bytes = (done ++ buf) ++ drop (length (done ++ buf)) bytes).
    { rewrite Hb at 1. rewrite inserts_prefix by (rewrite length_drop; lia).
      by rewrite <- app_assoc, drop_drop, length_app. }
    rewrite Hins in Ho'.
    edestruct (IH d1 _ f' _ ((done ++ buf) ++ drop (length (done ++ buf)) bytes) (done ++ buf) rest' Ho')
      as (d2 & E2 & Hh); [apply lookup_insert_eq| | | | |..].
    + by rewrite drop_app_length.
    + rewrite length_app. lia.
    + rewrite !length_app, length_drop. lia.
    + by apply Forall_drop.
    + lia.
    + exists d2. split; [exact E2|]. rewrite insert_insert_eq, <- app_assoc, <- Hsplit in Hh. done.
  - exists d. split; [done|]. apply open_at_holds in Ho.
    assert (Hr0 : rest = []) by (destruct rest; [done|cbn in Hlt; lia]). subst rest.
    cbn in Hl. rewrite app_nil_r. rewrite drop_ge, app_nil_r in Hb by lia. subst done. by rewrite insert_id.
Qed.

Lemma print_loop_ok k : ∀ fuel d files f pos bytes,
  open_at d files k f pos → files !! k = Some bytes → 0 ≤ pos ≤ Z.of_nat (length bytes) →
  (length bytes < fuel + Z.to_nat pos)%nat →
  ∃ d', print_loop junk fuel f d = Ok (drop (Z.to_nat pos) bytes, d') ∧ fs_holds fs d' files.
Proof.
  induction fuel as [|fuel IH]; intros d files f pos bytes Ho Hk Hp Hf; [lia|]. cbn [print_loop].
  destruct (open_at_bytes _ _ _ _ _ Ho) as (_ & Hk' & Hlen & Hmax). rewrite Hk in Hk'. injection Hk' as Hk'.
  rewrite <- Hk' in Hlen. change MaxFileSize with 3840 in Hmax.
  destruct (Read_at d files k f pos bytes TransferSize Ho Hk) as (f' & d1 & E & Ho');
    [lia|apply small_int; unfold TransferSize; lia|].
  rewrite (bind_run _ _ _ _ _ E). cbn beta iota.
  change (Z.to_nat TransferSize) with 10%nat in *. rewrite length_take, length_drop in *. case_bool_decide as Hlt.
  - edestruct (IH d1 files f' _ bytes Ho' Hk) as (d2 & E2 & Hh); [lia|lia|]. rewrite (bind_run _ _ _ _ _ E2).
    exists d2. split; [|done]. unfold mret, M_ret. do 2 f_equal.
    rewrite <- (take_drop 10 (drop (Z.to_nat pos) bytes)) at 2. rewrite drop_drop. f_equal.
    destruct (decide (Z.to_nat pos + 10 ≤ length bytes)%nat) as [Hle|Hle]; [f_equal; lia|]. rewrite !drop_ge by lia. done.
  - exists d1. rewrite drop_ge by lia. split; [done|by eapply open_at_holds].
Qed.

(** A file cannot be extended: the writes of the performance test fail. *)
Lemma write_rounds_fail k n d files f pos bytes : open_at d files k f pos → files !! k = Some bytes →
  0 ≤ pos → pos ≤ 10000 → Z.of_nat (length bytes) < pos + 10 → (0 < n)%nat →
  ∃ d', write_rounds junk n f d = Ok (CannotTransfer, d') ∧
    ∃ bytes', length bytes' = length bytes ∧ fs_holds fs d' (<[k := bytes']> files).
Proof.
  intros Ho Hk Hp Hmax Hlen Hn. destruct n as [|n]; [lia|]. cbn [write_rounds].
  destruct (Write_at d files k f pos bytes Contents Ho Hk Hp) as (f' & d1 & E & Ho').
  { repeat constructor; unfold is_byte; lia. }
  { apply small_int. cbn. lia. }
  rewrite (bind_run _ _ _ _ _ E). cbn beta iota. rewrite bool_decide_eq_true_2 by (cbn [length Contents]; lia).
  exists d1. split; [done|]. apply open_at_holds in Ho'. eexists. split; [|exact Ho']. by rewrite length_inserts.
Qed.

(** Nor is any file long enough to be read to the end. *)
Lemma read_rounds_fail k : ∀ n d files f pos bytes, open_at d files k f pos → files !! k = Some bytes →
  0 ≤ pos ≤ Z.of_nat (length bytes) → pos + 10 * Z.of_nat n ≤ 100000 → Z.of_nat (length bytes) < pos + 10 * Z.of_nat n →
  ∃ d', read_rounds junk n f d = Ok (CannotTransfer, d') ∧ fs_holds fs d' files.
Proof.
  induction n as [|n IH]; intros d files f pos bytes Ho Hk Hp Hmax Hlen; [lia|]. cbn [read_rounds].
  destruct (Read_at d files k f pos bytes ContentSize Ho Hk) as (f' & d1 & E & Ho');
    [lia|apply small_int; unfold ContentSize; cbn [length Contents]; lia|].
  rewrite (bind_run _ _ _ _ _ E). cbn beta iota. change (Z.to_nat ContentSize) with 10%nat in *.
  rewrite length_take, length_drop in *. case_bool_decide as Hs; cbn [orb].
  { exists d1. split; [done|by eapply open_at_holds]. }
  destruct (negb _). { exists d1. split; [done|by eapply open_at_holds]. }
  eapply IH; [exact Ho'|exact Hk|lia..].
Qed.

(** ** The calls by name *)

Lemma Create_cases d files fname size : fs_holds fs d files → is_name fname → 0 ≤ size ≤ MaxFileSize →
  ∃ ok d', Create junk fs fname size d = Ok (ok, d') ∧
    if ok then ∃ bytes, length bytes = Z.to_nat size ∧ files !! file_key fname = None ∧
                 fs_holds fs d' (<[file_key fname := bytes]> files)
    else fs_holds fs d' files.
Proof.
  intros Hh Hn Hs.
  destruct (create_simulates junk junk_byte fs d files fname size Hh (conj Hn Hs)) as (r & d' & files' & E & Hh' & Hspec).
  cbn [run_call] in E. binds E. eexists _, _. split; [eassumption|]. inversion Hspec; subst; [|done].
  eexists. by split_and!.
Qed.

Lemma Remove_cases d files fname : fs_holds fs d files → is_name fname →
  ∃ ok d', FileSystem_Remove junk fs fname d = Ok (ok, d') ∧ fs_holds fs d' (delete (file_key fname) files).
Proof.
  intros Hh Hn.
  destruct (remove_simulates junk junk_byte fs d files fname Hh Hn) as (r & d' & files' & E & Hh' & Hspec).
  cbn [run_call] in E. binds E. eexists _, _. split; [eassumption|]. by inversion Hspec; subst.
Qed.

Lemma FileName_ok : is_name FileName.
Proof. repeat constructor; unfold is_byte; lia. Qed.

(** [Print] ends, changes nothing and prints the file, or says that there is no
    such file. *)
Lemma Print_ok d files fname : fs_holds fs d files → is_name fname →
  ∃ d', Print junk fs fname d = Ok (files !! file_key fname, d') ∧ fs_holds fs d' files.
Proof.
  intros Hh Hn. destruct (Open_at d files fname Hh Hn) as ([f|] & d1 & E & Hh1 & Ho); unfold Print;
    rewrite (bind_run _ _ _ _ _ E).
  - destruct (open_at_bytes _ _ _ _ _ Ho) as (_ & Hk & Hlen & Hmax).
    destruct (print_loop_ok (file_key fname) (S (Z.to_nat (Length f))) d1 files f 0 _ Ho Hk) as (d2 & E2 & Hh2); [lia|lia|].
    rewrite (bind_run _ _ _ _ _ E2), Hk. by exists d2.
  - rewrite Ho. by exists d1.
Qed.

(** [Copy] of a file that fits under a new name, and of one that does not. *)
Lemma Copy_fits d b t to content : dev_wf d → fs_ok fs (sectors d) b t → is_name to → Forall is_byte content →
  Z.of_nat (length content) ≤ MaxFileSize → dir_map (mkDirectory t) !! file_key to = None →
  fits b t (Z.of_nat (length content)) →
  ∃ d1, Copy junk fs (Some content) to d = Ok (Copied, d1) ∧
    fs_holds fs d1 (<[file_key to := content]> (fs_files (sectors d) t)).
Proof.
  intros Hd Hfs Hn Hc Hl Hnone Hfit. assert (Hsz : 0 ≤ Z.of_nat (length content) ≤ MaxFileSize) by lia. cbn [Copy].
  rewrite sint_id by (apply small_int; change MaxFileSize with 3840 in *; lia).
  destruct (Create_fits junk junk_byte fs d b t to _ Hd Hfs Hn Hsz Hnone Hfit)
    as (d' & b' & t' & bytes & E & Hd' & Hfs' & Hlen & Hfiles & _).
  assert (Hh' : fs_holds fs d' (<[file_key to := bytes]> (fs_files (sectors d) t))) by (split; [done|]; by exists b', t').
  rewrite (bind_run _ _ _ _ _ E). cbn [negb]. destruct (Open_at d' _ to Hh' Hn) as (o & d1 & E1 & Hh1 & Ho).
  rewrite (bind_run _ _ _ _ _ E1). destruct o as [f|]; [|by rewrite lookup_insert_eq in Ho].
  rewrite Nat2Z.id in Hlen.
  edestruct (copy_loop_ok (file_key to) (S (length content)) d1 _ f 0 bytes [] content Ho) as (d2 & E2 & Hh2);
    [apply lookup_insert_eq|done|done|done|done|lia|].
  cbn [is_null negb app]. rewrite insert_insert_eq in Hh2. exists d2. split; [|done]. unfold_M. by rewrite E2.
Qed.

Lemma Copy_refused d b t to content : dev_wf d → fs_ok fs (sectors d) b t → is_name to →
  Z.of_nat (length content) ≤ int_max →
  ¬ (dir_map (mkDirectory t) !! file_key to = None ∧ fits b t (Z.of_nat (length content))) →
  ∃ d1, Copy junk fs (Some content) to d = Ok (NoOutput, d1) ∧ fs_holds fs d1 (fs_files (sectors d) t).
Proof.
  intros Hd Hfs Hn Hl Hr. cbn [Copy]. rewrite sint_id by (unfold is_int, int_min; lia).
  destruct (Create_refused_any junk junk_byte fs d b t to _ Hd Hfs Hn (Nat2Z.is_nonneg _) Hr) as (d' & E & Hd' & Hs').
  exists d'. rewrite (bind_run _ _ _ _ _ E). split; [done|]. split; [done|]. exists b, t. by rewrite Hs'.
Qed.

(** C23: a UNIX file that fits is copied as it is, whatever the pieces it is copied
    in, next to the files that were there, and [Print] prints it, when it has at
    most [MaxFileSize] bytes; a file for which the directory or the free sectors have
    no room, or whose name is taken, is not copied and changes nothing; but a file of
    more than [MaxFileSize] bytes that the free sectors would hold is not refused:
    [FileHeader::Allocate] writes past its table of sectors. *)
Theorem Copy_Print_roundtrip d b t to content : dev_wf d → fs_ok fs (sectors d) b t → is_name to →
  Forall is_byte content → Z.of_nat (length content) ≤ int_max →
  let files := fs_files (sectors d) t in
  let room := files !! file_key to = None ∧ fits b t (Z.of_nat (length content)) in
  (room → Z.of_nat (length content) ≤ MaxFileSize → ∃ d1 d2, Copy junk fs (Some content) to d = Ok (Copied, d1) ∧
     Print junk fs to d1 = Ok (Some content, d2) ∧ fs_holds fs d2 (<[file_key to := content]> files)) ∧
  (room → MaxFileSize < Z.of_nat (length content) → Copy junk fs (Some content) to d = Err OutOfBounds) ∧
  (¬ room → ∃ d1, Copy junk fs (Some content) to d = Ok (NoOutput, d1) ∧ fs_holds fs d1 files).
Proof.
  intros Hd Hfs Hn Hc Hl files room. subst room files. rewrite <- lookup_files_none. split_and!.
  - intros [Hnone Hfit] Hmax. destruct (Copy_fits d b t to content Hd Hfs Hn Hc Hmax Hnone Hfit) as (d1 & E1 & Hh1).
    destruct (Print_ok d1 _ to Hh1 Hn) as (d2 & E2 & Hh2). rewrite lookup_insert_eq in E2. by exists d1, d2.
  - intros [Hnone Hfit] Hmax. cbn [Copy]. rewrite sint_id by (unfold is_int, int_min; lia).
    by rewrite (bind_err _ _ _ _ (Create_overruns junk junk_byte fs d b t to _ Hd Hfs Hn Hmax Hnone Hfit)).
  - intros Hr. by apply (Copy_refused d b t).
Qed.

(** The performance test ends on every file system, and fails on every one: a
    file cannot be extended and none is as long as the test wants, so that
    neither the writes nor the reads get through; whatever was called TestFile
    is gone afterwards, and every other file is as it was. *)
Theorem PerformanceTest_fails d files : fs_holds fs d files →
  ∃ w r removed d', PerformanceTest junk fs d = Ok ((w, r, removed), d') ∧ w ≠ Transferred ∧ r ≠ Transferred ∧
    fs_holds fs d' (delete (file_key FileName) files).
Proof.
  intros Hh. unfold PerformanceTest.
  assert (Hw : ∃ w d1 files1, FileWrite junk fs d = Ok (w, d1) ∧ w ≠ Transferred ∧ fs_holds fs d1 files1 ∧
    delete (file_key FileName) files1 = delete (file_key FileName) files).
  { unfold FileWrite. destruct (Create_cases d files FileName 0 Hh FileName_ok) as (ok & d1 & E & H); [done|].
    rewrite (bind_run _ _ _ _ _ E). destruct ok; cbn [negb]; [|by exists CannotCreate, d1, files].
    destruct H as (bytes & Hlen & Hnone & Hh1).
    destruct (Open_at d1 _ FileName Hh1 FileName_ok) as (o & d2 & E2 & Hh2 & Ho). rewrite (bind_run _ _ _ _ _ E2).
    destruct o as [f|]; [|by rewrite lookup_insert_eq in Ho].
    edestruct (write_rounds_fail (file_key FileName) (Z.to_nat (FileSize / ContentSize)) d2 _ f 0 bytes Ho)
      as (d3 & E3 & bytes' & _ & Hh3); [apply lookup_insert_eq|done|done|by rewrite Hlen|by apply Nat.ltb_lt|].
    eexists _, d3, _. split_and!; [exact E3|done|exact Hh3|]. by rewrite insert_insert_eq, delete_insert_eq. }
  destruct Hw as (w & d1 & files1 & E1 & Hw & Hh1 & Hdel). rewrite (bind_run _ _ _ _ _ E1).
  assert (Hrd : ∃ r d2, FileRead junk fs d1 = Ok (r, d2) ∧ r ≠ Transferred ∧ fs_holds fs d2 files1).
  { unfold FileRead. destruct (Open_at d1 _ FileName Hh1 FileName_ok) as (o & d2 & E2 & Hh2 & Ho).
    rewrite (bind_run _ _ _ _ _ E2). destruct o as [f|]; [|by exists CannotOpen, d2].
    destruct (open_at_bytes _ _ _ _ _ Ho) as (_ & Hk & Hlen & Hmax). change MaxFileSize with 3840 in Hmax.
    edestruct (read_rounds_fail (file_key FileName) (Z.to_nat (FileSize / ContentSize)) d2 _ f 0 _ Ho Hk)
      as (d3 & E3 & Hh3); [lia|by vm_compute|rewrite Z2Nat.id by done; change (FileSize / ContentSize) with 5000; lia|].
    by exists CannotTransfer, d3. }
  destruct Hrd as (r & d2 & E2 & Hr & Hh2). rewrite (bind_run _ _ _ _ _ E2).
  destruct (Remove_cases d2 files1 FileName Hh2 FileName_ok) as (removed & d3 & E3 & Hh3).
  rewrite (bind_run _ _ _ _ _ E3). rewrite Hdel in Hh3. by exists w, r, removed, d3.
Qed.

End Proofs.

(** ** On an empty disk *)

Lemma Copy_Print_roundtrip_witness : ∃ fs (d : RamDisk.ram) b t,
  @fs_ok fs (@sectors _ RamDisk.device d) b t ∧
  let files := fs_files (@sectors _ RamDisk.device d) t in
  let content := [104; 111; 108; 97; 32; 109; 117; 110; 100; 111; 33; 10] in
  let room := files !! file_key [97] = None ∧ fits b t 12 in
  (room → ∃ d1 d2, @Copy _ RamDisk.device (λ _, 7) fs (Some content) [97] d = Ok (Copied, d1) ∧
     @Print _ RamDisk.device (λ _, 7) fs [97] d1 = Ok (Some content, d2) ∧
     @fs_holds _ RamDisk.device fs d2 (<[file_key [97] := content]> files)) ∧
  (¬ room → ∃ d1, @Copy _ RamDisk.device (λ _, 7) fs (Some content) [97] d = Ok (NoOutput, d1) ∧
     @fs_holds _ RamDisk.device fs d1 files).
Proof.
  destruct (@FileSystem_format _ RamDisk.device RamDisk.device_ok (λ _, 7) seven_byte
              RamDisk.blank RamDisk.blank_wf) as (fs & d & b & t & _ & Hd & Hfs & _).
  exists fs, d, b, t. split; [exact Hfs|].
  destruct (@Copy_Print_roundtrip _ RamDisk.device RamDisk.device_ok (λ _, 7) fs seven_byte d b t [97]
           [104; 111; 108; 97; 32; 109; 117; 110; 100; 111; 33; 10] Hd Hfs) as (H1 & _ & H3).
  - repeat constructor; discriminate.
  - repeat constructor; discriminate.
  - discriminate.
  - split; [intros Hr; apply H1; [exact Hr|discriminate]|exact H3].
Defined.
