(* ===== verification/Execute.v ===== *)
(** * Execute: the interpreter of bin/execute.c

    A second simulator of the same processor, for MIPS programs under UNIX:
    bin/execute.c with the field macros of instr.h, the opcodes of encode.h and
    the memory of int.h.  It has no delayed loads, no exceptions and no
    translation.  The theorem relates it, instruction by instruction, to the
    simulator of machine/mipssim.cc: it says on which instructions and operands
    the two agree.

    [system_trap] (bin/system.c) calls the host and is a parameter.  A shift by a
    count outside 0..31, which C leaves undefined, and a division that traps on
    the host are the fault [HostTrap]; [exit] is [Halted]. *)

From S2P Require Import Prelude Scheduler Machine Mips.

(** ** The instruction formats, instr.h *)

Definition f_rd (i : Z) : Z := Z.land (Z.shiftr i 11) 0x1f.
Definition f_rt (i : Z) : Z := Z.land (Z.shiftr i 16) 0x1f.
Definition f_rs (i : Z) : Z := Z.land (Z.shiftr i 21) 0x1f.
Definition shamt (i : Z) : Z := Z.land (Z.shiftr i 6) 0x1f.
Definition immed (i : Z) : Z := if negb (Z.land i 0x8000 =? 0) then Z.lor i (-0x8000) else Z.land i 0x7fff.

(** ** The state *)

Definition MEMSIZE : Z := 16777216.
Definition memoffset : Z := 0x10000000.

Record cpu := mkCpu { Reg : list Z; HI : Z; LO : Z; pc : Z; npc : Z; mem : list Z }.

Definition R (s : cpu) (i : Z) : Z := default 0 (Reg s !! Z.to_nat i).
Definition setR (i v : Z) (s : cpu) : cpu :=
  mkCpu (<[Z.to_nat i := sint v]> (Reg s)) (HI s) (LO s) (pc s) (npc s) (mem s).
Definition setHI (v : Z) (s : cpu) : cpu := mkCpu (Reg s) (sint v) (LO s) (pc s) (npc s) (mem s).
Definition setLO (v : Z) (s : cpu) : cpu := mkCpu (Reg s) (HI s) (sint v) (pc s) (npc s) (mem s).
Definition set_npc (v : Z) (s : cpu) : cpu := mkCpu (Reg s) (HI s) (LO s) (pc s) (sint v) (mem s).
Definition set_mem (m : list Z) (s : cpu) : cpu := mkCpu (Reg s) (HI s) (LO s) (pc s) (npc s) m.

(** int.h: [n] bytes at [addr], and their value as a signed number of [n] bytes. *)
Definition load_n (n : nat) (addr : Z) (s : cpu) : res Z :=
  if bool_decide (addr < memoffset) then Err OutOfBounds
  else match load_bytes n (Z.to_nat (addr - memoffset)) (mem s) with Some v => Ok v | None => Err OutOfBounds end.
Definition store_n (n : nat) (addr v : Z) (s : cpu) : res cpu :=
  if bool_decide (addr < memoffset) || bool_decide (memoffset + Z.of_nat (length (mem s)) < addr + Z.of_nat n)
  then Err OutOfBounds
  else Ok (set_mem (store_bytes n (Z.to_nat (addr - memoffset)) v (mem s)) s).
Definition signed (n : nat) (v : Z) : Z := if bool_decide (v < 2 ^ (8 * Z.of_nat n - 1)) then v else v - 2 ^ (8 * Z.of_nat n).
Definition fetch (addr : Z) (s : cpu) : res Z := v ← load_n 4 addr s; mret (sint v).

(** ** The switch *)

Section Interpreter.
Context (system_trap : cpu → res cpu).

(** A shift by a register. *)
Definition shift_count (n : Z) : res Z := if bool_decide (0 ≤ n < 32) then Ok n else Err HostTrap.

(** The high word of a product as [I_MULT] and [I_MULTU] compute it from the
    halves of the operands; each product and sum is an [int]. *)
Definition high_word (t1 t2 : Z) : Z :=
  let t1l := Z.land t1 0xffff in
  let t1h := Z.land (Z.shiftr t1 16) 0xffff in
  let t2l := Z.land t2 0xffff in
  let t2h := Z.land (Z.shiftr t2 16) 0xffff in
  sint (t1h * t2h) + Z.shiftr (sint (t1h * t2l)) 16 + Z.shiftr (sint (t2h * t1l)) 16.

Definition mult (t1 t2 : Z) (s : cpu) : cpu :=
  let neg := xorb (t1 <? 0) (t2 <? 0) in
  let t1 := if t1 <? 0 then sint (- t1) else t1 in
  let t2 := if t2 <? 0 then sint (- t2) else t2 in
  let lo := sint (t1 * t2) in
  let hi := sint (high_word t1 t2) in
  if neg then
    let lo' := sint (Z.lnot lo + 1) in
    let hi' := Z.lnot hi in
    setHI (if lo' =? 0 then hi' + 1 else hi') (setLO lo' s)
  else setHI hi (setLO lo s).

(** [case I_SPECIAL]. *)
Definition exec_special (instr xpc : Z) (s : cpu) : res cpu :=
  let rs := R s (f_rs instr) in
  let rt := R s (f_rt instr) in
  let rd v := setR (f_rd instr) v s in
  match Z.land instr 0x3f with
  | 0 (* I_SLL *) => mret (rd (Z.shiftl rt (shamt instr)))
  | 2 (* I_SRL *) => mret (rd (Z.shiftr (uint rt) (shamt instr)))
  | 3 (* I_SRA *) => mret (rd (Z.shiftr rt (shamt instr)))
  | 4 (* I_SLLV *) => n ← shift_count rs; mret (rd (Z.shiftl rt n))
  | 6 (* I_SRLV *) => n ← shift_count rs; mret (rd (Z.shiftr (uint rt) n))
  | 7 (* I_SRAV *) => n ← shift_count rs; mret (rd (Z.shiftr rt n))
  | 8 (* I_JR *) => mret (set_npc rs s)
  | 9 (* I_JALR *) => mret (setR (f_rd instr) (xpc + 8) (set_npc rs s))
  | 12 (* I_SYSCALL *) => system_trap s
  | 13 (* I_BREAK *) => system_trap s
  | 16 (* I_MFHI *) => mret (rd (HI s))
  | 17 (* I_MTHI *) => mret (setHI rs s)
  | 18 (* I_MFLO *) => mret (rd (LO s))
  | 19 (* I_MTLO *) => mret (setLO rs s)
  | 24 (* I_MULT *) => mret (mult rs rt s)
  | 25 (* I_MULTU *) => mret (setHI (high_word rs rt) (setLO (rs * rt) s))
  | 26 (* I_DIV *) =>
      if (rt =? 0) || signed_quot_traps rs rt then Err HostTrap
      else mret (setHI (Z.rem rs rt) (setLO (Z.quot rs rt) s))
  | 27 (* I_DIVU *) =>
      if rt =? 0 then Err HostTrap
      else mret (setHI (uint rs `mod` uint rt) (setLO (uint rs / uint rt) s))
  | 32 (* I_ADD *) | 33 (* I_ADDU *) => mret (rd (rs + rt))
  | 34 (* I_SUB *) | 35 (* I_SUBU *) => mret (rd (rs - rt))
  | 36 (* I_AND *) => mret (rd (Z.land rs rt))
  | 37 (* I_OR *) => mret (rd (Z.lor rs rt))
  | 38 (* I_XOR *) => mret (rd (Z.lxor rs rt))
  | 39 (* I_NOR *) => mret (rd (Z.lnot (Z.lor rs rt)))
  | 42 (* I_SLT *) => mret (rd (if rs <? rt then 1 else 0))
  | 43 (* I_SLTU *) => mret (rd (if uint rs <? uint rt then 1 else 0))
  | _ => Err Halted
  end.

(** [npc = xpc + 4 + (immed(instr)<<2)]. *)
Definition branch (instr xpc : Z) (taken : bool) (s : cpu) : cpu :=
  if taken then set_npc (xpc + 4 + Z.shiftl (immed instr) 2) s else s.

(** [case I_BCOND]. *)
Definition exec_bcond (instr xpc : Z) (s : cpu) : res cpu :=
  match f_rt instr with
  | 0 (* I_BLTZ *) => mret (branch instr xpc (R s (f_rs instr) <? 0) s)
  | 1 (* I_BGEZ *) => mret (branch instr xpc (0 <=? R s (f_rs instr)) s)
  | 16 (* I_BLTZAL *) => let s := setR 31 (xpc + 8) s in mret (branch instr xpc (R s (f_rs instr) <? 0) s)
  | 17 (* I_BGEZAL *) => let s := setR 31 (xpc + 8) s in mret (branch instr xpc (0 <=? R s (f_rs instr)) s)
  | _ => Err Halted
  end.

(** The loads and stores. *)
Definition exec_memory (instr : Z) (s : cpu) : res cpu :=
  let rt v := setR (f_rt instr) v s in
  let i := sint (R s (f_rs instr) + immed instr) in
  let word := uint (Z.land i (-4)) in
  match Z.land (Z.shiftr instr 26) 0x3f with
  | 32 (* I_LB *) => v ← load_n 1 i s; mret (rt (signed 1 v))
  | 33 (* I_LH *) => v ← load_n 2 i s; mret (rt (signed 2 v))
  | 34 (* I_LWL *) =>
      let r := Z.land (R s (f_rt instr)) (Z.shiftr (-1) (8 * Z.land (- i) 3)) in
      v ← fetch word s; mret (rt (Z.lor r (Z.shiftl v (8 * Z.land i 3))))
  | 35 (* I_LW *) => v ← fetch i s; mret (rt v)
  | 36 (* I_LBU *) => v ← load_n 1 i s; mret (rt v)
  | 37 (* I_LHU *) => v ← load_n 2 i s; mret (rt v)
  | 38 (* I_LWR *) =>
      let r := if Z.land i 3 =? 0 then 0 else Z.land (R s (f_rt instr)) (Z.shiftl (-1) (8 * Z.land i 3)) in
      v ← fetch word s; mret (rt (Z.lor r (Z.shiftr v (8 * Z.land (- i) 3))))
  | 40 (* I_SB *) => store_n 1 i (R s (f_rt instr)) s
  | 41 (* I_SH *) => store_n 2 i (R s (f_rt instr)) s
  | 43 (* I_SW *) => store_n 4 i (R s (f_rt instr)) s
  | _ => Err Halted
  end.

(** The outer switch. *)
Definition exec_instr (instr xpc : Z) (s : cpu) : res cpu :=
  let rs := R s (f_rs instr) in
  let rt := R s (f_rt instr) in
  let rt' v := setR (f_rt instr) v s in
  let target := Z.lor (Z.land xpc 0xf0000000) (Z.shiftl (Z.land instr 0x03ffffff) 2) in
  match Z.land (Z.shiftr instr 26) 0x3f with
  | 0 (* I_SPECIAL *) => exec_special instr xpc s
  | 1 (* I_BCOND *) => exec_bcond instr xpc s
  | 2 (* I_J *) => mret (set_npc target s)
  | 3 (* I_JAL *) => mret (set_npc target (setR 31 (xpc + 8) s))
  | 4 (* I_BEQ *) => mret (branch instr xpc (rs =? rt) s)
  | 5 (* I_BNE *) => mret (branch instr xpc (negb (rs =? rt)) s)
  | 6 (* I_BLEZ *) => mret (branch instr xpc (rs <=? 0) s)
  | 7 (* I_BGTZ *) => mret (branch instr xpc (0 <? rs) s)
  | 8 (* I_ADDI *) | 9 (* I_ADDIU *) => mret (rt' (rs + immed instr))
  | 10 (* I_SLTI *) => mret (rt' (if rs <? immed instr then 1 else 0))
  | 11 (* I_SLTIU *) => mret (rt' (if uint rs <? uint (immed instr) then 1 else 0))
  | 12 (* I_ANDI *) => mret (rt' (Z.land rs (immed instr)))
  | 13 (* I_ORI *) => mret (rt' (Z.lor rs (immed instr)))
  | 14 (* I_XORI *) => mret (rt' (Z.lxor rs (immed instr)))
  | 15 (* I_LUI *) => mret (rt' (Z.shiftl instr 16))
  | _ => exec_memory instr s
  end.

(** One round of the loop of [runprogram]; the counter [icount] is not used. *)
Definition round (s : cpu) : res cpu :=
  let xpc := pc s in
  let s := mkCpu (Reg s) (HI s) (LO s) (npc s) (sint (npc s + 4)) (mem s) in
  instr ← fetch xpc s;
  let s := mkCpu (<[0%nat := 0]> (Reg s)) (HI s) (LO s) (pc s) (npc s) (mem s) in
  if instr =? 0 then mret s else exec_instr instr xpc s.

End Interpreter.

(** ** Fields and immediates *)

(** The two programs take the fields out of an [int] and out of an [unsigned]. *)
Lemma field_uint w n m : 0 ≤ n → 0 ≤ m → n + m ≤ 32 →
  Z.land (Z.shiftr (uint w) n) (Z.ones m) = Z.land (Z.shiftr w n) (Z.ones m).
Proof.
  intros Hn Hm Hs. apply Z.bits_inj'. intros i Hi. rewrite !Z.land_spec, !Z.shiftr_spec by done.
  destruct (decide (i < m)) as [Hlt|Hge]; [|by rewrite Z.ones_spec_high, !andb_false_r by lia].
  by rewrite uint_testbit, bool_decide_eq_true_2 by lia.
Qed.

Lemma low_uint w m : 0 ≤ m ≤ 32 → Z.land (uint w) (Z.ones m) = Z.land w (Z.ones m).
Proof. intros Hm. exact (field_uint w 0 m ltac:(lia) ltac:(lia) ltac:(lia)). Qed.

Lemma field_range w n : 0 ≤ Z.land (Z.shiftr w n) 0x1f < 32.
Proof. apply (land_ones_range (Z.shiftr w n) 5). lia. Qed.

(** Both sign-extend the low half of the word. *)
Definition extended (w : Z) : Z := let x := w `mod` 65536 in if bool_decide (x < 32768) then x else x - 65536.

Lemma bit15 w : negb (Z.land w 0x8000 =? 0) = negb (bool_decide (w `mod` 65536 < 32768)).
Proof.
  replace (Z.land w 0x8000) with (Z.land w (uint (Z.shiftl 1 15))) by done. rewrite land_one_zero by lia.
  rewrite Z.testbit_odd, Z.shiftr_div_pow2 by lia. change (2 ^ 15) with 32768. rewrite Zodd_mod.
  case_bool_decide; cbn [negb].
  - apply Z.eqb_neq. lia.
  - apply Z.eqb_eq. lia.
Qed.

Lemma immed_extended w : immed w = extended w.
Proof.
  unfold immed, extended. rewrite bit15. case_bool_decide as Hx; cbn [negb].
  - change 0x7fff with (2 ^ 15 - 1). rewrite land_pow2 by lia. lia.
  - change (-0x8000) with (Z.lnot (Z.ones 15)).
    assert (E : Z.lor w (Z.lnot (Z.ones 15)) = Z.lnot (Z.land (Z.lnot w) (Z.ones 15))).
    { by rewrite Z.lnot_land, Z.lnot_involutive. }
    rewrite E, Z.land_ones by lia. unfold Z.lnot. lia.
Qed.

Lemma extra_extended w : let extra := Z.land (uint w) 0xffff in
  (if negb (Z.land extra 0x8000 =? 0) then sint (Z.lor extra 0xffff0000) else extra) = extended w.
Proof.
  intros extra. assert (Hx : extra = w `mod` 65536).
  { subst extra. change 0xffff with (2 ^ 16 - 1). rewrite land_pow2 by lia. unfold uint. lia. }
  rewrite bit15, Hx, Z.mod_mod by lia. unfold extended. case_bool_decide as Hlt; cbn [negb]; [done|].
  pose proof (Z.add_lor_land (w `mod` 65536) 0xffff0000) as E.
  assert (E0 : Z.land (w `mod` 65536) 0xffff0000 = 0).
  { change 65536 with (2 ^ 16). rewrite <- (land_pow2 w 16), <- Z.land_assoc by lia. by rewrite Z.land_0_r. }
  rewrite E0 in E. unfold sint. lia.
Qed.

(** ** The two machines *)

(** Between two instructions: the machine has the registers of the interpreter
    and no load pending. *)
Record sim (s : cpu) (k : Machine) : Prop := {
  sim_length : length (Reg s) = 32%nat;
  sim_ints : Forall is_int (Reg s) ∧ is_int (HI s) ∧ is_int (LO s) ∧ is_int (pc s) ∧ is_int (npc s);
  sim_regs : ∃ prev lv bad,
    m_registers k = <[0%nat := 0]> (Reg s) ++ [HI s; LO s; pc s; npc s; prev; 0; lv; bad]
}.

(** While the instruction at [xpc] is executed: the interpreter's [pc] and [npc]
    have moved on, the machine's have not. *)
Record inside (xpc : Z) (s : cpu) (k : Machine) : Prop := {
  in_length : length (Reg s) = 32%nat;
  in_ints : Forall is_int (Reg s) ∧ is_int (HI s) ∧ is_int (LO s) ∧ is_int (pc s);
  in_regs : ∃ prev lv bad, m_registers k = Reg s ++ [HI s; LO s; xpc; pc s; prev; 0; lv; bad]
}.

Lemma R_int s i : Forall is_int (Reg s) → is_int (R s i).
Proof.
  intros H. unfold R. destruct (Reg s !! Z.to_nat i) as [v|] eqn:E; [|done]. by eapply Forall_lookup_1 in H.
Qed.

Section Agree.
Context (h : ExceptionType → M Machine unit) (xpc : Z).
Implicit Types (s : cpu) (k : Machine).

Lemma cpu_get s k i : inside xpc s k → 0 ≤ i < 32 → reg_get i k = Ok (R s i, k).
Proof.
  intros [Hl _ (p & lv & bad & E)] Hi. unfold reg_get. rewrite bool_decide_eq_true_2 by lia. rewrite E.
  rewrite lookup_app_l by lia. unfold R. destruct (lookup_lt_is_Some_2 (Reg s) (Z.to_nat i)) as [v Hv]; [lia|].
  by rewrite Hv.
Qed.

Lemma get_special s k : inside xpc s k →
  reg_get HiReg k = Ok (HI s, k) ∧ reg_get LoReg k = Ok (LO s, k) ∧ reg_get NextPCReg k = Ok (pc s, k).
Proof.
  intros [Hl _ (p & lv & bad & E)]. unfold reg_get. rewrite !bool_decide_eq_true_2 by done. rewrite E.
  rewrite !lookup_app_r by (rewrite Hl; apply Nat.leb_le; reflexivity). rewrite Hl. done.
Qed.

Lemma set_reg s k i v : inside xpc s k → 0 ≤ i < 32 → ∃ k', W i v k = Ok (tt, k') ∧ inside xpc (setR i v s) k'.
Proof.
  intros [Hl (H1 & H2 & H3 & H4) (p & lv & bad & E)] Hi. unfold W, reg_set. rewrite E.
  rewrite bool_decide_eq_true_2 by (rewrite length_app, Hl; cbn; lia). eexists. split; [reflexivity|]. split.
  - cbn. by rewrite length_insert.
  - cbn. split_and!; try done. apply Forall_insert; [done|apply sint_range].
  - exists p, lv, bad. cbn. by rewrite insert_app_l by lia.
Qed.

Lemma set_hi s k v : inside xpc s k → ∃ k', W HiReg v k = Ok (tt, k') ∧ inside xpc (setHI v s) k'.
Proof.
  intros [Hl (H1 & H2 & H3 & H4) (p & lv & bad & E)]. unfold W, reg_set. rewrite E.
  rewrite bool_decide_eq_true_2 by (rewrite length_app, Hl; done). eexists. split; [reflexivity|]. split; [done| |].
  - cbn. split_and!; try done. apply sint_range.
  - exists p, lv, bad. cbn [m_registers set_regs]. rewrite insert_app_r_alt by (rewrite Hl; apply Nat.leb_le; done).
    by rewrite Hl.
Qed.

Lemma set_lo s k v : inside xpc s k → ∃ k', W LoReg v k = Ok (tt, k') ∧ inside xpc (setLO v s) k'.
Proof.
  intros [Hl (H1 & H2 & H3 & H4) (p & lv & bad & E)]. unfold W, reg_set. rewrite E.
  rewrite bool_decide_eq_true_2 by (rewrite length_app, Hl; done). eexists. split; [reflexivity|]. split; [done| |].
  - cbn. split_and!; try done. apply sint_range.
  - exists p, lv, bad. cbn [m_registers set_regs]. rewrite insert_app_r_alt by (rewrite Hl; apply Nat.leb_le; done).
    by rewrite Hl.
Qed.

(** [m] leaves the machine as the interpreter is in [s']. *)
Definition reaches (m : M Machine outcome) (s' : cpu) k : Prop :=
  ∃ k', m k = Ok (Break (npc s') 0 0, k') ∧ inside xpc s' k'.

Lemma reaches_W s k i v : inside xpc s k → 0 ≤ i < 32 →
  reaches (W i v ≫= λ _, mret (Break (npc s) 0 0)) (setR i v s) k.
Proof.
  intros Hin Hi. destruct (set_reg s k i v Hin Hi) as (k' & E & Hin'). exists k'. by rewrite (bind_run _ _ _ _ _ E).
Qed.

Lemma reaches_hilo s k hi lo : inside xpc s k →
  reaches (W LoReg lo ≫= λ _, W HiReg hi ≫= λ _, mret (Break (npc s) 0 0)) (setHI hi (setLO lo s)) k.
Proof.
  intros Hin. destruct (set_lo s k lo Hin) as (k1 & E1 & H1). destruct (set_hi _ k1 hi H1) as (k2 & E2 & H2).
  exists k2. by rewrite (bind_run _ _ _ _ _ E1), (bind_run _ _ _ _ _ E2).
Qed.

Lemma inside_npc s k v : inside xpc s k → inside xpc (set_npc v s) k.
Proof. by intros []. Qed.

Lemma reaches_jump s k v : inside xpc s k → is_int v → reaches (mret (Break v 0 0)) (set_npc v s) k.
Proof.
  intros Hin Hv. exists k. cbn. rewrite (sint_id v Hv). split; [done|]. by apply inside_npc.
Qed.

(** The end of [OneInstruction]. *)
Lemma advance_sim s k : inside xpc s k → is_int (npc s) →
  ∃ k', (DelayedLoad 0 0 ≫= λ _,
         pc' ← reg_get PCReg;
         reg_set PrevPCReg pc' ≫= λ _,
         npc' ← reg_get NextPCReg;
         reg_set PCReg npc' ≫= λ _,
         reg_set NextPCReg (npc s)) k = Ok (tt, k') ∧ sim s k'.
Proof.
  intros [Hl (H1 & H2 & H3 & H4) (p & lv & bad & E)] Hn. destruct (Reg s) as [|r0 rs] eqn:Er; [done|].
  do 31 (destruct rs as [|? rs]; [done|]). destruct rs; [|done].
  destruct k as [mm regs tl pt sz]. cbn in E. subst regs. eexists. split; [reflexivity|]. split.
  - by rewrite Er.
  - by rewrite Er.
  - exists xpc, 0, bad. by rewrite Er.
Qed.

End Agree.

(** ** Where the two agree *)

(** The instruction is not in the delay slot of a jump. *)
Definition in_sequence (xpc : Z) (s : cpu) : Prop := pc s = sint (xpc + 4).
(** The target of a jump is in the same 256 MB for both, which take the high bits
    from the instruction and from the one after the next. *)
Definition same_region (xpc : Z) (s : cpu) : Prop := Z.land (uint (npc s)) 0xf0000000 = Z.land xpc 0xf0000000.

(** Operands on which the interpreter and the simulator do the same.  Loads,
    stores, multiplications and traps are left out. *)
Definition agrees (op : opcode) (w xpc : Z) (s : cpu) : Prop :=
  let rs := R s (f_rs w) in
  let rt := R s (f_rt w) in
  match op with
  | OP_ADDU | OP_ADDIU | OP_SUBU | OP_AND | OP_XOR | OP_NOR | OP_SLT | OP_SLTI | OP_SLTU | OP_SLTIU
  | OP_SLL | OP_SRA | OP_LUI | OP_MFHI | OP_MFLO | OP_MTHI | OP_MTLO | OP_JR => True
  | OP_ADD => is_int (rs + rt)
  | OP_ADDI => is_int (rs + immed w)
  | OP_SUB => is_int (rs - rt)
  | OP_OR => Z.lor rs rt = rs
  | OP_SRL => 0 ≤ rt
  | OP_SLLV | OP_SRAV => 0 ≤ rs < 32
  | OP_SRLV => 0 ≤ rs < 32 ∧ 0 ≤ rt
  | OP_ANDI | OP_ORI | OP_XORI => 0 ≤ immed w
  | OP_DIV => rt ≠ 0 ∧ signed_quot_traps rs rt = false
  | OP_DIVU => rt ≠ 0
  | OP_BEQ | OP_BNE | OP_BLEZ | OP_BGTZ | OP_BLTZ | OP_BGEZ | OP_BLTZAL | OP_BGEZAL => in_sequence xpc s
  | OP_J => same_region xpc s
  | OP_JAL => same_region xpc s ∧ in_sequence xpc s
  | OP_JALR => in_sequence xpc s ∧ f_rd w ≠ f_rs w
  | _ => False
  end.

Section Simulation.
Context (h : ExceptionType → M Machine unit) (trap' : cpu → res cpu) (xpc w : Z) (s : cpu) (k : Machine).
Hypothesis (Hw : is_int w) (Hin : inside xpc s k) (Hnpc : npc s = sint (pc s + 4)).

(** The instruction as [Decode] has it. *)
Definition instr_of (op : opcode) (extra : Z) : Instruction := mkInstr op (f_rs w) (f_rt w) (f_rd w) extra.

(** Both execute the instruction, with the same result. *)
Definition both (i : Instruction) (r : res cpu) : Prop :=
  ∃ s', r = Ok s' ∧ is_int (npc s') ∧ reaches xpc (execute h i (npc s)) s' k.

Lemma npc_int : is_int (npc s).
Proof. rewrite Hnpc. apply sint_range. Qed.

Lemma both_W op extra i v v' r : execute h (instr_of op extra) (npc s) k = (W i v ≫= λ _, mret (Break (npc s) 0 0)) k →
  0 ≤ i < 32 → sint v' = sint v → r = Ok (setR i v' s) → both (instr_of op extra) r.
Proof.
  intros E Hi Hv ->. exists (setR i v' s). split; [done|]. split; [exact npc_int|]. unfold reaches. rewrite E.
  replace (setR i v' s) with (setR i v s) by (unfold setR; by rewrite Hv). by apply reaches_W.
Qed.

Lemma regs_run {A} (f : Z → Z → M Machine A) :
  (rs ← reg_get (f_rs w); rt ← reg_get (f_rt w); f rs rt) k = f (R s (f_rs w)) (R s (f_rt w)) k.
Proof.
  rewrite (bind_run _ _ _ _ _ (cpu_get xpc s k _ Hin (field_range w 21))).
  by rewrite (bind_run _ _ _ _ _ (cpu_get xpc s k _ Hin (field_range w 16))).
Qed.

Lemma npc_run {A} (f : Z → M Machine A) : (npc ← reg_get NextPCReg; f npc) k = f (pc s) k.
Proof. by rewrite (bind_run _ _ _ _ _ (proj2 (proj2 (get_special xpc s k Hin)))). Qed.

Lemma rs_run {A} (f : Z → M Machine A) : (rs ← reg_get (f_rs w); f rs) k = f (R s (f_rs w)) k.
Proof. by rewrite (bind_run _ _ _ _ _ (cpu_get xpc s k _ Hin (field_range w 21))). Qed.

Ltac enter := unfold execute; cbn [i_opCode instr_of]; unfold exec_1, exec_2, exec_3, exec_4, exec_5, with_rs_rt;
  cbn [i_opCode i_rs i_rt i_rd i_extra instr_of]; cbv zeta; rewrite ?npc_run, ?regs_run, ?rs_run.

Lemma rs_int : is_int (R s (f_rs w)).
Proof. apply R_int, (in_ints xpc s k Hin). Qed.
Lemma rt_int : is_int (R s (f_rt w)).
Proof. apply R_int, (in_ints xpc s k Hin). Qed.

(** A computation whose result goes to a register. *)
Ltac alu := eapply both_W; [enter; reflexivity|apply field_range| |reflexivity].

Lemma land31 n : 0 ≤ n < 32 → Z.land n 0x1f = n.
Proof. intros Hn. change 0x1f with (2 ^ 5 - 1). rewrite land_pow2 by lia. change (2 ^ 5) with 32. lia. Qed.

Lemma uint_nonneg v : is_int v → 0 ≤ v → uint v = v.
Proof. unfold is_int, uint, int_max. lia. Qed.

Lemma both_jump op extra v : execute h (instr_of op extra) (npc s) k = Ok (Break (sint v) 0 0, k) →
  both (instr_of op extra) (Ok (set_npc v s)).
Proof.
  intros E. eexists. split; [reflexivity|]. split; [apply sint_range|]. exists k. rewrite E. split; [done|].
  by apply inside_npc.
Qed.

Lemma jalr_agrees extra : in_sequence xpc s → f_rd w ≠ f_rs w →
  both (instr_of OP_JALR extra) (Ok (setR (f_rd w) (xpc + 8) (set_npc (R s (f_rs w)) s))).
Proof.
  intros Hseq Hne. destruct (set_reg xpc s k (f_rd w) (pc s + 4) Hin (field_range w 11)) as (k1 & E1 & H1).
  eexists. split; [reflexivity|]. split; [apply sint_range|].
  exists k1. enter. rewrite (bind_run _ _ _ _ _ E1).
  rewrite (bind_run _ _ _ _ _ (cpu_get xpc _ k1 (f_rs w) H1 (field_range w 21))). cbn [npc set_npc setR].
  replace (R (setR (f_rd w) (pc s + 4) s) (f_rs w)) with (R s (f_rs w)).
  - rewrite (sint_id _ rs_int). split; [done|]. apply (inside_npc xpc _ _ (R s (f_rs w))) in H1. revert H1.
    unfold set_npc, setR. cbn. rewrite Hseq, sint_add. by replace (xpc + 4 + 4) with (xpc + 8) by lia.
  - unfold R, setR. cbn. pose proof (field_range w 11). pose proof (field_range w 21). unfold f_rd, f_rs in *.
    by rewrite list_lookup_insert_ne by lia.
Qed.

Lemma muldiv_agrees op extra hi lo : execute h (instr_of op extra) (npc s) k =
    (W LoReg lo ≫= λ _, W HiReg hi ≫= λ _, mret (Break (npc s) 0 0)) k →
  both (instr_of op extra) (Ok (setHI hi (setLO lo s))).
Proof.
  intros E. eexists. split; [reflexivity|]. split; [exact npc_int|]. unfold reaches. rewrite E. by apply reaches_hilo.
Qed.

Lemma move_agrees extra :
  both (instr_of OP_MFHI extra) (Ok (setR (f_rd w) (HI s) s)) ∧ both (instr_of OP_MFLO extra) (Ok (setR (f_rd w) (LO s) s)) ∧
  both (instr_of OP_MTHI extra) (Ok (setHI (R s (f_rs w)) s)) ∧ both (instr_of OP_MTLO extra) (Ok (setLO (R s (f_rs w)) s)).
Proof.
  destruct (get_special xpc s k Hin) as (E1 & E2 & _). split_and!.
  - eapply both_W; [enter; by rewrite (bind_run _ _ _ _ _ E1)|apply field_range|done|done].
  - eapply both_W; [enter; by rewrite (bind_run _ _ _ _ _ E2)|apply field_range|done|done].
  - destruct (set_hi xpc s k (R s (f_rs w)) Hin) as (k' & E & H). eexists. split; [done|]. split; [exact npc_int|].
    exists k'. enter. by rewrite (bind_run _ _ _ _ _ E).
  - destruct (set_lo xpc s k (R s (f_rs w)) Hin) as (k' & E & H). eexists. split; [done|]. split; [exact npc_int|].
    exists k'. enter. by rewrite (bind_run _ _ _ _ _ E).
Qed.

Lemma special_agrees op : specialTable !! Z.to_nat (Z.land w 0x3f) = Some op → agrees op w xpc s →
  both (instr_of op (shamt w)) (exec_special trap' w xpc s).
Proof.
  pose proof rs_int as Hrs. pose proof rt_int as Hrt. pose proof (land_ones_range w 6 ltac:(lia)) as Hc.
  change (2 ^ 6 - 1) with 0x3f in Hc. change (2 ^ 6) with 64 in Hc. unfold exec_special. cbv zeta.
  destruct (move_agrees (shamt w)) as (M1 & M2 & M3 & M4).
  remember (Z.land w 0x3f) as c eqn:Ec. clear Ec.
  rewrite <- (Z2Nat.id c) by lia. assert (Hn : (Z.to_nat c < 64)%nat) by lia.
  generalize dependent (Z.to_nat c). clear c Hc. intros n Hn.
  do 64 try (destruct n as [|n]); [..|lia]; cbn [specialTable lookup list_lookup Z.of_nat Pos.of_succ_nat Pos.succ]; intros [= <-]; cbn [agrees]; intros Hag; try contradiction.
  - alu. done.
  - alu. by rewrite uint_nonneg.
  - alu. done.
  - unfold shift_count. rewrite bool_decide_eq_true_2 by done. alu. by rewrite land31.
  - unfold shift_count. destruct Hag as [Hag H0]. rewrite bool_decide_eq_true_2 by done. alu. by rewrite land31, uint_nonneg.
  - unfold shift_count. rewrite bool_decide_eq_true_2 by done. alu. by rewrite land31.
  - apply both_jump. enter. by rewrite sint_id.
  - destruct Hag. by apply jalr_agrees.
  - exact M1.
  - exact M3.
  - exact M2.
  - exact M4.
  - destruct Hag as [H0 Hq]. apply Z.eqb_neq in H0. rewrite H0, Hq. cbn [orb]. apply muldiv_agrees. enter. by rewrite H0, Hq.
  - assert (H0 : (R s (f_rt w) =? 0) = false) by (by apply Z.eqb_neq).
    assert (H1 : (uint (R s (f_rt w)) =? 0) = false) by (apply Z.eqb_neq; unfold is_int, int_min, int_max, uint in *; lia).
    rewrite H0. apply muldiv_agrees. enter. by rewrite H1.
  - eapply both_W; [enter; rewrite add_overflow, bool_decide_eq_true_2 by done; reflexivity|apply field_range| |reflexivity].
    by rewrite (sint_id (sint _)) by apply sint_range.
  - alu. done.
  - eapply both_W; [enter; rewrite sub_overflow, bool_decide_eq_true_2 by done; reflexivity|apply field_range| |reflexivity].
    by rewrite (sint_id (sint _)) by apply sint_range.
  - alu. done.
  - alu. done.
  - alu. by rewrite Hag, Z.lor_diag.
  - alu. done.
  - alu. done.
  - alu. done.
  - alu. done.
Qed.

(** *** Branches *)

Lemma target_eq : in_sequence xpc s → sint (pc s + IndexToAddr (immed w)) = sint (xpc + 4 + Z.shiftl (immed w) 2).
Proof. intros ->. apply sint_add. Qed.

Lemma both_branch op taken : in_sequence xpc s →
  execute h (instr_of op (immed w)) (npc s) k =
    Ok (Break (if taken : bool then sint (pc s + IndexToAddr (immed w)) else npc s) 0 0, k) →
  both (instr_of op (immed w)) (Ok (branch w xpc taken s)).
Proof.
  intros Hseq E. unfold branch. destruct taken.
  - apply both_jump. by rewrite E, target_eq.
  - exists s. split; [done|]. split; [exact npc_int|]. by exists k.
Qed.

Lemma nonneg_sign v : is_int v → negb (sign v) = (0 <=? v).
Proof. intros Hv. rewrite sign_int by done. by rewrite <- Z.leb_antisym. Qed.

(** The branches that also link. *)
Lemma both_link op (test : Z → bool) : in_sequence xpc s →
  execute h (instr_of op (immed w)) (npc s) k =
    (W R31 (pc s + 4) ≫= λ _, rs' ← reg_get (f_rs w);
     mret (Break (if test rs' then sint (pc s + IndexToAddr (immed w)) else npc s) 0 0)) k →
  both (instr_of op (immed w))
    (let s' := setR 31 (xpc + 8) s in Ok (branch w xpc (test (R s' (f_rs w))) s')).
Proof.
  intros Hseq E. destruct (set_reg xpc s k R31 (pc s + 4) Hin ltac:(done)) as (k1 & E1 & H1).
  assert (Hs : setR R31 (pc s + 4) s = setR 31 (xpc + 8) s).
  { unfold setR, R31. rewrite Hseq, sint_add. by replace (xpc + 4 + 4) with (xpc + 8) by lia. }
  rewrite Hs in H1. cbv zeta. eexists. split; [reflexivity|]. unfold reaches. rewrite E, (bind_run _ _ _ _ _ E1).
  rewrite (bind_run _ _ _ _ _ (cpu_get xpc _ k1 (f_rs w) H1 (field_range w 21))).
  destruct (test (R (setR 31 (xpc + 8) s) (f_rs w))); cbn [branch].
  - split; [apply sint_range|]. exists k1. cbn [npc set_npc]. rewrite <- target_eq by done. split; [done|].
    by apply inside_npc.
  - split; [exact npc_int|]. by exists k1.
Qed.

Lemma R_setR_int i v j : is_int (R (setR i v s) j).
Proof. apply R_int. cbn. apply Forall_insert; [apply (in_ints xpc s k Hin)|apply sint_range]. Qed.

Lemma link_test op f g : (∀ v, is_int v → f v = g v) → in_sequence xpc s →
  execute h (instr_of op (immed w)) (npc s) k =
    (W R31 (pc s + 4) ≫= λ _, rs' ← reg_get (f_rs w);
     mret (Break (if f rs' : bool then sint (pc s + IndexToAddr (immed w)) else npc s) 0 0)) k →
  both (instr_of op (immed w))
    (let s' := setR 31 (xpc + 8) s in Ok (branch w xpc (g (R s' (f_rs w))) s')).
Proof. intros Hfg Hseq E. cbv zeta. rewrite <- Hfg by apply R_setR_int. by apply both_link. Qed.

Lemma bcond_agrees op : (op, f_rt w) ∈ [(OP_BLTZ, 0); (OP_BGEZ, 1); (OP_BLTZAL, 16); (OP_BGEZAL, 17)] →
  in_sequence xpc s → both (instr_of op (immed w)) (exec_bcond w xpc s).
Proof.
  pose proof rs_int as Hrs. intros Hop Hseq. unfold exec_bcond.
  repeat (apply elem_of_cons in Hop as [[= -> ->]|Hop]); [..|by apply elem_of_nil in Hop].
  - apply both_branch; [done|]. enter. by rewrite sign_int.
  - apply both_branch; [done|]. enter. by rewrite nonneg_sign.
  - apply (link_test OP_BLTZAL sign (λ v, v <? 0)); [apply sign_int|done|]. by enter.
  - apply (link_test OP_BGEZAL (λ v, negb (sign v)) (λ v, 0 <=? v)); [apply nonneg_sign|done|]. by enter.
Qed.

(** *** The other formats *)

Lemma low_half : 0 ≤ immed w → Z.land (immed w) 0xffff = immed w.
Proof.
  rewrite immed_extended. unfold extended. intros H0. change 0xffff with (2 ^ 16 - 1). rewrite land_pow2 by lia.
  change (2 ^ 16) with 65536. case_bool_decide; lia.
Qed.

Lemma immed_int : is_int (immed w).
Proof. rewrite immed_extended. unfold extended, is_int, int_min, int_max. case_bool_decide; lia. Qed.

Lemma lui_eq : sint (Z.shiftl w 16) = sint (Z.shiftl (immed w) 16).
Proof. rewrite immed_extended, !Z.shiftl_mul_pow2 by lia. unfold extended, sint. case_bool_decide; lia. Qed.

Lemma region_eq extra : same_region xpc s →
  sint (Z.lor (Z.land (uint (npc s)) 0xf0000000) (IndexToAddr extra)) =
  sint (Z.lor (Z.land xpc 0xf0000000) (Z.shiftl extra 2)).
Proof. by intros ->. Qed.

Definition extra_of (f : format) : Z :=
  match f with IFMT => immed w | RFMT => shamt w | JFMT => Z.land w 0x3ffffff end.

Lemma outer_agrees op f : opTable !! Z.to_nat (Z.land (Z.shiftr w 26) 0x3f) = Some (op, f) →
  op ≠ SPECIAL → op ≠ BCOND → agrees op w xpc s → both (instr_of op (extra_of f)) (exec_instr trap' w xpc s).
Proof.
  pose proof rs_int as Hrs. pose proof rt_int as Hrt. pose proof immed_int as Hi.
  pose proof (land_ones_range (Z.shiftr w 26) 6 ltac:(lia)) as Hc.
  change (2 ^ 6 - 1) with 0x3f in Hc. change (2 ^ 6) with 64 in Hc. unfold exec_instr. cbv zeta.
  remember (Z.land (Z.shiftr w 26) 0x3f) as c eqn:Ec. clear Ec.
  rewrite <- (Z2Nat.id c) by lia. assert (Hn : (Z.to_nat c < 64)%nat) by lia.
  generalize dependent (Z.to_nat c). clear c Hc. intros n Hn.
  do 64 try (destruct n as [|n]); [..|lia]; cbn [opTable lookup list_lookup Z.of_nat Pos.of_succ_nat Pos.succ];
    intros [= <- <-] Hsp Hbc; cbn [agrees extra_of]; intros Hag; try contradiction; try done.
  - apply both_jump. enter. rewrite region_eq by done. done.
  - destruct Hag as [Hreg Hseq].
    destruct (set_reg xpc s k R31 (pc s + 4) Hin ltac:(done)) as (k1 & E1 & H1).
    eexists. split; [reflexivity|]. split; [apply sint_range|]. exists k1. enter. rewrite (bind_run _ _ _ _ _ E1).
    cbn [npc set_npc]. rewrite region_eq by done. split; [done|]. apply inside_npc. revert H1. unfold setR, R31.
    rewrite Hseq, sint_add. by replace (xpc + 4 + 4) with (xpc + 8) by lia.
  - apply both_branch; [done|]. by enter.
  - apply both_branch; [done|]. by enter.
  - apply both_branch; [done|]. by enter.
  - apply both_branch; [done|]. by enter.
  - eapply both_W; [enter|apply field_range| |reflexivity].
    + rewrite Z.lxor_comm, Z.add_comm, add_overflow, bool_decide_eq_true_2 by (done || by rewrite Z.add_comm). reflexivity.
    + rewrite (sint_id (sint _)) by apply sint_range. by rewrite Z.add_comm.
  - alu. done.
  - alu. done.
  - alu. done.
  - alu. by rewrite low_half.
  - alu. by rewrite low_half.
  - alu. by rewrite low_half.
  - alu. apply lui_eq.
Qed.

End Simulation.

(** ** Decoding *)

Lemma opTable_special c op f : opTable !! Z.to_nat (Z.land c 0x3f) = Some (op, f) →
  (op = SPECIAL → Z.land c 0x3f = 0 ∧ f = RFMT) ∧ (op = BCOND → Z.land c 0x3f = 1 ∧ f = IFMT).
Proof.
  pose proof (land_ones_range c 6 ltac:(lia)) as Hc. change (2 ^ 6 - 1) with 0x3f in Hc.
  change (2 ^ 6) with 64 in Hc. rewrite <- (Z2Nat.id (Z.land c 0x3f)) at 2 3 by lia.
  assert (Hn : (Z.to_nat (Z.land c 0x3f) < 64)%nat) by lia. generalize dependent (Z.to_nat (Z.land c 0x3f)).
  intros n Hn. do 64 try (destruct n as [|n]); [..|lia]; intros [= <- <-]; done.
Qed.

Lemma land_shiftl v m n : 0 ≤ n → Z.land v (Z.shiftl m n) = Z.shiftl (Z.land (Z.shiftr v n) m) n.
Proof.
  intros Hn. apply Z.bits_inj'. intros i Hi. rewrite Z.land_spec. destruct (decide (i < n)).
  - by rewrite !Z.shiftl_spec_low, andb_false_r by lia.
  - rewrite !Z.shiftl_spec, Z.land_spec, Z.shiftr_spec by lia. by rewrite Z.sub_add.
Qed.

Lemma bcond_field w : Z.land (uint w) 0x1f0000 = 65536 * f_rt w.
Proof.
  change 0x1f0000 with (Z.shiftl (Z.ones 5) 16).
  rewrite land_shiftl by lia. unfold f_rt. change 0x1f with (Z.ones 5).
  rewrite <- (field_uint w 16 5) by lia. rewrite Z.shiftl_mul_pow2 by lia. change (2 ^ 16) with 65536. lia.
Qed.

Lemma Decode_cases w i : Decode (uint w) = Some i →
  (∃ f, opTable !! Z.to_nat (Z.land (Z.shiftr w 26) 0x3f) = Some (i_opCode i, f) ∧ i_opCode i ≠ SPECIAL ∧
     i_opCode i ≠ BCOND ∧ i = instr_of w (i_opCode i) (extra_of w f)) ∨
  (Z.land (Z.shiftr w 26) 0x3f = 0 ∧ specialTable !! Z.to_nat (Z.land w 0x3f) = Some (i_opCode i) ∧
     i = instr_of w (i_opCode i) (shamt w)) ∨
  (Z.land (Z.shiftr w 26) 0x3f = 1 ∧ i = instr_of w (i_opCode i) (immed w) ∧
     ((i_opCode i, f_rt w) ∈ [(OP_BLTZ, 0); (OP_BGEZ, 1); (OP_BLTZAL, 16); (OP_BGEZAL, 17)] ∨ i_opCode i = OP_UNIMP)).
Proof.
  unfold Decode. cbv zeta. change 0x3f with (Z.ones 6). change 0x1f with (Z.ones 5). change 0x3ffffff with (Z.ones 26).
  rewrite (field_uint w 26 6), (field_uint w 21 5), (field_uint w 16 5), (field_uint w 11 5), (field_uint w 6 5) by lia.
  rewrite (low_uint w 6), (low_uint w 26) by lia. rewrite extra_extended, <- immed_extended, bcond_field.
  destruct (opTable !! _) as [[op f]|] eqn:E; [|done].
  destruct (opTable_special _ _ _ E) as [Hs Hb].
  destruct (decide (op = SPECIAL)) as [->|Hns]; [|destruct (decide (op = BCOND)) as [->|Hnb]].
  - destruct (Hs eq_refl) as [H0 ->]. destruct (specialTable !! _) as [op'|] eqn:E'; [|done]. intros [= <-].
    right. left. by split_and!.
  - destruct (Hb eq_refl) as [H1 ->]. intros Hi. apply (inj Some) in Hi. subst i. right. right. cbn [i_opCode]. split; [done|].
    pose proof (field_range w 16) as Hr. fold (f_rt w) in Hr. unfold instr_of. cbn [i_opCode].
    destruct (Z.eqb_spec (65536 * f_rt w) 0); [split; [done|]; left; replace (f_rt w) with 0 by lia; by left|].
    destruct (Z.eqb_spec (65536 * f_rt w) 0x10000);
      [split; [done|]; left; replace (f_rt w) with 1 by lia; by right; left|].
    destruct (Z.eqb_spec (65536 * f_rt w) 0x100000);
      [split; [done|]; left; replace (f_rt w) with 16 by lia; by do 2 right; left|].
    destruct (Z.eqb_spec (65536 * f_rt w) 0x110000);
      [split; [done|]; left; replace (f_rt w) with 17 by lia; by do 3 right; left|].
    split; [done|by right].
  - intros Hi. left. exists f. destruct op; try done; injection Hi as <-; by split_and!.
Qed.

(** ** The simulation *)

(** The interpreter when it has fetched an instruction. *)
Definition fetched (s : cpu) : cpu :=
  mkCpu (<[0%nat := 0]> (Reg s)) (HI s) (LO s) (npc s) (sint (npc s + 4)) (mem s).

Lemma exec_agrees h trap' xpc w s k i : is_int w → inside xpc s k → npc s = sint (pc s + 4) →
  Decode (uint w) = Some i → agrees (i_opCode i) w xpc s → both h xpc s k i (exec_instr trap' w xpc s).
Proof.
  intros Hw Hin Hnpc Hd Hag. destruct (Decode_cases w i Hd) as [(f & E & Hs & Hb & Hi)|[(H0 & E & Hi)|(H1 & Hi & E)]];
    rewrite Hi; clear Hi Hd; set (op := i_opCode i) in *; clearbody op.
  - by apply outer_agrees.
  - unfold exec_instr. rewrite H0. by apply special_agrees.
  - unfold exec_instr. rewrite H1. destruct E as [E| ->]; [|done]. apply bcond_agrees; try done.
    repeat (apply elem_of_cons in E as [[= -> E']|E]; [done|]). by apply elem_of_nil in E.
Qed.

(** A word 0, which the interpreter skips, shifts register 0 into itself. *)
Lemma exec_nop trap' xpc s : Reg s !! 0%nat = Some 0 → exec_instr trap' 0 xpc s = Ok s.
Proof.
  intros H0. change (exec_instr trap' 0 xpc s) with (Ok (setR 0 (Z.shiftl (R s 0) 0) s)). unfold R, setR.
  change (Z.to_nat 0) with 0%nat. rewrite H0. cbn [default]. rewrite (list_insert_id (Reg s)) by done. by destruct s.
Qed.

(** Reading the instruction leaves the registers alone. *)
Definition same_regs (k k' : Machine) : Prop := m_registers k' = m_registers k.
#[local] Instance same_regs_preorder : PreOrder same_regs.
Proof. split; unfold same_regs; [done|intros k1 k2 k3 H1 H2; congruence]. Qed.

Lemma Translate_regs addr n : respects same_regs (Translate addr n false).
Proof.
  assert (Hu : ∀ i e, respects same_regs (update_entry i e)).
  { intros i e k x k' H. unfold update_entry in H. binds H. unfold same_regs. by repeat case_match. }
  assert (Hf : ∀ v, respects same_regs (find_entry v)) by (intros v; unfold find_entry; respects_tac).
  unfold Translate. respects_tac; by first [apply Hu|apply Hf].
Qed.

Lemma ReadMem_regs h addr k v k' : ReadMem h addr 4 k = Ok (Some v, k') → m_registers k' = m_registers k ∧ is_int v.
Proof.
  unfold ReadMem. intros (a & k1 & E%Translate_regs & H)%bind_Ok. destruct a as [x|pa].
  { by apply bind_Ok in H as (? & ? & _ & [= ]). }
  apply bind_Ok in H as (k2 & k3 & [= <- <-] & H). cbn beta zeta in H.
  rewrite (bool_decide_eq_false_2 (4 = 1)), (bool_decide_eq_false_2 (4 = 2)), (bool_decide_eq_true_2 (4 = 4)) in H by done.
  destruct (load_bytes 4 _ _) as [x|]; [|done]. injection H as <- <-. split; [exact E|apply sint_range].
Qed.

(** C26: the two simulators of the processor agree: from the same registers, on the
    same instruction and operands in [agrees] - the arithmetic that does not
    overflow, the logic, the shifts, the branches, the jumps and the moves, with
    the exceptions [agrees] lists - a round of the interpreter and
    [OneInstruction] both run, and leave the same registers and program
    counters. *)
Theorem simulators_agree h trap' s k w k0 i : sim s k →
  fetch (pc s) s = Ok w → ReadMem h (pc s) 4 k = Ok (Some w, k0) →
  Decode (uint w) = Some i → agrees (i_opCode i) w (pc s) (fetched s) →
  ∃ s' k', round trap' s = Ok s' ∧ OneInstruction h k = Ok (tt, k') ∧ sim s' k'.
Proof.
  intros Hsim Hf Hr Hd Hag. destruct (ReadMem_regs h (pc s) k w k0 Hr) as [Hregs Hw].
  pose proof Hsim as [Hl (H1 & H2 & H3 & H4 & H5) (prev & lv & bad & E)].
  assert (Hin : inside (pc s) (fetched s) k0).
  { split; cbn.
    - by rewrite length_insert.
    - split_and!; try done. by apply Forall_insert.
    - exists prev, lv, bad. by rewrite Hregs. }
  destruct (exec_agrees h trap' (pc s) w (fetched s) k0 i Hw Hin eq_refl Hd Hag) as (s' & Es & Hn & (k1 & Ek & Hin1)).
  destruct (advance_sim (pc s) s' k1 Hin1 Hn) as (k' & Ea & Hs').
  exists s', k'. split; [|split; [|done]].
  - unfold round. change (fetch (pc s) _) with (fetch (pc s) s). rewrite Hf. cbn [mbind res_bind].
    fold (fetched s). destruct (Z.eqb_spec w 0) as [->|]; [|done].
    rewrite exec_nop in Es; [by injection Es as <-|]. cbn. by rewrite list_lookup_insert_eq by lia.
  - unfold OneInstruction.
    assert (Epc : reg_get PCReg k = Ok (pc s, k)).
    { unfold reg_get. rewrite bool_decide_eq_true_2 by done. rewrite E, lookup_app_r; rewrite length_insert, Hl; [done|].
      apply Nat.leb_le. done. }
    rewrite (bind_run _ _ _ _ _ Epc), (bind_run _ _ _ _ _ Hr), Hd.
    rewrite (bind_run _ _ _ _ _ (proj2 (proj2 (get_special _ _ _ Hin)))). cbn [pc fetched].
    change (sint (npc s + 4)) with (npc (fetched s)). rewrite (bind_run _ _ _ _ _ Ek). exact Ea.
Qed.

(** What the interpreter does not share with the processor: the immediate operands
    of ANDI, ORI and XORI are sign-extended, and the high word of a product lacks
    the carries out of its lower half. *)
Lemma interpreter_immediate trap' w xpc s :
  Z.land (Z.shiftr w 26) 0x3f = 13 → exec_instr trap' w xpc s = Ok (setR (f_rt w) (Z.lor (R s (f_rs w)) (extended w)) s).
Proof. intros E. unfold exec_instr. by rewrite E, immed_extended. Qed.

Lemma interpreter_product : high_word 0x1ffff 0x1ffff = 1 ∧ Mult 0x1ffff 0x1ffff true = (3, sint (0x1ffff * 0x1ffff)).
Proof. by vm_compute. Qed.

(** ** An addition *)

(** [addu r3, r1, r2] at the beginning of the interpreter's memory, which a TLB
    maps to the first frame of the machine. *)
Module Addition.

Definition registers : list Z := [0; 5; 7] ++ replicate 29 0.
Definition code : list Z := [0x21; 0x18; 0x22; 0].
Definition s : cpu := mkCpu registers 0 0 memoffset (memoffset + 4) code.
Definition k : Machine :=
  mkMachine code (registers ++ [0; 0; memoffset; memoffset + 4; 0; 0; 0; 0])
    (Some [mkEntry (memoffset / 128) 0 true false false false]) None 0.

Lemma s_sim : sim s k.
Proof.
  split; [done| |by exists 0, 0, 0]. split_and!; [|split; vm_compute; congruence..].
  unfold is_int. apply (bool_decide_unpack _). vm_compute. exact I.
Qed.

End Addition.

Lemma simulators_agree_witness : ∃ s' k', round (λ _, Err Halted) Addition.s = Ok s' ∧
  OneInstruction (λ _, mret tt) Addition.k = Ok (tt, k') ∧ sim s' k'.
Proof.
  eapply (simulators_agree (λ _, mret tt) (λ _, Err Halted) Addition.s Addition.k 0x221821).
  - exact Addition.s_sim.
  - vm_compute. reflexivity.
  - vm_compute. reflexivity.
  - vm_compute. reflexivity.
  - exact I.
Defined.
