(* ===== verification/Disasm.v ===== *)
(** * Disasm: the disassembler, bin/d.c and bin/opstrings.c

    [dump_ascii] prints an instruction; what it prints is a list of pieces, a
    piece for each directive of its calls of [printf], whose conversion of
    numbers to digits is the C library's.  The theorem compares it with a listing
    made from what machine/mipssim.cc decodes. *)

From S2P Require Import Prelude Scheduler Machine Mips Execute.

#[local] Open Scope string_scope.
#[local] Open Scope list_scope.
#[local] Open Scope Z_scope.

(** ** The tables *)

Definition normalops : list string := [
  "special"; "bcond"; "j"; "jal"; "beq"; "bne"; "blez"; "bgtz"; "addi"; "addiu"; "slti"; "sltiu";
  "andi"; "ori"; "xori"; "lui"; "cop0"; "cop1"; "cop2"; "cop3"; "024"; "025"; "026"; "027"; "030";
  "031"; "032"; "033"; "034"; "035"; "036"; "037"; "lb"; "lh"; "lwl"; "lw"; "lbu"; "lhu"; "lwr";
  "047"; "sb"; "sh"; "swl"; "sw"; "054"; "055"; "swr"; "057"; "lwc0"; "lwc1"; "lwc2"; "lwc3";
  "064"; "065"; "066"; "067"; "swc0"; "swc1"; "swc2"; "swc3"; "074"; "075"; "076"; "077" ].

Definition specialops : list string := [
  "sll"; "001"; "srl"; "sra"; "sllv"; "005"; "srlv"; "srav"; "jr"; "jalr"; "012"; "013";
  "syscall"; "break"; "016"; "017"; "mfhi"; "mthi"; "mflo"; "mtlo"; "024"; "025"; "026"; "027";
  "mult"; "multu"; "div"; "divu"; "034"; "035"; "036"; "037"; "add"; "addu"; "sub"; "subu"; "and";
  "or"; "xor"; "nor"; "050"; "051"; "slt"; "sltu"; "054"; "055"; "056"; "057"; "060"; "061";
  "062"; "063"; "064"; "065"; "066"; "067"; "070"; "071"; "072"; "073"; "074"; "075"; "076";
  "077" ].

Definition regstrings : list string := [
  "0"; "r1"; "r2"; "r3"; "r4"; "r5"; "r6"; "r7"; "r8"; "r9"; "r10"; "r11"; "r12"; "r13"; "r14";
  "r15"; "r16"; "r17"; "r18"; "r19"; "r20"; "r21"; "r22"; "r23"; "r24"; "r25"; "r26"; "r27"; "gp";
  "sp"; "r30"; "r31" ].

(** ** The printer *)

(** [%s], [%08x] and [%x]. *)
Inductive piece := Str (s : string) | Hex8 (v : Z) | Hex (v : Z).

(** [\t]. *)
Definition TAB : piece := Str (String (Ascii.ascii_of_nat 9) EmptyString).

(** [R(i)]; the fields of an instruction are below 32. *)
Definition Rname (i : Z) : piece := Str (default EmptyString (regstrings !! Z.to_nat i)).

(** instr.h; the offsets are [int]s. *)
Definition off26 (i : Z) : Z := Z.shiftl (Z.land i 0x3ffffff) 2.
Definition top4 (i : Z) : Z := Z.land i (Z.lnot 0xfffffff).
Definition off16 (i : Z) : Z := sint (Z.shiftl (immed i) 2).

Section Printer.
Context (longdis : bool).

(** The operands of the special instructions. *)
Definition dump_special (instruction : Z) : list piece :=
  let rd := Rname (f_rd instruction) in
  let rs := Rname (f_rs instruction) in
  let rt := Rname (f_rt instruction) in
  match Z.land instruction 0x3f with
  | 0 | 2 | 3 => [rd; Str ","; rt; Str ",0x"; Hex (shamt instruction)]
  | 4 | 6 | 7 => [rd; Str ","; rt; Str ","; rs]
  | 8 | 9 | 18 | 19 (* I_JR, I_JALR, I_MFLO, I_MTLO *) => [rs]
  | 12 | 13 => []
  | 16 | 17 (* I_MFHI, I_MTHI *) => [rd]
  | 24 | 25 | 26 | 27 => [rs; Str ","; rt]
  | 32 | 33 | 34 | 35 | 36 | 37 | 38 | 39 | 42 | 43 => [rd; Str ","; rs; Str ","; rt]
  | _ => []
  end.

Definition dump_bcond (instruction pc : Z) : list piece :=
  [ Str (match f_rt instruction with
         | 0 => "bltz" | 1 => "bgez" | 16 => "bltzal" | 17 => "bgezal" | _ => "BCOND"
         end);
    TAB; Rname (f_rs instruction); Str ","; Hex8 (sint (off16 instruction + pc + 4)) ].

Definition dump_normal (instruction pc opcode : Z) : list piece :=
  let rs := Rname (f_rs instruction) in
  let rt := Rname (f_rt instruction) in
  match opcode with
  | 2 | 3 => [Hex8 (Z.lor (top4 pc) (off26 instruction))]
  | 4 | 5 => [rt; Str ","; rs; Str ","; Hex8 (sint (off16 instruction + pc + 4))]
  | 8 | 9 | 10 | 11 | 12 | 13 | 14 => [rt; Str ","; rs; Str ",0x"; Hex (immed instruction)]
  | 15 => [rt; Str ",0x"; Hex (immed instruction)]
  | 16 | 17 | 18 | 19 => []
  | 32 | 33 | 34 | 35 | 36 | 37 | 38 | 40 | 41 | 42 | 43 | 46 | 48 | 49 | 50 | 51 | 56 | 57 | 58 | 59 =>
      [rt; Str ",0x"; Hex (immed instruction); Str "("; rs; Str ")"]
  | _ => []
  end.

Definition dump_ascii (instruction pc : Z) : list piece :=
  (if longdis then [Hex8 pc; Str ": "; Hex8 instruction; Str "  "] else []) ++ TAB ::
  let opcode := Z.shiftr (uint instruction) 26 in
  if instruction =? 0 then [Str "nop"]
  else if opcode =? 0 then
    Str (default EmptyString (specialops !! Z.to_nat (Z.land instruction 0x3f))) :: TAB :: dump_special instruction
  else if opcode =? 1 then dump_bcond instruction pc
  else Str (default EmptyString (normalops !! Z.to_nat opcode)) :: TAB :: dump_normal instruction pc opcode.

End Printer.

(** ** The reference *)

(** The names of the instructions. *)
Definition mnemonic (op : opcode) : string :=
  match op with
  | OP_ADD => "add" | OP_ADDI => "addi" | OP_ADDIU => "addiu" | OP_ADDU => "addu" | OP_AND => "and"
  | OP_ANDI => "andi" | OP_BEQ => "beq" | OP_BGEZ => "bgez" | OP_BGEZAL => "bgezal" | OP_BGTZ => "bgtz"
  | OP_BLEZ => "blez" | OP_BLTZ => "bltz" | OP_BLTZAL => "bltzal" | OP_BNE => "bne" | OP_DIV => "div"
  | OP_DIVU => "divu" | OP_J => "j" | OP_JAL => "jal" | OP_JALR => "jalr" | OP_JR => "jr" | OP_LB => "lb"
  | OP_LBU => "lbu" | OP_LH => "lh" | OP_LHU => "lhu" | OP_LUI => "lui" | OP_LW => "lw" | OP_LWL => "lwl"
  | OP_LWR => "lwr" | OP_MFHI => "mfhi" | OP_MFLO => "mflo" | OP_MTHI => "mthi" | OP_MTLO => "mtlo"
  | OP_MULT => "mult" | OP_MULTU => "multu" | OP_NOR => "nor" | OP_OR => "or" | OP_ORI => "ori" | OP_RFE => "rfe"
  | OP_SB => "sb" | OP_SH => "sh" | OP_SLL => "sll" | OP_SLLV => "sllv" | OP_SLT => "slt" | OP_SLTI => "slti"
  | OP_SLTIU => "sltiu" | OP_SLTU => "sltu" | OP_SRA => "sra" | OP_SRAV => "srav" | OP_SRL => "srl"
  | OP_SRLV => "srlv" | OP_SUB => "sub" | OP_SUBU => "subu" | OP_SW => "sw" | OP_SWL => "swl" | OP_SWR => "swr"
  | OP_XOR => "xor" | OP_XORI => "xori" | OP_SYSCALL => "syscall"
  | OP_UNIMP | OP_RES | SPECIAL | BCOND => EmptyString
  end.

(** Where a branch and a jump at [pc] go.  A jump stays in the region of [pc] for
    the disassembler and for bin/execute.c; machine/mipssim.cc takes the region of
    [pcAfter], which is [pc + 8]. *)
Definition branch_target (pc extra : Z) : Z := sint (pc + 4 + IndexToAddr extra).
Definition jump_target (pc extra : Z) : Z := Z.lor (Z.land pc (-0x10000000)) (IndexToAddr extra).
Definition machine_jump_target (pc extra : Z) : Z := Z.lor (Z.land (pc + 8) (-0x10000000)) (IndexToAddr extra).

(** What each instruction reads and writes, in the order of the assembler. *)
Definition operands (i : Instruction) (pc : Z) : list piece :=
  let rd := Rname (i_rd i) in
  let rs := Rname (i_rs i) in
  let rt := Rname (i_rt i) in
  match i_opCode i with
  | OP_ADD | OP_ADDU | OP_SUB | OP_SUBU | OP_AND | OP_OR | OP_XOR | OP_NOR | OP_SLT | OP_SLTU =>
      [rd; Str ","; rs; Str ","; rt]
  | OP_SLL | OP_SRL | OP_SRA => [rd; Str ","; rt; Str ",0x"; Hex (i_extra i)]
  | OP_SLLV | OP_SRLV | OP_SRAV => [rd; Str ","; rt; Str ","; rs]
  | OP_MULT | OP_MULTU | OP_DIV | OP_DIVU => [rs; Str ","; rt]
  | OP_MFHI | OP_MFLO => [rd]
  | OP_MTHI | OP_MTLO | OP_JR => [rs]
  | OP_JALR => [rd; Str ","; rs]
  | OP_ADDI | OP_ADDIU | OP_SLTI | OP_SLTIU | OP_ANDI | OP_ORI | OP_XORI =>
      [rt; Str ","; rs; Str ",0x"; Hex (i_extra i)]
  | OP_LUI => [rt; Str ",0x"; Hex (i_extra i)]
  | OP_LB | OP_LBU | OP_LH | OP_LHU | OP_LW | OP_LWL | OP_LWR | OP_SB | OP_SH | OP_SW | OP_SWL | OP_SWR =>
      [rt; Str ",0x"; Hex (i_extra i); Str "("; rs; Str ")"]
  | OP_BEQ | OP_BNE => [rt; Str ","; rs; Str ","; Hex8 (branch_target pc (i_extra i))]
  | OP_BLEZ | OP_BGTZ | OP_BLTZ | OP_BGEZ | OP_BLTZAL | OP_BGEZAL =>
      [rs; Str ","; Hex8 (branch_target pc (i_extra i))]
  | OP_J | OP_JAL => [Hex8 (jump_target pc (i_extra i))]
  | _ => []
  end.

Definition listing (i : Instruction) (pc : Z) : list piece := Str (mnemonic (i_opCode i)) :: TAB :: operands i pc.

(** The instructions that are printed with other operands than their own. *)
Definition misprinted (op : opcode) : bool :=
  match op with
  | OP_MFLO | OP_MTHI | OP_JALR | OP_BLEZ | OP_BGTZ | OP_UNIMP | OP_RES => true
  | _ => false
  end.

(** ** The proof *)

Lemma top_field w : Z.shiftr (uint w) 26 = Z.land (Z.shiftr w 26) 0x3f.
Proof.
  change 0x3f with (Z.ones 6). rewrite <- (field_uint w 26 6) by lia. change (Z.ones 6) with (2 ^ 6 - 1). rewrite land_pow2 by lia.
  rewrite Z.shiftr_div_pow2 by lia. pose proof (uint_range w) as Hu. unfold is_uint in Hu.
  change (2 ^ 26) with 67108864. change (2 ^ 6) with 64. lia.
Qed.

Lemma target_printed w pc : sint (off16 w + pc + 4) = branch_target pc (immed w).
Proof. unfold off16, branch_target, IndexToAddr. rewrite <- Z.add_assoc, sint_add. f_equal. lia. Qed.

Lemma normal_printed w pc f op : opTable !! Z.to_nat (Z.land (Z.shiftr w 26) 0x3f) = Some (op, f) →
  op ≠ SPECIAL → op ≠ BCOND → misprinted op = false →
  Str (default EmptyString (normalops !! Z.to_nat (Z.land (Z.shiftr w 26) 0x3f))) :: TAB ::
    dump_normal w pc (Z.land (Z.shiftr w 26) 0x3f) = listing (instr_of w op (extra_of w f)) pc.
Proof.
  pose proof (land_ones_range (Z.shiftr w 26) 6 ltac:(lia)) as Hc.
  change (2 ^ 6 - 1) with 0x3f in Hc. change (2 ^ 6) with 64 in Hc. unfold dump_normal. rewrite target_printed.
  remember (Z.land (Z.shiftr w 26) 0x3f) as c eqn:Ec. clear Ec.
  rewrite <- (Z2Nat.id c) by lia. assert (Hn : (Z.to_nat c < 64)%nat) by lia. rewrite !Nat2Z.id.
  generalize dependent (Z.to_nat c). clear c Hc. intros n Hn.
  do 64 try (destruct n as [|n]); [..|lia]; cbn [opTable lookup list_lookup]; intros [= <- <-]; done.
Qed.

Lemma special_printed w pc op : specialTable !! Z.to_nat (Z.land w 0x3f) = Some op → misprinted op = false →
  Str (default EmptyString (specialops !! Z.to_nat (Z.land w 0x3f))) :: TAB :: dump_special w =
    listing (instr_of w op (shamt w)) pc.
Proof.
  pose proof (land_ones_range w 6 ltac:(lia)) as Hc.
  change (2 ^ 6 - 1) with 0x3f in Hc. change (2 ^ 6) with 64 in Hc. unfold dump_special.
  remember (Z.land w 0x3f) as c eqn:Ec. clear Ec.
  rewrite <- (Z2Nat.id c) by lia. assert (Hn : (Z.to_nat c < 64)%nat) by lia. rewrite !Nat2Z.id.
  generalize dependent (Z.to_nat c). clear c Hc. intros n Hn.
  do 64 try (destruct n as [|n]); [..|lia]; cbn [specialTable lookup list_lookup]; intros [= <-]; done.
Qed.

(** C40: what the disassembler prints for a word is the listing of the instruction
    the simulator decodes it to: its name, its registers and immediate operand,
    and the address a branch or a jump goes to - except for the word 0 and the
    instructions in [misprinted].  The address of a jump is that of the simulator
    unless the end of a region of 256 MB lies between the jump and [pc + 8]. *)
Theorem disassembly_correct longdis w pc i : Decode (uint w) = Some i → w ≠ 0 → misprinted (i_opCode i) = false →
  dump_ascii longdis w pc =
    (if longdis then [Hex8 pc; Str ": "; Hex8 w; Str "  "] else []) ++ TAB :: listing i pc ∧
  (Z.land pc (-0x10000000) = Z.land (pc + 8) (-0x10000000) →
   jump_target pc (i_extra i) = machine_jump_target pc (i_extra i)).
Proof.
  intros Hd Hw Hm. split; [|by unfold jump_target, machine_jump_target; intros ->]. unfold dump_ascii. do 2 f_equal. apply Z.eqb_neq in Hw. rewrite Hw, top_field.
  destruct (Decode_cases w i Hd) as [(f & E & Hs & Hb & Hi)|[(H0 & E & Hi)|(H1 & Hi & E)]].
  - destruct (Z.eqb_spec (Z.land (Z.shiftr w 26) 0x3f) 0) as [E0|_]; [rewrite E0 in E; by injection E as E _; symmetry in E|].
    destruct (Z.eqb_spec (Z.land (Z.shiftr w 26) 0x3f) 1) as [E1|_]; [rewrite E1 in E; by injection E as E _; symmetry in E|].
    rewrite Hi. by apply normal_printed.
  - rewrite H0. cbn [Z.eqb]. rewrite Hi. by apply special_printed.
  - rewrite H1. cbn [Z.eqb Pos.eqb]. rewrite Hi. unfold dump_bcond. rewrite target_printed. cbn [i_opCode instr_of].
    destruct E as [E|E]; [|by rewrite E in Hm]. generalize dependent (i_opCode i). intros op _ _ E.
    repeat (apply elem_of_cons in E as [[= -> ->]|E]; [done|]). by apply elem_of_nil in E.
Qed.

(** At the end of a region they differ. *)
Lemma jump_targets_differ : jump_target 0x0ffffff8 1 = 4 ∧ machine_jump_target 0x0ffffff8 1 = 0x10000004.
Proof. done. Qed.

(** [mflo r3] is printed as [mflo 0], [blez] without operands. *)
Lemma misprints pc : dump_ascii false 0x1812 pc = [TAB; Str "mflo"; TAB; Str "0"] ∧
  operands (mkInstr OP_MFLO 0 0 3 0) pc = [Str "r3"] ∧
  dump_ascii false 0x18200005 pc = [TAB; Str "blez"; TAB].
Proof. done. Qed.

(** [addiu sp, sp, -24]. *)
Lemma disassembly_correct_witness : ∃ i, Decode (uint 0x27bdffe8) = Some i ∧
  dump_ascii false 0x27bdffe8 0 = TAB :: listing i 0.
Proof.
  eexists. split; [vm_compute; reflexivity|]. apply (disassembly_correct false 0x27bdffe8 0); [vm_compute; reflexivity|done|done].
Defined.
