(* ===== verification/ProgTest.v ===== *)
(** * ProgTest: the console test of userprog/progtest.cc

    [ConsoleTest] echoes what is typed until a 'q'.  It drives the console device
    of Console.v directly, with two semaphores of its own in the place of the
    [SynchConsole]: [readAvail] is announced by the polling and [writeDone] by the
    end of a transfer, as [cread] and [cwrite] are there.  ([StartProcess], the
    other routine of progtest.cc, is with the processes in Process.v.) *)

From S2P Require Import Prelude LinkedList Interrupt OneThread Polled Machine Console.
Import SynchConsole.

(** 'q'. *)
Definition char_q : Z := 113.

(** The handlers [ReadAvail] and [WriteDone] call [V] of these. *)
Definition readAvail : sem_name := cread.
Definition writeDone : sem_name := cwrite.

(** [readAvail->P(); ch = console->GetChar(); console->PutChar(ch);
    writeDone->P()]. *)
Definition echo : M K Z :=
  P readAvail ≫= λ _,
  ch ← GetChar;
  PutChar ch ≫= λ _,
  P writeDone ≫= λ _,
  mret ch.

(** The loop, for at most [fuel] characters. *)
Fixpoint ConsoleTest_loop (fuel : nat) : M K unit :=
  match fuel with
  | O => fail OutOfFuel
  | S fuel => ch ← echo; if bool_decide (ch = char_q) then mret tt else ConsoleTest_loop fuel
  end.

(** [keys] is what is typed at the keyboard.  The semaphores are new and 0; the
    cells of the locks, which the test does not have, are not used. *)
Definition ConsoleTest (fuel : nat) (keys : list Z) (st : Statistics) : res K :=
  let w := mkWorld (mkConsole false EOF) [] []
             (λ n, mkSem (match n with cread | cwrite => 0 | _ => 1 end) false) (λ _, false) false in
  '(_, k) ← new_Console keys (mk IntOn [] false st w);
  '(_, k) ← ConsoleTest_loop fuel k;
  mret k.

(** ** One character *)

Lemma echo_ok k c i o : at_rest k (c :: i) o → ∃ k', echo k = Ok (c, k') ∧ at_rest k' i (o ++ [c]).
Proof.
  intros Hk. unfold echo.
  destruct (P_arrival _ _ _ (dev false o (taken c i)) k Hk) as (k1 & E1 & st & t & w & -> & Hb & Hw);
    [apply taken_framed|apply coming_announced|].
  cbn [arrival polled] in E1. rewrite (bind_run _ _ _ _ _ E1).
  destruct Hw as [H1 H2 H3 (H4 & H5 & Hc & Hne & Hx & Ht & Hi)].
  set (w' := set_console (mkConsole (putBusy (consola w)) EOF) w).
  assert (E2 : GetChar (mk IntOn [poll_at t] false st w) = Ok (c, mk IntOn [poll_at t] false st w'))
    by (unfold GetChar, on_world; unfold_M; cbn [mk world]; by rewrite Hc).
  rewrite (bind_run _ _ _ _ _ E2).
  set (w2 := set_console (mkConsole true EOF) (set_shown (shown w ++ [c]) w')).
  assert (E3 : PutChar c (mk IntOn [poll_at t] false st w') =
    Ok (tt, mk IntOn [poll_at t; done_at (totalTicks st + 100)] false st w2)).
  { rewrite <- (Schedule_done st t w2 Hb). unfold PutChar, on_world. unfold_M. cbn [mk world].
    cbn [w' consola set_console putBusy]. by rewrite H4. }
  rewrite (bind_run _ _ _ _ _ E3).
  destruct (P_completion free_sems (λ _, false) (dev true (o ++ [c]) (coming i)) (dev false (o ++ [c]) (coming i)) st t w2)
    as (k3 & E4 & Hk3); [apply coming_framed..| |done| |done|].
  - intros w0 (_ & ? & ?). cbn [done_world polled]. unfold done_console. by destruct (waits (sem_of cwrite w0)).
  - split; try done. split_and!; [done|cbn; by rewrite H5|]. split; [done|]. by left.
  - rewrite (bind_run _ _ _ _ _ E4). exists k3. split; [done|].
    eapply on_mono; [|exact Hk3]. intros w0 Hw0. eapply at_ext; [|done|exact Hw0]. by intros [].
Qed.

Lemma ConsoleTest_loop_ok pre rest : ∀ k o, char_q ∉ pre → at_rest k (pre ++ char_q :: rest) o →
  ∃ k', ConsoleTest_loop (S (length pre)) k = Ok (tt, k') ∧ at_rest k' rest (o ++ pre ++ [char_q]).
Proof.
  induction pre as [|c pre IH]; intros k o Hq Hk; destruct (echo_ok _ _ _ _ Hk) as (k1 & E1 & Hk1).
  - exists k1. cbn [length ConsoleTest_loop]. rewrite (bind_run _ _ _ _ _ E1). by rewrite bool_decide_eq_true_2.
  - apply not_elem_of_cons in Hq as [Hc Hq]. destruct (IH k1 (o ++ [c]) Hq Hk1) as (k2 & E2 & Hk2).
    exists k2. cbn [length] in *. cbn [ConsoleTest_loop] in *. rewrite (bind_run _ _ _ _ _ E1).
    rewrite bool_decide_eq_false_2 by done. split; [exact E2|]. by rewrite <- app_assoc in Hk2.
Qed.

(** [ConsoleTest] echoes the characters typed, in order, up to the first 'q' and
    with it, then returns and leaves what was typed after it unread. *)
Theorem ConsoleTest_echoes pre rest st : char_q ∉ pre → Forall (λ c, c ≠ EOF) (pre ++ char_q :: rest) →
  ∃ k, ConsoleTest (S (length pre)) (pre ++ char_q :: rest) st = Ok k ∧ at_rest k rest (pre ++ [char_q]).
Proof.
  intros Hq Hf. destruct (new_SynchConsole_ok _ st Hf) as (k & E & Hk).
  unfold new_SynchConsole in E. unfold ConsoleTest.
  destruct (new_Console _ _) as [[[] k0]|] eqn:E0; [|done]. injection E as ->.
  destruct (ConsoleTest_loop_ok pre rest k [] Hq Hk) as (k' & E' & Hk'). exists k'. split; [|done].
  cbn [mbind res_bind]. by rewrite E'.
Qed.
