(* ===== verification/Startup.v ===== *)
(** * Startup: the command line, threads/system.cc and threads/main.cc

    [Initialize] and [main] read the same arguments, one after the other: each
    loops over [argv], takes the flags it knows with what follows them and skips
    every other word.  The parts of the program that the macros of a Makefile
    select are those of a [build].  What [main] does at a flag is the function
    [exec] of the commands it calls; Session.v has it for the file system and
    for user programs.

    A grammar of items says what a command line means.  [reads] relates it to
    the items it consists of, and the loop is shown to take any command line as
    it is read. *)

From S2P Require Import Prelude.
From Stdlib Require QArith.QArith_base QArith.Qpower.

(** ** Words *)

(** A C string is its characters, without the NUL. *)
Abbreviation word := (list Z) (only parsing).

Definition flag (s : string) : word := (λ c, Z.of_N (Ascii.N_of_ascii c)) <$> String.list_ascii_of_string s.

(** [!strcmp(a, s)]. *)
Definition is_flag (a : word) (s : string) : bool := bool_decide (a = flag s).

(** [argv[i]]; the last argument is followed by a null pointer. *)
Definition arg {S} (argv : list word) (i : nat) : M S word :=
  match argv !! i with
  | Some a => mret a
  | None => fail (if bool_decide (i = length argv) then NullDeref else OutOfBounds)
  end.

(** [isspace], [isdigit], and the value of a run of digits with what follows. *)
Definition isspace (c : Z) : bool := (c =? 32) || ((9 <=? c) && (c <=? 13)).
Definition isdigit (c : Z) : bool := (48 <=? c) && (c <=? 57).
Fixpoint skip_space (s : word) : word :=
  match s with c :: rest => if isspace c then skip_space rest else s | [] => [] end.
Fixpoint digits (v : Z) (s : word) : Z * word :=
  match s with c :: rest => if isdigit c then digits (10 * v + (c - 48)) rest else (v, s) | [] => (v, []) end.
Definition sign (s : word) : Z * word :=
  match s with c :: rest => if c =? 45 then (-1, rest) else if c =? 43 then (1, rest) else (1, s) | [] => (1, []) end.

(** [atoi], where a [long] is as wide as an [int]: a number out of range becomes
    the nearest bound. *)
Definition atoi (s : word) : Z :=
  let '(n, s) := sign (skip_space s) in
  Z.max int_min (Z.min int_max (n * (digits 0 s).1)).

(** [atof] of a decimal number, exact; the other notations (hexadecimal,
    infinities) and the rounding to a [double] are left out. *)
Definition atof (s : word) : QArith_base.Q :=
  let '(n, s) := sign (skip_space s) in
  let '(whole, rest) := digits 0 s in
  let '(all, after) := match rest with c :: r => if c =? 46 then digits whole r else (whole, rest) | [] => (whole, []) end in
  let places := match rest with c :: r => if c =? 46 then Z.of_nat (length r - length after) else 0 | [] => 0 end in
  let e := match after with
           | c :: r => if (c =? 101) || (c =? 69) then let '(m, r) := sign r in m * (digits 0 r).1 else 0
           | [] => 0
           end in
  QArith_base.Qmult (QArith_base.inject_Z (n * all)) (QArith_base.Qpower (QArith_base.inject_Z 10) (e - places)).

(** ** The loop over the arguments *)

(** [for (; argc > 0; argc -= argCount, argv += argCount)]; the body gives
    [argCount], or [None] when something it calls never returns. *)
Fixpoint arg_loop {S} (fuel : nat) (body : list word → M S (option nat)) (argv : list word) : M S bool :=
  match argv with
  | [] => mret true
  | _ =>
      match fuel with
      | O => fail OutOfFuel
      | S fuel =>
          n ← body argv;
          match n with None => mret false | Some n => arg_loop fuel body (drop n argv) end
      end
  end.

(** Calls in a row, up to one that does not return. *)
Fixpoint run_all {S A} (exec : A → M S bool) (l : list A) : M S bool :=
  match l with
  | [] => mret true
  | a :: l => b ← exec a; if b : bool then run_all exec l else mret false
  end.

Definition is_nil {A} (l : list A) : bool := match l with [] => true | _ => false end.

Section Grammar.
Context {I : Type} (words : I → list word) (follows : I → list word → Prop) (lacking : list word → Prop).

(** A command line consists of items, each of which may be followed by what
    follows it; it may end with a flag that lacks its arguments. *)
Inductive reads : list word → list I → list word → Prop :=
  | reads_nil : reads [] [] []
  | reads_lacking argv : lacking argv → reads argv [] argv
  | reads_cons i rest items tl : follows i rest → reads rest items tl → reads (words i ++ rest) (i :: items) tl.

Hypothesis words_some : ∀ i, words i ≠ [].
Hypothesis lacking_some : ∀ argv, lacking argv → argv ≠ [].
Hypothesis read_one : ∀ argv, argv ≠ [] → lacking argv ∨ ∃ i rest, argv = words i ++ rest ∧ follows i rest.

Lemma words_length i : (0 < length (words i))%nat.
Proof. specialize (words_some i). destruct (words i); [done|cbn; lia]. Qed.

(** Every command line can be read. *)
Lemma reads_total argv : ∃ items tl, reads argv items tl.
Proof.
  assert (H : ∀ n argv, (length argv ≤ n)%nat → ∃ items tl, reads argv items tl); [|by apply (H (length argv))].
  clear argv. induction n as [|n IH]; intros argv Hn.
  { destruct argv; [by eexists _, _; constructor|cbn in Hn; lia]. }
  destruct (decide (argv = [])) as [->|Hne]; [by eexists _, _; constructor|].
  destruct (read_one argv Hne) as [Hl|(i & rest & -> & Hf)]; [by eexists _, _; constructor|].
  rewrite length_app in Hn. pose proof (words_length i).
  destruct (IH rest) as (items & tl & Hr); [lia|]. eexists _, _. by econstructor.
Qed.

Context {S : Type} (body : list word → M S (option nat)) (sem : I → M S bool).
Hypothesis body_item : ∀ i rest s, follows i rest →
  body (words i ++ rest) s = (b ← sem i; mret (if b : bool then Some (length (words i)) else None)) s.
Hypothesis body_lacking : ∀ argv s, lacking argv → body argv s = Err AssertFailed.

(** The loop takes a command line as it is read: it does what the items say, in
    order, up to one that does not return, and stops at an assertion when the
    arguments of a flag are missing. *)
Lemma loop_reads argv items tl : reads argv items tl → ∀ fuel s, (length argv ≤ fuel)%nat →
  arg_loop fuel body argv s =
    (b ← run_all sem items; if b : bool then (if is_nil tl then mret true else fail AssertFailed) else mret false) s.
Proof.
  induction 1 as [|argv Hl|i rest items tl Hf Hr IH]; intros fuel s Hn.
  - by destruct fuel.
  - pose proof (lacking_some _ Hl). destruct argv as [|a argv]; [done|]. cbn in Hn. destruct fuel as [|fuel]; [lia|].
    cbn [arg_loop is_nil run_all]. by rewrite (bind_err _ _ _ _ (body_lacking _ s Hl)).
  - pose proof (words_length i) as Hw. rewrite length_app in Hn. destruct fuel as [|fuel]; [lia|].
    assert (E : arg_loop (Datatypes.S fuel) body (words i ++ rest) s =
      (n ← body (words i ++ rest); match n with None => mret false | Some n => arg_loop fuel body (drop n (words i ++ rest)) end) s).
    { destruct (words i) eqn:E; [by apply words_some in E|done]. }
    rewrite E. clear E. cbn [run_all]. unfold mbind, M_bind. rewrite (body_item i rest s Hf). unfold mbind, M_bind.
    destruct (sem i s) as [[[] s']|e]; [|done|done]. cbn [mret M_ret]. rewrite drop_app_length. rewrite IH by lia. done.
Qed.

End Grammar.

(** ** DEBUG messages, threads/utility.cc *)

(** [strchr(s, c) != 0]; the NUL at the end counts. *)
Definition strchr (s : word) (c : Z) : bool := bool_decide (c ∈ s) || (c =? 0).

(** [enableFlags] is null at first. *)
Definition DebugInit (flagList : word) : option word := Some flagList.

Definition DebugIsEnabled (enableFlags : option word) (c : Z) : bool :=
  match enableFlags with Some s => strchr s c || strchr s 43 | None => false end.

(** [-d] without an argument enables every message, an argument those of its
    letters. *)
Lemma DebugIsEnabled_spec s c : c ≠ 0 → DebugIsEnabled (DebugInit s) c = true ↔ c ∈ s ∨ 43 ∈ s.
Proof.
  intros Hc. unfold DebugIsEnabled, DebugInit, strchr. rewrite !orb_true_iff, !bool_decide_eq_true, Z.eqb_eq. naive_solver.
Qed.

(** ** Builds *)

(** The macros of a Makefile that matter here. *)
Record build := mkBuild { USER_PROGRAM : bool; FILESYS_NEEDED : bool; FILESYS : bool; NETWORK : bool }.

(** ** Initialize, threads/system.cc *)

(** The variables the loop sets.  [seed] is the argument of [RandomInit], if it
    was called; [timeSlice] is uninitialised at first. *)
Record options := mkOptions {
  debugArgs : word; randomYield : bool; seed : option Z;
  preemptiveScheduling : bool; timeSlice : option Z;
  debugUserProg : bool; format : bool; rely : QArith_base.Q; netname : Z
}.

Definition no_options : options :=
  mkOptions [] false None false None false false (QArith_base.inject_Z 1) 0.

Definition DEFAULT_TIME_SLICE : Z := 50000.

Definition set_debug (w : word) (o : options) : options :=
  mkOptions w (randomYield o) (seed o) (preemptiveScheduling o) (timeSlice o) (debugUserProg o) (format o) (rely o) (netname o).
Definition set_random (n : Z) (o : options) : options :=
  mkOptions (debugArgs o) true (Some n) (preemptiveScheduling o) (timeSlice o) (debugUserProg o) (format o) (rely o) (netname o).
Definition set_preemptive (n : Z) (o : options) : options :=
  mkOptions (debugArgs o) (randomYield o) (seed o) true (Some n) (debugUserProg o) (format o) (rely o) (netname o).
Definition set_step (o : options) : options :=
  mkOptions (debugArgs o) (randomYield o) (seed o) (preemptiveScheduling o) (timeSlice o) true (format o) (rely o) (netname o).
Definition set_format (o : options) : options :=
  mkOptions (debugArgs o) (randomYield o) (seed o) (preemptiveScheduling o) (timeSlice o) (debugUserProg o) true (rely o) (netname o).
Definition set_rely (q : QArith_base.Q) (o : options) : options :=
  mkOptions (debugArgs o) (randomYield o) (seed o) (preemptiveScheduling o) (timeSlice o) (debugUserProg o) (format o) q (netname o).
Definition set_netname (n : Z) (o : options) : options :=
  mkOptions (debugArgs o) (randomYield o) (seed o) (preemptiveScheduling o) (timeSlice o) (debugUserProg o) (format o) (rely o) n.

Definition Initialize_arg (b : build) (argv : list word) : M options (option nat) :=
  let argc := length argv in
  a ← arg argv 0;
  argCount ← (if is_flag a "-d" then
                if (argc =? 1)%nat then modify (set_debug (flag "+")) ≫= λ _, mret 1%nat
                else w ← arg argv 1; modify (set_debug w) ≫= λ _, mret 2%nat
              else if is_flag a "-rs" then
                ASSERT (1 <? argc)%nat ≫= λ _,
                w ← arg argv 1; modify (set_random (atoi w)) ≫= λ _, mret 2%nat
              else if is_flag a "-p" then
                if (argc =? 1)%nat then modify (set_preemptive DEFAULT_TIME_SLICE) ≫= λ _, mret 1%nat
                else w ← arg argv 1; modify (set_preemptive (atoi w)) ≫= λ _, mret 2%nat
              else mret 1%nat);
  (if USER_PROGRAM b && is_flag a "-s" then modify set_step else mret tt) ≫= λ _,
  (if FILESYS_NEEDED b && is_flag a "-f" then modify set_format else mret tt) ≫= λ _,
  argCount ← (if NETWORK b then
                if is_flag a "-l" then
                  ASSERT (1 <? argc)%nat ≫= λ _,
                  w ← arg argv 1; modify (set_rely (atof w)) ≫= λ _, mret 2%nat
                else if is_flag a "-m" then
                  ASSERT (1 <? argc)%nat ≫= λ _,
                  w ← arg argv 1; modify (set_netname (atoi w)) ≫= λ _, mret 2%nat
                else mret argCount
              else mret argCount);
  mret (Some argCount).

(** The loop of [Initialize], on the arguments after the name of the program. *)
Definition Initialize_args (b : build) (argv : list word) : res options :=
  match arg_loop (length argv) (Initialize_arg b) argv no_options with Ok (_, o) => Ok o | Err f => Err f end.

(** What the arguments ask of [Initialize]. *)
Inductive setting :=
  | DebugAll | Debug (w : word) | RandomSeed (w : word) | Preemptive (w : option word)
  | SingleStep | Format | Reliability (w : word) | MachineId (w : word) | Skipped (w : word).

Definition setting_words (i : setting) : list word :=
  match i with
  | DebugAll => [flag "-d"] | Debug w => [flag "-d"; w] | RandomSeed w => [flag "-rs"; w]
  | Preemptive o => flag "-p" :: option_list o
  | SingleStep => [flag "-s"] | Format => [flag "-f"] | Reliability w => [flag "-l"; w] | MachineId w => [flag "-m"; w]
  | Skipped w => [w]
  end.

(** The words [Initialize] takes for flags. *)
Definition setting_flag (b : build) (w : word) : bool :=
  is_flag w "-d" || is_flag w "-rs" || is_flag w "-p" || (USER_PROGRAM b && is_flag w "-s") ||
  (FILESYS_NEEDED b && is_flag w "-f") || (NETWORK b && (is_flag w "-l" || is_flag w "-m")).

Definition setting_follows (b : build) (i : setting) (rest : list word) : Prop :=
  match i with
  | DebugAll | Preemptive None => rest = []
  | SingleStep => USER_PROGRAM b = true
  | Format => FILESYS_NEEDED b = true
  | Reliability _ | MachineId _ => NETWORK b = true
  | Skipped w => setting_flag b w = false
  | _ => True
  end.

Definition setting_lacking (b : build) (argv : list word) : Prop :=
  argv = [flag "-rs"] ∨ (NETWORK b = true ∧ (argv = [flag "-l"] ∨ argv = [flag "-m"])).

Definition apply_setting (i : setting) (o : options) : options :=
  match i with
  | DebugAll => set_debug (flag "+") o | Debug w => set_debug w o | RandomSeed w => set_random (atoi w) o
  | Preemptive w => set_preemptive (match w with Some w => atoi w | None => DEFAULT_TIME_SLICE end) o
  | SingleStep => set_step o | Format => set_format o
  | Reliability w => set_rely (atof w) o | MachineId w => set_netname (atoi w) o
  | Skipped _ => o
  end.

(** Decides which flag a word is, or that it is none. *)
Lemma is_flag_self s : is_flag (flag s) s = true.
Proof. by apply bool_decide_eq_true_2. Qed.
Lemma is_flag_spec a s : is_flag a s = true ↔ a = flag s.
Proof. apply bool_decide_eq_true. Qed.

(** Computes the comparisons of flags with flags. *)
Ltac flags :=
  repeat match goal with
  | |- context [is_flag (flag ?x) ?y] =>
      let b := eval vm_compute in (is_flag (flag x) y) in change (is_flag (flag x) y) with b
  end.

Lemma arg_0 {S} a argv (s : S) : arg (a :: argv) 0 s = Ok (a, s).
Proof. done. Qed.
Lemma arg_1 {S} a w argv (s : S) : arg (a :: w :: argv) 1 s = Ok (w, s).
Proof. done. Qed.

Lemma arg_2 {S} a w x argv (s : S) : arg (a :: w :: x :: argv) 2 s = Ok (x, s).
Proof. done. Qed.

Lemma setting_body b i rest (o : options) : setting_follows b i rest →
  Initialize_arg b (setting_words i ++ rest) o =
    (x ← (modify (apply_setting i) ≫= λ _, mret true); mret (if x : bool then Some (length (setting_words i)) else None)) o.
Proof.
  intros H. destruct b as [u n fs net]. unfold Initialize_arg.
  destruct i as [|w|w|[w|]| | |w|w|w]; cbn in H; try subst; cbn [setting_words option_list app length];
    unfold mbind, M_bind; rewrite arg_0; flags; rewrite ?andb_true_r, ?andb_false_r; try (destruct net; reflexivity); try reflexivity.
  cbn [USER_PROGRAM FILESYS_NEEDED NETWORK]. unfold setting_flag in H. cbn in H.
  rewrite !orb_false_iff in H. destruct H as (((((-> & ->) & ->) & ->) & ->) & H).
  destruct net; [|reflexivity]. cbn in H. apply orb_false_iff in H as [-> ->]. reflexivity.
Qed.

Lemma setting_body_lacking b argv (o : options) : setting_lacking b argv → Initialize_arg b argv o = Err AssertFailed.
Proof.
  destruct b as [u n fs net]. intros [->|[Hn [-> | ->]]]; try (cbn in Hn; subst net); unfold Initialize_arg, mbind, M_bind;
    rewrite arg_0; flags; rewrite ?andb_false_r; reflexivity.
Qed.

(** One of two words, or none of them. *)
Lemma is_flag_cases a s b : is_flag a s || b = true → a = flag s ∨ b = true.
Proof. intros [H|H]%orb_true_iff; [left; by apply is_flag_spec|by right]. Qed.

Lemma setting_read_one b argv : argv ≠ [] → setting_lacking b argv ∨
  ∃ i rest, argv = setting_words i ++ rest ∧ setting_follows b i rest.
Proof.
  intros Hne. destruct argv as [|a args]; [done|]. destruct (setting_flag b a) eqn:E.
  2: { right. by exists (Skipped a), args. }
  unfold setting_flag in E. rewrite <- !orb_assoc in E.
  repeat (apply is_flag_cases in E as [->|E]).
  - right. destruct args as [|w rest]; [by exists DebugAll, []|by exists (Debug w), rest].
  - destruct args as [|w rest]; [by left; left|right; by exists (RandomSeed w), rest].
  - right. destruct args as [|w rest]; [by exists (Preemptive None), []|by exists (Preemptive (Some w)), rest].
  - rewrite !orb_true_iff, !andb_true_iff, !orb_true_iff, !is_flag_spec in E.
    destruct E as [[Hu ->]|[[Hf ->]|[Hn [-> | ->]]]].
    + right. by exists SingleStep, args.
    + right. by exists Format, args.
    + destruct args as [|w rest]; [left; right; split; [done|by left]|right; by exists (Reliability w), rest].
    + destruct args as [|w rest]; [left; right; split; [done|by right]|right; by exists (MachineId w), rest].
Qed.

Lemma setting_words_some i : setting_words i ≠ [].
Proof. by destruct i. Qed.
Lemma setting_lacking_some b argv : setting_lacking b argv → argv ≠ [].
Proof. by intros [->|[_ [-> | ->]]]. Qed.

Definition Initialize_reads (b : build) : list word → list setting → list word → Prop :=
  reads setting_words (setting_follows b) (setting_lacking b).

Lemma Initialize_reads_cons b i rest items tl : setting_follows b i rest → Initialize_reads b rest items tl →
  Initialize_reads b (setting_words i ++ rest) (i :: items) tl.
Proof. by apply reads_cons. Qed.

Lemma apply_all items (o : options) : run_all (λ i, modify (apply_setting i) ≫= λ _, mret true) items o =
  Ok (true, foldl (λ o i, apply_setting i o) o items).
Proof. revert o. induction items as [|i items IH]; intros o; [done|]. cbn [run_all foldl]. rewrite <- IH. done. Qed.

(** [Initialize] takes any command line as it is read: the settings in it are
    applied in order, unless a flag at the end lacks its argument. *)
Lemma Initialize_args_reads b argv items tl : Initialize_reads b argv items tl →
  Initialize_args b argv =
    if is_nil tl then Ok (foldl (λ o i, apply_setting i o) no_options items) else Err AssertFailed.
Proof.
  intros H. unfold Initialize_args.
  rewrite (loop_reads _ _ _ setting_words_some (setting_lacking_some b) _ _ (setting_body b) (setting_body_lacking b) _ _ _ H)
    by done.
  unfold mbind, M_bind. rewrite apply_all. by destruct tl.
Qed.

(** ** main, threads/main.cc *)

(** What [main] calls. *)
Inductive command :=
  | DoCopyright
  | DoStart (filename : word)
  | DoConsole (files : option (word * word))
  | DoHalt
  | DoCopy (unixFile nachosFile : word)
  | DoPrint (filename : word)
  | DoRemove (filename : word)
  | DoList
  | DoDump
  | DoPerformance
  | DoDelay (seconds : Z)
  | DoMail (networkID : Z).

Section Main.
Context {S : Type} (exec : command → M S bool).

(** Goes on unless a call did not return. *)
Definition then_ (m : M S (option nat)) (k : nat → M S (option nat)) : M S (option nat) :=
  o ← m; match o with Some argCount => k argCount | None => mret None end.

Definition call (c : command) (argCount : nat) : M S (option nat) :=
  b ← exec c; mret (if b : bool then Some argCount else None).

Definition main_arg (b : build) (argv : list word) : M S (option nat) :=
  let argc := length argv in
  a ← arg argv 0;
  then_ (if is_flag a "-z" then call DoCopyright 1 else mret (Some 1%nat)) (λ argCount,
  then_ (if USER_PROGRAM b then
           if is_flag a "-x" then
             ASSERT (1 <? argc)%nat ≫= λ _,
             f ← arg argv 1; call (DoStart f) 2
           else if is_flag a "-c" then
             then_ (if (argc =? 1)%nat then call (DoConsole None) argCount
                    else
                      ASSERT (2 <? argc)%nat ≫= λ _,
                      i ← arg argv 1; o ← arg argv 2; call (DoConsole (Some (i, o))) 3)
                   (call DoHalt)
           else mret (Some argCount)
         else mret (Some argCount)) (λ argCount,
  then_ (if FILESYS b then
           if is_flag a "-cp" then
             ASSERT (2 <? argc)%nat ≫= λ _,
             u ← arg argv 1; f ← arg argv 2; call (DoCopy u f) 3
           else if is_flag a "-p" then
             ASSERT (1 <? argc)%nat ≫= λ _,
             f ← arg argv 1; call (DoPrint f) 2
           else if is_flag a "-r" then
             ASSERT (1 <? argc)%nat ≫= λ _,
             f ← arg argv 1; call (DoRemove f) 2
           else if is_flag a "-l" then call DoList argCount
           else if is_flag a "-D" then call DoDump argCount
           else if is_flag a "-t" then call DoPerformance argCount
           else mret (Some argCount)
         else mret (Some argCount)) (λ argCount,
  if NETWORK b then
    if is_flag a "-o" then
      ASSERT (1 <? argc)%nat ≫= λ _,
      then_ (call (DoDelay 2) argCount) (λ _,
      n ← arg argv 1; call (DoMail (atoi n)) 2)
    else mret (Some argCount)
  else mret (Some argCount)))).

(** The loop of [main], on the arguments after the name of the program: whether
    it gets to [currentThread->Finish()]. *)
Definition main_loop (b : build) (argv : list word) : M S bool := arg_loop (length argv) (main_arg b) argv.

End Main.

(** The usage message at the head of main.cc. *)
Inductive request :=
  | RCopyright | RRun (f : word) | RConsole (files : option (word * word))
  | RCopy (u f : word) | RPrint (f : word) | RRemove (f : word) | RList | RDump | RPerformance
  | RMail (n : word) | RSkipped (w : word).

Definition request_words (r : request) : list word :=
  match r with
  | RCopyright => [flag "-z"] | RRun f => [flag "-x"; f]
  | RConsole None => [flag "-c"] | RConsole (Some (i, o)) => [flag "-c"; i; o]
  | RCopy u f => [flag "-cp"; u; f] | RPrint f => [flag "-p"; f] | RRemove f => [flag "-r"; f]
  | RList => [flag "-l"] | RDump => [flag "-D"] | RPerformance => [flag "-t"]
  | RMail n => [flag "-o"; n] | RSkipped w => [w]
  end.

Definition commands (r : request) : list command :=
  match r with
  | RCopyright => [DoCopyright] | RRun f => [DoStart f] | RConsole files => [DoConsole files; DoHalt]
  | RCopy u f => [DoCopy u f] | RPrint f => [DoPrint f] | RRemove f => [DoRemove f]
  | RList => [DoList] | RDump => [DoDump] | RPerformance => [DoPerformance]
  | RMail n => [DoDelay 2; DoMail (atoi n)] | RSkipped _ => []
  end.

(** The words [main] takes for flags. *)
Definition request_flag (b : build) (w : word) : bool :=
  is_flag w "-z" || (USER_PROGRAM b && (is_flag w "-x" || is_flag w "-c")) ||
  (FILESYS b && (is_flag w "-cp" || is_flag w "-p" || is_flag w "-r" || is_flag w "-l" || is_flag w "-D" || is_flag w "-t")) ||
  (NETWORK b && is_flag w "-o").

Definition request_follows (b : build) (r : request) (rest : list word) : Prop :=
  match r with
  | RCopyright => True
  | RConsole None => USER_PROGRAM b = true ∧ rest = []
  | RRun _ | RConsole _ => USER_PROGRAM b = true
  | RCopy _ _ | RPrint _ | RRemove _ | RList | RDump | RPerformance => FILESYS b = true
  | RMail _ => NETWORK b = true
  | RSkipped w => request_flag b w = false
  end.

Definition request_lacking (b : build) (argv : list word) : Prop :=
  (USER_PROGRAM b = true ∧ (argv = [flag "-x"] ∨ ∃ w, argv = [flag "-c"; w])) ∨
  (FILESYS b = true ∧ (argv = [flag "-cp"] ∨ (∃ w, argv = [flag "-cp"; w]) ∨ argv = [flag "-p"] ∨ argv = [flag "-r"])) ∨
  (NETWORK b = true ∧ argv = [flag "-o"]).

Definition main_reads (b : build) : list word → list request → list word → Prop :=
  reads request_words (request_follows b) (request_lacking b).

Lemma main_reads_cons b r rest rs tl : request_follows b r rest → main_reads b rest rs tl →
  main_reads b (request_words r ++ rest) (r :: rs) tl.
Proof. by apply reads_cons. Qed.

Lemma main_body_skipped {S} (exec : command → M S bool) b w rest (s : S) : request_flag b w = false →
  main_arg exec b (w :: rest) s = Ok (Some 1%nat, s).
Proof.
  intros H. destruct b as [u n fs net]. unfold main_arg, then_, call, mbind, M_bind. rewrite arg_0.
  unfold request_flag in H. cbn [USER_PROGRAM FILESYS NETWORK] in *. rewrite !orb_false_iff in H.
  destruct H as (((-> & Hu) & Hf) & Hn).
  destruct u; [apply orb_false_iff in Hu as [-> ->]|clear Hu]; (destruct fs; [cbn in Hf; rewrite !orb_false_iff in Hf;
    destruct Hf as (((((-> & ->) & ->) & ->) & ->) & ->)|clear Hf]); (destruct net; [cbn in Hn; rewrite Hn|]; done).
Qed.

(** The body does what the request at the head of the line says. *)
Lemma main_body {S} (exec : command → M S bool) b r rest (s : S) : request_follows b r rest →
  main_arg exec b (request_words r ++ rest) s =
    (x ← run_all exec (commands r); mret (if x : bool then Some (length (request_words r)) else None)) s.
Proof.
  intros H. destruct b as [u n fs net].
  destruct r as [|f|[[i o]|]|p f|f|f| | | |m|w]; cbn in H; try (by apply main_body_skipped);
    try match type of H with _ ∧ _ => destruct H end; subst; unfold main_arg, then_, call;
    cbn [request_words app length commands run_all]; unfold mbind, M_bind; rewrite arg_0; flags;
    cbn [USER_PROGRAM FILESYS NETWORK andb orb]; (try destruct u); (try destruct fs); (try destruct net);
    cbv beta iota delta [mret M_ret ASSERT Nat.ltb Nat.leb Nat.eqb];
    repeat (match goal with
      | |- context [arg _ _ _] => first [rewrite arg_1|rewrite arg_2]
      | exec : command → _ |- context [?e ?c ?s] => constr_eq e exec; destruct (exec c s) as [[[] ?]|]
      end; cbv beta iota); done.
Qed.

Lemma main_body_lacking {S} (exec : command → M S bool) b argv (s : S) : request_lacking b argv →
  main_arg exec b argv s = Err AssertFailed.
Proof.
  destruct b as [u n fs net]. intros [[H [->|[w ->]]]|[[H [->|[[w ->]|[-> | ->]]]]|[H ->]]]; cbn in H; subst;
    unfold main_arg, then_, call, mbind, M_bind; rewrite arg_0; flags; cbn [USER_PROGRAM FILESYS NETWORK andb orb];
    (try destruct u); (try destruct fs); (try destruct net); done.
Qed.

Lemma request_lacking_some b argv : request_lacking b argv → argv ≠ [].
Proof. intros H ->. unfold request_lacking in H. naive_solver. Qed.

Lemma request_read_one b argv : argv ≠ [] → request_lacking b argv ∨
  ∃ r rest, argv = request_words r ++ rest ∧ request_follows b r rest.
Proof.
  intros Hne. destruct argv as [|a args]; [done|]. destruct (request_flag b a) eqn:E.
  2: { right. by exists (RSkipped a), args. }
  unfold request_flag in E. rewrite !orb_true_iff, !andb_true_iff, !orb_true_iff, !is_flag_spec in E.
  destruct E as [[[->|[Hu [-> | ->]]]|[Hf E]]|[Hn ->]].
  - right. by exists RCopyright, args.
  - destruct args as [|f rest]; [left; left; auto|right; by exists (RRun f), rest].
  - destruct args as [|i [|o rest]]; [right; by exists (RConsole None), []|left; left; eauto|].
    right. by exists (RConsole (Some (i, o))), rest.
  - destruct E as [[[[[->| ->]| ->]| ->]| ->]| ->].
    + destruct args as [|p [|f rest]]; [left; right; left; auto|left; right; left; eauto 6|].
      right. by exists (RCopy p f), rest.
    + destruct args as [|f rest]; [left; right; left; auto 6|right; by exists (RPrint f), rest].
    + destruct args as [|f rest]; [left; right; left; auto 6|right; by exists (RRemove f), rest].
    + right. by exists RList, args.
    + right. by exists RDump, args.
    + right. by exists RPerformance, args.
  - destruct args as [|m rest]; [left; right; right; auto|right; by exists (RMail m), rest].
Qed.

Lemma request_words_some r : request_words r ≠ [].
Proof. by destruct r as [| |[[]|]| | | | | | | |]. Qed.

Lemma run_commands {S} (exec : command → M S bool) (rs : list request) (s : S) :
  run_all (λ r, run_all exec (commands r)) rs s = run_all exec (rs ≫= commands) s.
Proof.
  revert s. induction rs as [|r rs IH]; intros s; [done|]. cbn [run_all mbind list_bind].
  assert (H : ∀ l s, run_all exec (l ++ (rs ≫= commands)) s =
    (b ← run_all exec l; if b : bool then run_all (λ r, run_all exec (commands r)) rs else mret false) s).
  { intros l. induction l as [|c l IHl]; intros s0; cbn [app run_all]; [by rewrite <- IH|].
    unfold mbind, M_bind. destruct (exec c s0) as [[[] s1]|]; [|done|done]. by rewrite IHl. }
  by rewrite H.
Qed.

(** [main] takes any command line as it is read: it does what the requests in it
    say, and then stops at an assertion if a flag at the end lacks its arguments. *)
Lemma main_loop_reads {S} (exec : command → M S bool) b argv rs tl (s : S) : main_reads b argv rs tl →
  main_loop exec b argv s =
    (x ← run_all exec (rs ≫= commands);
     if x : bool then (if is_nil tl then mret true else fail AssertFailed) else mret false) s.
Proof.
  intros H. unfold main_loop.
  rewrite (loop_reads _ _ _ request_words_some (request_lacking_some b) _ _ (main_body exec b)
    (main_body_lacking exec b) _ _ _ H) by done.
  unfold mbind, M_bind. by rewrite run_commands.
Qed.

Lemma main_reads_total b argv : ∃ rs tl, main_reads b argv rs tl.
Proof. apply (reads_total _ _ _ request_words_some (request_read_one b)). Qed.

(** ** What the two loops make of the same command line *)

(** C25: whatever the command line, the loops of [Initialize] and of [main] end, and
    never read past its end.  It consists of settings in a row for the one and
    of requests in a row for the other, words that are no flags included;
    [Initialize] applies the settings in order, and [main] makes the calls the
    requests stand for, in order, up to one that does not return; if the line ends
    with a flag that lacks its arguments, both stop there, at an assertion. *)
Theorem command_line_read b argv :
  (∃ items tl, Initialize_reads b argv items tl ∧
     Initialize_args b argv =
       if is_nil tl then Ok (foldl (λ o i, apply_setting i o) no_options items) else Err AssertFailed) ∧
  (∃ rs tl, main_reads b argv rs tl ∧ ∀ S (exec : command → M S bool) (s : S),
     main_loop exec b argv s =
       (x ← run_all exec (rs ≫= commands);
        if x : bool then (if is_nil tl then mret true else fail AssertFailed) else mret false) s).
Proof.
  split.
  { destruct (reads_total setting_words (setting_follows b) (setting_lacking b) setting_words_some (setting_read_one b) argv)
      as (items & tl & H). exists items, tl. split; [exact H|by apply Initialize_args_reads]. }
  destruct (main_reads_total b argv) as (rs & tl & H).
  exists rs, tl. split; [exact H|]. intros S exec s. by apply main_loop_reads.
Qed.

(** A line made of requests is read as these requests. *)
Fixpoint well_formed (b : build) (rs : list request) : Prop :=
  match rs with [] => True | r :: rs => request_follows b r (rs ≫= request_words) ∧ well_formed b rs end.

Lemma reads_requests b rs : well_formed b rs → main_reads b (rs ≫= request_words) rs [].
Proof. induction rs as [|r rs IH]; intros H; [constructor|]. destruct H. constructor; [done|by apply IH]. Qed.
