(* ===== verification/Session.v ===== *)
(** * Session: what a command line does to the machine, threads/main.cc

    The commands of [main] on the file system and on user programs, on the state
    that [Initialize] builds.  Any sequence of commands on files answers as a map
    from names to bytes, and a user program is started in a state from which the
    invariants of ProcessInv.v hold. *)

From S2P Require Import Prelude Bitmap Interrupt Scheduler Synch Machine Disk FileHdr OpenFile Directory FileSys AddrSpace.
From S2P Require Import Console Syscall Process ProcessInv ProcessSpec FsTest Startup.

(** What a command prints. *)
Inductive output :=
  | OCopyright
  | OCopied (r : copy_result)
  | OPrinted (r : option (list Z))
  | OListed (names : list (option (list Z)))
  | ODumped (disk : list Z * list Z * list Z * list (list Z * Z * list Z))
  | OPerformance (writing reading : perf_result).

(** The whole system, and what has been printed. *)
Record nachos_state (D T : Type) := mkNachos { n_sys : psys D T; n_out : list output }.
Arguments mkNachos {D T} _ _.
Arguments n_sys {D T} _.
Arguments n_out {D T} _.

Section Code.
Context {D T : Type} `{!SectorDevice D} `{!Terminal T}.
(** Uninitialised memory; the files of UNIX, by name. *)
Context (junk : Z → Z) (header : list Z) (unix : list Z → option (list Z)).
Abbreviation nachos := (nachos_state D T).

Definition on_system {A} (m : M (psys D T) A) : M nachos A := λ s,
  match m (n_sys s) with Ok (a, p) => Ok (a, mkNachos p (n_out s)) | Err f => Err f end.

Definition print_out (o : output) : M nachos unit := modify (λ s, mkNachos (n_sys s) (n_out s ++ [o])).

(** The commands on the file system [fs].  [machine->Run()] does not return;
    [Halt] ends everything.  The tests of the console (ProgTest.v) and of the
    network, and the delay before the latter, are [other]. *)
Definition run_command (other : command → M nachos unit) (fs : FileSystem) (c : command) : M nachos bool :=
  match c with
  | DoCopyright => print_out OCopyright ≫= λ _, mret true
  | DoStart filename =>
      runs ← on_system (@first_process D T (nachos_files junk fs) filename header);
      mret (negb runs)
  | DoHalt => fail Halted
  | DoCopy unixFile nachosFile =>
      r ← on_system (on_pdisk (Copy junk fs (unix unixFile) nachosFile));
      print_out (OCopied r) ≫= λ _, mret true
  | DoPrint filename =>
      r ← on_system (on_pdisk (Print junk fs filename));
      print_out (OPrinted r) ≫= λ _, mret true
  | DoRemove filename => on_system (on_pdisk (FileSystem_Remove junk fs filename)) ≫= λ _, mret true
  | DoList => l ← on_system (on_pdisk (FileSystem_List junk fs)); print_out (OListed l) ≫= λ _, mret true
  | DoDump => l ← on_system (on_pdisk (FileSystem_Print junk fs)); print_out (ODumped l) ≫= λ _, mret true
  | DoPerformance =>
      '(w, r, _) ← on_system (on_pdisk (PerformanceTest junk fs));
      print_out (OPerformance w r) ≫= λ _, mret true
  | DoConsole _ | DoDelay _ | DoMail _ => other c ≫= λ _, mret true
  end.

(** The build with user programs and files on the simulated disk: the FILESYS
    alternative of userprog/Makefile, which leaves out THREADS and with it the
    call of [Test] (ThreadTest.v) in [main]. *)
Definition full_build : build := mkBuild true true true false.

(** [Initialize] and [main].  Of the objects [Initialize] makes, [boot_system] has
    the thread, the scheduler, the machine and the map of frames; the file system
    is made, or formatted, here.  The preemptive scheduler of [-p] is left out. *)
Definition nachos_main (other : command → M nachos unit) (argv : list (list Z))
    (regs junkRegs : list Z) (ds : list (option OpenFile)) (d : D) (t : T) : res (options * FileSystem * bool * nachos) :=
  opts ← Initialize_args full_build (tail argv);
  '(fs, d) ← FileSystem_new junk (format opts) d;
  '(ends, s) ← main_loop (run_command other fs) full_build (tail argv) (mkNachos (boot_system regs junkRegs ds d t) []);
  mret (opts, fs, ends, s).

End Code.

(** ** The rest of the file system's operations *)

Section Files.
Context {D : Type} `{!SectorDevice D} `{!SectorDeviceOK D} (junk : Z → Z) (junk_byte : ∀ i, is_byte (junk i)).
Implicit Types (d : D) (fs : FileSystem) (h : FileHeader).

(** [Print] of a header prints the file. *)
Lemma Print_file_spec n i k h d : hdr_ok h → dev_wf d → (i + n)%nat = Z.to_nat (numSectors h) →
  (k = 128 * Z.of_nat i ∨ n = 0%nat) →
  ∃ d', Print_file n (Z.of_nat i) k h d =
          Ok (take (Z.to_nat (numBytes h) - 128 * i) (concat (drop i (blocks_of (sectors d) h))), d') ∧
        dev_wf d' ∧ sectors d' = sectors d.
Proof.
  revert i k d. induction n as [|n IH]; intros i k d Hh Hd Hi Hk; cbn [Print_file];
    destruct (blocks_of_shape (sectors d) h (dev_shape d Hd) Hh) as [Hbl Hbs];
    destruct (file_bytes_spec (sectors d) h (dev_shape d Hd) Hh) as (_ & _ & _ & Hnb & Hns & _).
  { exists d. rewrite drop_ge by lia. cbn. by rewrite take_nil. }
  destruct Hk as [->|?]; [|done].
  destruct (data_of_lookup h i Hh) as (s & Hs' & Hs & Hr); [lia|].
  rewrite (bind_run _ _ _ _ _ (data_get_ok i h s d Hs)).
  destruct (ReadSector_ok d s Hd Hr) as (data & d1 & Hdata & E & Hd1 & Hs1).
  rewrite (bind_run _ _ _ _ _ E). cbv zeta.
  assert (Hb : blocks_of (sectors d) h !! i = Some data).
  { unfold blocks_of. rewrite list_lookup_fmap, Hs'. cbn. unfold sector_at. by rewrite Hdata. }
  assert (Hdl : length data = 128%nat) by (by eapply Forall_lookup_1 in Hbs as [? _]).
  replace (Z.of_nat i + 1) with (Z.of_nat (S i)) by lia.
  edestruct (IH (S i)) as (d2 & E2 & Hd2 & Hs2); [exact Hh|exact Hd1|lia| |].
  2: { rewrite (bind_run _ _ _ _ _ E2). exists d2. split; [|split; [done|congruence]].
       unfold mret, M_ret. do 2 f_equal. rewrite (drop_S _ _ _ Hb), Hs1. cbn [concat].
       rewrite take_app, Hdl. change SectorSize with 128. f_equal; [|f_equal; lia].
       destruct (decide (numBytes h - 128 * Z.of_nat i ≤ 128)); [f_equal; lia|]. by rewrite !take_ge by lia. }
  rewrite length_take, Hdl. change SectorSize with 128. lia.
Qed.

Lemma FileHeader_Print_ok h d : hdr_ok h → dev_wf d →
  ∃ d', FileHeader_Print h d = Ok (file_bytes (sectors d) h, d') ∧ dev_wf d' ∧ sectors d' = sectors d.
Proof.
  intros Hh Hd. destruct (Print_file_spec (Z.to_nat (numSectors h)) 0 0 h d Hh Hd) as (d' & E & H); [done|by left|].
  exists d'. split; [|exact H]. etrans; [exact E|]. by rewrite Nat.mul_0_r, Nat.sub_0_r.
Qed.

(** The directory and the free map, as they are printed. *)
Lemma Directory_Print_ok d t : dev_wf d →
  Forall (λ p, 0 ≤ p.2 < NumSectors ∧ hdr_ok (header_at (sectors d) p.2)) (dir_pairs (mkDirectory t)) →
  ∃ l d', Directory_Print t d = Ok (l, d') ∧ dev_wf d' ∧ sectors d' = sectors d ∧
    (λ x, (until_nul (take 9 x.1.1), x.2)) <$> l =
    (λ p, (p.1, file_bytes (sectors d) (header_at (sectors d) p.2))) <$> dir_pairs (mkDirectory t).
Proof.
  revert d. induction t as [|e t IH]; intros d Hd Hf; cbn [Directory_Print]; [by exists [], d|].
  unfold dir_pairs, print_entry in *. cbn [table omap list_omap] in *. unfold entry_pair at 1 in Hf. unfold entry_pair at 1.
  destruct (used e).
  - apply Forall_cons in Hf as [[Hs Hh] Hf]. cbn in Hs, Hh.
    destruct (FetchFrom_ok d (sector e) Hd Hs) as (d1 & E1 & Hd1 & Hs1).
    rewrite <- Hs1 in Hh. destruct (FileHeader_Print_ok _ d1 Hh Hd1) as (d2 & E2 & Hd2 & Hs2).
    destruct (IH d2 Hd2) as (l & d3 & E3 & Hd3 & Hs3 & Hl); [by rewrite Hs2, Hs1|].
    eexists _, d3. unfold mbind, M_bind, mret, M_ret. rewrite E1. rewrite <- Hs1, E2, E3.
    split; [reflexivity|]. split; [done|]. split; [congruence|]. cbn [app fmap list_fmap fst snd].
    rewrite Hs2 in Hl. unfold entry_key. by rewrite Hl.
  - destruct (IH d Hd Hf) as (l & d3 & E3 & H3). exists l, d3. unfold mbind, M_bind, mret, M_ret. by rewrite E3.
Qed.

(** The line [List] prints for a file: its name; one of nine characters has no NUL
    of its own in the table, and is printed with what follows it there, if a NUL
    ends that at all. *)
Definition listed_as (key : list Z) (line : option (list Z)) : Prop :=
  match line with
  | Some shown => take 9 shown = key ∧ ((length key < 9)%nat → shown = key)
  | None => length key = 9%nat
  end.

Lemma listed_name n bs : (n ≤ length bs)%nat →
  match cstring bs with
  | Some shown => take n shown = until_nul (take n bs) ∧ ((length (until_nul (take n bs)) < n)%nat → shown = until_nul (take n bs))
  | None => length (until_nul (take n bs)) = n
  end.
Proof.
  revert bs. induction n as [|n IH]; intros bs Hn.
  { rewrite take_0. cbn. destruct (cstring bs); [|done]. rewrite take_0. split; [done|lia]. }
  destruct bs as [|x bs]; cbn in Hn; [lia|]. cbn [take cstring until_nul].
  destruct (Z.eqb_spec x 0); [done|]. specialize (IH bs ltac:(lia)). destruct (cstring bs) as [l|]; cbn.
  - destruct IH as [H1 H2]. split; [by rewrite H1|]. intros Hl. f_equal. apply H2. lia.
  - by rewrite IH.
Qed.

Lemma listed_names t pre g : Forall entry_shape t → (∀ i, length pre = 20 * g 0 ∧ g i = g 0 + i)%nat →
  Forall2 listed_as (omap entry_pair t).*1
    (omap (λ p : nat * DirectoryEntry, if used p.2 then Some (cstring (drop (20 * p.1 + 8) (pre ++ table_bytes t))) else None)
       (imap (λ i e, (g i, e)) t)).
Proof.
  revert pre g. induction t as [|e t IH]; intros pre g Ht Hg; [constructor|]. apply Forall_cons in Ht as [He Ht].
  destruct (Hg 0%nat) as [Hpre _]. destruct He as [_ [H0 _] _ [Hn _] [H1 _]].
  assert (Hlen : length (entry_bytes e) = 20%nat) by (unfold entry_bytes; cbn; rewrite length_app; cbn; rewrite length_app, H0, Hn, H1; done).
  assert (Htb : pre ++ table_bytes (e :: t) = (pre ++ entry_bytes e) ++ table_bytes t) by (unfold table_bytes; rewrite fmap_cons; cbn [concat]; by rewrite app_assoc).
  specialize (IH (pre ++ entry_bytes e) (g ∘ S) Ht).
  assert (Hg' : ∀ i, (length (pre ++ entry_bytes e) = 20 * (g ∘ S) 0 ∧ (g ∘ S) i = (g ∘ S) 0 + i)%nat).
  { intros i. cbn. destruct (Hg 1%nat) as [_ E1]. destruct (Hg (S i)) as [_ E2]. rewrite length_app, Hlen. lia. }
  specialize (IH Hg'). rewrite <- Htb in IH. cbn [imap omap list_omap fst snd]. unfold entry_pair at 1.
  destruct (used e); [|exact IH]. cbn [fmap list_fmap fst]. constructor; [|exact IH]. unfold listed_as, entry_key.
  assert (Hd : drop (20 * g 0%nat + 8) (pre ++ table_bytes (e :: t)) = name e ++ pad1 e ++ table_bytes t).
  { rewrite <- Hpre, <- drop_drop, drop_app_length. unfold table_bytes. cbn [fmap list_fmap concat].
    unfold entry_bytes. cbn [app drop]. destruct (pad0 e) as [|p1 [|p2 [|p3 [|]]]]; try done. cbn [app drop].
    rewrite <- app_assoc. cbn [le_bytes app drop]. by rewrite <- !app_assoc. }
  rewrite Hd.
  pose proof (listed_name 9 (name e ++ pad1 e ++ table_bytes t)) as H. rewrite length_app, Hn in H.
  rewrite (take_app_le (name e)) in H by lia. specialize (H ltac:(lia)). exact H.
Qed.

(** [List] shows every file, by name. *)
Lemma FileSystem_List_ok d files fs : fs_holds fs d files →
  ∃ l d', FileSystem_List junk fs d = Ok (l, d') ∧ fs_holds fs d' files ∧
    ∃ keys, keys ≡ₚ (map_to_list files).*1 ∧ Forall2 listed_as keys l.
Proof.
  intros Hh. pose proof Hh as (Hd & b & t & Hfs & Hf). destruct (fetch_dir junk junk_byte fs d b t Hd Hfs) as (d' & E & Hd' & Hs').
  exists (List (mkDirectory t)), d'. unfold FileSystem_List. rewrite (bind_run _ _ _ _ _ E).
  split; [done|]. split; [by eapply fs_holds_same|]. exists (dir_pairs (mkDirectory t)).*1. split.
  - subst files. unfold fs_files. rewrite map_to_list_fmap. unfold dir_map.
    rewrite map_to_list_to_map by apply Hfs. rewrite <- list_fmap_compose. done.
  - apply (listed_names t [] (λ i, i)); [apply Hfs|]. intros i. cbn. lia.
Qed.

(** *** Room for a file

    The free map, the directory and their headers take five sectors; every file
    takes one for its header and as many as its bytes need. *)
Definition sectors_of (bytes : list Z) : Z := 1 + divRoundUp (Z.of_nat (length bytes)) SectorSize.
Definition free_sectors (files : gmap (list Z) (list Z)) : Z :=
  NumSectors - 5 - foldr Z.add 0 ((λ f, sectors_of f.2) <$> map_to_list files).
Definition has_room (files : gmap (list Z) (list Z)) (size : Z) : Prop :=
  Z.of_nat (base.size files) < NumDirEntries ∧ 1 + divRoundUp size SectorSize ≤ free_sectors files.

Lemma pairs_used t : (length (omap entry_pair t) ≤ length t)%nat ∧
  (length (omap entry_pair t) = length t ↔ Forall (λ e, used e = true) t).
Proof.
  induction t as [|e t [IH1 IH2]]; [done|]. cbn [omap list_omap length].
  assert (E : entry_pair e = if used e then Some (entry_key e, sector e) else None) by done. rewrite E.
  rewrite Forall_cons. destruct (used e); cbn [length]; (split; [lia|]).
  - rewrite <- IH2. split; [intros ?; split; [done|lia]|intros [_ ?]; lia].
  - split; [lia|by intros [? _]].
Qed.

Lemma bind_total {A} (f : A → list Z) l : Z.of_nat (length (l ≫= f)) = foldr Z.add 0 ((λ x, Z.of_nat (length (f x))) <$> l).
Proof. induction l as [|x l IH]; [done|]. cbn [mbind list_bind fmap list_fmap foldr]. rewrite length_app. lia. Qed.

Lemma fits_room fs d b t n : dev_wf d → fs_ok fs (sectors d) b t →
  fits b t n ↔ has_room (fs_files (sectors d) t) n.
Proof.
  intros Hd Hfs. pose proof (fo_sys _ _ _ _ Hfs) as [Hm Hml _ Hdr Hdl _]. destruct (fo_dir_wf _ _ _ _ Hfs) as [Hdir Hlt].
  assert (Hpm : map_to_list (fs_files (sectors d) t) ≡ₚ
    (λ p, (p.1, file_bytes (sectors d) (header_at (sectors d) p.2))) <$> dir_pairs (mkDirectory t)).
  { unfold fs_files. rewrite map_to_list_fmap. unfold dir_map. by rewrite map_to_list_to_map by apply Hdir. }
  assert (Hcc : clear_count b = free_sectors (fs_files (sectors d) t)).
  { unfold clear_count, free_sectors. rewrite (fo_marked _ _ _ _ Hfs), size_list_to_set by apply Hfs.
    destruct (fo_map_wf _ _ _ _ Hfs) as [_ ->]. unfold owned. rewrite length_app, Nat2Z.inj_add, bind_total.
    assert (Hsys : Z.of_nat (length (system_sectors fs)) = 5).
    { unfold system_sectors. cbn [length]. rewrite length_app, !data_of_length by done.
      rewrite (ho_sectors _ Hm), Hml, (ho_sectors _ Hdr), Hdl. reflexivity. }
    rewrite Hsys. assert (Hsum : foldr Z.add 0 ((λ f, sectors_of f.2) <$> map_to_list (fs_files (sectors d) t)) =
      foldr Z.add 0 ((λ p, Z.of_nat (length (file_sectors (sectors d) p.2))) <$> dir_pairs (mkDirectory t))); [|lia].
    rewrite (sum_perm _ _ (fmap_Permutation _ _ _ Hpm)), <- list_fmap_compose. f_equal. apply list_fmap_ext. intros i p Hp.
    pose proof (fo_files _ _ _ _ Hfs) as Hff. apply list_elem_of_lookup_2 in Hp.
    rewrite Forall_forall in Hff. destruct (Hff p Hp) as [_ Hh]. unfold sectors_of, file_sectors. cbn.
    destruct (file_bytes_spec (sectors d) _ (dev_shape d Hd) Hh) as (-> & _). rewrite (data_of_length _ Hh).
    pose proof (ho_bytes _ Hh). pose proof (numSectors_nonneg _ Hh). rewrite Z2Nat.id by done. rewrite <- (ho_sectors _ Hh). lia. }
  assert (Hsz : base.size (fs_files (sectors d) t) = length (omap entry_pair t)).
  { unfold fs_files. rewrite map_size_fmap. unfold dir_map. by rewrite map_size_list_to_map by apply Hdir. }
  unfold fits, has_room. rewrite Hcc, Hsz. destruct (pairs_used t) as [Hle Hiff]. rewrite <- Hiff, Hlt.
  rewrite Hlt in Hle. change NumDirEntries with 10 in *. change (Z.to_nat 10) with 10%nat in *. lia.
Qed.

(** [Print] shows every file with its contents. *)
Definition dumped (out : list Z * list Z * list Z * list (list Z * Z * list Z)) : list (list Z * list Z) :=
  (λ x, (until_nul (take 9 x.1.1), x.2)) <$> out.2.

Lemma FileSystem_Print_ok d files fs : fs_holds fs d files →
  ∃ out d', FileSystem_Print junk fs d = Ok (out, d') ∧ fs_holds fs d' files ∧ dumped out ≡ₚ map_to_list files.
Proof.
  intros Hh. pose proof Hh as (Hd & b & t & Hfs & Hf). pose proof (fo_sys _ _ _ _ Hfs) as Hsys. unfold FileSystem_Print.
  destruct (FetchFrom_ok d FreeMapSector Hd) as (d1 & E1 & Hd1 & Hs1); [done|]. rewrite (bind_run _ _ _ _ _ E1).
  rewrite (so_map_at _ _ Hsys). destruct (FileHeader_Print_ok _ d1 (so_map _ _ Hsys) Hd1) as (d2 & E2 & Hd2 & Hs2).
  rewrite (bind_run _ _ _ _ _ E2).
  destruct (FetchFrom_ok d2 DirectorySector Hd2) as (d3 & E3 & Hd3 & Hs3); [done|]. rewrite (bind_run _ _ _ _ _ E3).
  rewrite Hs2, Hs1, (so_dir_at _ _ Hsys). destruct (FileHeader_Print_ok _ d3 (so_dir _ _ Hsys) Hd3) as (d4 & E4 & Hd4 & Hs4).
  rewrite (bind_run _ _ _ _ _ E4). assert (Hs : sectors d4 = sectors d) by congruence.
  destruct (read_map_ok junk junk_byte fs d4 b t Hd4) as (d5 & Hd5 & Hs5 & E5); [by rewrite Hs|]. rewrite E5.
  unfold BitMap_Print. destruct (fo_map_wf _ _ _ _ Hfs) as [Hwf Hn].
  assert (EP : (b0 ← get; Print_loop (Z.to_nat (numBits b0)) 0) b =
    Ok (filter (λ j, j ∈ bits_of b) (seqZ 0 (Z.of_nat (Z.to_nat (numBits b)))), b)).
  { unfold mbind, M_bind, get. apply Print_loop_spec; [done|done|]. rewrite Hn. done. }
  rewrite EP, lift_run.
  destruct (fetch_dir junk junk_byte fs d5 b t Hd5) as (d6 & E6 & Hd6 & Hs6); [by rewrite Hs5, Hs|]. rewrite (bind_run _ _ _ _ _ E6).
  cbn [table]. assert (Hss : sectors d6 = sectors d) by congruence.
  destruct (Directory_Print_ok d6 t Hd6) as (l & d7 & E7 & Hd7 & Hs7 & Hl); [rewrite Hss; apply Hfs|].
  rewrite (bind_run _ _ _ _ _ E7). eexists _, d7. split; [reflexivity|]. split; [eapply fs_holds_same; [exact Hh|done|congruence]|].
  unfold dumped. cbn [snd]. rewrite Hl, Hss. subst files. unfold fs_files.
  rewrite map_to_list_fmap. unfold dir_map. rewrite map_to_list_to_map by apply Hfs. done.
Qed.

End Files.

(** ** Commands on files *)

Definition set_disk {D T} (d : D) (p : psys D T) : psys D T :=
  mkPsys (p_kern p) (p_memory p) (p_frames p) d (p_term p) (p_desc p) (processIdTable p) (cantProcesses p)
    (p_spaces p) (p_conts p).

Section Sessions.
Context {D T : Type} `{!SectorDevice D} `{!SectorDeviceOK D} `{!Terminal T}.
Context (junk : Z → Z) (junk_byte : ∀ i, is_byte (junk i)) (header : list Z) (unix : list Z → option (list Z)).
Context (other : command → M (nachos_state D T) unit).
Implicit Types (d : D) (fs : FileSystem) (p : psys D T) (files : gmap (list Z) (list Z)) (r : request).
#[local] Abbreviation exec := (run_command junk header unix other).

(** Commands on files whose names are C strings and, to be copied, whose
    contents are not too long for a header. *)
Definition on_files r : Prop :=
  match r with
  | RCopy u f => is_name f ∧ ∀ c, unix u = Some c → Forall is_byte c ∧ Z.of_nat (length c) ≤ MaxFileSize
  | RPrint f | RRemove f => is_name f
  | RSkipped w => request_flag full_build w = false
  | RRun _ | RConsole _ | RMail _ => False
  | _ => True
  end.

(** The specification: a map from names to bytes, and what is printed.  A file is
    copied exactly when its name is new and there is room for it. *)
Inductive request_spec files : request → list output → gmap (list Z) (list Z) → Prop :=
  | spec_copyright : request_spec files RCopyright [OCopyright] files
  | spec_skipped w : request_spec files (RSkipped w) [] files
  | spec_no_input u f : unix u = None → request_spec files (RCopy u f) [OCopied NoInput] files
  | spec_copied u f c : unix u = Some c → files !! file_key f = None → has_room files (Z.of_nat (length c)) →
      request_spec files (RCopy u f) [OCopied Copied] (<[file_key f := c]> files)
  | spec_not_copied u f c : unix u = Some c →
      ¬ (files !! file_key f = None ∧ has_room files (Z.of_nat (length c))) → request_spec files (RCopy u f) [OCopied NoOutput] files
  | spec_print f : request_spec files (RPrint f) [OPrinted (files !! file_key f)] files
  | spec_removed f : request_spec files (RRemove f) [] (delete (file_key f) files)
  | spec_list keys names : keys ≡ₚ (map_to_list files).*1 → Forall2 listed_as keys names →
      request_spec files RList [OListed names] files
  | spec_dump out : dumped out ≡ₚ map_to_list files → request_spec files RDump [ODumped out] files
  | spec_performance w x : w ≠ Transferred → x ≠ Transferred →
      request_spec files RPerformance [OPerformance w x] (delete (file_key FileName) files).

Inductive session : gmap (list Z) (list Z) → list request → list output → gmap (list Z) (list Z) → Prop :=
  | session_nil files : session files [] [] files
  | session_cons files r o files1 rs os files2 :
      request_spec files r o files1 → session files1 rs os files2 → session files (r :: rs) (o ++ os) files2.

Lemma on_disk_command {A} (m : M D A) p out a d' : m (p_disk p) = Ok (a, d') →
  on_system (on_pdisk m) (mkNachos p out) = Ok (a, mkNachos (set_disk d' p) out).
Proof. intros E. unfold on_system, on_pdisk. cbn [n_sys n_out]. by rewrite E. Qed.

Lemma set_disk_twice d d' p : set_disk d' (set_disk d p) = set_disk d' p.
Proof. done. Qed.
Lemma set_disk_id p : set_disk (p_disk p) p = p.
Proof. by destruct p. Qed.

(** Each command does what it is specified to do, and touches only the disk. *)
Lemma request_ok fs files r p out : fs_holds fs (p_disk p) files → on_files r →
  ∃ d' o files', run_all (exec fs) (commands r) (mkNachos p out) =
      Ok (true, mkNachos (set_disk d' p) (out ++ o)) ∧
    fs_holds fs d' files' ∧ request_spec files r o files'.
Proof.
  intros Hh Hr.
  assert (Hdone : ∀ A (m : M D A) a d1 o files' c (k : A → output), m (p_disk p) = Ok (a, d1) → fs_holds fs d1 files' →
    request_spec files r [o] files' → commands r = [c] → k a = o →
    exec fs c = (x ← on_system (on_pdisk m); print_out (k x) ≫= λ _, mret true) →
    ∃ d' o files', run_all (exec fs) (commands r) (mkNachos p out) = Ok (true, mkNachos (set_disk d' p) (out ++ o)) ∧
      fs_holds fs d' files' ∧ request_spec files r o files').
  { intros A m a d1 o files' c k E Hh1 Hspec Hc <- Hex. exists d1, [k a], files'. split; [|done].
    rewrite Hc. cbn [run_all]. rewrite Hex. unfold mbind, M_bind. rewrite (on_disk_command m p out a d1 E). done. }
  destruct r as [|f|files0|u f|f|f| | | |n|w]; cbn in Hr; try done.
  - exists (p_disk p), [OCopyright], files. split; [|split; [done|constructor]]. cbn. by rewrite set_disk_id.
  - destruct Hr as [Hn Hu]. destruct (unix u) as [c|] eqn:Eu.
    + destruct (Hu c eq_refl) as [Hc Hl]. destruct Hh as (Hd & b & t & Hfs & Hf).
      destruct (decide (dir_map (mkDirectory t) !! file_key f = None ∧ fits b t (Z.of_nat (length c)))) as [[Hnone Hfit]|Hno].
      * destruct (Copy_fits junk fs junk_byte (p_disk p) b t f c Hd Hfs Hn Hc Hl Hnone Hfit) as (d1 & E & Hh1). rewrite Hf in Hh1.
        eapply Hdone; [exact E|exact Hh1|eapply spec_copied; [exact Eu| |]|done| |cbn; by rewrite Eu]; [| |done].
        { rewrite <- Hf. by apply lookup_files_none. }
        { rewrite <- Hf. by apply (fits_room fs (p_disk p) b t _ Hd Hfs). }
      * destruct (Copy_refused junk fs junk_byte (p_disk p) b t f c Hd Hfs Hn ltac:(change MaxFileSize with 3840 in Hl; unfold int_max; lia) Hno) as (d1 & E & Hh1). rewrite Hf in Hh1.
        eapply Hdone; [exact E|exact Hh1|eapply spec_not_copied; [exact Eu|]|done| |cbn; by rewrite Eu]; [|done].
        rewrite <- Hf, <- lookup_files_none, <- (fits_room fs (p_disk p) b t _ Hd Hfs). exact Hno.
    + eapply (Hdone _ (Copy junk fs None f)); [done|exact Hh|by apply spec_no_input|done| |cbn; by rewrite Eu]; done.
  - destruct (Print_ok junk fs junk_byte (p_disk p) files f Hh Hr) as (d1 & E & Hh1).
    eapply Hdone; [exact E|exact Hh1|apply spec_print|done| |done]; done.
  - destruct (Remove_cases junk fs junk_byte (p_disk p) files f Hh Hr) as (ok & d1 & E & Hh1).
    exists d1, [], (delete (file_key f) files). split; [|split; [done|constructor]].
    cbn [commands run_all run_command]. unfold mbind, M_bind. rewrite (on_disk_command _ p out _ _ E). by rewrite app_nil_r.
  - destruct (FileSystem_List_ok junk junk_byte (p_disk p) files fs Hh) as (l & d1 & E & Hh1 & keys & Hk & Hl).
    eapply (Hdone _ _ _ _ (OListed l)); [exact E|exact Hh1|by eapply spec_list|done| |done]; done.
  - destruct (FileSystem_Print_ok junk junk_byte (p_disk p) files fs Hh) as (l & d1 & E & Hh1 & Hl).
    eapply (Hdone _ _ _ _ (ODumped l)); [exact E|exact Hh1|by apply spec_dump|done| |done]; done.
  - destruct (PerformanceTest_fails junk fs junk_byte (p_disk p) files Hh) as (x & y & rm & d1 & E & Hx & Hy & Hh1).
    exists d1, [OPerformance x y], (delete (file_key FileName) files). split; [|split; [done|by constructor]].
    cbn [commands run_all run_command]. unfold mbind, M_bind. rewrite (on_disk_command _ p out _ _ E). done.
  - exists (p_disk p), [], files. split; [|split; [done|constructor]]. cbn. by rewrite set_disk_id, app_nil_r.
Qed.

Lemma requests_ok fs rs : ∀ files p out, fs_holds fs (p_disk p) files → Forall on_files rs →
  ∃ d' os files', run_all (exec fs) (rs ≫= commands) (mkNachos p out) =
      Ok (true, mkNachos (set_disk d' p) (out ++ os)) ∧
    fs_holds fs d' files' ∧ session files rs os files'.
Proof.
  induction rs as [|r rs IH]; intros files p out Hh Hrs.
  { exists (p_disk p), [], files. split; [|split; [done|constructor]]. cbn. by rewrite set_disk_id, app_nil_r. }
  apply Forall_cons in Hrs as [Hr Hrs].
  destruct (request_ok fs files r p out Hh Hr) as (d1 & o & files1 & E1 & Hh1 & Hspec).
  destruct (IH files1 (set_disk d1 p) (out ++ o) Hh1 Hrs) as (d2 & os & files2 & E2 & Hh2 & Hs).
  exists d2, (o ++ os), files2. split; [|split; [done|by econstructor]].
  rewrite <- run_commands. cbn [run_all]. rewrite (bind_run _ _ _ _ _ E1). rewrite run_commands, E2, set_disk_twice.
  by rewrite app_assoc.
Qed.

End Sessions.

(** ** Whole command lines *)

(** What [Initialize] makes of the words of a request. *)
Definition settings_of (r : request) : list setting :=
  match r with RPrint f => [Preemptive (Some f)] | _ => Skipped <$> request_words r end.

(** The words that are not flags are not taken for flags of [Initialize]. *)
Definition plain (r : request) : Prop :=
  match r with
  | RCopy u f => setting_flag full_build u = false ∧ setting_flag full_build f = false
  | RRemove f | RSkipped f => setting_flag full_build f = false
  | RRun _ | RConsole _ | RMail _ => False
  | _ => True
  end.

Definition prints (r : request) : bool := match r with RPrint _ => true | _ => false end.

Lemma reads_skipped ws l items tl : Forall (λ w, setting_flag full_build w = false) ws →
  Initialize_reads full_build l items tl → Initialize_reads full_build (ws ++ l) ((Skipped <$> ws) ++ items) tl.
Proof.
  intros Hw Hl. induction Hw as [|w ws Hw _ IH]; [done|].
  cbn [app fmap list_fmap]. by apply (Initialize_reads_cons _ (Skipped w)).
Qed.

Lemma requests_settings rs l items tl : Forall plain rs → Initialize_reads full_build l items tl →
  Initialize_reads full_build ((rs ≫= request_words) ++ l) ((rs ≫= settings_of) ++ items) tl.
Proof.
  intros Hrs Hl. induction Hrs as [|r rs Hr _ IH]; [done|]. cbn [mbind list_bind]. rewrite <- !app_assoc.
  destruct r as [|f|[[]|]|u f|f|f| | | |n|w]; cbn in Hr; try done; cbn [settings_of].
  all: try by apply (Initialize_reads_cons _ (Preemptive (Some f))).
  all: apply reads_skipped; [|exact IH]; cbn [request_words]; repeat constructor; by destruct_and?.
Qed.

Lemma settings_options rs o : Forall plain rs →
  let o' := foldl (λ o i, apply_setting i o) o (rs ≫= settings_of) in
  format o' = format o ∧ preemptiveScheduling o' = existsb prints rs || preemptiveScheduling o.
Proof.
  intros Hrs. revert o. induction Hrs as [|r rs Hr _ IH]; intros o; [done|]. cbn [mbind list_bind existsb]. rewrite foldl_app.
  destruct (IH (foldl (λ o i, apply_setting i o) o (settings_of r))) as [-> ->].
  destruct r as [|f|[[]|]|u f|f|f| | | |n|w]; cbn in Hr; try done; cbn. by rewrite orb_true_r.
Qed.

Lemma on_files_follow unix rs : Forall (on_files unix) rs → well_formed full_build rs.
Proof. induction 1 as [|r rs Hr _ IH]; [done|]. split; [|done]. by destruct r. Qed.

(** Both loops on such a command line, with or without -f before it. *)
Lemma line_reads unix (formats : bool) rs : Forall (on_files unix) rs → Forall plain rs →
  let argv := (if formats then [flag "-f"] else []) ++ (rs ≫= request_words) in
  ∃ o, Initialize_args full_build argv = Ok o ∧ format o = formats ∧ preemptiveScheduling o = existsb prints rs ∧
    ∀ S (exec : command → M S bool) s, main_loop exec full_build argv s = run_all exec (rs ≫= commands) s.
Proof.
  intros Hrs Hpl argv. set (first := if formats then [Format] else []).
  assert (Hset : Initialize_reads full_build argv (first ++ (rs ≫= settings_of)) []).
  { pose proof (requests_settings rs [] [] [] Hpl (reads_nil _ _ _)) as H. rewrite !app_nil_r in H.
    subst first argv. destruct formats; [|exact H]. by apply (Initialize_reads_cons _ Format). }
  assert (Hreq : main_reads full_build argv ((if formats then [RSkipped (flag "-f")] else []) ++ rs) []).
  { pose proof (reads_requests full_build rs (on_files_follow unix rs Hrs)) as H.
    subst argv. destruct formats; [|exact H]. by apply (main_reads_cons _ (RSkipped (flag "-f"))). }
  eexists. split; [by rewrite (Initialize_args_reads _ _ _ _ Hset)|]. rewrite foldl_app.
  destruct (settings_options rs (foldl (λ o i, apply_setting i o) no_options first) Hpl) as [-> ->].
  split; [by destruct formats|]. split; [destruct formats; by rewrite orb_false_r|].
  intros S exec s. rewrite (main_loop_reads _ _ _ _ _ _ Hreq), bind_app.
  replace ((if formats then [RSkipped (flag "-f")] else []) ≫= commands) with (@nil command) by (by destruct formats).
  cbn [app is_nil]. unfold mbind, M_bind. by destruct (run_all exec _ s) as [[[] ?]|].
Qed.

(** The tactics below are not to run the boot. *)
#[local] Opaque new_BitMap FileSystem_new boot_system.

Section Theorems.
Context {D T : Type} `{!SectorDevice D} `{!SectorDeviceOK D} `{!Terminal T}.
Context (junk : Z → Z) (junk_byte : ∀ i, is_byte (junk i)) (header : list Z) (unix : list Z → option (list Z)).
Context (other : command → M (nachos_state D T) unit).
Implicit Types (d : D) (fs : FileSystem) (p : psys D T) (files : gmap (list Z) (list Z)) (r : request).

(** What [new FileSystem(format)] finds or makes on the disk. *)
Definition on_disk (formats : bool) d files : Prop :=
  dev_wf d ∧ if formats then files = ∅ else ∃ fs, fs_holds fs d files.

Lemma FileSystem_new_ok formats d files : on_disk formats d files →
  ∃ fs d', FileSystem_new junk formats d = Ok (fs, d') ∧ fs_holds fs d' files.
Proof.
  intros [Hd H]. destruct formats.
  - subst. destruct (FileSystem_format junk junk_byte d Hd) as (fs & d' & b & t & E & Hd' & Hfs & Hf).
    exists fs, d'. split; [done|]. split; [done|]. exists b, t. split; [exact Hfs|exact Hf].
  - destruct H as (fs & Hh). by apply (reopen_holds junk fs).
Qed.

(** C6: a command line of requests on files, after -f on any disk or without it on
    a disk that has a file system, is read to its end and answers as a map from
    names to bytes, which the disk holds afterwards: a file of UNIX is copied in
    exactly when its name is new, the directory has fewer than ten files and the
    sectors that the other files leave hold it with its header; files are printed
    and dumped with their contents, removed, and listed by their names (one of nine
    characters with whatever follows it in the table).  Names are C strings that
    [Initialize] does not take for flags, and no file to be copied is longer than
    [MaxFileSize].  (A -p that prints a file is also the -p that makes the scheduler
    preemptive.) *)
Theorem nachos_serves_files (formats : bool) name rs regs junkRegs ds d (t : T) files :
  on_disk formats d files → Forall (on_files unix) rs → Forall plain rs →
  ∃ o fs s files',
    nachos_main junk header unix other
      (name :: (if formats then [flag "-f"] else []) ++ (rs ≫= request_words)) regs junkRegs ds d t = Ok (o, fs, true, s) ∧
    format o = formats ∧ preemptiveScheduling o = existsb prints rs ∧
    session unix files rs (n_out s) files' ∧ fs_holds fs (p_disk (n_sys s)) files'.
Proof.
  intros Hd Hrs Hpl. destruct (FileSystem_new_ok formats d files Hd) as (fs & d1 & Efs & Hh1).
  destruct (line_reads unix formats rs Hrs Hpl) as (o & Eo & Hf & Hp & Hmain).
  set (argv := (if formats then [flag "-f"] else []) ++ (rs ≫= request_words)) in *.
  destruct (requests_ok junk junk_byte header unix other fs rs files (boot_system regs junkRegs ds d1 t) [] Hh1 Hrs)
    as (d2 & os & files' & E & Hh2 & Hsess).
  exists o, fs, (mkNachos (set_disk d2 (boot_system regs junkRegs ds d1 t)) os), files'.
  split; [|split; [exact Hf|split; [exact Hp|split; [exact Hsess|exact Hh2]]]].
  unfold nachos_main. cbn [tail]. fold argv. rewrite Eo. unfold mbind, res_bind. rewrite Hf, Efs, Hmain, E. reflexivity.
Qed.

(** Up to a call of [machine->Run()] only the disk has changed since the boot. *)
Definition since_boot p0 (s : nachos_state D T) : Prop := ∃ d, n_sys s = set_disk d p0.

Lemma on_disk_since {A} (m : M D A) p0 s a s' : since_boot p0 s → on_system (on_pdisk m) s = Ok (a, s') → since_boot p0 s'.
Proof.
  intros [d Hs] H. unfold on_system, on_pdisk in H. destruct (m _) as [[a' d']|]; [|done]. injection H as <- <-.
  exists d'. cbn. by rewrite Hs.
Qed.

(** What is reached when a command does not return. *)
Definition running fs p0 (s : nachos_state D T) : Prop :=
  ∃ f d, @first_process D T (nachos_files junk fs) f header (set_disk d p0) = Ok (true, n_sys s).

Lemma start_since fs f p0 s b s' : since_boot p0 s → run_command junk header unix other fs (DoStart f) s = Ok (b, s') →
  if b then since_boot p0 s' else running fs p0 s'.
Proof.
  intros [d0 Hs] H. cbn [run_command] in H. apply bind_Ok in H as (runs & s1 & H1 & H). binds H.
  unfold on_system in H1. rewrite Hs in H1. destruct (first_process _ _ _) as [[runs' p1]|] eqn:E; [|done].
  injection H1 as -> <-. destruct runs; [by exists f, d0|]. unfold first_process in E.
  apply bind_Ok in E as (o & p2 & E & E'). unfold on_pdisk in E. destruct (fs_Open _ _) as [[o' d']|]; [|done].
  injection E as <- <-. destruct o'; [|injection E' as <-; by exists d'].
  by repeat (apply bind_Ok in E' as (? & ? & _ & E')).
Qed.

(** The other commands on the file system return. *)
Lemma command_since fs c p0 s b s' : since_boot p0 s → run_command junk header unix other fs c s = Ok (b, s') →
  match c with
  | DoStart _ | DoConsole _ | DoDelay _ | DoMail _ | DoHalt => True
  | _ => b = true ∧ since_boot p0 s'
  end.
Proof.
  intros Hs H. destruct c; try done; cbn [run_command] in H.
  { unfold print_out in H. binds H. by split. }
  all: apply bind_Ok in H as (a & s1 & E & H); apply (on_disk_since _ p0) in E; [|done].
  all: try destruct a as [[w x] rm]. all: unfold print_out in H; binds H; by split.
Qed.

Lemma request_since fs r rest p0 s b s' : request_follows full_build r rest → since_boot p0 s →
  run_all (run_command junk header unix other fs) (commands r) s = Ok (b, s') →
  if b then since_boot p0 s' else running fs p0 s'.
Proof.
  intros Hf Hs H.
  assert (Hone : ∀ c, run_all (run_command junk header unix other fs) [c] s = Ok (b, s') →
    run_command junk header unix other fs c s = Ok (b, s')).
  { intros c Hc. cbn [run_all] in Hc. apply bind_Ok in Hc as (x & s1 & E & Hc). destruct x; by injection Hc as <- <-. }
  destruct r; cbn in Hf; try done; cbn [commands] in H;
    try (apply Hone in H; apply (command_since _ _ p0) in H; [|exact Hs]; by (cbn in H; destruct_and? H; subst b)).
  - apply Hone in H. by apply (start_since _ _ p0) in H.
  - cbn [run_all run_command] in H. apply bind_Ok in H as (x & s1 & E & H). binds E. by apply bind_Ok in H as (? & ? & H & _).
  - cbn in H. by injection H as <- <-.
Qed.

Lemma reads_since fs argv rs tl p0 : main_reads full_build argv rs tl → ∀ s b s', since_boot p0 s →
  run_all (run_command junk header unix other fs) (rs ≫= commands) s = Ok (b, s') →
  if b then since_boot p0 s' else running fs p0 s'.
Proof.
  induction 1 as [|argv Hl|r rest rs tl Hf _ IH]; intros s b s' Hs H; [by injection H as <- <-..|].
  rewrite <- run_commands in H. cbn [run_all] in H. apply bind_Ok in H as (x & s1 & E & H).
  apply (request_since fs r rest p0 s x s1 Hf Hs) in E. destruct x; [|by injection H as <- <-].
  rewrite run_commands in H. by apply (IH s1).
Qed.

(** C22: whatever the command line, if [main] does not return, which is in
    [machine->Run()] of the program after a -x, the system is in a state in which
    every invariant of the kernel and its processes begins to hold; this includes
    the disk, which the commands before the -x may have formatted and filled. *)
Theorem nachos_runs_program argv regs junkRegs ds d (t : T) o fs s : length regs = Z.to_nat NumTotalRegs →
  nachos_main junk header unix other argv regs junkRegs ds d t = Ok (o, fs, false, s) →
  @reachable D T (nachos_files junk fs) (n_sys s) ∧ @pinv D T (n_sys s).
Proof.
  intros Hregs H. assert (Hr : @reachable D T (nachos_files junk fs) (n_sys s)).
  { unfold nachos_main in H. destruct (Initialize_args _ _) as [o'|]; [|done]. cbn [mbind res_bind] in H.
    destruct (FileSystem_new _ _ _) as [[fs' d1]|]; [|done]. cbn [mbind res_bind] in H.
    destruct (main_reads_total full_build (tail argv)) as (rs & tl & Hreads).
    destruct (main_loop _ _ _ _) as [[ends s1]|] eqn:E; [|done]. cbn [mbind res_bind] in H. injection H as <- <- -> <-.
    rewrite (main_loop_reads _ _ _ _ _ _ Hreads) in E.
    apply bind_Ok in E as (x & s2 & E & E'). apply (reads_since fs' _ _ _ (boot_system regs junkRegs ds d1 t) Hreads) in E.
    - destruct x; [destruct tl; by binds E'|]. injection E' as <-. destruct E as (f & d2 & E).
      by eapply (reach _ regs junkRegs ds d2 t f header).
    - by exists d1. }
  split; [exact Hr|]. by apply (@reachable_inv D T (nachos_files junk fs) (nachos_files_ok junk fs)).
Qed.

End Theorems.

(** ** A session on a blank disk *)

Module Example.

(** UNIX has a program called p, whose only instruction is a system call, and
    nothing else. *)
Definition unix_files (name : list Z) : option (list Z) :=
  if bool_decide (name = flag "p") then Some Family.halter else None.

#[local] Existing Instance RamDisk.device.
#[local] Existing Instance RamDisk.device_ok.
#[local] Existing Instance SynchConsole.terminal.

Abbreviation console := SynchConsole.K.

(** What is not on files is not used. *)
Definition no_other : command → M (nachos_state RamDisk.ram console) unit := λ _, fail AssertFailed.

Definition nachos (argv : list (list Z)) (k : console) :=
  nachos_main (λ _, 7) (replicate 40 0) unix_files no_other argv (replicate 40 0) (replicate 40 0) (replicate 100 None)
    RamDisk.blank k.

(** nachos -f -cp p a -x a *)
Definition run_line : list (list Z) :=
  flag <$> ["nachos"; "-f"; "-cp"; "p"; "a"; "-x"; "a"]%string.

Lemma run_line_runs k : match nachos run_line k with Ok (_, _, ends, _) => negb ends | Err _ => false end = true.
Proof. by vm_compute. Qed.

(** A file is copied, printed, listed, dumped and removed. *)
Definition tools : list request :=
  [RCopyright; RCopy (flag "p") (flag "a"); RPrint (flag "a"); RList; RDump; RCopy (flag "q") (flag "b"); RRemove (flag "a")].

Lemma tools_on_files : Forall (on_files unix_files) tools ∧ Forall plain tools.
Proof.
  assert (Hp : ∀ c, unix_files (flag "p") = Some c → Forall is_byte c ∧ Z.of_nat (length c) ≤ MaxFileSize).
  { intros c. vm_compute. intros [= <-]. split; [|done]. by repeat constructor. }
  assert (Ha : is_name (flag "a") ∧ is_name (flag "b")) by (split; by repeat constructor).
  unfold tools. rewrite !Forall_cons, !Forall_nil. cbn [on_files plain]. split_and!; try done; try apply Ha.
Qed.

End Example.

Lemma nachos_serves_files_witness : ∃ k o fs s files',
  Example.nachos (flag "nachos" :: [flag "-f"] ++ (Example.tools ≫= request_words)) k = Ok (o, fs, true, s) ∧
  format o = true ∧ preemptiveScheduling o = existsb prints Example.tools ∧
  session Example.unix_files ∅ Example.tools (n_out s) files' ∧
  @fs_holds _ RamDisk.device fs (p_disk (n_sys s)) files'.
Proof.
  destruct (SynchConsole.new_SynchConsole_ok [] Interrupt.new_Statistics) as (k & _ & _); [constructor|]. exists k.
  apply (@nachos_serves_files _ _ RamDisk.device RamDisk.device_ok SynchConsole.terminal (λ _, 7) seven_byte (replicate 40 0)
    Example.unix_files Example.no_other true (flag "nachos") Example.tools (replicate 40 0) (replicate 40 0)
    (replicate 100 None) RamDisk.blank k ∅).
  - split; [exact RamDisk.blank_wf|done].
  - apply Example.tools_on_files.
  - apply Example.tools_on_files.
Defined.

Lemma nachos_runs_program_witness : ∃ k o fs s, Example.nachos Example.run_line k = Ok (o, fs, false, s) ∧
  @reachable _ _ (@nachos_files _ _ RamDisk.device SynchConsole.terminal (λ _, 7) fs) (n_sys s) ∧ pinv (n_sys s).
Proof.
  destruct (SynchConsole.new_SynchConsole_ok [] Interrupt.new_Statistics) as (k & _ & _); [constructor|]. exists k.
  pose proof (Example.run_line_runs k) as Hr.
  destruct (Example.nachos Example.run_line k) as [[[[o fs] ends] s]|] eqn:E; [|discriminate Hr].
  destruct ends; [discriminate Hr|]. exists o, fs, s. split; [reflexivity|].
  exact (@nachos_runs_program _ _ RamDisk.device SynchConsole.terminal (λ _, 7) (replicate 40 0)
    Example.unix_files Example.no_other Example.run_line (replicate 40 0) (replicate 40 0) (replicate 100 None)
    RamDisk.blank k o fs s eq_refl E).
Defined.
