(* ===== verification/Stub.v ===== *)
(** * Stub: the file system of the FILESYS_STUB build

    filesys/filesys.h and filesys/openfile.h have a second version of the classes
    [FileSystem] and [OpenFile], in which every call is a call of UNIX through the
    wrappers of machine/sysdep.cc; it is the one the programs of userprog and vm
    run on.  UNIX is a map from names to files and a table of open files, with
    its calls as documented, on regular files and a disk that is never full.  The
    theorems say what the stub does as a map from names to bytes, and where it
    differs from the file system of FileSys.v. *)

From S2P Require Import Prelude Disk FileHdr OpenFile Directory FileSys.

(** ** UNIX *)

(** The directory, the files by number, and the open files: a file and an
    offset. *)
Record host := mkHost { h_dir : gmap (list Z) nat; h_files : gmap nat (list Z); h_open : gmap nat (nat * Z) }.

(** The bytes of a file after a write at [off], past its end too. *)
Definition overwrite (off : nat) (from bytes : list Z) : list Z :=
  match from with
  | [] => bytes
  | _ => take off (bytes ++ replicate (off - length bytes) 0) ++ from ++ drop (off + length from) bytes
  end.

Section Host.
(** Names that cannot be opened for writing: directories, files of others. *)
Context (denied : list Z → bool).

(** [open(name, O_RDWR)] and [open(name, O_RDWR|O_CREAT|O_TRUNC)]; which unused
    numbers are taken does not matter. *)
Definition unix_open (name : list Z) (write : bool) : M host Z := λ h,
  if denied name then Ok (-1, h)
  else
    match h_dir h !! name with
    | Some i =>
        let fd := fresh (dom (h_open h)) in
        Ok (Z.of_nat fd, mkHost (h_dir h) (if write then <[i := []]> (h_files h) else h_files h) (<[fd := (i, 0)]> (h_open h)))
    | None =>
        if write then
          let i := fresh (dom (h_files h)) in
          let fd := fresh (dom (h_open h)) in
          Ok (Z.of_nat fd, mkHost (<[name := i]> (h_dir h)) (<[i := []]> (h_files h)) (<[fd := (i, 0)]> (h_open h)))
        else Ok (-1, h)
    end.

(** An open file: its number, its bytes and the offset, if the descriptor is one. *)
Definition open_file_at (fd : Z) (h : host) : option (nat * list Z * Z) :=
  if bool_decide (0 ≤ fd) then
    p ← h_open h !! Z.to_nat fd; bytes ← h_files h !! p.1; Some (p.1, bytes, p.2)
  else None.

Definition set_offset (fd i : nat) (off : Z) (h : host) : host := mkHost (h_dir h) (h_files h) (<[fd := (i, off)]> (h_open h)).

Definition unix_read (fd : Z) (n : Z) : M host (Z * list Z) := λ h,
  match open_file_at fd h with
  | Some (i, bytes, off) =>
      if bool_decide (n < 0) then Ok ((-1, []), h)
      else
        let r := take (Z.to_nat n) (drop (Z.to_nat off) bytes) in
        Ok ((Z.of_nat (length r), r), set_offset (Z.to_nat fd) i (off + Z.of_nat (length r)) h)
  | None => Ok ((-1, []), h)
  end.

Definition unix_write (fd : Z) (from : list Z) : M host Z := λ h,
  match open_file_at fd h with
  | Some (i, bytes, off) =>
      Ok (Z.of_nat (length from),
          set_offset (Z.to_nat fd) i (off + Z.of_nat (length from))
            (mkHost (h_dir h) (<[i := overwrite (Z.to_nat off) from bytes]> (h_files h)) (h_open h)))
  | None => Ok (-1, h)
  end.

(** [whence]: 0 from the beginning, 1 from the offset, 2 from the end. *)
Definition unix_lseek (fd offset whence : Z) : M host Z := λ h,
  match open_file_at fd h with
  | Some (i, bytes, off) =>
      let to := offset + (if whence =? 0 then 0 else if whence =? 1 then off else Z.of_nat (length bytes)) in
      if bool_decide (to < 0) then Ok (-1, h) else Ok (to, set_offset (Z.to_nat fd) i to h)
  | None => Ok (-1, h)
  end.

Definition unix_close (fd : Z) : M host Z := λ h,
  match open_file_at fd h with
  | Some _ => Ok (0, mkHost (h_dir h) (h_files h) (delete (Z.to_nat fd) (h_open h)))
  | None => Ok (-1, h)
  end.

Definition unix_unlink (name : list Z) : M host Z := λ h,
  match h_dir h !! name with
  | Some _ => Ok (0, mkHost (delete name (h_dir h)) (h_files h) (h_open h))
  | None => Ok (-1, h)
  end.

(** ** machine/sysdep.cc *)

Definition OpenForWrite (name : list Z) : M host Z :=
  fd ← unix_open name true; ASSERT (bool_decide (0 ≤ fd)) ≫= λ _, mret fd.

Definition OpenForReadWrite (name : list Z) (crashOnError : bool) : M host Z :=
  fd ← unix_open name false; ASSERT (negb crashOnError || bool_decide (0 ≤ fd)) ≫= λ _, mret fd.

Definition ReadPartial (fd nBytes : Z) : M host (Z * list Z) := unix_read fd nBytes.

Definition WriteFile (fd : Z) (buffer : list Z) : M host unit :=
  retVal ← unix_write fd buffer; ASSERT (bool_decide (retVal = Z.of_nat (length buffer))).

Definition Lseek (fd offset whence : Z) : M host unit :=
  retVal ← unix_lseek fd offset whence; ASSERT (bool_decide (0 ≤ retVal)).

Definition Tell (fd : Z) : M host Z := unix_lseek fd 0 1.

Definition Close (fd : Z) : M host unit := retVal ← unix_close fd; ASSERT (bool_decide (0 ≤ retVal)).

(** A [bool]: whether [unlink] failed. *)
Definition Unlink (name : list Z) : M host bool := r ← unix_unlink name; mret (bool_decide (r ≠ 0)).

(** ** The stub classes *)

(** class [OpenFile]. *)
Record StubOpenFile := mkStub { file : Z; currentOffset : Z }.

Definition StubFile_ReadAt (f : StubOpenFile) (numBytes position : Z) : M host (Z * list Z) :=
  Lseek (file f) position 0 ≫= λ _, ReadPartial (file f) numBytes.

(** [from] has [numBytes] bytes. *)
Definition StubFile_WriteAt (f : StubOpenFile) (from : list Z) (position : Z) : M host Z :=
  Lseek (file f) position 0 ≫= λ _, WriteFile (file f) from ≫= λ _, mret (Z.of_nat (length from)).

Definition StubFile_Read (f : StubOpenFile) (numBytes : Z) : M host (Z * list Z * StubOpenFile) :=
  '(numRead, r) ← StubFile_ReadAt f numBytes (currentOffset f);
  mret (numRead, r, mkStub (file f) (currentOffset f + numRead)).

Definition StubFile_Write (f : StubOpenFile) (from : list Z) : M host (Z * StubOpenFile) :=
  numWritten ← StubFile_WriteAt f from (currentOffset f);
  mret (numWritten, mkStub (file f) (currentOffset f + numWritten)).

Definition StubFile_Length (f : StubOpenFile) : M host Z := Lseek (file f) 0 2 ≫= λ _, Tell (file f).

(** class [FileSystem]. *)
Definition Stub_Create (name : list Z) (initialSize : Z) : M host bool :=
  fileDescriptor ← OpenForWrite name;
  if bool_decide (fileDescriptor = -1) then mret false
  else Close fileDescriptor ≫= λ _, mret true.

Definition Stub_Open (name : list Z) : M host (option StubOpenFile) :=
  fileDescriptor ← OpenForReadWrite name false;
  if bool_decide (fileDescriptor = -1) then mret None else mret (Some (mkStub fileDescriptor 0)).

Definition Stub_Remove (name : list Z) : M host bool := u ← Unlink name; mret (bool_decide (u = false)).

(** The calls of FileSys.v: a file is opened for each transfer, and closed by its
    destructor. *)
Definition stub_call (c : fs_call) : M host fs_result :=
  match c with
  | CCreate name size => ok ← Stub_Create name size; mret (RBool ok)
  | CRemove name => ok ← Stub_Remove name; mret (RBool ok)
  | CRead name n position =>
      f ← Stub_Open name;
      match f with
      | Some f => r ← StubFile_ReadAt f n position; Close (file f) ≫= λ _, mret (RBytes (Some r.2))
      | None => mret (RBytes None)
      end
  | CWrite name from position =>
      f ← Stub_Open name;
      match f with
      | Some f => r ← StubFile_WriteAt f from position; Close (file f) ≫= λ _, mret (RCount (Some r))
      | None => mret (RCount None)
      end
  end.

Fixpoint stub_calls (cs : list fs_call) : M host (list fs_result) :=
  match cs with
  | [] => mret []
  | c :: cs => r ← stub_call c; rs ← stub_calls cs; mret (r :: rs)
  end.

(** ** What UNIX holds *)

(** Every name has a file of its own, with the bytes [files] says. *)
Record holds (h : host) (files : gmap (list Z) (list Z)) : Prop := {
  ho_file name : files !! name = h_dir h !! name ≫= λ i, h_files h !! i;
  ho_some name i : h_dir h !! name = Some i → is_Some (h_files h !! i);
  ho_inj name name' i : h_dir h !! name = Some i → h_dir h !! name' = Some i → name = name'
}.

Lemma holds_open h files o : holds h files → holds (mkHost (h_dir h) (h_files h) o) files.
Proof. by intros []. Qed.

(** The file of a name, replaced. *)
Lemma holds_write h files name i bytes o : holds h files → h_dir h !! name = Some i →
  holds (mkHost (h_dir h) (<[i := bytes]> (h_files h)) o) (<[name := bytes]> files).
Proof.
  intros [H1 H2 H3] Hi. split; cbn [h_dir h_files].
  - intros name'. destruct (decide (name' = name)) as [->|Hne].
    + by rewrite lookup_insert_eq, Hi; cbn; rewrite lookup_insert_eq.
    + rewrite lookup_insert_ne by done. rewrite H1. destruct (h_dir h !! name') as [j|] eqn:Ej; [|done].
      cbn. rewrite lookup_insert_ne; [done|]. intros ->. apply Hne. by eapply H3.
  - intros name' j Hj. destruct (decide (j = i)) as [->|]; [rewrite lookup_insert_eq; by eexists|].
    rewrite lookup_insert_ne by done. by eapply H2.
  - done.
Qed.

(** A new file. *)
Lemma holds_new h files name i o : holds h files → h_dir h !! name = None → h_files h !! i = None →
  holds (mkHost (<[name := i]> (h_dir h)) (<[i := []]> (h_files h)) o) (<[name := []]> files).
Proof.
  intros [H1 H2 H3] Hn Hi.
  assert (Hfresh : ∀ name' j, h_dir h !! name' = Some j → j ≠ i).
  { intros name' j Hj ->. destruct (H2 _ _ Hj) as [x Hx]. congruence. }
  split; cbn [h_dir h_files].
  - intros name'. destruct (decide (name' = name)) as [->|Hne].
    + rewrite !lookup_insert_eq. cbn. by rewrite lookup_insert_eq.
    + rewrite !lookup_insert_ne by done. rewrite H1. destruct (h_dir h !! name') as [j|] eqn:Ej; [|done].
      cbn. rewrite lookup_insert_ne; [done|]. intros ->. by eapply Hfresh.
  - intros name' j [(<- & <-)|(Hne & Hj)]%lookup_insert_Some; [rewrite lookup_insert_eq; by eexists|].
    rewrite lookup_insert_ne by (intros ->; by eapply Hfresh). by eapply H2.
  - intros a b j [(<- & <-)|(Hne & Hj)]%lookup_insert_Some [(<- & E)|(Hne' & Hj')]%lookup_insert_Some; try done.
    + by apply Hfresh in Hj'.
    + subst. by apply Hfresh in Hj.
    + by eapply H3.
Qed.

Lemma holds_unlink h files name : holds h files →
  holds (mkHost (delete name (h_dir h)) (h_files h) (h_open h)) (delete name files).
Proof.
  intros [H1 H2 H3]. split; cbn [h_dir h_files].
  - intros name'. destruct (decide (name' = name)) as [->|]; [by rewrite !lookup_delete_eq|].
    by rewrite !lookup_delete_ne.
  - intros name' j [_ Hj]%lookup_delete_Some. by eapply H2.
  - intros a b j [_ Ha]%lookup_delete_Some [_ Hb]%lookup_delete_Some. by eapply H3.
Qed.

(** ** The wrappers on an open file *)

Lemma open_file_at_fd d fs (fd i : nat) off o bytes : fs !! i = Some bytes →
  open_file_at (Z.of_nat fd) (mkHost d fs (<[fd := (i, off)]> o)) = Some (i, bytes, off).
Proof.
  intros Hi. unfold open_file_at. rewrite bool_decide_eq_true_2 by lia. cbn [h_open h_files]. rewrite Nat2Z.id, lookup_insert_eq.
  cbn. by rewrite Hi.
Qed.

Lemma Lseek_set d fs (fd i : nat) off o bytes pos : fs !! i = Some bytes → 0 ≤ pos →
  Lseek (Z.of_nat fd) pos 0 (mkHost d fs (<[fd := (i, off)]> o)) = Ok (tt, mkHost d fs (<[fd := (i, pos)]> o)).
Proof.
  intros Hi Hp. unfold Lseek, unix_lseek, mbind, M_bind. rewrite (open_file_at_fd _ _ _ _ _ _ _ Hi). cbn [Z.eqb].
  rewrite Z.add_0_r, bool_decide_eq_false_2 by lia. unfold ASSERT. rewrite bool_decide_eq_true_2 by done.
  unfold set_offset. cbn [h_dir h_files h_open]. by rewrite Nat2Z.id, insert_insert_eq.
Qed.

Lemma Close_fd d fs (fd i : nat) off o bytes : fs !! i = Some bytes → o !! fd = None →
  Close (Z.of_nat fd) (mkHost d fs (<[fd := (i, off)]> o)) = Ok (tt, mkHost d fs o).
Proof.
  intros Hi Hfd. unfold Close, unix_close, mbind, M_bind. rewrite (open_file_at_fd _ _ _ _ _ _ _ Hi).
  unfold ASSERT. cbn [h_dir h_files h_open]. by rewrite Nat2Z.id, delete_insert_id.
Qed.

Lemma StubFile_ReadAt_ok d fs (fd i : nat) off o bytes cur n pos : fs !! i = Some bytes → 0 ≤ pos → 0 ≤ n →
  let r := take (Z.to_nat n) (drop (Z.to_nat pos) bytes) in
  StubFile_ReadAt (mkStub (Z.of_nat fd) cur) n pos (mkHost d fs (<[fd := (i, off)]> o)) =
    Ok ((Z.of_nat (length r), r), mkHost d fs (<[fd := (i, pos + Z.of_nat (length r))]> o)).
Proof.
  intros Hi Hp Hn r. unfold StubFile_ReadAt. cbn [file]. rewrite (bind_run _ _ _ _ _ (Lseek_set _ _ _ _ _ _ _ _ Hi Hp)).
  unfold ReadPartial, unix_read. rewrite (open_file_at_fd _ _ _ _ _ _ _ Hi), bool_decide_eq_false_2 by lia.
  unfold set_offset. cbn [h_dir h_files h_open]. by rewrite Nat2Z.id, insert_insert_eq.
Qed.

Lemma StubFile_WriteAt_ok d fs (fd i : nat) off o bytes cur from pos : fs !! i = Some bytes → 0 ≤ pos →
  StubFile_WriteAt (mkStub (Z.of_nat fd) cur) from pos (mkHost d fs (<[fd := (i, off)]> o)) =
    Ok (Z.of_nat (length from), mkHost d (<[i := overwrite (Z.to_nat pos) from bytes]> fs)
                                  (<[fd := (i, pos + Z.of_nat (length from))]> o)).
Proof.
  intros Hi Hp. unfold StubFile_WriteAt. cbn [file]. rewrite (bind_run _ _ _ _ _ (Lseek_set _ _ _ _ _ _ _ _ Hi Hp)).
  unfold WriteFile, unix_write, mbind, M_bind. rewrite (open_file_at_fd _ _ _ _ _ _ _ Hi).
  unfold ASSERT. rewrite bool_decide_eq_true_2 by done. unfold set_offset. cbn [h_dir h_files h_open].
  by rewrite Nat2Z.id, insert_insert_eq.
Qed.

(** The length is that of the file; it leaves the offset at its end. *)
Lemma StubFile_Length_ok d fs (fd i : nat) off o bytes cur : fs !! i = Some bytes →
  StubFile_Length (mkStub (Z.of_nat fd) cur) (mkHost d fs (<[fd := (i, off)]> o)) =
    Ok (Z.of_nat (length bytes), mkHost d fs (<[fd := (i, Z.of_nat (length bytes))]> o)).
Proof.
  intros Hi. unfold StubFile_Length, Lseek, Tell. cbn [file].
  assert (E : unix_lseek (Z.of_nat fd) 0 2 (mkHost d fs (<[fd := (i, off)]> o)) =
    Ok (Z.of_nat (length bytes), mkHost d fs (<[fd := (i, Z.of_nat (length bytes))]> o))).
  { unfold unix_lseek. rewrite (open_file_at_fd _ _ _ _ _ _ _ Hi). cbn [Z.eqb]. rewrite Z.add_0_l, (bool_decide_eq_false_2 (Z.of_nat (length bytes) < 0)) by lia.
    unfold set_offset. cbn [h_dir h_files h_open]. by rewrite Nat2Z.id, insert_insert_eq. }
  unfold mbind, M_bind. rewrite E. unfold ASSERT. rewrite bool_decide_eq_true_2 by lia. cbn [mret M_ret].
  unfold unix_lseek. rewrite (open_file_at_fd _ _ _ _ _ _ _ Hi). cbn [Z.eqb]. rewrite Z.add_0_l, (bool_decide_eq_false_2 (Z.of_nat (length bytes) < 0)) by lia.
  unfold set_offset. cbn [h_dir h_files h_open]. by rewrite Nat2Z.id, insert_insert_eq.
Qed.

Lemma Stub_Open_ok h files name : holds h files → denied name = false →
  match files !! name with
  | None => Stub_Open name h = Ok (None, h)
  | Some bytes => ∃ i fd, h_dir h !! name = Some i ∧ h_files h !! i = Some bytes ∧ h_open h !! fd = None ∧
      Stub_Open name h = Ok (Some (mkStub (Z.of_nat fd) 0), mkHost (h_dir h) (h_files h) (<[fd := (i, 0)]> (h_open h)))
  end.
Proof.
  intros [H1 H2 H3] Hd. rewrite H1. unfold Stub_Open, OpenForReadWrite, unix_open, mbind, M_bind. rewrite Hd.
  destruct (h_dir h !! name) as [i|] eqn:Ei; cbn [mbind option_bind]; [|reflexivity]. destruct (H2 _ _ Ei) as [bytes Hb]. rewrite Hb.
  exists i, (fresh (dom (h_open h))). split; [done|]. split; [done|]. split; [apply not_elem_of_dom, is_fresh|].
  unfold ASSERT. cbn [negb orb mret M_ret]. by rewrite bool_decide_eq_false_2 by lia.
Qed.

(** ** The stub as a map from names to bytes *)

(** Names that may be opened, and arguments that are not negative. *)
Definition stub_ok (c : fs_call) : Prop :=
  match c with
  | CCreate name _ => denied name = false
  | CRemove _ => True
  | CRead name n position => denied name = false ∧ 0 ≤ n ∧ 0 ≤ position
  | CWrite name _ position => denied name = false ∧ 0 ≤ position
  end.

Inductive stub_spec (files : gmap (list Z) (list Z)) : fs_call → fs_result → gmap (list Z) (list Z) → Prop :=
  | stub_create name size : stub_spec files (CCreate name size) (RBool true) (<[name := []]> files)
  | stub_remove name :
      stub_spec files (CRemove name) (RBool (bool_decide (is_Some (files !! name)))) (delete name files)
  | stub_read name n position :
      stub_spec files (CRead name n position)
        (RBytes (take (Z.to_nat n) ∘ drop (Z.to_nat position) <$> files !! name)) files
  | stub_write name from position bytes : files !! name = Some bytes →
      stub_spec files (CWrite name from position) (RCount (Some (Z.of_nat (length from))))
        (<[name := overwrite (Z.to_nat position) from bytes]> files)
  | stub_write_none name from position : files !! name = None →
      stub_spec files (CWrite name from position) (RCount None) files.

Inductive stub_trace : gmap (list Z) (list Z) → list fs_call → list fs_result → gmap (list Z) (list Z) → Prop :=
  | stub_nil files : stub_trace files [] [] files
  | stub_cons files c r files1 cs rs files2 :
      stub_spec files c r files1 → stub_trace files1 cs rs files2 → stub_trace files (c :: cs) (r :: rs) files2.

Lemma Create_simulates h files name size : holds h files → denied name = false →
  ∃ h', Stub_Create name size h = Ok (true, h') ∧ holds h' (<[name := []]> files).
Proof.
  intros Hh Hd. pose proof Hh as [_ H2 _]. unfold Stub_Create, OpenForWrite, unix_open, mbind, M_bind. rewrite Hd.
  assert (Hfd : h_open h !! fresh (dom (h_open h)) = None) by apply not_elem_of_dom, is_fresh.
  destruct (h_dir h !! name) as [i|] eqn:Ei; unfold ASSERT; rewrite bool_decide_eq_true_2 by lia; cbn [mret M_ret];
    rewrite bool_decide_eq_false_2 by lia.
  - rewrite (Close_fd _ _ _ _ _ _ []); [|apply lookup_insert_eq|done]. eexists. split; [reflexivity|]. by apply holds_write.
  - rewrite (Close_fd _ _ _ _ _ _ []); [|apply lookup_insert_eq|done]. eexists. split; [reflexivity|].
    apply holds_new; [done|done|]. apply not_elem_of_dom, is_fresh.
Qed.

Lemma stub_simulates h files c : holds h files → stub_ok c →
  ∃ r h' files', stub_call c h = Ok (r, h') ∧ holds h' files' ∧ stub_spec files c r files'.
Proof.
  intros Hh Hc. destruct c as [name size|name|name n pos|name from pos]; cbn in Hc; cbn [stub_call].
  - destruct (Create_simulates h files name size Hh Hc) as (h' & E & Hh'). eexists _, h', _.
    rewrite (bind_run _ _ _ _ _ E). split; [reflexivity|]. split; [exact Hh'|constructor].
  - pose proof Hh as [H1 H2 _]. unfold Stub_Remove, Unlink, unix_unlink, mbind, M_bind.
    pose proof (stub_remove files name) as Hspec. rewrite H1 in Hspec. destruct (h_dir h !! name) as [i|] eqn:Ei.
    + destruct (H2 _ _ Ei) as [x Hx]. cbn [mbind option_bind] in Hspec. rewrite Hx, bool_decide_eq_true_2 in Hspec by by eexists.
      eexists _, _, _. split; [reflexivity|]. split; [by apply holds_unlink|exact Hspec].
    + cbn [mbind option_bind] in Hspec. rewrite bool_decide_eq_false_2 in Hspec by by intros [].
      eexists _, _, _. split; [reflexivity|]. split; [exact Hh|]. rewrite delete_id in Hspec; [exact Hspec|].
      by rewrite H1, Ei.
  - destruct Hc as (Hd & Hn & Hp). pose proof (Stub_Open_ok h files name Hh Hd) as Ho.
    pose proof (stub_read files name n pos) as Hspec. destruct (files !! name) as [bytes|].
    + destruct Ho as (i & fd & Hi & Hb & Hfd & E). rewrite (bind_run _ _ _ _ _ E). cbv iota.
      rewrite (bind_run _ _ _ _ _ (StubFile_ReadAt_ok _ _ _ _ _ _ _ 0 n pos Hb Hp Hn)).
      rewrite (bind_run _ _ _ _ _ (Close_fd _ _ _ _ _ _ _ Hb Hfd)).
      eexists _, _, _. split; [reflexivity|]. split; [by eapply holds_open|exact Hspec].
    + rewrite (bind_run _ _ _ _ _ Ho). eexists _, _, _. split; [reflexivity|]. by split.
  - destruct Hc as (Hd & Hp). pose proof (Stub_Open_ok h files name Hh Hd) as Ho.
    destruct (files !! name) as [bytes|] eqn:Ef.
    + destruct Ho as (i & fd & Hi & Hb & Hfd & E). rewrite (bind_run _ _ _ _ _ E). cbv iota.
      rewrite (bind_run _ _ _ _ _ (StubFile_WriteAt_ok _ _ _ _ _ _ _ 0 from pos Hb Hp)). cbn [file].
      rewrite (bind_run _ _ _ _ _ (Close_fd _ _ _ _ _ _ _ (lookup_insert_eq _ _ _) Hfd)).
      eexists _, _, _. split; [reflexivity|]. split; [by apply holds_write|by apply stub_write].
    + rewrite (bind_run _ _ _ _ _ Ho). eexists _, _, _. split; [reflexivity|]. split; [done|by constructor].
Qed.

(** C24: the file system of the FILESYS_STUB build answers as a map from whole
    names to bytes: creation always succeeds and leaves an empty file, a write
    goes past the end of the file and fills the gap with zeros, reads return a
    slice and removal deletes; and a creation that UNIX refuses does not return
    false but stops the kernel. *)
Theorem Stub_refines_map h files cs : holds h files → Forall stub_ok cs →
  (∃ rs h' files', stub_calls cs h = Ok (rs, h') ∧ holds h' files' ∧ stub_trace files cs rs files') ∧
  ∀ name size, denied name = true → Stub_Create name size h = Err AssertFailed.
Proof.
  intros Hh Hcs. split.
  - revert h files Hh. induction Hcs as [|c cs Hc _ IH]; intros h files Hh; cbn [stub_calls].
    { eexists _, _, _. split; [reflexivity|]. split; [done|constructor]. }
    destruct (stub_simulates h files c Hh Hc) as (r & h1 & files1 & E1 & Hh1 & Hs1).
    destruct (IH h1 files1 Hh1) as (rs & h2 & files2 & E2 & Hh2 & Ht).
    exists (r :: rs), h2, files2. rewrite (bind_run _ _ _ _ _ E1), (bind_run _ _ _ _ _ E2).
    split; [done|]. split; [done|]. by econstructor.
  - intros name size Hd. unfold Stub_Create, OpenForWrite, unix_open, mbind, M_bind. by rewrite Hd.
Qed.

End Host.

(** ** The two file systems *)

(** They agree on removing and on reading, but [Create] of a name that exists is
    refused by one and empties the file in the other, and a write past the end is
    cut by one and extends the file in the other. *)
Lemma stub_differs (files : gmap (list Z) (list Z)) name bytes size r files' s files2 :
  files !! file_key name = Some bytes → files !! name = Some bytes →
  fs_spec files (CCreate name size) r files' → stub_spec files (CCreate name size) s files2 →
  r = RBool false ∧ files' = files ∧ s = RBool true ∧ files2 !! name = Some [].
Proof.
  intros Hk Hn H1 H2. inversion H1; inversion H2; subst; simplify_eq. split_and!; try done. apply lookup_insert_eq.
Qed.

Lemma overwrite_length off from bytes : from ≠ [] →
  length (overwrite off from bytes) = Nat.max (length bytes) (off + length from)%nat.
Proof.
  intros Hf. unfold overwrite. destruct from as [|x from]; [done|]. rewrite !length_app, length_take, length_drop, length_app, length_replicate.
  cbn [length]. lia.
Qed.

(** A file is made, written past its end, read and removed. *)
Definition stub_example : list fs_call :=
  [CCreate [97] 100; CWrite [97] [1; 2] 3; CRead [97] 10 2; CRemove [97]; CRead [97] 1 0].

Lemma Stub_refines_map_witness :
  (∃ rs h' files', stub_calls (λ _, false) stub_example (mkHost ∅ ∅ ∅) = Ok (rs, h') ∧ holds h' files' ∧
     stub_trace ∅ stub_example rs files') ∧
  ∀ name size, false = true → Stub_Create (λ _, false) name size (mkHost ∅ ∅ ∅) = Err AssertFailed.
Proof.
  apply (Stub_refines_map (λ _, false) (mkHost ∅ ∅ ∅) ∅ stub_example).
  - split; intros *; by rewrite ?lookup_empty.
  - by repeat constructor.
Defined.
