(* ===== verification/Flat.v ===== *)
(** * Flat: bin/coff2flat.c

    The host program that turns a MIPS COFF executable into a flat image of
    memory.  It has the two files and the ways of ending of coff2noff ([Tool] of
    Coff.v), but does not remove its output when it fails; the structures of the
    host's <filehdr.h>, <aouthdr.h> and <scnhdr.h> are those of bin/coff.h.

    The program writes the sections one behind the other and does not look at
    their addresses: the output is an image of memory exactly when the sections
    are in the order of their addresses, without gaps, from address 0. *)

From S2P Require Import Prelude Bitmap Machine Disk FileHdr AddrSpace Coff.

(** ** The program *)

Module Coff2flat.

(** In bytes. *)
Definition StackSize : Z := 1024.

Definition Read (nBytes : Z) : Tool (list Z) :=
  '(r, buf) ← read_in nBytes;
  if bool_decide (r ≠ nBytes) then exit_with FileTooShort else mret buf.

Definition Write (buf : list Z) (nBytes : Z) : Tool unit :=
  r ← write_out buf nBytes;
  if bool_decide (r ≠ nBytes) then exit_with UnableToWrite else mret tt.

(** [strcmp(s_name, ".bss") && strcmp(s_name, ".sbss")]. *)
Definition has_contents (s : scnhdr) : bool :=
  negb (strcmp_zero (s_name s) dot_bss) && negb (strcmp_zero (s_name s) dot_sbss).

(** One round of the loop over the sections. *)
Definition load_flat (s : scnhdr) (top : Z) : Tool Z :=
  let e := sint (s_paddr s + s_size s) in
  let top := if top <? e then e else top in
  (if has_contents s then
     lseek_in (s_scnptr s) ≫= λ _,
     buffer ← Read (s_size s);
     Write buffer (s_size s)
   else mret tt) ≫= λ _,
  mret top.

Fixpoint load_all (l : list scnhdr) (top : Z) : Tool Z :=
  match l with [] => mret top | s :: l => top ← load_flat s top; load_all l top end.

(** [main] from the first [ReadStruct] on. *)
Definition flatten : Tool unit :=
  b ← Read sizeof_filehdr;
  let fileh := filehdr_of b in
  if bool_decide (f_magic fileh ≠ MIPSELMAGIC) then exit_with NotMipsel
  else
    b ← Read sizeof_aouthdr;
    let systemh := aouthdr_of b in
    if bool_decide (magic systemh ≠ OMAGIC) then exit_with NotOmagic
    else
      b ← Read (f_nscns fileh * sizeof_scnhdr);
      let sections := sections_of (Z.to_nat (f_nscns fileh)) b in
      top ← load_all sections 0;
      lseek_out (sint (top + StackSize - 4)) ≫= λ _,
      Write [0; 0; 0; 0] 4.

(** As [main] of coff2noff, with the same second test of [fdIn]. *)
Definition main (argc : Z) (input : option (list Z)) (fd : bool) (old : option (list Z)) :
    (message + unit) * option (list Z) :=
  if bool_decide (argc < 2) then (inl Usage, old)
  else
    match input with
    | None => (inl CannotOpen, old)
    | Some c =>
        let r := flatten (mkTool c 0 fd (if fd then Some [] else old) 0) in
        (fst r, out_file (snd r))
    end.

End Coff2flat.
Import Coff2flat.

(** ** Executables *)

Definition carried (s : scnhdr) : Prop := has_contents s = true.
#[local] Instance carried_dec s : Decision (carried s).
Proof. unfold carried. apply _. Defined.

Definition flat_section (c : list Z) (s : scnhdr) : Prop :=
  0 ≤ s_paddr s ∧ 0 ≤ s_size s ∧ s_paddr s + s_size s + StackSize ≤ int_max ∧
  (carried s → 0 ≤ s_scnptr s ∧ s_scnptr s + s_size s ≤ Z.of_nat (length c)).

(** The COFF file [c] has the sections [l]. *)
Record flat_ok (c : list Z) (l : list scnhdr) : Prop := {
  fl_magic : f_magic (filehdr_of (host_read 0 20 c)) = MIPSELMAGIC;
  fl_nscns : f_nscns (filehdr_of (host_read 0 20 c)) = Z.of_nat (length l);
  fl_omagic : magic (aouthdr_of (host_read 20 56 c)) = OMAGIC;
  fl_headers : (76 + length l * 40 ≤ length c)%nat;
  fl_sections : sections_of (length l) (host_read 76 (length l * 40) c) = l;
  fl_each : Forall (flat_section c) l
}.

(** Where the highest section ends. *)
Fixpoint top_of (l : list scnhdr) (top : Z) : Z :=
  match l with [] => top | s :: l => top_of l (Z.max top (s_paddr s + s_size s)) end.

Lemma top_of_ge l top : top ≤ top_of l top.
Proof. revert top. induction l as [|s l IH]; intros top; cbn; [lia|]. specialize (IH (Z.max top (s_paddr s + s_size s))). lia. Qed.

Lemma top_of_in l s top : s ∈ l → s_paddr s + s_size s ≤ top_of l top.
Proof.
  revert top. induction l as [|x l IH]; intros top H; [by apply elem_of_nil in H|]. cbn [top_of]. apply elem_of_cons in H as [->|H]; [|by apply IH].
  etrans; [|apply top_of_ge]. lia.
Qed.

Lemma top_of_le l top b : top ≤ b → Forall (λ s, s_paddr s + s_size s ≤ b) l → top_of l top ≤ b.
Proof. intros Ht Hl. revert top Ht. induction Hl; intros top Ht; cbn; [done|]. apply IHHl. lia. Qed.

(** ** The run *)

Lemma Read_all n t : 0 ≤ n → 0 ≤ in_pos t → in_pos t + n ≤ Z.of_nat (length (in_file t)) →
  Read n t = (inr (host_read (Z.to_nat (in_pos t)) (Z.to_nat n) (in_file t)),
              mkTool (in_file t) (in_pos t + n) (out_open t) (out_file t) (out_pos t)).
Proof.
  intros Hn Hp Hl. unfold Read. rewrite (Tool_run _ _ _ _ _ (read_in_ok n t Hn Hp Hl)).
  by rewrite bool_decide_eq_false_2 by auto.
Qed.

Lemma Write_all bs t f : out_open t = true → out_file t = Some f →
  Write bs (Z.of_nat (length bs)) t =
    (inr tt, mkTool (in_file t) (in_pos t) true (Some (host_write (Z.to_nat (out_pos t)) bs f))
               (out_pos t + Z.of_nat (length bs))).
Proof.
  intros Ho Hf. unfold Write. rewrite (Tool_run _ _ _ _ _ (write_out_ok bs t f Ho Hf)).
  by rewrite bool_decide_eq_false_2 by auto.
Qed.

(** The output so far. *)
Definition written (c data : list Z) (t : tool) : Prop :=
  in_file t = c ∧ out_open t = true ∧ out_file t = Some data ∧ out_pos t = Z.of_nat (length data).

Lemma load_flat_ok c s top data t : flat_section c s → 0 ≤ top → written c data t →
  ∃ t', load_flat s top t = (inr (Z.max top (s_paddr s + s_size s)), t') ∧
    written c (data ++ contents c (filter carried [s])) t'.
Proof.
  intros (Hp & Hs & Hm & Hc) Ht (Hi & Ho & Hf & Hq). unfold load_flat.
  rewrite sint_id by (unfold is_int, int_min, StackSize in *; lia).
  replace (if top <? s_paddr s + s_size s then s_paddr s + s_size s else top) with (Z.max top (s_paddr s + s_size s))
    by (destruct (Z.ltb_spec top (s_paddr s + s_size s)); lia).
  destruct (has_contents s) eqn:E.
  2: { eexists. split; [reflexivity|]. rewrite filter_cons_False by (unfold carried; by rewrite E). cbn. by rewrite app_nil_r. }
  destruct (Hc E) as [H0 Hl]. rewrite filter_cons_True, filter_nil by done.
  assert (E1 : lseek_in (s_scnptr s) t = (inr tt, mkTool (in_file t) (s_scnptr s) (out_open t) (out_file t) (out_pos t))).
  { unfold lseek_in. by destruct (Z.ltb_spec (s_scnptr s) 0); [lia|]. }
  assert (E2 : (lseek_in (s_scnptr s) ≫= λ _, buffer ← Read (s_size s); Write buffer (s_size s)) t =
    (inr tt, mkTool c (s_scnptr s + s_size s) true (Some (data ++ sec_bytes c s))
               (Z.of_nat (length data) + s_size s))).
  { rewrite (Tool_run _ _ _ _ _ E1). erewrite Tool_run by (apply Read_all; cbn; subst; lia).
    cbn [in_file in_pos out_open out_file out_pos]. rewrite Hi. fold (sec_bytes c s).
    rewrite <- (sec_bytes_length c s H0 Hs Hl) at 1. erewrite Write_all; [|done|exact Hf].
    cbn [in_file in_pos out_open out_file out_pos]. rewrite Hq, Nat2Z.id, host_write_end, (sec_bytes_length c s H0 Hs Hl). done. }
  eexists. split; [by rewrite (Tool_run _ _ _ _ _ E2)|]. unfold contents. cbn. rewrite app_nil_r.
  split_and!; try done. cbn. rewrite length_app, Nat2Z.inj_add, (sec_bytes_length c s H0 Hs Hl). done.
Qed.

Lemma contents_app c l l' : contents c (l ++ l') = contents c l ++ contents c l'.
Proof. unfold contents. by rewrite fmap_app, concat_app. Qed.

Lemma load_all_ok c l : Forall (flat_section c) l → ∀ top data t, 0 ≤ top → written c data t →
  ∃ t', load_all l top t = (inr (top_of l top), t') ∧ written c (data ++ contents c (filter carried l)) t'.
Proof.
  induction 1 as [|s l Hs _ IH]; intros top data t Ht Hw; cbn [load_all].
  { exists t. split; [done|]. cbn. by rewrite app_nil_r. }
  destruct (load_flat_ok c s top data t Hs Ht Hw) as (t1 & E1 & Hw1). rewrite (Tool_run _ _ _ _ _ E1).
  destruct (IH (Z.max top (s_paddr s + s_size s)) _ t1 ltac:(lia) Hw1) as (t2 & E2 & Hw2).
  exists t2. split; [exact E2|]. rewrite <- app_assoc, <- contents_app, <- filter_app in Hw2. exact Hw2.
Qed.

Lemma flatten_ok c l : flat_ok c l → ∃ t', flatten (mkTool c 0 true (Some []) 0) = (inr tt, t') ∧
  out_file t' = Some (host_write (Z.to_nat (top_of l 0 + StackSize - 4)) [0; 0; 0; 0] (contents c (filter carried l))).
Proof.
  intros [Hm Hn Ho Hh Hsec Hok]. unfold flatten.
  erewrite Tool_run by (apply Read_all; cbn [in_file in_pos]; unfold sizeof_filehdr; lia).
  cbv zeta. cbn [in_pos in_file out_open out_file out_pos].
  change (Z.to_nat 0) with 0%nat. change (Z.to_nat sizeof_filehdr) with 20%nat.
  rewrite bool_decide_eq_false_2 by (rewrite Hm; auto). rewrite Hn.
  erewrite Tool_run by (apply Read_all; cbn [in_file in_pos]; unfold sizeof_filehdr, sizeof_aouthdr; lia).
  cbv zeta. cbn [in_pos in_file out_open out_file out_pos].
  change (Z.to_nat (0 + sizeof_filehdr)) with 20%nat. change (Z.to_nat sizeof_aouthdr) with 56%nat.
  rewrite bool_decide_eq_false_2 by (rewrite Ho; auto).
  erewrite Tool_run by (apply Read_all; cbn [in_file in_pos]; unfold sizeof_scnhdr, sizeof_filehdr, sizeof_aouthdr; lia).
  cbv zeta. cbn [in_pos in_file out_open out_file out_pos].
  change (Z.to_nat (0 + sizeof_filehdr + sizeof_aouthdr)) with 76%nat. rewrite Nat2Z.id.
  replace (Z.to_nat (Z.of_nat (length l) * sizeof_scnhdr)) with (length l * 40)%nat by (unfold sizeof_scnhdr; lia).
  rewrite Hsec.
  set (t0 := mkTool c (0 + sizeof_filehdr + sizeof_aouthdr + Z.of_nat (length l) * sizeof_scnhdr) true (Some []) 0).
  destruct (load_all_ok c l Hok 0 [] t0) as (t1 & E1 & Hi & Hop & Hf & Hq); [done|done|].
  rewrite (Tool_run _ _ _ _ _ E1). cbn [app] in Hf.
  assert (Hle : top_of l 0 ≤ int_max - StackSize).
  { apply top_of_le; [done|]. eapply Forall_impl; [exact Hok|]. intros s (_ & _ & ? & _). lia. }
  pose proof (top_of_ge l 0) as Hge.
  rewrite sint_id by (unfold is_int, int_min, StackSize in *; lia).
  assert (E2 : lseek_out (top_of l 0 + StackSize - 4) t1 =
    (inr tt, mkTool (in_file t1) (in_pos t1) (out_open t1) (out_file t1) (top_of l 0 + StackSize - 4))).
  { unfold lseek_out. rewrite Hop. by destruct (Z.ltb_spec (top_of l 0 + StackSize - 4) 0); [unfold StackSize in *; lia|]. }
  rewrite (Tool_run _ _ _ _ _ E2).
  change 4 with (Z.of_nat (length [0; 0; 0; 0])) at 2. erewrite Write_all; [|done|exact Hf]. by eexists.
Qed.

(** An executable is converted: the output is the contents of its sections in the
    order of the table, without those of .bss and .sbss, and a zero word at the
    end of the stack, 1024 bytes behind the highest section. *)
Theorem coff2flat_converts argc c l old : 2 ≤ argc → flat_ok c l →
  main argc (Some c) true old =
    (inr tt, Some (host_write (Z.to_nat (top_of l 0 + StackSize - 4)) [0; 0; 0; 0] (contents c (filter carried l)))).
Proof.
  intros Ha Hc. destruct (flatten_ok c l Hc) as (t & E & Hf). unfold main.
  rewrite bool_decide_eq_false_2 by lia. cbv zeta. rewrite E. cbn. by rewrite Hf.
Qed.

(** ** Images *)

(** The sections with contents follow each other from address [a] on. *)
Fixpoint packed (a : Z) (l : list scnhdr) : Prop :=
  match l with
  | [] => True
  | s :: l => if has_contents s then s_paddr s = a ∧ packed (a + s_size s) l else packed a l
  end.

Lemma packed_contents c l : Forall (flat_section c) l → ∀ top a, packed a l →
  Z.of_nat (length (contents c (filter carried l))) = 0 ∨
  a + Z.of_nat (length (contents c (filter carried l))) ≤ top_of l top.
Proof.
  induction 1 as [|s l Hs Hl IH]; intros top a Hp; [by left|]. cbn [packed top_of] in *.
  destruct Hs as (H0 & H1 & H2 & H3). destruct (has_contents s) eqn:E.
  - rewrite filter_cons_True by done. destruct Hp as [Ha Hp]. destruct (H3 E) as [H4 H5].
    change (s :: filter carried l) with ([s] ++ filter carried l). rewrite contents_app, length_app, Nat2Z.inj_add.
    unfold contents at 1 3. cbn. rewrite app_nil_r, (sec_bytes_length c s) by done.
    pose proof (top_of_ge l (Z.max top (s_paddr s + s_size s))). right.
    destruct (IH (Z.max top (s_paddr s + s_size s)) (a + s_size s) Hp); lia.
  - rewrite filter_cons_False by (unfold carried; by rewrite E). by apply IH.
Qed.

Lemma packed_section c l s : Forall (flat_section c) l → ∀ a pre, 0 ≤ a → packed a l → s ∈ l → carried s →
  length pre = Z.to_nat a →
  host_read (Z.to_nat (s_paddr s)) (Z.to_nat (s_size s)) (pre ++ contents c (filter carried l)) = sec_bytes c s.
Proof.
  induction 1 as [|x l Hx Hl IH]; intros a pre Ha Hp Hs Hc Hpre; [by apply elem_of_nil in Hs|]. cbn [packed] in Hp.
  destruct Hx as (H0 & H1 & H2 & H3). destruct (has_contents x) eqn:E.
  - rewrite filter_cons_True by done. destruct Hp as [Hxa Hp]. destruct (H3 E) as [H4 H5].
    change (x :: filter carried l) with ([x] ++ filter carried l). rewrite contents_app.
    unfold contents at 1. cbn. rewrite app_nil_r. pose proof (sec_bytes_length c x H4 H1 H5) as Hlen.
    apply elem_of_cons in Hs as [->|Hs].
    + unfold host_read. rewrite Hxa, drop_app_length' by done. apply take_app_length'. lia.
    + rewrite app_assoc. apply (IH (a + s_size x)); try done; [lia|]. rewrite length_app. lia.
  - rewrite filter_cons_False by (unfold carried; by rewrite E).
    apply elem_of_cons in Hs as [->|Hs]; [unfold carried in Hc; congruence|]. by apply (IH a).
Qed.

(** If the sections are packed from address 0, the output is the memory that the
    program is to find: every section is at its address, and all else up to the
    end of the stack is 0. *)
Theorem coff2flat_image argc c l old : 2 ≤ argc → flat_ok c l → packed 0 l →
  ∃ out, main argc (Some c) true old = (inr tt, Some out) ∧
    Z.of_nat (length out) = top_of l 0 + StackSize ∧
    (∀ s, s ∈ l → has_contents s = true →
       host_read (Z.to_nat (s_paddr s)) (Z.to_nat (s_size s)) out = sec_bytes c s) ∧
    (∀ i, (length (contents c (filter carried l)) ≤ i < length out)%nat → out !! i = Some 0).
Proof.
  intros Ha Hc Hp. rewrite (coff2flat_converts argc c l old Ha Hc). pose proof (fl_each c l Hc) as He.
  set (body := contents c (filter carried l)). pose proof (top_of_ge l 0) as Hge.
  assert (Hb : Z.of_nat (length body) ≤ top_of l 0) by (destruct (packed_contents c l He 0 0 Hp); unfold body; lia).
  set (n := Z.to_nat (top_of l 0 + StackSize - 4)). assert (Hn : (length body ≤ n)%nat) by (unfold n, StackSize; lia).
  assert (Hout : host_write n [0; 0; 0; 0] body = body ++ replicate (n + 4 - length body) 0).
  { unfold host_write. rewrite take_ge, drop_ge by (cbn; lia). rewrite app_nil_r.
    change [0; 0; 0; 0] with (replicate 4 0). rewrite <- replicate_add. do 2 f_equal. lia. }
  exists (body ++ replicate (n + 4 - length body) 0). rewrite Hout. split; [done|].
  split_and!.
  - rewrite length_app, length_replicate. unfold n, StackSize in *. lia.
  - intros s Hs Hcs. rewrite <- (packed_section c l s He 0 [] ltac:(lia) Hp Hs Hcs) by done.
    cbn [app]. fold body. rewrite Forall_forall in He. destruct (He s Hs) as (H0 & H1 & H2 & H3). destruct (H3 Hcs) as [H4 H5].
    pose proof (packed_section c l s ltac:(by apply Forall_forall) 0 [] ltac:(lia) Hp Hs Hcs eq_refl) as Hsec. cbn [app] in Hsec. fold body in Hsec.
    pose proof (sec_bytes_length c s H4 H1 H5) as Hlen. rewrite <- Hsec in Hlen. unfold host_read in *.
    rewrite length_take, length_drop in Hlen.
    destruct (decide (s_size s = 0)) as [Hz|Hz]; [by rewrite Hz|].
    rewrite drop_app_le by lia. rewrite take_app_le; [done|rewrite length_drop; lia].
  - intros i Hi. rewrite lookup_app_r by lia. apply lookup_replicate_2. rewrite length_app, length_replicate in Hi. lia.
Qed.

(** With a gap before the data, as a linker that aligns sections leaves it, the
    data are not where the program looks for them. *)
Module Gap.
Definition file : list Z :=
  le_bytes 2 MIPSELMAGIC ++ le_bytes 2 2 ++ words_bytes [0; 0; 0; 0] ++
  le_bytes 2 OMAGIC ++ replicate 54 0 ++
  Sample.scn_bytes dot_text 0 4 156 ++ Sample.scn_bytes dot_data 8 4 160 ++ [1; 2; 3; 4; 21; 22; 23; 24].

Lemma misplaced : match Coff2flat.main 3 (Some file) true None with
  | (inr _, Some out) => host_read 4 4 out = [21; 22; 23; 24] ∧ host_read 8 4 out = [0; 0; 0; 0]
  | _ => False
  end.
Proof. vm_compute. split; reflexivity. Qed.
End Gap.
