(* ===== verification/ThreadTest.v ===== *)
(** * ThreadTest: the tests of threads/threadtest.cc

    [Test], which [main] calls in the builds with THREADS, on the thread machine
    of Synch.v.  A procedure of a test is the list of the calls it makes, and each
    thread has the calls it has yet to make beside its stack.  The kernel has no
    devices and no timer here, so that one thread runs until it gives up the
    processor, and when no thread is ready [Idle] of Interrupt.v finds nothing
    pending and halts the machine.

    Unlike the clients of Synch.v these take and release a lock in separate calls,
    and a thread may end with a lock that it has not released. *)

From S2P Require Import Prelude Interrupt Scheduler Synch.
From stdpp Require Import pretty strings.
#[local] Open Scope Z_scope.

(** ** The procedures *)

(** The functions that are forked, with their argument where it is used. *)
Inductive proc := SimpleThread (name : string) | Test_1 | Test_2 | Caso1 | Caso2 | lock1 | lock2.

Inductive op :=
  | Printf (s : string)
  | YieldOp
  | ForkOp (f : proc) (j p : Z)
  | SemP | SemV
  | LockAcquire | LockRelease
  | PortSend (n : Z) | PortReceive
  | StoreTo (i : option nat) (k : Z)
  | FinishOp.

Definition nl : string := String (Ascii.ascii_of_nat 10) EmptyString.

Definition looped (name : string) (num : nat) : string :=
  "*** thread " +:+ name +:+ " looped " +:+ pretty num +:+ " times" +:+ nl.
Definition finished (name : string) : string := ">>> Thread " +:+ name +:+ " has finished" +:+ nl.
Definition hilo (k : nat) : string := "Hilo " +:+ pretty k.

Definition SimpleThread_ops (name : string) : list op :=
  (seq 0%nat 10%nat ≫= λ num, [Printf (looped name num); YieldOp]) ++ [Printf (finished name)].

Definition ThreadTest : list op :=
  ((λ k, ForkOp (SimpleThread (hilo k)) 1 2) <$> seq 1%nat 10%nat) ++ SimpleThread_ops "Hilo 0".

Definition Productor (n : Z) : list op := [PortSend n].
Definition Consumidor : list op := [PortReceive].

(** [int *i] is not initialised. *)
Definition PuertoTest : list op :=
  (seqZ 0 3 ≫= λ k, [StoreTo None k; ForkOp Test_1 1 1]) ++
  [ForkOp Test_1 1 2] ++
  (seqZ 0 4 ≫= λ k, [StoreTo None k; ForkOp Test_2 1 1]).

Definition JoinTest : list op := [ForkOp Caso1 1 0; ForkOp Caso2 1 2].

Definition Priotest : list op := [ForkOp lock1 1 1; ForkOp lock2 1 1].

(** The body of a function. *)
Definition code_of (f : proc) : list op :=
  match f with
  | SimpleThread name => SimpleThread_ops name
  | Test_1 => Productor 2
  | Test_2 => Consumidor
  | Caso1 => [SemV]
  | Caso2 => [SemP]
  | lock1 => [LockAcquire; YieldOp; LockRelease]
  | lock2 => [ForkOp lock1 1 1; LockAcquire; ForkOp lock1 1 2; ForkOp lock1 1 1]
  end.

Definition menu : list op :=
  [Printf ("Test: t --> Thread" +:+ nl); Printf ("Test: p --> Puerto" +:+ nl); Printf ("Test: j --> Join" +:+ nl);
   Printf "Ingrese test a realizar : "].

(** [test] is what [getchar()] returns. *)
Definition Test (test : Z) : list op :=
  menu ++
  (if test =? 116 then ThreadTest
   else if test =? 112 then PuertoTest
   else if test =? 106 then JoinTest
   else Priotest).

(** ** Running them *)

(** The kernel; what each thread has left to call; what was printed; and the
    address of the next thread. *)
Record tests := mkTests { t_kernel : kernel; t_code : gmap Z (list op); t_out : list string; t_next : Z }.

Definition on_kernel {A} (m : M kernel A) : M tests A := λ s,
  match m (t_kernel s) with Ok (a, k) => Ok (a, mkTests k (t_code s) (t_out s) (t_next s)) | Err f => Err f end.
Definition put_code (t : Z) (c : list op) : M tests unit :=
  modify (λ s, mkTests (t_kernel s) (<[t := c]> (t_code s)) (t_out s) (t_next s)).
Definition say (l : string) : M tests unit :=
  modify (λ s, mkTests (t_kernel s) (t_code s) (t_out s ++ [l]) (t_next s)).

(** The static objects [semap], [lock] and [puerto]. *)
Definition semap : sem_id := SUser 0.
Definition test_lock : lock_id := LUser 0.
Definition puerto : Z := -1.

Section Run.
(** What the memory of a new thread and of a new port has in it. *)
Context (junk : list Z) (junk1 junk2 : Z).

(** A call by the thread [t]. *)
Definition exec_op (t : Z) (o : op) : M tests unit :=
  match o with
  | Printf s => say s
  | YieldOp =>
      oldLevel ← on_kernel (gets (λ k, s_level (k_sched k)));
      b ← on_kernel (on_sched (Yield t));
      if b : bool then on_kernel (push t [FYield oldLevel]) else mret tt
  | ForkOp f j p =>
      s ← get;
      let new := t_next s in
      modify (λ s, mkTests (t_kernel s) (<[new := code_of f]> (t_code s)) (t_out s) (new + 1)) ≫= λ _,
      on_kernel (Thread_new new junk ≫= λ _, Thread_Fork new j p junk1 junk2)
  | SemP => on_kernel (gs ← Semaphore_P semap; push t gs)
  | SemV => on_kernel (Semaphore_V semap)
  | LockAcquire => on_kernel (gs ← Lock_Acquire test_lock; push t gs)
  | LockRelease => on_kernel (Lock_Release test_lock)
  | PortSend n => on_kernel (gs ← Puerto_Send puerto n; push t gs)
  | PortReceive => on_kernel (gs ← Puerto_Receive puerto; push t gs)
  | StoreTo i _ => match i with Some _ => mret tt | None => fail BadPointer end
  | FinishOp => on_kernel (gs ← Thread_Finish; push t gs)
  end.

(** The current thread makes its next call or goes on with one; false when the
    machine halts. *)
Definition test_step : M tests bool :=
  s ← get;
  let t := currentThread (k_sched (t_kernel s)) in
  fs ← on_kernel (stack_at t);
  match fs, t_code s !! t with
  | FUser :: _, Some (o :: rest) => put_code t rest ≫= λ _, exec_op t o ≫= λ _, mret true
  | FSleep :: _, _ =>
      on_kernel (step Resume) ≫= λ _,
      s' ← get;
      fs' ← on_kernel (stack_at (currentThread (k_sched (t_kernel s'))));
      mret (negb (idling fs'))
  | _, _ => on_kernel (step Resume) ≫= λ _, mret true
  end.

Fixpoint test_run (fuel : nat) : M tests unit :=
  match fuel with
  | O => fail OutOfFuel
  | S fuel => more ← test_step; if more : bool then test_run fuel else mret tt
  end.

(** The kernel with the static objects, and [main] without arguments: the test
    and [currentThread->Finish()]. *)
Definition static_objects : M kernel unit :=
  new_Puerto puerto junk1 junk2 ≫= λ _, new_Semaphore semap 1 ≫= λ _, new_Lock test_lock junk1.

Definition run_Test (fuel : nat) (regs : list Z) (test : Z) : res tests :=
  '(_, k) ← static_objects (boot regs junk);
  '(_, s) ← test_run fuel (mkTests k {[ 0 := Test test ++ [FinishOp] ]} [] 1);
  mret s.

End Run.

(** ** What the tests do *)

(** More steps than any of the tests makes. *)
Definition enough : nat := 2000.

(** What is looked at in the end: the lines printed; the threads that are left,
    each with its status and what it has yet to do; the ready queues; and the two
    objects. *)
Definition left_over (k : kernel) : list (Z * ThreadStatus * list frame) :=
  (λ p : Z * Thread, (p.1, th_status p.2, default [] (conts k !! p.1))) <$> map_to_list (threads (k_sched k)).
Definition observed (s : tests) : list string * list (Z * ThreadStatus * list frame) * list Z *
    option Semaphore * option Semaphore * option (option Z) :=
  let k := t_kernel s in
  (t_out s, left_over k, concat (readyListP (k_sched k)), sems k !! semap, sems k !! SLock test_lock,
   thname <$> locks k !! test_lock).

(** The first thread runs first, up to its first [Yield]; the others, which have a
    higher priority, take turns until they have finished; then the first goes on. *)
Definition expected_lines : list string :=
  [looped "Hilo 0" 0] ++
  (seq 0%nat 10%nat ≫= λ num, (λ k, looped (hilo k) num) <$> seq 1%nat 10%nat) ++
  ((λ k, finished (hilo k)) <$> seq 1%nat 10%nat) ++
  (looped "Hilo 0" <$> seq 1%nat 9%nat) ++ [finished "Hilo 0"].

Definition menu_lines : list string :=
  ["Test: t --> Thread" +:+ nl; "Test: p --> Puerto" +:+ nl; "Test: j --> Join" +:+ nl; "Ingrese test a realizar : "].

Definition free_sem : option Semaphore := Some (mkSemaphore 1 []).

Lemma observed_Ok {X} (r : res tests) (obs : tests → X) x :
  (s ← r; mret (obs s)) = Ok x → ∃ s, r = Ok s ∧ obs s = x.
Proof. destruct r as [s|]; [|done]. intros [= <-]. by exists s. Qed.

Section Outcomes.
Context (regs junk : list Z) (junk1 junk2 : Z).
#[local] Abbreviation outcome test := (run_Test junk junk1 junk2 enough regs test).

Lemma ThreadTest_prints : ∃ s, outcome 116 = Ok s ∧
  observed s = (menu_lines ++ expected_lines, [(0, BLOCKED, [FSleep; FUser])], [], free_sem, free_sem, Some None).
Proof. apply observed_Ok. vm_compute. reflexivity. Qed.

(** The semaphore starts at 1, so that [P], which runs first, does not wait. *)
Lemma JoinTest_ends : ∃ s, outcome 106 = Ok s ∧
  observed s = (menu_lines, [(2, BLOCKED, []); (1, BLOCKED, [FSleep]); (0, BLOCKED, [FUser])], [], free_sem, free_sem,
    Some None).
Proof. apply observed_Ok. vm_compute. reflexivity. Qed.

Lemma PuertoTest_faults : outcome 112 = Err BadPointer.
Proof. vm_compute. reflexivity. Qed.

(** [lock2] ends with the lock.  The thread of priority 2 that then asks for it
    raises the priority of the thread that is gone, and [ChangeQueuePriority] drops
    the thread at the head of the queue. *)
Lemma Priotest_ends test : test ∉ [116; 112; 106] → ∃ s, outcome test = Ok s ∧
  observed s = (menu_lines,
    [(5, READY, [FEnable; FUser; FFinish]);
     (4, BLOCKED, [FSleep; FP (SLock test_lock) IntOn; FAcquire_end test_lock; FUser; FFinish]);
     (2, BLOCKED, [])], [], free_sem, Some (mkSemaphore 0 [4]), Some (Some 2)).
Proof.
  rewrite !not_elem_of_cons. intros (H1 & H2 & H3 & _).
  assert (E : Test test = menu ++ Priotest).
  { unfold Test. by rewrite (proj2 (Z.eqb_neq _ _) H1), (proj2 (Z.eqb_neq _ _) H2), (proj2 (Z.eqb_neq _ _) H3). }
  unfold run_Test. rewrite E. apply observed_Ok. vm_compute. reflexivity.
Qed.

End Outcomes.
