(* ===== verification/NetTest.v ===== *)
(** * NetTest: the test of the network, network/nettest.cc

    [MailTest] sends a message to another machine, waits for one from it,
    acknowledges that and waits for the acknowledgement of its own; the other
    machine does the same.  It runs on the post office of PostOffice.v, whose
    worker is another thread of the kernel.

    [MailTest] is the sequence of calls of the source, and only those: nothing in it
    makes the worker run.  With an empty box [Receive] spins
    ([Post.PostOffice_falls_short]), so that whether the test ends depends on the
    time slices of [-rs]; nettest.cc itself says that it needs correct condition
    variables.  The theorem is about the part that does not depend on them: the mail
    is in the boxes when [Receive] looks. *)

From S2P Require Import Prelude LinkedList Interrupt OneThread Polled Directory Startup PostOffice.
Import Post.

(** ** The test *)

(** The strings with their NUL. *)
Definition hello : list Z := flag "Hello there!" ++ [0].
Definition ack : list Z := flag "Got it!" ++ [0].

(** A line: the text, the machine and the box it came from. *)
Record got := mkGot { g_text : list Z; g_machine : Z; g_box : Z }.

(** [printf("%s")] stops at a NUL. *)
Definition got_of (buffer : list Z) (x : Mail) : got := mkGot (until_nul buffer) (p_from (pktHdr x)) (m_from (mailHdr x)).

Section Run.
(** The draws of [Random], fresh memory, and what the headers on the stack have. *)
Context (Random junk : nat → Z) (junkPkt : PacketHeader).

(** Up to [interrupt->Halt()]; [fuel] bounds the rounds of [Receive] on an empty box. *)
Definition MailTest_talk (fuel : nat) (farAddr : Z) (buffer : list Z) : M K (list got) :=
  let outPktHdr := mkPkt farAddr (p_from junkPkt) (p_length junkPkt) in
  let outMailHdr := mkMailHdr 0 1 (Z.of_nat (length hello)) in
  Send Random junk outPktHdr outMailHdr hello ≫= λ _,
  x ← Receive fuel 0;
  let buffer := over (data x) buffer in
  let line1 := got_of buffer x in
  let outPktHdr := mkPkt (p_from (pktHdr x)) (p_from outPktHdr) (p_length outPktHdr) in
  let outMailHdr := mkMailHdr (m_from (mailHdr x)) (m_from outMailHdr) (Z.of_nat (length ack)) in
  Send Random junk outPktHdr outMailHdr ack ≫= λ _,
  x ← Receive fuel 1;
  let buffer := over (data x) buffer in
  mret [line1; got_of buffer x].

Definition MailTest (fuel : nat) (farAddr : Z) (buffer : list Z) : M K unit :=
  MailTest_talk fuel farAddr buffer ≫= λ _, Halt.

End Run.

(** ** What the machines send each other *)

(** The mail of the machine [a] for the machine [b], and a datagram with it. *)
Definition hello_from (a b : Z) (d : list Z) : Prop := carries d (mkPkt b a 25) (mkMailHdr 0 1 13) hello.
Definition ack_from (a b : Z) (d : list Z) : Prop := carries d (mkPkt b a 20) (mkMailHdr 1 1 8) ack.
Definition hello_mail (a b : Z) : Mail := mkMail (mkPkt b a 25) (mkMailHdr 0 1 13) hello.
Definition ack_mail (a b : Z) : Mail := mkMail (mkPkt b a 20) (mkMailHdr 1 1 8) ack.

(** [Send], when the network does not lose the datagram. *)
Lemma Send_gets Random junk k f ds p m bytes : rest k f ds → mail_ok m → is_int (p_to p) → is_int (o_addr f) →
  0 ≤ m_to m < Z.of_nat (length (o_boxes f)) → m_length m = Z.of_nat (length bytes) →
  lost Random (o_chance f) (o_draws f) = false →
  ∃ k' d, Send Random junk p m bytes k = Ok (tt, k') ∧ rest k' (sent [(p_to p, d)] f) ds ∧
    carries d (mkPkt (p_to p) (o_addr f) (m_length m + 12)) m bytes.
Proof.
  intros Hk Hm Hp Ha Hto Hlen Hl.
  destruct (Send_carries Random junk k f ds p m bytes Hk Hm Hp Ha Hto) as (k' & o & E & Hk' & Ho); [lia|].
  rewrite Hl in Ho. destruct Ho as (d & -> & Hc). rewrite Hlen, Nat2Z.id, firstn_all in Hc.
  exists k', d. split; [done|]. split; [done|]. by rewrite Hlen.
Qed.

(** The message is text up to its NUL, whatever was in the buffer. *)
Lemma until_nul_text s rest : 0 ∉ s → until_nul (s ++ 0 :: rest) = s.
Proof.
  induction s as [|x s IH]; intros H; [done|]. apply not_elem_of_cons in H as [H1 H2]. cbn.
  destruct (Z.eqb_spec x 0); [by destruct H1|]. by rewrite IH.
Qed.

(** When a message and an acknowledgement of the machine [far] are in the boxes and the
    network drops nothing, [MailTest] prints both with the machine and the box they
    are from and halts, and what it has sent to [far] is a message and an
    acknowledgement of the same kind: what [MailTest] there waits for. *)
Theorem MailTest_completes (Random junk : nat → Z) junkPkt k f ds far ms0 ms1 fuel buffer :
  rest k f ds → o_boxes f !! 0%nat = Some (hello_mail far (o_addr f) :: ms0) →
  o_boxes f !! 1%nat = Some (ack_mail far (o_addr f) :: ms1) → is_int far → is_int (o_addr f) →
  lost Random (o_chance f) (o_draws f) = false → lost Random (o_chance f) (S (o_draws f)) = false →
  ∃ k' e1 e2,
    MailTest_talk Random junk junkPkt (S fuel) far buffer k =
      Ok ([mkGot (flag "Hello there!") far 1; mkGot (flag "Got it!") far 1], k') ∧
    rest k' (set_o_boxes (<[1%nat := ms1]> (<[0%nat := ms0]> (o_boxes f))) (sent [(far, e2)] (sent [(far, e1)] f))) ds ∧
    hello_from (o_addr f) far e1 ∧ ack_from (o_addr f) far e2 ∧
    MailTest Random junk junkPkt (S fuel) far buffer k = Err Halted.
Proof.
  intros Hk Hb0 Hb1 Hfar Ha Hl1 Hl2. pose proof (lookup_lt_Some _ _ _ Hb1) as Hlt.
  destruct (Send_gets Random junk k f ds (mkPkt far (p_from junkPkt) (p_length junkPkt)) (mkMailHdr 0 1 13) hello Hk)
    as (k1 & e1 & E1 & Hk1 & He1); [split_and!; done|done|done|cbn; lia|done|done|]. cbn [p_to] in Hk1, He1.
  destruct (Receive_ok fuel k1 _ ds 0 _ ms0 Hk1 Hb0) as (k2 & E2 & Hk2).
  destruct (Send_gets Random junk k2 _ ds (mkPkt far (p_from junkPkt) (p_length junkPkt)) (mkMailHdr 1 1 8) ack Hk2)
    as (k3 & e2 & E3 & Hk3 & He2); [split_and!; done|done|done|cbn; rewrite length_insert; lia|done|done|].
  cbn [p_to] in Hk3, He2.
  destruct (Receive_ok fuel k3 _ ds 1 (ack_mail far (o_addr f)) ms1 Hk3) as (k4 & E4 & Hk4).
  { cbn. by rewrite list_lookup_insert_ne. }
  assert (E : MailTest_talk Random junk junkPkt (S fuel) far buffer k =
    Ok ([mkGot (flag "Hello there!") far 1; mkGot (flag "Got it!") far 1], k4)).
  { unfold MailTest_talk. rewrite (bind_run _ _ _ _ _ E1), (bind_run _ _ _ _ _ E2).
    cbv beta zeta. cbn [hello_mail pktHdr mailHdr data p_from m_from p_length].
    rewrite (bind_run _ _ _ _ _ E3), (bind_run _ _ _ _ _ E4).
    cbv beta zeta. unfold got_of, over, hello, ack. cbn [ack_mail pktHdr mailHdr data p_from m_from].
    unfold ack. rewrite <- !app_assoc. cbn [app]. rewrite !until_nul_text by (vm_compute; set_solver). done. }
  exists k4, e1, e2. split_and!; [exact E|exact Hk4|exact He1|exact He2|].
  unfold MailTest. by rewrite (bind_run _ _ _ _ _ E).
Qed.
